(* ===== verification/_CoqProject ===== *)
-Q . S2P
Prelude.v
Text.v
Floats.v
External.v
Bytecode.v
BytecodeWire.v
BytecodeCheck.v
BytecodeFacts.v
Crypto.v
Diff.v
Manifest.v
World.v
State.v
StateFacts.v
StateProperties.v
StateProgress.v
Linker.v
BuildInfo.v
Config.v
Flights.v
Net.v
ServerApi.v
Runtime.v
RuntimeProperties.v
Delivery.v
Resilience.v
RollbackFacts.v
SingleFlight.v
Shell.v
AotEntryPoints.v
Auto.v
AutoFacts.v
BuildFacts.v
Inspect.v
Cli.v
Pipeline.v
PatchFacts.v
EndToEnd.v
PublishFacts.v
TrustFacts.v
ReleaseFacts.v
Chain.v
CheckFacts.v
InitFacts.v
ProjectFacts.v
MainFacts.v
