(* ===== verification/Prelude.v ===== *)
(** * Flutter CodePush Box: verification development

    fl_codepush_box delivers patches to Flutter apps: the command line [fcb]
    builds, signs and uploads a patch, a server stores it, and the updater on the
    device downloads, checks, installs and launches it, and rolls it back when the
    app does not start.  This library models the Rust part of the repository (the
    crate [fcb_core], the updater and the command line) as executable Rocq
    definitions and proves what each part promises.

    ** The parts

    Shared ground
    - [Prelude]: [result] (Rust's [Result] with panics as a third outcome), machine
      integers as bounded [N] with their checked, saturating and wrapping
      arithmetic, lists indexed by [N], ordered iteration of maps and sets, the
      hint database [fcb].
    - [Text], [Floats]: the [str] and [f64] operations the program uses.
    - [External]: serde_json, sha2, hex, base64, ed25519-dalek, bsdiff and zstd as
      operation classes and law classes; small instances for the witnesses.
    - [World]: files, directories, clock, process id and [TEMP_COUNTER], with the
      monad [IO].  [Flights] holds what update checks ask and answer; [Net] adds the
      server, the sleeps, the cancel flag and the flights of [CHECK_FLIGHTS]
      ([Act]); [Shell] adds environment variables, programs and the console ([Cli]), and
      the classes [Quiet], [Runs], [Writes], [Names] and [Draws] of relations
      between shells that computations respect.

    [crates/fcb_core/src]
    - [Bytecode], [BytecodeWire], [BytecodeCheck], [BytecodeFacts]: [bytecode.rs].
      Reader, writer and validator are the code's; [enc_module], [valid_envelope],
      [valid_bytecode] and [calls_target] specify them independently.
    - [Crypto]: [crypto.rs] with its own OpenSSH parser.  [Diff]: [diff.rs].
    - [Manifest]: [manifest.rs] (canonical JSON, signing, verification).
    - [State], [StateFacts], [StateProperties], [StateProgress]: [state.rs].
      [State] has every operation of [Updater] over [IO]; [StateFacts] has the
      abstract machine [state_step] on [State] records and the simulation between
      the two; [StateProgress] is about runs in which no call fails.  [Delivery]
      joins them with the runtime's check, download and installation, and
      [Resilience] with sessions in which anything may fail; [RollbackFacts] is
      about a patch that crashes.
    - [Linker]: [linker.rs].  [BuildInfo]: [build_info.rs].  [Config]: [config.rs].
    - [ServerApi]: [server_api.rs].

    [updater/src/lib.rs]
    - [Runtime], [RuntimeProperties]: the exported [fcb_*] functions, the persisted
      configuration, events, public keys and the resumable download.
    - [SingleFlight]: [check_for_update_singleflight] as a step relation of threads.
      [Runtime.check_singleflight] is the same function as one caller sees it: it
      leads, or finds a flight in the map and gets its result, or waits for ever
      when its leader has unwound; without a flight it is a run of those threads
      ([SingleFlight.check_is_run]).

    [cli/src]
    - [AotEntryPoints], [Auto], [Inspect], [Cli]: [aot_entry_points.rs], [auto.rs],
      [inspect.rs], and [main.rs] with [bytecode_payload.rs].
    - [Pipeline] shows that builds and payloads respect every relation of these
      classes; that they send nothing, leave a file alone or keep an invariant are
      instances.
    - [AutoFacts] and [BuildFacts] are about the build pipeline, [PatchFacts] and
      [PublishFacts] about [fcb patch], [ReleaseFacts] about [fcb release],
      [TrustFacts] about [fcb install], [CheckFacts] about [fcb check --install],
      [InitFacts] about [fcb init] and [fcb app add], [MainFacts] about [main].
      [EndToEnd] joins [PatchFacts] with [Delivery], [Chain] does so for native
      patches in a row, and [ProjectFacts] from the founding of a project on.

    ** How they interact

    [Cli.patch] calls [Auto] for builds and descriptions, [BuildInfo] and [Linker]
    for the gates, [BytecodeCheck] and [Diff] for payloads, [Manifest] for the
    signature and [ServerApi] for the upload.  On the device [Runtime] calls
    [ServerApi] for checks and downloads and [State] for everything that is kept;
    [State] verifies with [Manifest], [Crypto] and [BytecodeCheck] and rebuilds
    artifacts with [Diff].  [Cli.install] runs the same installation behind the
    server check and the pins.  The two ends meet in [StateFacts.installable], the
    checks of [install_payload_with_baseline]: [PatchFacts.patch_delivers] shows
    what [patch] uploads has passed them, [Delivery.update_takes_effect] what
    becomes of a patch that has, and [EndToEnd.published_patch_takes_effect] puts
    them together, for both backends: a native patch is a diff, and
    [StateProgress.makes_artifact] says which base a device applies it to.  The
    first such base is the artifact of the release
    ([ReleaseFacts.release_prepares_patches]), the next one that of the patch
    before ([Chain]).  What the server does between the two is an assumption about
    its answers ([Delivery.offered]): it hands on what was uploaded, after any
    number of failures the retries allow for ([ServerApi.served], [replied]).
    The device's public key is the one [fcb init] registers: [ProjectFacts] shows
    that it is the key every later [fcb patch] of the project signs with.

    ** What the theorems show

    - A device, while its metadata calls answer: bad patches are never launched again,
      the operations on [state.json] are atomic under every other fault and crash and
      refine [state_step],
      installations leave verified files, and a patch that never confirms is
      launched at most twice ([StateProperties]).  The event log keeps the last 50
      events; a corrupt state is moved aside.  A patch that a server offers, be it
      one that fails and recovers, is downloaded, also on top of an interrupted
      download, installed, launched and confirmed when the device's own calls
      succeed ([Delivery]); and no session of failures, crashes and
      cancellations takes a device out of that position ([Resilience]: [shape]
      is what operations may do to the tree, [follows] to the state,
      [resumable_partial] to the partial file).  A patch that crashes at every start
      is given up at the third launch for the one the device falls back to, and the
      event of it reaches the server ([RollbackFacts]).
    - Modules: reader and writer are inverse and accept exactly the specified
      encodings; validation decides its specification ([BytecodeFacts]).
    - Downloads complete partial files from flaky servers, never leave an unverified
      payload, and events are delivered at least once ([ServerApi],
      [RuntimeProperties]); no exported function unwinds, and only the two that check
      for an update can wait for ever, for a flight whose leader has unwound;
      concurrent checks share one request ([SingleFlight]).
    - Publishing: manifests verify under the key that signed them, plans and build
      comparisons decide their specifications, directory walks end, the hash of a
      tree identifies its files when their names are text, options resolve to builds
      of the right type, and a bytecode payload has passed every gate ([Manifest],
      [Linker], [BuildInfo], [AutoFacts], [BuildFacts], [PatchFacts]).  Whatever
      fails, [fcb patch] uploads nothing but a payload that passed, signed with the
      key the run reads, and its report says how the run ended
      ([PublishFacts.patch_ends] lists the ways); a release announces only what it
      has left on disk, and leaves what its patches are compared with
      ([ReleaseFacts]); a native patch is diffed from what the one before leaves on
      the device ([Chain]).
    - Trust: while metadata calls answer, the first key pinned for an app of a server
      stays the only one; which server addresses are accepted ([TrustFacts]);
      [fcb check --install] installs what the server announced, signed with the
      pinned key, or leaves the installed state as it was ([CheckFacts]).
    - Projects: what [fcb init] writes is what later commands read, no command
      replaces a private key while metadata calls answer ([InitFacts]) and the
      patches of the project are signed with it ([ProjectFacts]).
    - The command line as a whole: every run of [main] sends lookups and then at
      most the one request of its command, and exits with 0 only when the server
      accepted it or none was needed ([MainFacts]).
    Several theorems state behaviour that differs from what the code means to do:
    [mark_success_drops_newer_install], [install_during_session_strands_device],
    [stat_error_resets_state], [apply_simple_diff_overflow],
    [download_forgets_error], [spki_key], [singleflight_blocks],
    [diff_base_ignores_app], [secure_server_host], [panicked_check_strands],
    [names_not_identified].  A payload of JSON bytecode with doubles is the one
    upload that [EndToEnd] and [ProjectFacts] do not follow to the devices.

    ** Faults, crashes and interleaving

    Every I/O call takes its outcome from a schedule of faults chosen by the
    statement: it may fail, and a call that is not atomic may stop part way.  A
    crash at a call leaves the files of a schedule in which that call and all later
    ones fail, so theorems about all schedules also speak of crashes.
    Metadata calls have a schedule of their own, [w_stats], because the code does not
    see their errors: [Path::exists], [is_dir], [is_file] and [metadata().len()]
    then answer as if there were nothing, once or as often as the schedule says.
    The theorems that need what these calls answer say that none is to fail
    ([w_stats w = []], also as a part of [holds], [calm], [fresh], [pinned] and
    [holds_bytes]).  That they do need it, in [load_state], in the pin of [fcb
    install] and in the key file of [fcb init], is a weakness of the code, shown
    for the state by [stat_error_resets_state].  Servers, programs and the order of
    directory listings are arbitrary functions of what came before.

    ** Bounds and fuel

    Integers are [N] (or [Z]) with the width's bound in every operation that can
    exceed it; [usize] has 64 bits.  Loops that are not structural take fuel, and
    it is shown to be enough: [scan], [scan_targets] and [collect_targets] get one
    more than the length of the code, every instruction being at least one byte
    long; [strip_loop] one more than the length of the text; the diff loops the
    lengths of their inputs; [evict] the number of patches, each round removing one;
    the walks of directories more than the longest path of the tree
    ([AutoFacts.walks_end]); [path_ancestors] the length of the path.

    ** Not modelled

    - Third-party crates behind [External], [Net], [SerdeYaml], [BodyJson] and
      [Processes] (serde, ureq, the Ed25519 group, bsdiff, zstd, clap's parsing of
      arguments): interfaces with documented laws.  The texts of their error
      messages, and the [Utf8Error] texts of the standard library, are not
      reproduced.
    - Symbolic links, permissions and power loss; renaming of directories.
    - Names of files, arguments and variables are bytes, and [to_string_lossy] is
      applied where the code applies it; what is printed of them is not.
    - Pointers of the C interface: arguments are [option]s of byte strings, freeing
      what was handed out is the caller's contract.
    - The Go server, the Flutter plugin and the Dart kernel tool (other languages;
      arbitrary inputs here); [#[cfg(test)]] code.

    ** Not proved

    - That [main] never panics as a whole.  Reading a module that is longer than
      [usize] allows and applying a hostile simple diff panic in the model too
      ([apply_simple_diff_overflow]); on the device such a panic is caught
      ([ffi_always_returns]), on the command line it ends the run.
    - The delivery and the crash of one patch as a single run: [Delivery] ends with
      the patch pending, [RollbackFacts] starts there.
    - Anything about the server's own decisions (rollout, channels): its replies
      are arbitrary, and liveness assumes the replies it needs. *)
From Stdlib Require Export Strings.Byte NArith ZArith Lia.
From stdpp Require Export base list gmap sets strings pretty numbers sorting.

Declare Scope fcb_scope.
Delimit Scope fcb_scope with fcb.

(** ** Results

    [crates/fcb_core/src/lib.rs] wraps every fallible call in
    [Result<T, Error>].  A Rust body can also panic (slice index out of range,
    [expect], [unwrap]); [Panic] makes that a third outcome, so "does not panic"
    is a statement about the model. *)
Inductive error : Type :=
| Message (m : string)
| Io (m : string)
| Json (m : string)
| Yaml (m : string)
| Http (m : string).

Inductive res (E A : Type) : Type :=
| Ok (a : A)
| Err (e : E)
| Panic (m : string).
Arguments Ok {E A} a.
Arguments Err {E A} e.
Arguments Panic {E A} m.

Abbreviation result := (res error).

Definition err {A} (message : string) : result A := Err (Message message).

#[global] Instance res_ret E : MRet (res E) := λ A a, Ok a.
#[global] Instance res_bind E : MBind (res E) := λ A B f m,
  match m with Ok a => f a | Err e => Err e | Panic s => Panic s end.
#[global] Instance res_fmap E : FMap (res E) := λ A B f m,
  match m with Ok a => Ok (f a) | Err e => Err e | Panic s => Panic s end.

(** [Result::map_err]. *)
Definition map_err {E F A} (f : E → F) (m : res E A) : res F A :=
  match m with Ok a => Ok a | Err e => Err (f e) | Panic s => Panic s end.

(** [Option::ok_or_else]. *)
Definition ok_or {E A} (e : E) (o : option A) : res E A :=
  match o with Some a => Ok a | None => Err e end.

(** [Option::filter]. *)
Definition option_filter {A} (p : A → bool) (o : option A) : option A :=
  match o with Some a => if p a then Some a else None | None => None end.

(** [Option::expect] and slice indexing. *)
Definition expect {E A} (msg : string) (o : option A) : res E A :=
  match o with Some a => Ok a | None => Panic msg end.

Definition is_ok {E A} (m : res E A) : bool :=
  match m with Ok _ => true | _ => false end.

Definition no_panic {E A} (m : res E A) : Prop := ∀ s, m ≠ Panic s.

(** [?] inside a [for] loop over a vector. *)
Fixpoint for_each {E A} (f : A → res E unit) (l : list A) : res E unit :=
  match l with
  | [] => Ok tt
  | a :: l => f a ≫= λ _, for_each f l
  end.

(** The text [Display] prints for an error: [#[error("{0}")]] and
    [#[error(transparent)]]. *)
Definition error_to_string (e : error) : string :=
  match e with Message m | Io m | Json m | Yaml m | Http m => m end.

(** ** Machine integers *)
Definition u8_max : N := 255.
Definition u16_max : N := 65535.
Definition u32_max : N := 4294967295.
Definition u64_max : N := 18446744073709551615.
(** [usize] of the 64-bit targets the updater ships for. *)
Definition usize_max : N := u64_max.
Definition c_int_max : N := 2147483647.

(** [uN::try_from(value).ok()]. *)
Definition try_from (max value : N) : option N :=
  if (value <=? max)%N then Some value else None.

(** [checked_add], [saturating_add], [saturating_sub] and wrapping addition. *)
Definition checked_add (max a b : N) : option N :=
  if (a + b <=? max)%N then Some (a + b)%N else None.
Definition saturating_add (max a b : N) : N := N.min max (a + b).
Definition saturating_sub (a b : N) : N := (a - b)%N.
Definition wrapping_add (max a b : N) : N := ((a + b) mod (max + 1))%N.

(** [value as u8]. *)
Definition byte_of_N (n : N) : byte :=
  match Byte.of_N (n mod 256) with Some b => b | None => x00 end.

(** [to_be_bytes] of a [k]-byte unsigned integer, and [from_be_bytes]. *)
Fixpoint to_be_bytes (k : nat) (n : N) : list byte :=
  match k with
  | O => []
  | S k => to_be_bytes k (n / 256) ++ [byte_of_N n]
  end.
Definition from_be_bytes (bs : list byte) : N :=
  foldl (λ acc b, (acc * 256 + Byte.to_N b)%N) 0%N bs.

(** Two's complement of [i64]. *)
Definition i64_min : Z := - 9223372036854775808.
Definition i64_max : Z := 9223372036854775807.
Definition i64_to_u64 (z : Z) : N := Z.to_N (z mod 18446744073709551616).
Definition u64_to_i64 (n : N) : Z :=
  if (n <? 9223372036854775808)%N then Z.of_N n
  else (Z.of_N n - 18446744073709551616)%Z.

(** Length of a slice as [usize], and [&s[from..to]] (the caller has checked
    the range). *)
Definition len {A} (l : list A) : N := N.of_nat (length l).
Definition slice {A} (l : list A) (from to : N) : list A :=
  take (N.to_nat (to - from)) (drop (N.to_nat from) l).

(** ** Vectors *)
(** [v[i]] and [v.get(i)]. *)
Definition get {A} (l : list A) (i : N) : option A := l !! N.to_nat i.
Definition index {A} (l : list A) (i : N) : result A :=
  expect "index out of bounds" (get l i).

(** [v.iter().position(p)]. *)
Fixpoint position {A} (p : A → bool) (l : list A) : option N :=
  match l with
  | [] => None
  | a :: l => if p a then Some 0%N else (N.succ) <$> position p l
  end.

(** ** Decidable equality of the shared data *)
#[global] Arguments encode : simpl never.
#[global] Arguments decode : simpl never.
#[global] Instance byte_eq_dec : EqDecision byte := Byte.byte_eq_dec.
#[global] Program Instance byte_countable : Countable byte :=
  inj_countable Byte.to_N Byte.of_N _.
Next Obligation. intros b. apply Byte.of_to_N. Qed.
#[global] Instance error_eq_dec : EqDecision error.
Proof. solve_decision. Defined.
#[global] Instance res_eq_dec {E A} `{EqDecision E, EqDecision A} : EqDecision (res E A).
Proof. solve_decision. Defined.

(** ** Inversion of [Result] computations *)
Section ResFacts.
Context {E A B : Type}.
Implicit Types (m : res E A) (f : A → res E B).

Lemma bind_ok m f b : (m ≫= f) = Ok b ↔ ∃ a, m = Ok a ∧ f a = Ok b.
Proof. destruct m; simpl; naive_solver. Qed.

Lemma fmap_ok (g : A → B) m b : (g <$> m) = Ok b ↔ ∃ a, m = Ok a ∧ b = g a.
Proof. destruct m; cbv; naive_solver. Qed.

Lemma map_err_ok {F} (g : E → F) m a : map_err g m = Ok a ↔ m = Ok a.
Proof. destruct m; naive_solver. Qed.

Lemma ok_or_ok (e : E) (o : option A) a : ok_or e o = Ok a ↔ o = Some a.
Proof. destruct o; naive_solver. Qed.

Lemma bind_no_panic m f :
  no_panic m → (∀ a, m = Ok a → no_panic (f a)) → no_panic (m ≫= f).
Proof. destruct m; unfold no_panic; naive_solver. Qed.

Lemma ok_no_panic a : no_panic (Ok a : res E A).
Proof. done. Qed.
Lemma err_no_panic e : no_panic (Err e : res E A).
Proof. done. Qed.
Lemma map_err_no_panic {F} (g : E → F) m : no_panic m → no_panic (map_err g m).
Proof. destruct m; unfold no_panic; naive_solver. Qed.
Lemma ok_or_no_panic (e : E) (o : option A) : no_panic (ok_or e o).
Proof. by destruct o. Qed.

End ResFacts.

Lemma for_each_ok {E A} (f : A → res E unit) l :
  for_each f l = Ok tt ↔ Forall (λ a, f a = Ok tt) l.
Proof.
  induction l as [|a l IH]; simpl; [by split|].
  rewrite list.Forall_cons, bind_ok. split.
  - intros ([] & ? & ?). naive_solver.
  - intros [??]. exists tt. naive_solver.
Qed.

Lemma for_each_no_panic {E A} (f : A → res E unit) l :
  Forall (λ a, no_panic (f a)) l → no_panic (for_each f l).
Proof.
  induction 1; [done|]. simpl. apply bind_no_panic; [done|]. by intros [].
Qed.

Create HintDb fcb.
#[export] Hint Resolve ok_no_panic err_no_panic map_err_no_panic ok_or_no_panic
  for_each_no_panic : fcb.

(** [inv_res H] opens a hypothesis that says a chain of [?] returned [Ok]. *)
Ltac inv_res H :=
  lazymatch type of H with
  | (_ ≫= _) = Ok _ =>
      let a := fresh "a" in let Ha := fresh "H" in
      apply bind_ok in H as (a & Ha & H); try inv_res H
  | (_ <$> _) = Ok _ =>
      let a := fresh "a" in apply fmap_ok in H as (a & H & ->)
  | map_err _ _ = Ok _ => apply map_err_ok in H
  | ok_or _ _ = Ok _ => apply ok_or_ok in H
  | err _ = Ok _ => discriminate H
  | Err _ = Ok _ => discriminate H
  | Panic _ = Ok _ => discriminate H
  | Ok _ = Ok _ => injection H as H; try subst
  end.

(** Case analysis of the [if]s and [match]es a hypothesis is stuck on. *)
Ltac case_res H :=
  repeat (lazymatch type of H with
  | context [match ?x with _ => _ end] => destruct x eqn:?; try discriminate H
  | context [if ?b then _ else _] => destruct b eqn:?; try discriminate H
  end).

(** ** Arithmetic of the byte codecs *)
Lemma byte_of_to_N b : byte_of_N (Byte.to_N b) = b.
Proof. by destruct b. Qed.

Lemma to_N_byte_of_N n : Byte.to_N (byte_of_N n) = (n mod 256)%N.
Proof.
  unfold byte_of_N. pose proof (N.mod_lt n 256 ltac:(lia)).
  destruct (Byte.of_N (n mod 256)) eqn:Hb.
  - by apply Byte.to_of_N.
  - apply Byte.of_N_None_iff in Hb. lia.
Qed.

Lemma byte_bound b : (Byte.to_N b < 256)%N.
Proof. pose proof (Byte.to_N_bounded b). lia. Qed.

Lemma byte_of_N_small n : (n < 256)%N → Byte.to_N (byte_of_N n) = n.
Proof. intros. rewrite to_N_byte_of_N. by apply N.mod_small. Qed.

Lemma byte_of_N_add a b : byte_of_N (a * 256 + Byte.to_N b) = b.
Proof.
  pose proof (byte_bound b). rewrite <- (byte_of_to_N b) at 2.
  unfold byte_of_N. rewrite N.add_comm, N.Div0.mod_add.
  by rewrite (N.mod_small (Byte.to_N b) 256).
Qed.

Lemma length_to_be_bytes k n : length (to_be_bytes k n) = k.
Proof. revert n. induction k; intros n; simpl; [done|]. rewrite length_app, IHk. simpl. lia. Qed.

Lemma from_be_bytes_snoc l b :
  from_be_bytes (l ++ [b]) = (from_be_bytes l * 256 + Byte.to_N b)%N.
Proof. unfold from_be_bytes. by rewrite foldl_app. Qed.

Lemma from_to_be_bytes k n :
  (n < 256 ^ N.of_nat k)%N → from_be_bytes (to_be_bytes k n) = n.
Proof.
  revert n. induction k as [|k IH]; intros n Hn; simpl to_be_bytes.
  - simpl in Hn. change (from_be_bytes []) with 0%N. lia.
  - rewrite from_be_bytes_snoc, IH, to_N_byte_of_N.
    + pose proof (N.div_mod n 256 ltac:(lia)). lia.
    + apply N.Div0.div_lt_upper_bound.
      rewrite Nat2N.inj_succ, N.pow_succ_r in Hn by lia. lia.
Qed.

Lemma to_from_be_bytes l : to_be_bytes (length l) (from_be_bytes l) = l.
Proof.
  induction l as [|b l IH] using rev_ind; [done|].
  rewrite length_app, Nat.add_comm. simpl.
  rewrite from_be_bytes_snoc, byte_of_N_add. f_equal.
  rewrite <- IH at 3. f_equal. pose proof (byte_bound b).
  rewrite N.div_add_l by lia. rewrite N.div_small by lia. lia.
Qed.

Lemma from_be_bytes_bound l : (from_be_bytes l < 256 ^ len l)%N.
Proof.
  unfold len. induction l as [|b l IH] using rev_ind; [by compute|].
  rewrite from_be_bytes_snoc, length_app, Nat.add_comm. simpl length.
  rewrite Nat2N.inj_add, N.pow_add_r. pose proof (byte_bound b).
  change (256 ^ N.of_nat 1)%N with 256%N. lia.
Qed.

Lemma i64_roundtrip z :
  (i64_min ≤ z ≤ i64_max)%Z → u64_to_i64 (i64_to_u64 z) = z.
Proof.
  unfold i64_min, i64_max, u64_to_i64, i64_to_u64. intros Hz.
  destruct (decide (0 ≤ z)%Z).
  - rewrite Z.mod_small by lia. rewrite Z2N.id by lia.
    destruct (N.ltb_spec (Z.to_N z) 9223372036854775808); lia.
  - rewrite <- (Z.mod_add z 1) by lia. rewrite Z.mod_small by lia.
    rewrite Z2N.id by lia.
    destruct (N.ltb_spec (Z.to_N (z + 1 * 18446744073709551616)) 9223372036854775808); lia.
Qed.

Lemma u64_roundtrip n :
  (n ≤ u64_max)%N →
  i64_to_u64 (u64_to_i64 n) = n ∧ (i64_min ≤ u64_to_i64 n ≤ i64_max)%Z.
Proof.
  unfold i64_min, i64_max, u64_to_i64, i64_to_u64, u64_max. intros Hn.
  destruct (N.ltb_spec n 9223372036854775808).
  - rewrite Z.mod_small by lia. lia.
  - rewrite <- (Z.mod_add _ 1) by lia. rewrite Z.mod_small by lia. lia.
Qed.

Lemma i64_to_u64_bound z : (i64_to_u64 z ≤ u64_max)%N.
Proof. unfold i64_to_u64, u64_max. pose proof (Z.mod_pos_bound z 18446744073709551616). lia. Qed.

Lemma wrapping_add_small max a b : (a + b ≤ max)%N → wrapping_add max a b = (a + b)%N.
Proof. intros. unfold wrapping_add. apply N.mod_small. lia. Qed.

(** ** Slices *)
Lemma len_app {A} (l1 l2 : list A) : len (l1 ++ l2) = (len l1 + len l2)%N.
Proof. unfold len. rewrite length_app. lia. Qed.
Lemma len_cons {A} (a : A) l : len (a :: l) = (1 + len l)%N.
Proof. unfold len. simpl. lia. Qed.
Lemma len_nil {A} : len (@nil A) = 0%N.
Proof. done. Qed.
#[export] Hint Rewrite @len_app @len_cons @len_nil @length_to_be_bytes : fcb.
#[global] Arguments to_be_bytes : simpl never.
#[global] Arguments from_be_bytes : simpl never.
#[global] Arguments i64_to_u64 : simpl never.
#[global] Arguments u64_to_i64 : simpl never.
#[global] Arguments len : simpl never.

Section Vectors.
(** ** Vectors: facts *)
Local Open Scope N_scope.
Lemma get_some {A} (l : list A) i : i < len l → ∃ a, get l i = Some a.
Proof.
  unfold get, len. intros Hi. destruct (l !! N.to_nat i) eqn:E; [eauto|].
  apply lookup_ge_None in E. lia.
Qed.
Lemma get_lt {A} (l : list A) i a : get l i = Some a → i < len l.
Proof. unfold get, len. intros H%lookup_lt_Some. lia. Qed.

Lemma position_some {A} (p : A → bool) l i :
  position p l = Some i ↔
    (∃ a, get l i = Some a ∧ p a = true) ∧ ∀ j a, j < i → get l j = Some a → p a = false.
Proof.
  unfold get. revert i. induction l as [|x l IH]; intros i; simpl.
  { split; [done|]. by intros [(a & ? & ?) _]. }
  destruct (p x) eqn:Hx.
  - split.
    + intros [= <-]. split; [by exists x|]. intros j a. lia.
    + intros [_ Hmin]. destruct (decide (i = 0)) as [->|]; [done|].
      rewrite (Hmin 0 x) in Hx; [done|lia|done].
  - rewrite fmap_Some. split.
    + intros (k & Hk & ->). apply IH in Hk as [(a & Ha & Hp) Hmin].
      rewrite N2Nat.inj_succ. split; [by exists a|].
      intros j b Hj. destruct (N.to_nat j) as [|j'] eqn:Ej; simpl; [naive_solver|].
      intros Hb. apply (Hmin (N.of_nat j')); [lia|]. by rewrite Nat2N.id.
    + intros [(a & Ha & Hp) Hmin]. destruct (N.to_nat i) as [|i'] eqn:Ei; simpl in Ha.
      { congruence. }
      exists (N.of_nat i'). split; [|lia]. apply IH. rewrite Nat2N.id. split; [by exists a|].
      intros j b Hj Hb. apply (Hmin (N.succ j)); [lia|]. by rewrite N2Nat.inj_succ.
Qed.
Lemma position_none {A} (p : A → bool) l :
  position p l = None ↔ Forall (λ a, p a = false) l.
Proof.
  induction l as [|x l IH]; simpl; [by split; [constructor|]|].
  rewrite list.Forall_cons. destruct (p x); [naive_solver|].
  rewrite fmap_None, IH. naive_solver.
Qed.

Lemma get_snoc {A} (l : list A) (a : A) i b :
  get (l ++ [a]) i = Some b ↔ get l i = Some b ∨ (i = len l ∧ b = a).
Proof.
  unfold get, len. rewrite lookup_snoc_Some.
  split; [intros [[??]|[??]]|intros [H|[-> ->]]].
  - by left.
  - right. split; [lia|done].
  - left. split; [by apply lookup_lt_Some in H|done].
  - right. split; [lia|done].
Qed.

End Vectors.

(** ** Strings in byte order *)
Definition str_le (s t : string) : Prop := String.leb s t = true.
#[global] Instance str_le_dec : RelDecision str_le.
Proof. intros s t. unfold str_le. apply _. Defined.

Lemma ascii_compare_N a b :
  Ascii.compare a b = N.compare (Ascii.N_of_ascii a) (Ascii.N_of_ascii b).
Proof. done. Qed.

#[global] Instance str_le_trans : Transitive str_le.
Proof.
  intros s. unfold str_le, String.leb. induction s as [|a s IH]; intros [|b t] [|c u]; simpl; try done.
  rewrite !ascii_compare_N.
  destruct (N.compare_spec (Ascii.N_of_ascii a) (Ascii.N_of_ascii b)) as [Hab|Hab|Hab];
    destruct (N.compare_spec (Ascii.N_of_ascii b) (Ascii.N_of_ascii c)) as [Hbc|Hbc|Hbc];
    destruct (N.compare_spec (Ascii.N_of_ascii a) (Ascii.N_of_ascii c)) as [Hac|Hac|Hac];
    try done; try (exfalso; lia).
  apply IH.
Qed.
#[global] Instance str_le_total : Total str_le.
Proof. intros s t. apply String.leb_total. Qed.
#[global] Instance str_le_antisym : AntiSymm (=) str_le.
Proof. intros s t. apply String.leb_antisym. Qed.

(** A [BTreeSet<String>] iterates in byte order. *)
Definition btree_iter (s : gset string) : list string := merge_sort str_le (elements s).

Lemma elem_of_btree_iter s x : x ∈ btree_iter s ↔ x ∈ s.
Proof. unfold btree_iter. by rewrite merge_sort_Permutation, elem_of_elements. Qed.
Lemma btree_iter_NoDup s : NoDup (btree_iter s).
Proof. unfold btree_iter. rewrite merge_sort_Permutation. apply NoDup_elements. Qed.
Lemma btree_iter_sorted s : StronglySorted str_le (btree_iter s).
Proof. apply StronglySorted_merge_sort; apply _. Qed.

(** A [BTreeMap<String, V>] is a [gmap] that iterates in the order of its keys. *)
Definition btree_entries {V} (m : gmap string V) : list (string * V) :=
  omap (λ k, pair k <$> m !! k) (btree_iter (dom m)).

Lemma elem_of_btree_entries {V} (m : gmap string V) k v :
  (k, v) ∈ btree_entries m ↔ m !! k = Some v.
Proof.
  unfold btree_entries. rewrite list_elem_of_omap. split.
  - intros (k' & _ & Hk). destruct (m !! k') eqn:E; naive_solver.
  - intros Hk. exists k. rewrite Hk, elem_of_btree_iter, elem_of_dom. eauto.
Qed.
Lemma btree_entries_keys {V} (m : gmap string V) : (btree_entries m).*1 = btree_iter (dom m).
Proof.
  unfold btree_entries. assert (∀ k, k ∈ btree_iter (dom m) → k ∈ dom m) as Hin
    by (intros k; by rewrite elem_of_btree_iter).
  induction (btree_iter (dom m)) as [|k l IH]; [done|]. simpl.
  destruct (proj1 (elem_of_dom m k)) as [v Hv]; [apply Hin; left|]. rewrite Hv. simpl.
  f_equal. apply IH. intros k' Hk. apply Hin. by right.
Qed.
