(* ===== verification/Text.v ===== *)
(** * Rust strings

    A Rust [String] is a sequence of bytes that is valid UTF-8.  It is modelled
    by Stdlib's [string] (a list of 8-bit characters) together with
    [utf8_valid], the validity [String::from_utf8] tests.  This file holds the
    [str] operations the components use; byte indices are [nat]. *)
From S2P Require Import Prelude.
Local Open Scope N_scope.

(** ** Bytes and UTF-8 *)
Definition str_bytes (s : string) : list byte := String.list_byte_of_string s.
Definition str_of_bytes (bs : list byte) : string := String.string_of_list_byte bs.
Definition str_len (s : string) : N := len (str_bytes s).

Definition in_range (lo hi : N) (b : byte) : bool :=
  (lo <=? Byte.to_N b) && (Byte.to_N b <=? hi).
Definition cont_byte : byte → bool := in_range 128 191.

(** Well-formed UTF-8 byte sequences (Unicode Table 3-7), the check of
    [core::str::from_utf8]. *)
Fixpoint utf8_valid (bs : list byte) : bool :=
  match bs with
  | [] => true
  | a :: l =>
    if in_range 0 127 a then utf8_valid l else
    match l with
    | [] => false
    | b :: l =>
      if in_range 194 223 a then cont_byte b && utf8_valid l else
      match l with
      | [] => false
      | c :: l =>
        if in_range 224 239 a then
          cont_byte c && utf8_valid l &&
          (if in_range 224 224 a then in_range 160 191 b
           else if in_range 237 237 a then in_range 128 159 b
           else cont_byte b)
        else
        match l with
        | [] => false
        | d :: l =>
          in_range 240 244 a && cont_byte c && cont_byte d && utf8_valid l &&
          (if in_range 240 240 a then in_range 144 191 b
           else if in_range 244 244 a then in_range 128 143 b
           else cont_byte b)
        end
      end
    end
  end.

(** [String::from_utf8]; the text of [Utf8Error] is not reproduced. *)
Definition from_utf8 (bs : list byte) : res string string :=
  if utf8_valid bs then Ok (str_of_bytes bs) else Err "invalid utf-8 sequence"%string.

(** ** White space: [char::is_whitespace] on the UTF-8 encoding *)
Definition ws1 (a : byte) : bool := in_range 9 13 a || in_range 32 32 a.
Definition ws2 (a b : byte) : bool :=
  in_range 194 194 a && (in_range 133 133 b || in_range 160 160 b).
Definition ws3 (a b c : byte) : bool :=
  (in_range 225 225 a && in_range 154 154 b && in_range 128 128 c)
  || (in_range 226 226 a && in_range 128 128 b
      && (in_range 128 138 c || in_range 168 169 c || in_range 175 175 c))
  || (in_range 226 226 a && in_range 129 129 b && in_range 159 159 c)
  || (in_range 227 227 a && in_range 128 128 b && in_range 128 128 c).

(** [str::trim_start]: drop the white-space characters at the front. *)
Fixpoint trim_front (bs : list byte) : list byte :=
  match bs with
  | a :: l =>
    if ws1 a then trim_front l else
    match l with
    | b :: l' =>
      if ws2 a b then trim_front l' else
      match l' with
      | c :: l'' => if ws3 a b c then trim_front l'' else bs
      | [] => bs
      end
    | [] => bs
    end
  | [] => bs
  end.

(** The same on a reversed sequence, for [str::trim_end]. *)
Fixpoint trim_back (bs : list byte) : list byte :=
  match bs with
  | a :: l =>
    if ws1 a then trim_back l else
    match l with
    | b :: l' =>
      if ws2 b a then trim_back l' else
      match l' with
      | c :: l'' => if ws3 c b a then trim_back l'' else bs
      | [] => bs
      end
    | [] => bs
    end
  | [] => bs
  end.

(** [str::trim]. *)
Definition trim (s : string) : string :=
  str_of_bytes (rev (trim_back (rev (trim_front (str_bytes s))))).

(** [s.is_empty()] and the guard [s.trim().is_empty()]. *)
Definition is_empty (s : string) : bool := bool_decide (s = ""%string).
Definition is_blank (s : string) : bool := is_empty (trim s).

(** ** Searching and splitting *)
Definition starts_with (pat s : string) : bool := String.prefix pat s.

(** [&s[n..]] and [&s[from..to]]. *)
Fixpoint sdrop (n : nat) (s : string) : string :=
  match n, s with
  | S n, String _ s => sdrop n s
  | _, _ => s
  end.
Fixpoint stake (n : nat) (s : string) : string :=
  match n, s with
  | S n, String c s => String c (stake n s)
  | _, _ => ""%string
  end.

Definition strip_prefix (pat s : string) : option string :=
  if starts_with pat s then Some (sdrop (String.length pat) s) else None.
Definition ends_with (pat s : string) : bool :=
  bool_decide (sdrop (String.length s - String.length pat) s = pat).
Definition strip_suffix (pat s : string) : option string :=
  if ends_with pat s then Some (stake (String.length s - String.length pat) s) else None.

(** [s.find(pat)]: byte index of the first occurrence. *)
Definition find (pat s : string) : option nat := String.index 0 pat s.
Definition contains (pat s : string) : bool := bool_decide (is_Some (find pat s)).

(** [s.split(c)] for a one-byte separator: never the empty list. *)
Fixpoint split (c : Ascii.ascii) (s : string) : list string :=
  match s with
  | EmptyString => [""%string]
  | String a s' =>
    if decide (a = c) then ""%string :: split c s'
    else match split c s' with
         | w :: ws => String a w :: ws
         | [] => [String a ""%string]
         end
  end.

(** [s.lines()]: split at ["\n"], drop a final empty line and the ["\r"] of a
    line that ended in ["\r\n"]. *)
Definition newline : Ascii.ascii := Ascii.ascii_of_nat 10.
Definition carriage_return : string := String (Ascii.ascii_of_nat 13) "".
Definition strip_cr (s : string) : string := default s (strip_suffix carriage_return s).
Fixpoint lines_of (segments : list string) : list string :=
  match segments with
  | [] => []
  | [last] => if is_empty last then [] else [last]
  | line :: rest => strip_cr line :: lines_of rest
  end.
Definition lines (s : string) : list string := lines_of (split newline s).

(** [slices.join(sep)]. *)
Fixpoint join (sep : string) (ws : list string) : string :=
  match ws with
  | [] => ""
  | [w] => w
  | w :: ws => w +:+ sep +:+ join sep ws
  end.

(** ** Formatting *)
(** [{n}] of an unsigned integer. *)
Definition dec (n : N) : string := pretty n.

Definition hex_digit (upper : bool) (n : N) : Ascii.ascii :=
  Ascii.ascii_of_N (if n <? 10 then 48 + n else (if upper then 55 else 87) + n).
(** [{b:02x}] and [{b:02X}]. *)
Definition hex2 (upper : bool) (b : byte) : string :=
  let n := Byte.to_N b in
  String (hex_digit upper (n / 16)) (String (hex_digit upper (n mod 16)) "").

(** [bool::to_string]. *)
Definition bool_to_string (b : bool) : string := if b then "true" else "false".

(** ** Facts *)
Lemma str_of_str_bytes s : str_of_bytes (str_bytes s) = s.
Proof. apply String.string_of_list_byte_of_string. Qed.
Lemma str_bytes_of bs : str_bytes (str_of_bytes bs) = bs.
Proof. apply String.list_byte_of_string_of_list_byte. Qed.

Lemma string_length_app s t : String.length (s +:+ t) = (String.length s + String.length t)%nat.
Proof. induction s as [|c s IH]; [done|]. change (S (String.length (s +:+ t)) = S (String.length s) + String.length t)%nat. lia. Qed.

Lemma from_utf8_ok bs s :
  from_utf8 bs = Ok s ↔ utf8_valid bs = true ∧ str_bytes s = bs.
Proof.
  unfold from_utf8. destruct (utf8_valid bs) eqn:Hv; split.
  - intros [= <-]. by rewrite str_bytes_of.
  - intros [_ <-]. by rewrite str_of_str_bytes.
  - done.
  - by intros [? _].
Qed.

Lemma from_utf8_no_panic bs : no_panic (from_utf8 bs).
Proof. unfold from_utf8. by destruct (utf8_valid bs). Qed.
#[export] Hint Resolve from_utf8_no_panic : fcb.

(** Printable ASCII. *)
Definition graphic (b : byte) : bool := in_range 33 126 b.
Lemma trim_front_graphic b l : graphic b = true → trim_front (b :: l) = b :: l.
Proof. intros Hb. destruct b; try discriminate Hb; destruct l as [|c [|d l]]; reflexivity. Qed.
Lemma trim_back_graphic b l : graphic b = true → trim_back (b :: l) = b :: l.
Proof.
  intros Hb. simpl.
  assert (ws1 b = false) as -> by (by destruct b).
  destruct l as [|c l]; [done|].
  assert (ws2 c b = false) as ->.
  { unfold ws2. destruct (in_range 194 194 c); [|done]. by destruct b. }
  destruct l as [|d l]; [done|].
  assert (ws3 d c b = false) as ->; [|done].
  unfold ws3. assert (in_range 128 128 b = false ∧ in_range 128 138 b = false
    ∧ in_range 168 169 b = false ∧ in_range 175 175 b = false ∧ in_range 159 159 b = false)
    as (-> & -> & -> & -> & ->) by (by destruct b).
  by rewrite !andb_false_r.
Qed.
Lemma trim_graphic s :
  Forall (λ b, graphic b = true) (str_bytes s) → trim s = s.
Proof.
  unfold trim. intros Hall. rewrite <- (str_of_str_bytes s) at 2. f_equal.
  destruct (str_bytes s) as [|b l] eqn:E; [done|].
  rewrite trim_front_graphic by (by inversion Hall).
  destruct (rev (b :: l)) as [|c l'] eqn:Er.
  - apply (f_equal (@length byte)) in Er. rewrite List.length_rev in Er. done.
  - rewrite trim_back_graphic; [by rewrite <- Er, rev_involutive|].
    rewrite list.Forall_forall in Hall. apply Hall. rewrite <- (rev_involutive (b :: l)), Er.
    simpl. set_solver.
Qed.
Lemma utf8_valid_ascii bs : Forall (λ b, in_range 0 127 b = true) bs → utf8_valid bs = true.
Proof. induction 1 as [|b bs Hb _ IH]; [done|]. simpl. by rewrite Hb. Qed.
Lemma graphic_ascii b : graphic b = true → in_range 0 127 b = true.
Proof. by destruct b. Qed.

Lemma trim_empty : trim "" = ""%string.
Proof. reflexivity. Qed.

Example trim_ascii : trim "  a b
 " = "a b"%string.
Proof. reflexivity. Qed.
Example trim_ideographic_space :
  is_blank (str_of_bytes [xe3; x80; x80; x20; xc2; xa0]) = true.
Proof. reflexivity. Qed.
Example utf8_examples :
  utf8_valid [xe3; x80; x80] = true ∧ utf8_valid [xed; xa0; x80] = false
  ∧ utf8_valid [xf0; x9f; x98; x80] = true ∧ utf8_valid [xc0; x80] = false.
Proof. done. Qed.

(** ** Lines *)
Definition unlines (ls : list string) : string :=
  foldr (λ l acc, l +:+ String newline acc) ""%string ls.

Lemma string_app_cons a s t : String a s +:+ t = String a (s +:+ t).
Proof. done. Qed.
Lemma string_app_assoc s t u : (s +:+ t) +:+ u = s +:+ (t +:+ u).
Proof. induction s as [|a s IH]; [done|]. by rewrite !string_app_cons, IH. Qed.
Lemma join_unlines ls :
  ls ≠ [] → join (String newline "") ls +:+ String newline "" = unlines ls.
Proof.
  induction ls as [|l ls IH]; [done|]. intros _. destruct ls as [|l' ls]; [done|].
  change (join (String newline "") (l :: l' :: ls))
    with (l +:+ String newline "" +:+ join (String newline "") (l' :: ls)).
  rewrite !string_app_assoc, IH by done. done.
Qed.

Fixpoint no_char (c : Ascii.ascii) (s : string) : Prop :=
  match s with ""%string => True | String a s => a ≠ c ∧ no_char c s end.

Lemma split_sep c s t : no_char c s → split c (s +:+ String c t) = s :: split c t.
Proof.
  induction s as [|a s IH]; intros Hs.
  - simpl. by rewrite decide_True.
  - destruct Hs as [Ha Hs]. rewrite string_app_cons. cbn [split].
    by rewrite decide_False, IH.
Qed.
Lemma split_ne c s : split c s ≠ [].
Proof. destruct s; simpl; [done|]. case_decide; [done|]. by destruct (split c s). Qed.

Lemma stake_sdrop n s : stake n s +:+ sdrop n s = s.
Proof.
  revert s. induction n as [|n IH]; intros [|c s]; simpl; try done.
  by rewrite string_app_cons, IH.
Qed.
Lemma no_char_app c s t : no_char c (s +:+ t) ↔ no_char c s ∧ no_char c t.
Proof. induction s as [|a s IH]; [simpl; tauto|]. rewrite string_app_cons. simpl. tauto. Qed.
Lemma strip_cr_id s : no_char (Ascii.ascii_of_nat 13) s → strip_cr s = s.
Proof.
  intros Hs. unfold strip_cr, strip_suffix, ends_with. case_bool_decide as Hd; [|done].
  rewrite <- (stake_sdrop (String.length s - String.length carriage_return) s), Hd in Hs.
  apply no_char_app in Hs as [_ [[] _]]. done.
Qed.

Definition clean_line (s : string) : Prop :=
  no_char newline s ∧ no_char (Ascii.ascii_of_nat 13) s.
Lemma lines_unlines ls : Forall clean_line ls → lines (unlines ls) = ls.
Proof.
  unfold lines. induction 1 as [|l ls [Hn Hc] _ IH]; [done|].
  change (unlines (l :: ls)) with (l +:+ String newline (unlines ls)). rewrite split_sep by done.
  pose proof (split_ne newline (unlines ls)).
  destruct (split newline (unlines ls)) as [|x xs]; [done|].
  change (lines_of (l :: x :: xs)) with (strip_cr l :: lines_of (x :: xs)).
  by rewrite IH, strip_cr_id.
Qed.

Lemma str_bytes_cons a s : str_bytes (String a s) = Ascii.byte_of_ascii a :: str_bytes s.
Proof. done. Qed.
Lemma str_bytes_app s t : str_bytes (s +:+ t) = str_bytes s ++ str_bytes t.
Proof.
  induction s as [|a s IH]; [done|]. by rewrite string_app_cons, !str_bytes_cons, IH.
Qed.
Lemma no_char_bytes c s : Ascii.byte_of_ascii c ∉ str_bytes s → no_char c s.
Proof.
  induction s as [|a s IH]; [done|]. rewrite str_bytes_cons, not_elem_of_cons.
  intros [Ha Hs]. split; [by intros ->|auto].
Qed.

Lemma utf8_valid_app a b : utf8_valid a = true → utf8_valid b = true → utf8_valid (a ++ b) = true.
Proof.
  intros Ha Hb. remember (length a) as n eqn:Hn. revert a Hn Ha.
  induction (lt_wf n) as [n _ IH]; intros a -> Ha.
  destruct a as [|w a]; [done|]. simpl in Ha |- *.
  destruct (in_range 0 127 w); [eapply IH; [|done..]; simpl; lia|].
  destruct a as [|x a]; [done|]. simpl in *.
  destruct (in_range 194 223 w).
  { apply andb_true_iff in Ha as [Hx Ha]. rewrite Hx. eapply IH; [|done..]; simpl; lia. }
  destruct a as [|y a]; [done|]. simpl in *.
  destruct (in_range 224 239 w).
  { rewrite !andb_true_iff in Ha. destruct Ha as [[Hy Ha] Hx]. rewrite Hy, Hx, andb_true_r.
    eapply IH; [|done..]; simpl; lia. }
  destruct a as [|z a]; [done|]. simpl in *.
  rewrite !andb_true_iff in Ha. destruct Ha as [[[[Hw Hy] Hz] Ha] Hx].
  rewrite Hw, Hy, Hz, Hx, andb_true_r. eapply IH; [|done..]; simpl; lia.
Qed.
