(* ===== verification/Floats.v ===== *)
(** * Floating point

    The [f64] arithmetic of the program: conversion of counts, division,
    comparison and the fixed notation of [{:.2}], on the binary64 numbers of the
    Standard Library's [SpecFloat]. *)
From Stdlib Require Export Floats.SpecFloat.
From S2P Require Import Prelude Text.
Local Open Scope Z_scope.

(** [n as f64]. *)
Definition u64_to_f64 (n : N) : spec_float := binary_normalize 53 1024 (Z.of_N n) 0 false.
Definition f64_div : spec_float → spec_float → spec_float := SFdiv 53 1024.
Definition f64_mul : spec_float → spec_float → spec_float := SFmul 53 1024.
(** [x <= y]; false when either is not a number. *)
Definition f64_le (x y : spec_float) : bool :=
  match SFcompare x y with Some Lt | Some Eq => true | _ => false end.

(** [a / b] rounded to the nearest integer, ties to even. *)
Definition round_half_even (a b : Z) : Z :=
  let q := a / b in
  let r := a mod b in
  if 2 * r <? b then q else if b <? 2 * r then q + 1 else if Z.even q then q else q + 1.
(** [format!("{:.2}", x)]. *)
Definition fixed2 (x : spec_float) : string :=
  match x with
  | S754_finite s m e =>
    let hundredths :=
      if 0 <=? e then Z.pos m * 2 ^ e * 100 else round_half_even (Z.pos m * 100) (2 ^ (- e)) in
    let cents := Z.to_N (hundredths mod 100) in
    (if s then "-" else "") +:+ dec (Z.to_N (hundredths / 100)) +:+ "."
    +:+ (if (cents <? 10)%N then "0" else "") +:+ dec cents
  | S754_zero s => (if s then "-" else "") +:+ "0.00"
  | S754_infinity s => (if s then "-" else "") +:+ "inf"
  | S754_nan => "NaN"
  end.

Example fixed2_tests :
  (fixed2 (f64_mul (f64_div (u64_to_f64 1) (u64_to_f64 16)) (u64_to_f64 100)) = "6.25"
   ∧ fixed2 (f64_div (u64_to_f64 1) (u64_to_f64 8)) = "0.12"
   ∧ fixed2 (f64_div (u64_to_f64 1) (u64_to_f64 3)) = "0.33")%string.
Proof. by vm_compute. Qed.
