(* ===== verification/External.v ===== *)
(** * Interfaces of the third-party crates

    Code that is not part of the repository (serde_json, sha2, hex, base64,
    ed25519-dalek, bsdiff, zstd) enters the development as type classes: an
    operation class the definitions are written against, and a law class that
    states the documented behaviour the theorems rely on. *)
From S2P Require Import Prelude Text.

(** ** serde_json

    One instance per serialised type: [serde_json::to_vec],
    [serde_json::to_vec_pretty] and [serde_json::from_slice] at that type.
    [serde_json::to_string] gives the text whose bytes are those of [to_vec]. *)
Class Serde (A : Type) := {
  to_vec : A → res string (list byte);
  to_vec_pretty : A → res string (list byte);
  from_slice : list byte → res string A;
}.
#[global] Hint Mode Serde ! : typeclass_instances.

(** Round trip at the values that satisfy [ok] (those a Rust value of the type
    can take); serialisation of them succeeds. *)
Class SerdeLaws (A : Type) `{Serde A} (ok : A → Prop) : Prop := {
  to_vec_total a : ok a → ∃ bs, to_vec a = Ok bs;
  to_vec_pretty_total a : ok a → ∃ bs, to_vec_pretty a = Ok bs;
  from_to_vec a bs : ok a → to_vec a = Ok bs → from_slice bs = Ok a;
  from_to_vec_pretty a bs : ok a → to_vec_pretty a = Ok bs → from_slice bs = Ok a;
  from_slice_no_panic bs : no_panic (from_slice (A:=A) bs);
}.

(** Compact output is one non-empty line of UTF-8: [serde_json] escapes control
    characters in strings and prints no white space around a value. *)
Class SerdeLine (A : Type) `{Serde A} : Prop := {
  to_vec_line (a : A) bs : to_vec a = Ok bs →
    utf8_valid bs = true ∧ x0a ∉ bs ∧ x0d ∉ bs ∧ is_blank (str_of_bytes bs) = false;
}.

(** ** Hashes, base64, Ed25519 *)
Class Hash := { sha256_digest : list byte → list byte; hex_encode : list byte → string }.

Class Base64 := {
  b64_encode : list byte → string;
  b64_decode : string → res string (list byte);
}.
Class Base64Laws `{Base64} : Prop := {
  b64_roundtrip bs : b64_decode (b64_encode bs) = Ok bs;
  b64_decode_no_panic s : no_panic (b64_decode s);
}.

Lemma b64_encode_inj `{Base64Laws} bs bs' : b64_encode bs = b64_encode bs' → bs = bs'.
Proof. intros E. assert (Ok (E:=string) bs = Ok bs') as [= ->] by (by rewrite <- !b64_roundtrip, E). done. Qed.

(** The standard alphabet with padding. *)
Definition b64_char (b : byte) : bool :=
  in_range 48 57 b || in_range 65 90 b || in_range 97 122 b || in_range 43 43 b || in_range 47 47 b
  || in_range 61 61 b.
Class Base64Text `{Base64} : Prop :=
  b64_alphabet bs : Forall (λ b, b64_char b = true) (str_bytes (b64_encode bs)).

(** ed25519-dalek: a signing key is its 32-byte seed, keys and signatures are
    compared by their bytes. *)
Class Ed25519 := {
  ed_public : list byte → list byte;
  ed_sign : list byte → list byte → list byte;
  ed_verifying_key : list byte → res string (list byte);
  ed_signature : list byte → res string (list byte);
  ed_verify : list byte → list byte → list byte → res string unit;
}.
Class Ed25519Laws `{Ed25519} : Prop := {
  ed_public_length seed : length (ed_public seed) = 32;
  ed_public_valid seed : length seed = 32 → ed_verifying_key (ed_public seed) = Ok (ed_public seed);
  ed_signature_valid seed msg : ed_signature (ed_sign seed msg) = Ok (ed_sign seed msg);
  ed_verify_sign seed msg : length seed = 32 → ed_verify (ed_public seed) msg (ed_sign seed msg) = Ok tt;
}.

(** ** bsdiff and zstd *)
Class BsdiffZstd := {
  bsdiff_diff : list byte → list byte → res string (list byte);
  bsdiff_patch : list byte → list byte → res string (list byte);
  zstd_compress : list byte → res string (list byte);
  zstd_decode : list byte → res string (list byte);
}.
Class BsdiffZstdLaws `{BsdiffZstd} : Prop := {
  zstd_roundtrip raw c : zstd_compress raw = Ok c → zstd_decode c = Ok raw;
  bsdiff_roundtrip base target raw :
    bsdiff_diff base target = Ok raw → bsdiff_patch base raw = Ok target;
}.

(** ** Hexadecimal text *)
Definition hex_string (bs : list byte) : string :=
  foldr (λ b s, hex2 false b +:+ s) ""%string bs.
Definition hex_value (c : Ascii.ascii) : option N :=
  let n := Ascii.N_of_ascii c in
  if (48 <=? n)%N && (n <=? 57)%N then Some (n - 48)%N
  else if (97 <=? n)%N && (n <=? 102)%N then Some (n - 87)%N else None.
Fixpoint unhex (s : string) : option (list byte) :=
  match s with
  | ""%string => Some []
  | String a (String b s) =>
      x ← hex_value a; y ← hex_value b; bs ← unhex s;
      Some (byte_of_N (x * 16 + y) :: bs)
  | _ => None
  end.
Lemma hex_value_digits b :
  let n := Byte.to_N b in
  hex_value (hex_digit false (n / 16)) = Some (n / 16)%N
  ∧ hex_value (hex_digit false (n mod 16)) = Some (n mod 16)%N
  ∧ byte_of_N (n / 16 * 16 + n mod 16) = b.
Proof. by destruct b. Qed.
Lemma unhex_hex_string bs : unhex (hex_string bs) = Some bs.
Proof.
  induction bs as [|b bs IH]; [done|]. destruct (hex_value_digits b) as (H1 & H2 & H3).
  change (unhex (hex_string (b :: bs)))
    with (x ← hex_value (hex_digit false (Byte.to_N b / 16));
          y ← hex_value (hex_digit false (Byte.to_N b mod 16));
          bs ← unhex (hex_string bs); Some (byte_of_N (x * 16 + y) :: bs)).
  rewrite H1, H2, IH. cbn [mbind option_bind]. by rewrite H3.
Qed.

(** ** A concrete [Serde] instance

    Any countable type has a lossless encoding into bytes; the witnesses use it
    to show that the laws can be met. *)
Section CountableSerde.
Context {A : Type} `{Countable A}.

Definition pos_bytes (p : positive) : list byte :=
  str_bytes (hex_string (to_be_bytes (S (Pos.size_nat p / 8)) (Npos p))).
Definition bytes_pos (bs : list byte) : option positive :=
  unhexed ← unhex (str_of_bytes bs);
  match from_be_bytes unhexed with Npos p => Some p | N0 => None end.

Definition countable_from_slice (bs : list byte) : res string A :=
  ok_or "invalid document"%string (bytes_pos bs ≫= decode).

Definition countable_serde : Serde A := {|
  to_vec a := Ok (pos_bytes (encode a));
  to_vec_pretty a := Ok (pos_bytes (encode a));
  from_slice := countable_from_slice;
|}.

Lemma pos_size_bound p : (Npos p < 256 ^ N.of_nat (S (Pos.size_nat p / 8)))%N.
Proof.
  assert (Npos p < 2 ^ N.of_nat (Pos.size_nat p))%N as Hp.
  { induction p as [p IH|p IH|]; simpl Pos.size_nat; rewrite ?Nat2N.inj_succ, ?N.pow_succ_r by lia; lia. }
  eapply N.lt_le_trans; [exact Hp|]. change 256%N with (2 ^ 8)%N. rewrite <- N.pow_mul_r.
  apply N.pow_le_mono_r; [lia|]. pose proof (Nat.div_mod_eq (Pos.size_nat p) 8).
  pose proof (Nat.mod_upper_bound (Pos.size_nat p) 8). lia.
Qed.
Lemma bytes_pos_pos_bytes p : bytes_pos (pos_bytes p) = Some p.
Proof.
  unfold bytes_pos, pos_bytes. rewrite str_of_str_bytes, unhex_hex_string.
  cbn [mbind option_bind]. by rewrite from_to_be_bytes by apply pos_size_bound.
Qed.

Lemma countable_from_encode a : countable_from_slice (pos_bytes (encode a)) = Ok a.
Proof.
  unfold countable_from_slice. rewrite bytes_pos_pos_bytes. simpl.
  by rewrite decode_encode.
Qed.

Lemma countable_serde_laws ok : @SerdeLaws A countable_serde ok.
Proof.
  split; simpl; intros.
  - eauto.
  - eauto.
  - simplify_eq. apply countable_from_encode.
  - simplify_eq. apply countable_from_encode.
  - unfold countable_from_slice. eauto with fcb.
Qed.

(** Lower-case hexadecimal digits. *)
Definition hex_char (b : byte) : bool := in_range 48 57 b || in_range 97 102 b.
Lemma hex_string_alphabet bs : Forall (λ b, hex_char b = true) (str_bytes (hex_string bs)).
Proof.
  induction bs as [|b bs IH]; [constructor|].
  change (hex_string (b :: bs)) with (hex2 false b +:+ hex_string bs). rewrite str_bytes_app.
  apply Forall_app_2; [|done]. destruct b; by repeat constructor.
Qed.
Lemma hex_string_graphic bs : Forall (λ b, graphic b = true) (str_bytes (hex_string bs)).
Proof.
  eapply Forall_impl; [apply hex_string_alphabet|]. intros b Hb. by destruct b.
Qed.
Lemma countable_serde_line : @SerdeLine A countable_serde.
Proof.
  split. intros a bs [= <-].
  assert (Forall (λ b, graphic b = true) (pos_bytes (encode a))) as Hg by apply hex_string_graphic.
  split_and!.
  - apply utf8_valid_ascii. eapply Forall_impl; [done|]. apply graphic_ascii.
  - rewrite list.Forall_forall in Hg. by intros Hin%Hg.
  - rewrite list.Forall_forall in Hg. by intros Hin%Hg.
  - unfold is_blank. rewrite trim_graphic by by rewrite str_bytes_of.
    unfold is_empty. apply bool_decide_eq_false. intros He.
    apply (f_equal str_bytes) in He. rewrite str_bytes_of in He.
    pose proof (bytes_pos_pos_bytes (encode a)) as Hd. by rewrite He in Hd.
Qed.
End CountableSerde.

(** ** Concrete instances

    Small functions that satisfy the laws, for the witnesses: hexadecimal for
    base64 and hex, the identity for the digest and for compression, a
    signature that repeats the key and the message. *)
Definition demo_hash : Hash := {| sha256_digest bs := take 8 bs; hex_encode := hex_string |}.
Definition demo_base64 : Base64 := {|
  b64_encode := hex_string;
  b64_decode s := ok_or "invalid symbol"%string (unhex s);
|}.
Definition demo_ed25519 : Ed25519 := {|
  ed_public seed := take 32 (seed ++ replicate 32 x00);
  ed_sign seed msg := take 32 (seed ++ replicate 32 x00) ++ take 8 msg;
  ed_verifying_key key := Ok key;
  ed_signature sig := Ok sig;
  ed_verify key msg sig := if decide (sig = key ++ take 8 msg) then Ok tt else Err "mismatch"%string;
|}.
Definition demo_bsdiff : BsdiffZstd := {|
  bsdiff_diff base target := Ok target;
  bsdiff_patch base raw := Ok raw;
  zstd_compress raw := Ok raw;
  zstd_decode c := Ok c;
|}.

Lemma demo_base64_laws : @Base64Laws demo_base64.
Proof.
  split; simpl; intros.
  - by rewrite unhex_hex_string.
  - apply ok_or_no_panic.
Qed.
Lemma demo_base64_text : @Base64Text demo_base64.
Proof.
  intros bs. eapply Forall_impl; [apply hex_string_alphabet|]. intros b Hb. by destruct b.
Qed.
Lemma demo_ed25519_laws : @Ed25519Laws demo_ed25519.
Proof.
  split; [|intros; done..|intros; by apply decide_True].
  intros seed. cbn [ed_public demo_ed25519].
  rewrite length_take, length_app, length_replicate. lia.
Qed.
Lemma demo_bsdiff_laws : @BsdiffZstdLaws demo_bsdiff.
Proof. split; simpl; congruence. Qed.
