(* ===== verification/Bytecode.v ===== *)
(** * Bytecode modules: data, binary reader and binary writer

    Models [crates/fcb_core/src/bytecode.rs], lines 1-356 and 496-519 and
    704-832: the opcode table, the module data, [BinaryReader], [read_binary],
    the writers, [to_binary_vec] and [ConstantPool].  Validation is in
    [BytecodeCheck]. *)
From S2P Require Import Prelude Text External.
Local Open Scope N_scope.

Definition FORMAT_VERSION : N := 3.
Definition MIN_SUPPORTED_MODULE_VERSION : N := 1.
(** [b"FCBM"]. *)
Definition BINARY_MAGIC : list byte := [x46; x43; x42; x4d].

(** ** Opcodes *)
Module OpCode.
Inductive t :=
| LoadConst | LoadArg | LoadLocal | StoreLocal | Pop
| Add | Sub | Mul | Div
| Greater | Equal
| Jump | JumpIfFalse | JumpIfTrue
| MakeList | MakeMap | StringConcat | GetField | SetField | IsType | AsType
| CallStatic | CallDynamic | CallOriginal | CallClosure | MakeClosure | NewObject
| Throw | TryBegin | Await | AsyncReturn | Yield | TryFinally | EndFinally | Rethrow
| Return.

(** The [repr(u8)] discriminants: [opcode as u8]. *)
Definition to_byte (op : t) : byte :=
  match op with
  | LoadConst => x01 | LoadArg => x02 | LoadLocal => x03 | StoreLocal => x04
  | Pop => x05
  | Add => x10 | Sub => x11 | Mul => x12 | Div => x13
  | Greater => x20 | Equal => x21
  | Jump => x30 | JumpIfFalse => x31 | JumpIfTrue => x32
  | MakeList => x40 | MakeMap => x41 | StringConcat => x42
  | GetField => x43 | SetField => x44 | IsType => x45 | AsType => x46
  | CallStatic => x50 | CallDynamic => x51 | CallOriginal => x52
  | CallClosure => x53 | MakeClosure => x54 | NewObject => x55
  | Throw => x60 | TryBegin => x61 | Await => x62 | AsyncReturn => x63
  | Yield => x64 | TryFinally => x65 | EndFinally => x66 | Rethrow => x67
  | Return => xff
  end.

Definition from_byte (b : byte) : option t :=
  match b with
  | x01 => Some LoadConst | x02 => Some LoadArg | x03 => Some LoadLocal
  | x04 => Some StoreLocal | x05 => Some Pop
  | x10 => Some Add | x11 => Some Sub | x12 => Some Mul | x13 => Some Div
  | x20 => Some Greater | x21 => Some Equal
  | x30 => Some Jump | x31 => Some JumpIfFalse | x32 => Some JumpIfTrue
  | x40 => Some MakeList | x41 => Some MakeMap | x42 => Some StringConcat
  | x43 => Some GetField | x44 => Some SetField | x45 => Some IsType
  | x46 => Some AsType
  | x50 => Some CallStatic | x51 => Some CallDynamic | x52 => Some CallOriginal
  | x53 => Some CallClosure | x54 => Some MakeClosure | x55 => Some NewObject
  | x60 => Some Throw | x61 => Some TryBegin | x62 => Some Await
  | x63 => Some AsyncReturn | x64 => Some Yield | x65 => Some TryFinally
  | x66 => Some EndFinally | x67 => Some Rethrow
  | xff => Some Return
  | _ => None
  end.

Definition operand_len (op : t) : N :=
  match op with
  | LoadConst | Jump | JumpIfFalse | JumpIfTrue | MakeList | MakeMap
  | StringConcat | GetField | SetField | IsType | AsType | MakeClosure => 2
  | CallStatic | CallDynamic | CallOriginal | CallClosure | NewObject => 3
  | TryBegin | TryFinally => 4
  | LoadArg | LoadLocal | StoreLocal => 1
  | Pop | Add | Sub | Mul | Div | Greater | Equal | Throw | Await
  | AsyncReturn | Yield | EndFinally | Rethrow | Return => 0
  end.

#[global] Instance eq_dec : EqDecision t.
Proof. solve_decision. Defined.
End OpCode.

(** ** Module data *)
Module AsyncKind.
Inductive t := Sync | AsyncFuture | AsyncStar | SyncStar.
#[global] Instance eq_dec : EqDecision t.
Proof. solve_decision. Defined.
End AsyncKind.

(** A [f64] is represented by its bit pattern ([f64::to_bits]). *)
Module Constant.
Inductive t :=
| Int (value : Z)
| Double (bits : N)
| Bool (value : bool)
| String (value : string)
| Null.
#[global] Instance eq_dec : EqDecision t.
Proof. solve_decision. Defined.
End Constant.

(** IEEE 754 equality of two [f64] bit patterns. *)
Definition f64_is_nan (bits : N) : bool :=
  (N.land (N.shiftr bits 52) 2047 =? 2047) && negb (N.land bits 4503599627370495 =? 0).
Definition f64_is_zero (bits : N) : bool := N.land bits 9223372036854775807 =? 0.
Definition f64_eq (a b : N) : bool :=
  negb (f64_is_nan a) && negb (f64_is_nan b)
  && ((a =? b) || (f64_is_zero a && f64_is_zero b)).

(** The derived [PartialEq] of [Constant]. *)
Definition constant_eq (a b : Constant.t) : bool :=
  match a, b with
  | Constant.Int x, Constant.Int y => Z.eqb x y
  | Constant.Double x, Constant.Double y => f64_eq x y
  | Constant.Bool x, Constant.Bool y => Bool.eqb x y
  | Constant.String x, Constant.String y => String.eqb x y
  | Constant.Null, Constant.Null => true
  | _, _ => false
  end.

Record SourceMapEntry := { bytecode_offset : N; source_location : string }.
Record DebugLocalEntry := { slot : N; local_name : string }.

Record BytecodeFunction := {
  name : string;
  return_convention : string;
  async_kind : AsyncKind.t;
  param_count : N;
  local_count : N;
  constants : list Constant.t;
  code : list byte;
  source_map : list SourceMapEntry;
  debug_locals : list DebugLocalEntry;
}.

Record BytecodeModule := { version : N; functions : list BytecodeFunction }.

(** [BytecodeModule::new]. *)
Definition module_new (fs : list BytecodeFunction) : BytecodeModule :=
  {| version := FORMAT_VERSION; functions := fs |}.

(** ** [BinaryReader]

    The methods take [&mut self]; on [Err] the reader is not used again, so a
    method is a function from a reader to a value and the advanced reader. *)
Record BinaryReader := mk_reader { r_bytes : list byte; r_pos : N }.
Definition reader (A : Type) : Type := BinaryReader → result (A * BinaryReader).
#[global] Instance reader_ret : MRet reader := λ A a r, Ok (a, r).
#[global] Instance reader_bind : MBind reader := λ A B f m r,
  match m r with
  | Ok (a, r') => f a r'
  | Err e => Err e
  | Panic s => Panic s
  end.
Definition read_fail {A} (message : string) : reader A := λ _, err message.
(** A computation that does not touch the reader. *)
Definition read_lift {A} (m : result A) : reader A := λ r,
  match m with Ok a => Ok (a, r) | Err e => Err e | Panic s => Panic s end.

Definition reader_new (bytes : list byte) : BinaryReader := mk_reader bytes 0.

(** [BinaryReader::bytes]. *)
Definition read_bytes (n : N) : reader (list byte) := λ r,
  match checked_add usize_max (r_pos r) n with
  | None => err "binary bytecode offset overflow"
  | Some end_ =>
    if len (r_bytes r) <? end_ then err "truncated FCB bytecode binary"
    else Ok (slice (r_bytes r) (r_pos r) end_, mk_reader (r_bytes r) end_)
  end.

Definition expect_magic (magic : list byte) : reader unit :=
  actual ← read_bytes (len magic);
  if decide (actual = magic) then mret tt
  else read_fail "invalid FCB bytecode binary magic".

Definition read_u8 : reader N :=
  bs ← read_bytes 1;
  match bs with
  | b :: _ => mret (Byte.to_N b)
  | [] => read_lift (Panic "BinaryReader::bytes returned one byte")
  end.
Definition read_u16 : reader N := bs ← read_bytes 2; mret (from_be_bytes bs).
Definition read_u32 : reader N := bs ← read_bytes 4; mret (from_be_bytes bs).
Definition read_i64 : reader Z := bs ← read_bytes 8; mret (u64_to_i64 (from_be_bytes bs)).
Definition read_f64 : reader N := bs ← read_bytes 8; mret (from_be_bytes bs).

Definition read_string : reader string :=
  n ← read_u16;
  bs ← read_bytes n;
  read_lift (map_err Message (from_utf8 bs)).

Definition read_constant : reader Constant.t :=
  tag ← read_u8;
  match tag with
  | 0 => mret Constant.Null
  | 1 => z ← read_i64; mret (Constant.Int z)
  | 2 => d ← read_f64; mret (Constant.Double d)
  | 3 => b ← read_u8;
         match b with
         | 0 => mret (Constant.Bool false)
         | 1 => mret (Constant.Bool true)
         | other => read_fail ("invalid bool constant byte " +:+ dec other)
         end
  | 4 => s ← read_string; mret (Constant.String s)
  | other => read_fail ("unsupported binary constant tag " +:+ dec other)
  end.

Definition reader_finish (r : BinaryReader) : result unit :=
  if r_pos r =? len (r_bytes r) then Ok tt else err "trailing FCB bytecode binary data".

(** [for _ in 0..n { v.push(item()?) }]. *)
Fixpoint read_n {A} (n : nat) (item : reader A) : reader (list A) :=
  match n with
  | O => mret []
  | S n => a ← item; l ← read_n n item; mret (a :: l)
  end.

(** A [u16] element count followed by the elements. *)
Definition read_counted {A} (item : reader A) : reader (list A) :=
  n ← read_u16; read_n (N.to_nat n) item.

Definition read_return_convention : reader string :=
  b ← read_u8;
  match b with
  | 0 => mret "tagged"%string
  | 1 => mret "unboxed_int64"%string
  | other => read_fail ("unsupported binary return convention " +:+ dec other)
  end.

Definition read_async_kind (version : N) : reader AsyncKind.t :=
  if 3 <=? version then
    b ← read_u8;
    match b with
    | 0 => mret AsyncKind.Sync
    | 1 => mret AsyncKind.AsyncFuture
    | 2 => mret AsyncKind.AsyncStar
    | 3 => mret AsyncKind.SyncStar
    | other => read_fail ("unsupported binary async kind " +:+ dec other)
    end
  else mret AsyncKind.Sync.

Definition read_code : reader (list byte) := n ← read_u32; read_bytes n.

Definition read_source_map_entry : reader SourceMapEntry :=
  o ← read_u32; l ← read_string;
  mret {| bytecode_offset := o; source_location := l |}.

Definition read_debug_local : reader DebugLocalEntry :=
  s ← read_u16; n ← read_string; mret {| slot := s; local_name := n |}.

Definition read_debug_locals (version : N) : reader (list DebugLocalEntry) :=
  if 2 <=? version then read_counted read_debug_local else mret [].

(** The body of the loop of [read_binary]. *)
Definition read_function (version : N) : reader BytecodeFunction :=
  name ← read_string;
  return_convention ← read_return_convention;
  async_kind ← read_async_kind version;
  param_count ← read_u8;
  local_count ← read_u8;
  constants ← read_counted read_constant;
  code ← read_code;
  source_map ← read_counted read_source_map_entry;
  debug_locals ← read_debug_locals version;
  mret {| name := name; return_convention := return_convention;
          async_kind := async_kind; param_count := param_count;
          local_count := local_count; constants := constants; code := code;
          source_map := source_map; debug_locals := debug_locals |}.

Definition read_module : reader BytecodeModule :=
  _ ← expect_magic BINARY_MAGIC;
  version ← read_u32;
  functions ← read_counted (read_function version);
  mret {| version := version; functions := functions |}.

(** [BytecodeModule::read_binary]. *)
Definition read_binary (bytes : list byte) : result BytecodeModule :=
  '(m, r) ← read_module (reader_new bytes);
  _ ← reader_finish r;
  Ok m.

(** ** Writers

    [out: &mut Vec<u8>] is threaded through; the result is the extended
    buffer. *)
Definition write_u16 (out : list byte) (value : N) (label : string) : result (list byte) :=
  v ← ok_or (Message (label +:+ " exceeds u16 range")) (try_from u16_max value);
  Ok (out ++ to_be_bytes 2 v).

Definition write_u32 (out : list byte) (value : N) (label : string) : result (list byte) :=
  v ← ok_or (Message (label +:+ " exceeds u32 range")) (try_from u32_max value);
  Ok (out ++ to_be_bytes 4 v).

Definition write_string (out : list byte) (value label : string) : result (list byte) :=
  out ← write_u16 out (str_len value) label;
  Ok (out ++ str_bytes value).

Definition write_constant (out : list byte) (c : Constant.t) : result (list byte) :=
  match c with
  | Constant.Null => Ok (out ++ [x00])
  | Constant.Int v => Ok (out ++ x01 :: to_be_bytes 8 (i64_to_u64 v))
  | Constant.Double b => Ok (out ++ x02 :: to_be_bytes 8 b)
  | Constant.Bool b => Ok (out ++ [x03; if b then x01 else x00])
  | Constant.String s => write_string (out ++ [x04]) s "string constant"
  end.

(** [for x in xs { write(&mut out, x)?; }]. *)
Fixpoint write_all {A} (write : list byte → A → result (list byte))
    (out : list byte) (l : list A) : result (list byte) :=
  match l with
  | [] => Ok out
  | a :: l => out ← write out a; write_all write out l
  end.

Definition write_source_map_entry (out : list byte) (e : SourceMapEntry) : result (list byte) :=
  write_string (out ++ to_be_bytes 4 (bytecode_offset e)) (source_location e) "source location".
Definition write_debug_local (out : list byte) (e : DebugLocalEntry) : result (list byte) :=
  write_string (out ++ to_be_bytes 2 (slot e)) (local_name e) "debug local name".

Definition convention_byte (f : BytecodeFunction) : result byte :=
  if String.eqb (return_convention f) "tagged" then Ok x00
  else if String.eqb (return_convention f) "unboxed_int64" then Ok x01
  else err ("unsupported return_convention " +:+ return_convention f
            +:+ " for function " +:+ name f).
Definition async_kind_byte (k : AsyncKind.t) : byte :=
  match k with
  | AsyncKind.Sync => x00
  | AsyncKind.AsyncFuture => x01
  | AsyncKind.AsyncStar => x02
  | AsyncKind.SyncStar => x03
  end.

(** The body of the loop of [to_binary_vec]. *)
Definition write_function (out : list byte) (f : BytecodeFunction) : result (list byte) :=
  out ← write_string out (name f) "function name";
  conv ← convention_byte f;
  let out := out ++ [conv; async_kind_byte (async_kind f);
                     byte_of_N (param_count f); byte_of_N (local_count f)] in
  out ← write_u16 out (len (constants f)) "constant count";
  out ← write_all write_constant out (constants f);
  out ← write_u32 out (len (code f)) "code length";
  let out := out ++ code f in
  out ← write_u16 out (len (source_map f)) "source map count";
  out ← write_all write_source_map_entry out (source_map f);
  out ← write_u16 out (len (debug_locals f)) "debug locals count";
  write_all write_debug_local out (debug_locals f).

(** [to_binary_vec] after [self.validate()?]. *)
Definition write_module (m : BytecodeModule) : result (list byte) :=
  let out := BINARY_MAGIC ++ to_be_bytes 4 FORMAT_VERSION in
  out ← write_u16 out (len (functions m)) "function count";
  write_all write_function out (functions m).

(** ** [ConstantPool] *)
(** [push(&mut self, constant)]: the index and the new pool; the pool keeps the
    constant even when its index does not fit. *)
Definition pool_push (pool : list Constant.t) (c : Constant.t) :
    result N * list Constant.t :=
  let overflow := Message "bytecode constant pool exceeds u16 index space" in
  match position (λ existing, constant_eq existing c) pool with
  | Some idx => (ok_or overflow (try_from u16_max idx), pool)
  | None => (ok_or overflow (try_from u16_max (len pool)), pool ++ [c])
  end.
