(* ===== verification/BytecodeWire.v ===== *)
(** * The FCBM wire format

    A specification of the binary module container, independent of the reader
    and the writer of [Bytecode]: [enc_module m] is the byte string that stands
    for [m], [ok_module m] says which modules have one.  The reader and the
    writer are both shown to implement it. *)
From S2P Require Import Prelude Text External Bytecode.
Local Open Scope N_scope.

(** ** The format *)
Section Format.

(** What the Rust types guarantee of a value. *)
Definition wt_string (s : string) : Prop := utf8_valid (str_bytes s) = true.
Definition wt_constant (c : Constant.t) : Prop :=
  match c with
  | Constant.Int z => (i64_min ≤ z ≤ i64_max)%Z
  | Constant.Double b => b ≤ u64_max
  | Constant.String s => wt_string s
  | Constant.Bool _ | Constant.Null => True
  end.
Definition wt_source_map_entry (e : SourceMapEntry) : Prop :=
  bytecode_offset e ≤ u32_max ∧ wt_string (source_location e).
Definition wt_debug_local (e : DebugLocalEntry) : Prop :=
  slot e ≤ u16_max ∧ wt_string (local_name e).
Record wt_function (f : BytecodeFunction) : Prop := {
  wt_name : wt_string (name f);
  wt_params : param_count f ≤ u8_max;
  wt_locals : local_count f ≤ u8_max;
  wt_constants : Forall wt_constant (constants f);
  wt_source_map : Forall wt_source_map_entry (source_map f);
  wt_debug_locals : Forall wt_debug_local (debug_locals f);
}.
Definition wt_module (m : BytecodeModule) : Prop :=
  version m ≤ u32_max ∧ Forall wt_function (functions m).

(** The size limits of the container. *)
Definition fits_string (s : string) : Prop := str_len s ≤ u16_max.
Definition fits_constant (c : Constant.t) : Prop :=
  match c with Constant.String s => fits_string s | _ => True end.
Definition known_convention (s : string) : Prop :=
  s = "tagged"%string ∨ s = "unboxed_int64"%string.
Record fits_function (f : BytecodeFunction) : Prop := {
  fits_name : fits_string (name f);
  fits_convention : known_convention (return_convention f);
  fits_constants : len (constants f) ≤ u16_max ∧ Forall fits_constant (constants f);
  fits_code : len (code f) ≤ u32_max;
  fits_source_map : len (source_map f) ≤ u16_max
    ∧ Forall (λ e, fits_string (source_location e)) (source_map f);
  fits_debug_locals : len (debug_locals f) ≤ u16_max
    ∧ Forall (λ e, fits_string (local_name e)) (debug_locals f);
}.
Definition fits_module (m : BytecodeModule) : Prop :=
  len (functions m) ≤ u16_max ∧ Forall fits_function (functions m).

(** Versions before 3 have no async kind, versions before 2 no debug locals. *)
Definition legacy_function (v : N) (f : BytecodeFunction) : Prop :=
  (v < 3 → async_kind f = AsyncKind.Sync) ∧ (v < 2 → debug_locals f = []).
Definition ok_function (v : N) (f : BytecodeFunction) : Prop :=
  wt_function f ∧ fits_function f ∧ legacy_function v f.
Definition ok_module (m : BytecodeModule) : Prop :=
  version m ≤ u32_max ∧ len (functions m) ≤ u16_max
  ∧ Forall (ok_function (version m)) (functions m).

Definition enc_string (s : string) : list byte := to_be_bytes 2 (str_len s) ++ str_bytes s.
Definition enc_constant (c : Constant.t) : list byte :=
  match c with
  | Constant.Null => [x00]
  | Constant.Int z => x01 :: to_be_bytes 8 (i64_to_u64 z)
  | Constant.Double b => x02 :: to_be_bytes 8 b
  | Constant.Bool b => [x03; if b then x01 else x00]
  | Constant.String s => x04 :: enc_string s
  end.
Definition enc_all {A} (enc : A → list byte) (l : list A) : list byte := concat (map enc l).
Definition enc_counted {A} (enc : A → list byte) (l : list A) : list byte :=
  to_be_bytes 2 (len l) ++ enc_all enc l.
Definition enc_convention (s : string) : list byte :=
  if String.eqb s "tagged" then [x00] else [x01].
Definition enc_async_kind (v : N) (k : AsyncKind.t) : list byte :=
  if 3 <=? v then [async_kind_byte k] else [].
Definition enc_code (c : list byte) : list byte := to_be_bytes 4 (len c) ++ c.
Definition enc_source_map_entry (e : SourceMapEntry) : list byte :=
  to_be_bytes 4 (bytecode_offset e) ++ enc_string (source_location e).
Definition enc_debug_local (e : DebugLocalEntry) : list byte :=
  to_be_bytes 2 (slot e) ++ enc_string (local_name e).
Definition enc_debug_locals (v : N) (l : list DebugLocalEntry) : list byte :=
  if 2 <=? v then enc_counted enc_debug_local l else [].
Definition enc_function (v : N) (f : BytecodeFunction) : list byte :=
  enc_string (name f) ++ enc_convention (return_convention f)
  ++ enc_async_kind v (async_kind f)
  ++ [byte_of_N (param_count f)] ++ [byte_of_N (local_count f)]
  ++ enc_counted enc_constant (constants f) ++ enc_code (code f)
  ++ enc_counted enc_source_map_entry (source_map f)
  ++ enc_debug_locals v (debug_locals f).
Definition enc_module (m : BytecodeModule) : list byte :=
  BINARY_MAGIC ++ to_be_bytes 4 (version m)
  ++ enc_counted (enc_function (version m)) (functions m).
End Format.

#[global] Arguments enc_module : simpl never.

(** ** Readers that implement a format

    [codec rd ok enc]: from any position, [rd] accepts exactly the encodings of
    the values [ok] allows, consumes exactly those bytes, and never panics. *)
Definition wf_reader (r : BinaryReader) : Prop :=
  r_pos r ≤ len (r_bytes r) ∧ len (r_bytes r) ≤ usize_max.
Definition rest (r : BinaryReader) : list byte := drop (N.to_nat (r_pos r)) (r_bytes r).
Definition advance (r : BinaryReader) (n : N) : BinaryReader :=
  mk_reader (r_bytes r) (r_pos r + n).

Record codec {A} (rd : reader A) (ok : A → Prop) (enc : A → list byte) : Prop := {
  codec_reads r a r' : wf_reader r →
    rd r = Ok (a, r') ↔
      ok a ∧ (∃ tl, rest r = enc a ++ tl) ∧ r' = advance r (len (enc a));
  codec_no_panic r : wf_reader r → no_panic (rd r);
}.

Lemma rest_length r : wf_reader r → len (rest r) = len (r_bytes r) - r_pos r.
Proof. intros [??]. unfold rest, len in *. rewrite length_drop. lia. Qed.

Lemma advance_wf r bs tl : wf_reader r → rest r = bs ++ tl → wf_reader (advance r (len bs)).
Proof.
  intros Hwf Hr. pose proof (rest_length r Hwf) as Hl. rewrite Hr, len_app in Hl.
  destruct Hwf. split; simpl; lia.
Qed.

Lemma advance_rest r bs tl : rest r = bs ++ tl → rest (advance r (len bs)) = tl.
Proof.
  unfold rest, advance, len. simpl. intros Hr.
  rewrite N2Nat.inj_add, Nat2N.id, <- drop_drop, Hr.
  by rewrite drop_app_length.
Qed.

Lemma advance_advance r n m : advance (advance r n) m = advance r (n + m).
Proof. unfold advance. simpl. f_equal. lia. Qed.
Lemma advance_0 r : advance r 0 = r.
Proof. destruct r. unfold advance. simpl. f_equal. lia. Qed.

Lemma codec_ret {A} (a : A) : codec (mret a) (λ b, b = a) (λ _, []).
Proof.
  split; [|intros r _; apply ok_no_panic]. intros r b r' Hwf. split.
  - intros [= <- <-]. split_and!; [done|by exists (rest r)|by rewrite len_nil, advance_0].
  - intros (-> & _ & ->). by rewrite len_nil, advance_0.
Qed.

Lemma codec_ext {A} (rd : reader A) ok enc ok' enc' :
  codec rd ok enc → (∀ a, ok' a ↔ ok a) → (∀ a, ok a → enc' a = enc a) →
  codec rd ok' enc'.
Proof.
  intros [Hr Hp] Hok Henc. split; [|done]. intros r a r' Hwf.
  rewrite Hr, Hok by done. split.
  - intros (Ha & ? & ?). rewrite (Henc _ Ha). done.
  - intros (Ha & Htl & Hr'). rewrite (Henc _ Ha) in *. done.
Qed.

Lemma codec_fail {A} m enc : codec (A:=A) (read_fail m) (λ _, False) enc.
Proof. split; [|done]. intros r a r' _. split; [done|by intros (? & _)]. Qed.

Lemma codec_bind {A B} (rd1 : reader A) (rd2 : A → reader B) ok1 enc1 ok2 enc2 (π : B → A) :
  codec rd1 ok1 enc1 →
  (∀ a, ok1 a → codec (rd2 a) (ok2 a) (enc2 a)) →
  (∀ a b, ok1 a → ok2 a b → π b = a) →
  codec (rd1 ≫= rd2) (λ b, ok1 (π b) ∧ ok2 (π b) b) (λ b, enc1 (π b) ++ enc2 (π b) b).
Proof.
  intros [Hr1 Hp1] H2 Hπ. split.
  - intros r b r' Hwf. unfold mbind, reader_bind. split.
    + destruct (rd1 r) as [[a r1]| |] eqn:E1; try done.
      apply Hr1 in E1 as (Ha & [tl Htl] & ->); [|done]. intros E2.
      apply (codec_reads _ _ _ (H2 a Ha)) in E2 as (Hb & [tl' Htl'] & ->);
        [|by eapply advance_wf].
      rewrite (Hπ a b Ha Hb). rewrite (advance_rest _ _ _ Htl) in Htl'. subst tl.
      split_and!; [done..| |].
      * exists tl'. by rewrite <- app_assoc.
      * by rewrite advance_advance, len_app.
    + intros ((Ha & Hb) & [tl Htl] & ->). rewrite <- app_assoc in Htl.
      assert (rd1 r = Ok (π b, advance r (len (enc1 (π b))))) as ->.
      { apply Hr1; [done|]. eauto. }
      apply (codec_reads _ _ _ (H2 _ Ha)); [by eapply advance_wf|].
      rewrite (advance_rest _ _ _ Htl), advance_advance, len_app. eauto.
  - intros r Hwf. unfold mbind, reader_bind.
    destruct (rd1 r) as [[a r1]| |] eqn:E1; [|done|by edestruct (Hp1 r)].
    apply Hr1 in E1 as (Ha & [tl Htl] & ->); [|done].
    apply (codec_no_panic _ _ _ (H2 a Ha)). by eapply advance_wf.
Qed.

(** Post-processing of the value read, with inverse [g]. *)
Lemma codec_map {A B} (rd : reader A) ok enc (f : A → B) (g : B → A) :
  codec rd ok enc → (∀ a, ok a → g (f a) = a) →
  codec (a ← rd; mret (f a)) (λ b, ok (g b) ∧ b = f (g b)) (λ b, enc (g b)).
Proof.
  intros Hc Hg. eapply codec_ext.
  - eapply (codec_bind _ _ _ _ (λ a b, b = f a) (λ _ _, []) g); [done| |].
    + intros a _. apply codec_ret.
    + intros a b Ha ->. auto.
  - done.
  - intros b _. simpl. by rewrite app_nil_r.
Qed.


Lemma codec_n {A} (item : reader A) ok enc n :
  codec item ok enc →
  codec (read_n n item) (λ l, length l = n ∧ Forall ok l) (enc_all enc).
Proof.
  intros Hc. induction n as [|n IH]; simpl.
  - eapply codec_ext; [apply codec_ret| |].
    + intros [|a l]; simpl; split; try done. by intros [? _].
    + by intros l ->.
  - split.
    + intros r l r' Hwf. unfold mbind, reader_bind. split.
      * destruct (item r) as [[a r1]| |] eqn:E1; try done.
        apply (codec_reads _ _ _ Hc) in E1 as (Ha & [tl Htl] & ->); [|done].
        destruct (read_n n item _) as [[l' r2]| |] eqn:E2; try done.
        apply (codec_reads _ _ _ IH) in E2 as ([Hl Hall] & [tl' Htl'] & ->);
          [|by eapply advance_wf].
        intros [= <- <-]. rewrite (advance_rest _ _ _ Htl) in Htl'. subst tl.
        unfold enc_all in *. simpl. rewrite len_app, advance_advance.
        split_and!; [by f_equal|by constructor| |done].
        exists tl'. by rewrite <- app_assoc.
      * intros ([Hl Hall] & [tl Htl] & ->).
        destruct l as [|a l]; [done|]. apply list.Forall_cons in Hall as [Ha Hall].
        unfold enc_all in Htl |- *. simpl in Htl |- *. rewrite <- app_assoc in Htl.
        assert (item r = Ok (a, advance r (len (enc a)))) as ->.
        { apply (codec_reads _ _ _ Hc); eauto. }
        assert (read_n n item (advance r (len (enc a)))
                = Ok (l, advance r (len (enc a) + len (concat (map enc l))))) as ->.
        { apply (codec_reads _ _ _ IH); [by eapply advance_wf|].
          rewrite (advance_rest _ _ _ Htl), advance_advance. eauto. }
        by rewrite len_app.
    + intros r Hwf. unfold mbind, reader_bind.
      destruct (item r) as [[a r1]| |] eqn:E1; [|done|by edestruct (codec_no_panic _ _ _ Hc r)].
      apply (codec_reads _ _ _ Hc) in E1 as (Ha & [tl Htl] & ->); [|done].
      assert (wf_reader (advance r (len (enc a)))) as Hwf' by (by eapply advance_wf).
      destruct (read_n n item _) as [[l' r2]| |] eqn:E2; [done|done|].
      by edestruct (codec_no_panic _ _ _ IH _ Hwf').
Qed.

(** ** The primitive readers *)
Lemma codec_take overflow truncated rd n :
  (∀ r, rd r = match checked_add usize_max (r_pos r) n with
               | None => err overflow
               | Some end_ =>
                 if len (r_bytes r) <? end_ then err truncated
                 else Ok (slice (r_bytes r) (r_pos r) end_, mk_reader (r_bytes r) end_)
               end) →
  codec rd (λ bs, len bs = n) id.
Proof.
  intros Hrd. split.
  - intros r bs r' Hwf. pose proof (rest_length r Hwf) as Hl. destruct Hwf as [Hp Hb].
    rewrite Hrd. unfold checked_add, usize_max in *.
    destruct (N.leb_spec (r_pos r + n) u64_max); [|split; [done|]].
    + destruct (N.ltb_spec (len (r_bytes r)) (r_pos r + n)).
      * split; [done|]. intros (Hn & [tl Htl] & _). simpl in Htl.
        rewrite Htl, len_app in Hl. lia.
      * unfold slice. replace (r_pos r + n - r_pos r) with n by lia.
        fold (rest r). split.
        -- intros [= <- <-].
           assert (len (take (N.to_nat n) (rest r)) = n) as Hn.
           { unfold len in *. rewrite length_take. lia. }
           unfold id, advance. rewrite Hn. split_and!; [done| |done].
           exists (drop (N.to_nat n) (rest r)). by rewrite take_drop.
        -- intros (Hn & [tl Htl] & ->). simpl in *. rewrite Htl.
           rewrite take_app_length' by (unfold len in Hn; lia).
           unfold advance. by rewrite Hn.
    + intros (Hn & [tl Htl] & _). simpl in Htl. rewrite Htl, len_app in Hl. lia.
  - intros r [Hp Hb] s. rewrite Hrd. destruct (checked_add _ _ _); [|done].
    by destruct (_ <? _).
Qed.
Lemma codec_bytes n : codec (read_bytes n) (λ bs, len bs = n) id.
Proof. by apply (codec_take "binary bytecode offset overflow" "truncated FCB bytecode binary"). Qed.

Lemma codec_uint rd k n :
  N.of_nat k = n → codec rd (λ bs, len bs = n) id →
  codec (bs ← rd; mret (from_be_bytes bs)) (λ v, v < 256 ^ n) (to_be_bytes k).
Proof.
  intros <- Hrd. eapply codec_ext.
  - eapply (codec_map _ _ _ from_be_bytes (to_be_bytes k)); [exact Hrd|].
    intros bs Hn. unfold len in Hn. apply Nat2N.inj in Hn as <-. apply to_from_be_bytes.
  - intros v. simpl. unfold len. rewrite length_to_be_bytes. split.
    + intros Hv. split; [done|]. by rewrite from_to_be_bytes.
    + intros [_ ->]. pose proof (from_be_bytes_bound (to_be_bytes k v)) as Hb.
      unfold len in Hb. by rewrite length_to_be_bytes in Hb.
  - done.
Qed.

Lemma codec_uint32 rd :
  codec rd (λ bs, len bs = 4) id →
  codec (bs ← rd; mret (from_be_bytes bs)) (λ v, v ≤ u32_max) (to_be_bytes 4).
Proof.
  intros Hrd. eapply codec_ext; [by apply (codec_uint rd 4)| |done].
  intros v. simpl. unfold u32_max. change (256 ^ 4) with 4294967296. lia.
Qed.

Lemma codec_u16 : codec read_u16 (λ v, v ≤ u16_max) (to_be_bytes 2).
Proof.
  eapply codec_ext; [by apply (codec_uint _ 2), codec_bytes| |done].
  intros v. simpl. unfold u16_max. change (256 ^ 2) with 65536. lia.
Qed.
Lemma codec_u32 : codec read_u32 (λ v, v ≤ u32_max) (to_be_bytes 4).
Proof. apply codec_uint32, codec_bytes. Qed.
Lemma codec_f64 : codec read_f64 (λ v, v ≤ u64_max) (to_be_bytes 8).
Proof.
  eapply codec_ext; [by apply (codec_uint _ 8), codec_bytes| |done].
  intros v. simpl. unfold u64_max. change (256 ^ 8) with 18446744073709551616. lia.
Qed.

Lemma codec_u8 : codec read_u8 (λ v, v ≤ u8_max) (λ v, [byte_of_N v]).
Proof.
  eapply codec_ext.
  - unfold read_u8.
    eapply (codec_bind _ _ _ _ (λ bs v, v = from_be_bytes bs) (λ _ _, []) (to_be_bytes 1)).
    + apply codec_bytes.
    + intros [|b [|b' bs]] Hn; [done| |by rewrite !len_cons in Hn; lia].
      eapply codec_ext; [apply codec_ret|done|done].
    + intros bs v Hn ->. unfold len in Hn. apply (Nat2N.inj _ 1) in Hn as <-.
      apply to_from_be_bytes.
  - intros v. cbv beta. change (to_be_bytes 1 v) with [byte_of_N v].
    change (from_be_bytes [byte_of_N v]) with (Byte.to_N (byte_of_N v)).
    unfold u8_max. split.
    + intros Hv. split; [done|]. rewrite byte_of_N_small by lia. done.
    + intros [_ ->]. pose proof (byte_bound (byte_of_N v)). lia.
  - intros v _. done.
Qed.

Lemma codec_i64 :
  codec read_i64 (λ z, (i64_min ≤ z ≤ i64_max)%Z) (λ z, to_be_bytes 8 (i64_to_u64 z)).
Proof.
  eapply codec_ext.
  - eapply (codec_map _ _ _ (λ bs, u64_to_i64 (from_be_bytes bs))
              (λ z, to_be_bytes 8 (i64_to_u64 z))); [apply codec_bytes|].
    intros bs Hn. pose proof (from_be_bytes_bound bs) as Hb. rewrite Hn in Hb.
    change (256 ^ 8) with 18446744073709551616 in Hb.
    rewrite (proj1 (u64_roundtrip (from_be_bytes bs) ltac:(unfold u64_max; lia))).
    unfold len in Hn. apply (Nat2N.inj _ 8) in Hn as <-. apply to_from_be_bytes.
  - intros z. simpl. unfold len. rewrite length_to_be_bytes.
    pose proof (i64_to_u64_bound z) as Hb. unfold u64_max in Hb.
    rewrite from_to_be_bytes by (change (256 ^ N.of_nat 8) with 18446744073709551616; lia).
    split.
    + intros Hz. split; [done|]. by rewrite i64_roundtrip.
    + intros [_ ->]. by apply u64_roundtrip.
  - done.
Qed.

(** [String::from_utf8] of the bytes just read. *)
Lemma codec_utf8 (g : string → error) bs :
  codec (read_lift (map_err g (from_utf8 bs))) (λ s, wt_string s ∧ str_bytes s = bs) (λ _, []).
Proof.
  split.
  - intros r s r' Hwf. unfold read_lift. destruct (from_utf8 bs) as [s'| |] eqn:E; simpl.
    + apply from_utf8_ok in E as [Hv <-]. rewrite len_nil, advance_0. split.
      * intros [= <- <-]. split_and!; eauto.
      * intros ((_ & Hs) & _ & ->). do 2 f_equal.
        by rewrite <- (str_of_str_bytes s), Hs, str_of_str_bytes.
    + split; [done|]. intros ((Hv & <-) & _).
      assert (from_utf8 (str_bytes s) = Ok s) as Hok by by apply from_utf8_ok.
      congruence.
    + by apply from_utf8_no_panic in E.
  - intros r _ m. unfold read_lift. destruct (from_utf8 bs) eqn:E; [done..|].
    by apply from_utf8_no_panic in E.
Qed.

Lemma codec_string : codec read_string (λ s, wt_string s ∧ fits_string s) enc_string.
Proof.
  eapply codec_ext.
  - unfold read_string.
    eapply (codec_bind _ _ _ _ (λ n s, str_len s = n ∧ wt_string s)
             (λ _ s, str_bytes s) str_len); [apply codec_u16| |by intros ?? _ [? _]].
    intros n _. eapply codec_ext.
    + eapply (codec_bind _ _ _ _ (λ bs s, wt_string s ∧ str_bytes s = bs)
               (λ _ _, []) str_bytes); [apply codec_bytes| |by intros ?? _ [_ ?]].
      intros bs _. apply codec_utf8.
    + intros s. simpl. unfold str_len. naive_solver.
    + intros s _. simpl. by rewrite app_nil_r.
  - intros s. simpl. unfold fits_string. naive_solver.
  - done.
Qed.

Lemma codec_empty {A} (rd : reader A) enc (P : A → Prop) :
  codec rd (λ _, False) enc → (∀ a, ¬ P a) → codec rd P enc.
Proof. intros Hc HP. eapply codec_ext; [exact Hc|naive_solver|done]. Qed.

(** Reading a payload and wrapping it in a constructor with partial inverse. *)
Lemma codec_wrap {A B} (rd : reader A) ok enc (f : A → B) (P : B → Prop) (g : B → list byte) :
  codec rd ok enc →
  (∀ b, P b ↔ ∃ a, ok a ∧ b = f a) → (∀ a, ok a → g (f a) = enc a) →
  (∀ a a', f a = f a' → a = a') →
  codec (a ← rd; mret (f a)) P g.
Proof.
  intros Hc HP Hg Hf. split.
  - intros r b r' Hwf. unfold mbind, reader_bind. rewrite HP. split.
    + destruct (rd r) as [[a r1]| |] eqn:E; try done. intros [= <- <-].
      apply (codec_reads _ _ _ Hc) in E as (Ha & Htl & ->); [|done].
      rewrite (Hg _ Ha). eauto.
    + intros ((a & Ha & ->) & Htl & ->). rewrite (Hg _ Ha) in *.
      assert (rd r = Ok (a, advance r (len (enc a)))) as ->; [|done].
      apply (codec_reads _ _ _ Hc); eauto.
  - intros r Hwf. unfold mbind, reader_bind.
    pose proof (codec_no_panic _ _ _ Hc r Hwf) as Hp.
    destruct (rd r) as [[a r1]| |]; [done|done|by edestruct Hp].
Qed.

Definition constant_tag (c : Constant.t) : N :=
  match c with
  | Constant.Null => 0
  | Constant.Int _ => 1
  | Constant.Double _ => 2
  | Constant.Bool _ => 3
  | Constant.String _ => 4
  end.

Definition enc_payload (c : Constant.t) : list byte :=
  match c with
  | Constant.Null => []
  | Constant.Int z => to_be_bytes 8 (i64_to_u64 z)
  | Constant.Double b => to_be_bytes 8 b
  | Constant.Bool b => [if b then x01 else x00]
  | Constant.String s => enc_string s
  end.

Lemma codec_bool_payload :
  codec (b ← read_u8;
         match b with
         | 0 => mret (Constant.Bool false)
         | 1 => mret (Constant.Bool true)
         | other => read_fail ("invalid bool constant byte " +:+ dec other)
         end)
    (λ c, ∃ b, c = Constant.Bool b) enc_payload.
Proof.
  eapply codec_ext.
  - eapply (codec_bind _ _ _ _
      (λ n c, (n = 0 ∧ c = Constant.Bool false) ∨ (n = 1 ∧ c = Constant.Bool true))
      (λ _ _, []) (λ c, if decide (c = Constant.Bool true) then 1 else 0)).
    + apply codec_u8.
    + intros [|[p|p|]] _.
      2,3: eapply codec_empty; [apply codec_fail|naive_solver].
      all: eapply codec_ext; [apply codec_ret| |done]; naive_solver.
    + intros n c _ [[-> ->]|[-> ->]]; done.
  - intros c. simpl. split.
    + intros [[] ->]; unfold u8_max; simpl; naive_solver lia.
    + intros (_ & [[_ ->]|[_ ->]]); eauto.
  - intros c (_ & [[_ ->]|[_ ->]]); done.
Qed.

Lemma codec_constant :
  codec read_constant (λ c, wt_constant c ∧ fits_constant c) enc_constant.
Proof.
  eapply codec_ext.
  - unfold read_constant. eapply (codec_bind _ _ _ _
      (λ n c, constant_tag c = n ∧ wt_constant c ∧ fits_constant c)
      (λ _ c, enc_payload c) constant_tag).
    + apply codec_u8.
    + intros n _.
      assert (n = 0 ∨ n = 1 ∨ n = 2 ∨ n = 3 ∨ n = 4 ∨ 4 < n) as
        [-> | [-> | [-> | [-> | [->|Hn]]]]] by lia.
      * eapply codec_ext; [apply (codec_ret Constant.Null)| |by intros ? ->].
        intros []; simpl; naive_solver.
      * eapply codec_wrap; [apply codec_i64| |done|by intros ?? [= ->]].
        intros []; simpl; naive_solver.
      * eapply codec_wrap; [apply codec_f64| |done|by intros ?? [= ->]].
        intros []; simpl; naive_solver.
      * eapply codec_ext; [apply codec_bool_payload| |done].
        intros []; simpl; naive_solver.
      * eapply codec_wrap; [apply codec_string| |done|by intros ?? [= ->]].
        intros []; simpl; naive_solver.
      * destruct n as [|[[[]|[]|]|[[]|[]|]|]]; try lia.
        all: eapply codec_empty; [apply codec_fail|].
        all: intros []; simpl; intros [? _]; lia.
    + naive_solver.
  - intros c. simpl. unfold u8_max.
    assert (constant_tag c ≤ 255) by (destruct c; simpl; lia). naive_solver.
  - intros [] _; done.
Qed.

Lemma codec_counted {A} (item : reader A) ok enc :
  codec item ok enc →
  codec (read_counted item) (λ l, len l ≤ u16_max ∧ Forall ok l) (enc_counted enc).
Proof.
  intros Hc. eapply codec_ext.
  - unfold read_counted. eapply (codec_bind _ _ _ _
      (λ n l, length l = N.to_nat n ∧ Forall ok l) (λ _ l, enc_all enc l) len).
    + apply codec_u16.
    + intros n _. by apply codec_n.
    + unfold len. intros n l _ [-> _]. lia.
  - intros l. simpl. unfold len. rewrite Nat2N.id. naive_solver.
  - done.
Qed.

Lemma codec_convention :
  codec read_return_convention known_convention enc_convention.
Proof.
  eapply codec_ext.
  - unfold read_return_convention. eapply (codec_bind _ _ _ _
      (λ n s, (n = 0 ∧ s = "tagged"%string) ∨ (n = 1 ∧ s = "unboxed_int64"%string))
      (λ _ _, []) (λ s, if String.eqb s "tagged" then 0 else 1)).
    + apply codec_u8.
    + intros [|[p|p|]] _.
      2,3: eapply codec_empty; [apply codec_fail|naive_solver].
      all: eapply codec_ext; [apply codec_ret| |done]; naive_solver.
    + intros n c _ [[-> ->]|[-> ->]]; done.
  - intros s. unfold known_convention, u8_max. split.
    + intros [-> | ->]; simpl; naive_solver lia.
    + intros (_ & [[_ ->]|[_ ->]]); eauto.
  - intros s (_ & [[_ ->]|[_ ->]]); done.
Qed.

Definition async_kind_tag (k : AsyncKind.t) : N :=
  match k with
  | AsyncKind.Sync => 0
  | AsyncKind.AsyncFuture => 1
  | AsyncKind.AsyncStar => 2
  | AsyncKind.SyncStar => 3
  end.

Lemma codec_async_kind v :
  codec (read_async_kind v) (λ k, v < 3 → k = AsyncKind.Sync) (enc_async_kind v).
Proof.
  unfold read_async_kind, enc_async_kind. destruct (N.leb_spec 3 v); cycle 1.
  { eapply codec_ext; [apply codec_ret|naive_solver|done]. }
  eapply codec_ext.
  - eapply (codec_bind _ _ _ _ (λ n k, async_kind_tag k = n) (λ _ _, []) async_kind_tag).
    + apply codec_u8.
    + intros n _.
      assert (n = 0 ∨ n = 1 ∨ n = 2 ∨ n = 3 ∨ 3 < n) as [-> | [-> | [-> | [->|Hn]]]] by lia.
      1-4: eapply codec_ext; [apply codec_ret| |done]; intros []; simpl; naive_solver.
      destruct n as [|[[[]|[]|]|[[]|[]|]|]]; try lia.
      all: eapply codec_empty; [apply codec_fail|]; intros []; simpl; lia.
    + done.
  - intros k. simpl. unfold u8_max. split; [|lia].
    intros _. split; [destruct k; simpl; lia|done].
  - intros [] _; done.
Qed.

Lemma codec_code : codec read_code (λ c, len c ≤ u32_max) enc_code.
Proof.
  eapply codec_ext.
  - unfold read_code.
    eapply (codec_bind _ _ _ _ (λ n c, len c = n) (λ _ c, c) len);
      [apply codec_u32|intros n _; apply codec_bytes|done].
  - naive_solver.
  - done.
Qed.

Lemma codec_source_map_entry :
  codec read_source_map_entry
    (λ e, wt_source_map_entry e ∧ fits_string (source_location e)) enc_source_map_entry.
Proof.
  eapply codec_ext.
  - unfold read_source_map_entry.
    eapply (codec_bind _ _ _ _
      (λ o e, bytecode_offset e = o ∧ wt_string (source_location e)
              ∧ fits_string (source_location e))
      (λ _ e, enc_string (source_location e)) bytecode_offset);
      [apply codec_u32| |naive_solver].
    intros o _. eapply codec_wrap; [apply codec_string| |done|by intros ?? [= ->]].
    intros [o' l]; simpl; naive_solver.
  - intros [o l]; unfold wt_source_map_entry; simpl; naive_solver.
  - done.
Qed.

Lemma codec_debug_local :
  codec read_debug_local
    (λ e, wt_debug_local e ∧ fits_string (local_name e)) enc_debug_local.
Proof.
  eapply codec_ext.
  - unfold read_debug_local.
    eapply (codec_bind _ _ _ _
      (λ o e, slot e = o ∧ wt_string (local_name e) ∧ fits_string (local_name e))
      (λ _ e, enc_string (local_name e)) slot);
      [apply codec_u16| |naive_solver].
    intros o _. eapply codec_wrap; [apply codec_string| |done|by intros ?? [= ->]].
    intros [o' l]; simpl; naive_solver.
  - intros [o l]; unfold wt_debug_local; simpl; naive_solver.
  - done.
Qed.

Lemma codec_debug_locals v :
  codec (read_debug_locals v)
    (λ l, (len l ≤ u16_max ∧ Forall (λ e, wt_debug_local e ∧ fits_string (local_name e)) l)
          ∧ (v < 2 → l = []))
    (enc_debug_locals v).
Proof.
  unfold read_debug_locals, enc_debug_locals. destruct (N.leb_spec 2 v).
  - eapply codec_ext; [apply codec_counted, codec_debug_local| |done].
    intros l. simpl. naive_solver lia.
  - eapply codec_ext; [apply codec_ret| |done].
    intros l. simpl. split; [naive_solver|]. intros ->. split; [|done].
    split; [unfold len; simpl; unfold u16_max; lia|constructor].
Qed.

(** ** Functions and modules *)
Lemma codec_function v : codec (read_function v) (ok_function v) (enc_function v).
Proof.
  eapply codec_ext.
  - unfold read_function.
    eapply (codec_bind _ _ _ _ (λ x0 f, _) (λ x0 f, _) name);
      [apply codec_string|intros x0 _|shelve].
    eapply (codec_bind _ _ _ _ (λ x1 f, _) (λ x1 f, _) return_convention);
      [apply codec_convention|intros x1 _|shelve].
    eapply (codec_bind _ _ _ _ (λ x2 f, _) (λ x2 f, _) async_kind);
      [apply codec_async_kind|intros x2 _|shelve].
    eapply (codec_bind _ _ _ _ (λ x3 f, _) (λ x3 f, _) param_count);
      [apply codec_u8|intros x3 _|shelve].
    eapply (codec_bind _ _ _ _ (λ x4 f, _) (λ x4 f, _) local_count);
      [apply codec_u8|intros x4 _|shelve].
    eapply (codec_bind _ _ _ _ (λ x5 f, _) (λ x5 f, _) constants);
      [apply codec_counted, codec_constant|intros x5 _|shelve].
    eapply (codec_bind _ _ _ _ (λ x6 f, _) (λ x6 f, _) code);
      [apply codec_code|intros x6 _|shelve].
    eapply (codec_bind _ _ _ _ (λ x7 f, _) (λ x7 f, _) source_map);
      [apply codec_counted, codec_source_map_entry|intros x7 _|shelve].
    eapply (codec_bind _ _ _ _ (λ x8 f, f = Build_BytecodeFunction x0 x1 x2 x3 x4 x5 x6 x7 x8)
              (λ x8 f, []) debug_locals);
      [apply codec_debug_locals|intros x8 _; apply codec_ret|by intros ?? _ ->].
    Unshelve.
    all: cbv beta; intros; destruct_and?; subst; try done.
    all: match goal with H : _ = Build_BytecodeFunction _ _ _ _ _ _ _ _ _ |- _ => by rewrite H end.
  - intros f. cbv beta. rewrite !list.Forall_and. split.
    + intros ([] & [] & []). destruct f; simpl in *. naive_solver.
    + intros H. destruct_and!. repeat split; naive_solver.
  - intros f _. unfold enc_function. by rewrite app_nil_r.
Qed.

Lemma codec_magic magic : codec (expect_magic magic) (λ _, True) (λ _, magic).
Proof.
  unfold expect_magic. eapply codec_ext.
  - eapply (codec_bind _ _ _ _ (λ bs _, bs = magic) (λ _ _, []) (λ _, magic));
      [apply codec_bytes| |naive_solver].
    intros bs _. destruct (decide (bs = magic)).
    + eapply codec_ext; [apply codec_ret| |done]. intros []. naive_solver.
    + eapply codec_empty; [apply codec_fail|naive_solver].
  - naive_solver.
  - intros u _. simpl. by rewrite app_nil_r.
Qed.

Lemma codec_module : codec read_module ok_module enc_module.
Proof.
  eapply codec_ext.
  - unfold read_module.
    eapply (codec_bind _ _ _ _ (λ _ m, _) (λ _ m, _) (λ _, tt));
      [|intros _ _|by intros [] ? _ _].
    + apply codec_magic.
    + eapply (codec_bind _ _ _ _ (λ v m, _) (λ v m, _) version);
        [apply codec_u32|intros v _|shelve].
      eapply (codec_bind _ _ _ _ (λ fs m, m = Build_BytecodeModule v fs) (λ _ _, []) functions);
        [apply codec_counted, codec_function|intros fs _; apply codec_ret|by intros ?? _ ->].
  - intros [v fs]. unfold ok_module. naive_solver.
  - intros m _. unfold enc_module. by rewrite !app_nil_r.
  Unshelve.
  cbv beta. intros; destruct_and!; subst. by match goal with H : _ = Build_BytecodeModule _ _ |- _ => rewrite H end.
Qed.

(** The reader decodes exactly the encodings of admissible modules. *)
Lemma read_binary_iff bs m :
  len bs ≤ usize_max → read_binary bs = Ok m ↔ ok_module m ∧ bs = enc_module m.
Proof.
  intros Hlen. unfold read_binary.
  assert (wf_reader (reader_new bs)) as Hwf by (split; simpl; lia).
  split.
  - intros H. apply bind_ok in H as ([m' r] & Hm & H).
    apply bind_ok in H as ([] & Hf & [= ->]).
    apply (codec_reads _ _ _ codec_module) in Hm as (Hok & [tl Htl] & ->); [|done].
    change (bs = enc_module m ++ tl) in Htl. subst bs. split; [done|].
    unfold reader_finish, advance, reader_new in Hf.
    cbn [r_pos r_bytes] in Hf. rewrite len_app in Hf.
    destruct tl; [by rewrite app_nil_r|]. rewrite len_cons in Hf.
    destruct (N.eqb_spec (0 + len (enc_module m)) (len (enc_module m) + (1 + len tl)));
      [lia|done].
  - intros [Hok ->].
    assert (read_module (reader_new (enc_module m))
            = Ok (m, advance (reader_new (enc_module m)) (len (enc_module m)))) as ->.
    { apply (codec_reads _ _ _ codec_module); [done|]. split_and!; [done| |done].
      exists []. by rewrite app_nil_r. }
    cbn [mbind res_bind]. unfold reader_finish, advance, reader_new.
    cbn [r_pos r_bytes]. by rewrite N.add_0_l, N.eqb_refl.
Qed.

Lemma read_binary_no_panic bs : len bs ≤ usize_max → no_panic (read_binary bs).
Proof.
  intros Hlen. unfold read_binary. apply bind_no_panic.
  - apply (codec_no_panic _ _ _ codec_module). split; simpl; lia.
  - intros [m r] _. apply bind_no_panic; [|done].
    unfold reader_finish. by destruct (_ =? _).
Qed.

(** ** The writers *)
Definition writes {A} (write : list byte → A → result (list byte)) (fits : A → Prop)
    (enc : A → list byte) : Prop :=
  ∀ out a out', write out a = Ok out' ↔ fits a ∧ out' = out ++ enc a.

Lemma try_from_ok max v v' : try_from max v = Some v' ↔ v ≤ max ∧ v' = v.
Proof. unfold try_from. destruct (N.leb_spec v max); naive_solver lia. Qed.

Lemma write_u16_ok out v label out' :
  write_u16 out v label = Ok out' ↔ v ≤ u16_max ∧ out' = out ++ to_be_bytes 2 v.
Proof.
  unfold write_u16. rewrite bind_ok. setoid_rewrite ok_or_ok.
  setoid_rewrite try_from_ok. naive_solver.
Qed.
Lemma write_u32_ok out v label out' :
  write_u32 out v label = Ok out' ↔ v ≤ u32_max ∧ out' = out ++ to_be_bytes 4 v.
Proof.
  unfold write_u32. rewrite bind_ok. setoid_rewrite ok_or_ok.
  setoid_rewrite try_from_ok. naive_solver.
Qed.

Lemma write_string_ok label : writes (λ out s, write_string out s label) fits_string enc_string.
Proof.
  intros out s out'. unfold write_string, enc_string. rewrite bind_ok.
  setoid_rewrite write_u16_ok. split.
  - intros (o & [? ->] & [= <-]). by rewrite <- app_assoc.
  - intros [? ->]. eexists. split; [done|]. by rewrite <- app_assoc.
Qed.

Lemma write_constant_ok : writes write_constant fits_constant enc_constant.
Proof.
  intros out [z|b|[]|s|] out'; simpl.
  1-4,6: naive_solver.
  rewrite (write_string_ok _ _ _ _). by rewrite <- app_assoc.
Qed.

Lemma write_all_ok {A} (write : list byte → A → result (list byte)) fits enc :
  writes write fits enc → writes (write_all write) (Forall fits) (enc_all enc).
Proof.
  intros Hw out l. revert out. induction l as [|a l IH]; intros out out'; simpl.
  - unfold enc_all. simpl. rewrite app_nil_r. naive_solver.
  - rewrite bind_ok, list.Forall_cons. unfold enc_all in *. simpl. split.
    + intros (o & Ho & Hl). apply Hw in Ho as [? ->]. apply IH in Hl as [? ->].
      by rewrite <- app_assoc.
    + intros [[??] ->]. exists (out ++ enc a). rewrite (Hw _ _ _), (IH _ _).
      by rewrite <- app_assoc.
Qed.

Lemma write_source_map_entry_ok :
  writes write_source_map_entry (λ e, fits_string (source_location e)) enc_source_map_entry.
Proof.
  intros out e out'. unfold write_source_map_entry, enc_source_map_entry.
  rewrite (write_string_ok _ _ _ _). by rewrite <- app_assoc.
Qed.
Lemma write_debug_local_ok :
  writes write_debug_local (λ e, fits_string (local_name e)) enc_debug_local.
Proof.
  intros out e out'. unfold write_debug_local, enc_debug_local.
  rewrite (write_string_ok _ _ _ _). by rewrite <- app_assoc.
Qed.

Lemma convention_byte_ok f b :
  convention_byte f = Ok b ↔
    known_convention (return_convention f) ∧ enc_convention (return_convention f) = [b].
Proof.
  unfold convention_byte, known_convention, enc_convention.
  destruct (String.eqb_spec (return_convention f) "tagged") as [->|H1].
  { naive_solver. }
  destruct (String.eqb_spec (return_convention f) "unboxed_int64") as [->|H2];
    naive_solver.
Qed.

(** Running a writer whose precondition holds. *)
Lemma writes_run {A} write (fits : A → Prop) enc out a :
  writes write fits enc → fits a → write out a = Ok (out ++ enc a).
Proof. intros Hw Ha. by apply Hw. Qed.

Lemma write_function_ok : writes write_function fits_function (enc_function 3).
Proof.
  intros out f out'. unfold write_function. split.
  - intros H. apply bind_ok in H as (o1 & H1 & H).
    apply (write_string_ok "function name") in H1 as [Hn ->].
    apply bind_ok in H as (conv & Hc & H). apply convention_byte_ok in Hc as [Hk Hc].
    apply bind_ok in H as (o2 & H2 & H). apply write_u16_ok in H2 as [Hcl ->].
    apply bind_ok in H as (o3 & H3 & H).
    apply (write_all_ok _ _ _ write_constant_ok) in H3 as [Hca ->].
    apply bind_ok in H as (o4 & H4 & H). apply write_u32_ok in H4 as [Hco ->].
    apply bind_ok in H as (o5 & H5 & H). apply write_u16_ok in H5 as [Hsl ->].
    apply bind_ok in H as (o6 & H6 & H).
    apply (write_all_ok _ _ _ write_source_map_entry_ok) in H6 as [Hsa ->].
    apply bind_ok in H as (o7 & H7 & H). apply write_u16_ok in H7 as [Hdl ->].
    apply (write_all_ok _ _ _ write_debug_local_ok) in H as [Hda ->].
    split; [by split|]. unfold enc_function, enc_counted, enc_code. rewrite Hc.
    by rewrite <- !app_assoc.
  - intros [[Hn Hk [Hcl Hca] Hco [Hsl Hsa] [Hdl Hda]] ->].
    rewrite (writes_run _ _ _ _ _ (write_string_ok "function name") Hn). cbn [mbind res_bind].
    assert (∃ b, enc_convention (return_convention f) = [b]) as [b Hb].
    { unfold enc_convention. destruct (String.eqb _ _); eauto. }
    rewrite (proj2 (convention_byte_ok f b)) by done. cbn [mbind res_bind].
    rewrite (proj2 (write_u16_ok _ _ _ _)) by done. cbn [mbind res_bind].
    rewrite (writes_run _ _ _ _ _ (write_all_ok _ _ _ write_constant_ok) Hca). cbn [mbind res_bind].
    rewrite (proj2 (write_u32_ok _ _ _ _)) by done. cbn [mbind res_bind].
    rewrite (proj2 (write_u16_ok _ _ _ _)) by done. cbn [mbind res_bind].
    rewrite (writes_run _ _ _ _ _ (write_all_ok _ _ _ write_source_map_entry_ok) Hsa). cbn [mbind res_bind].
    rewrite (proj2 (write_u16_ok _ _ _ _)) by done. cbn [mbind res_bind].
    rewrite (writes_run _ _ _ _ _ (write_all_ok _ _ _ write_debug_local_ok) Hda).
    f_equal. unfold enc_function, enc_counted, enc_code. rewrite Hb. by rewrite <- !app_assoc.
Qed.

Definition at_current_version (m : BytecodeModule) : BytecodeModule :=
  {| version := FORMAT_VERSION; functions := functions m |}.

Lemma write_module_iff m out :
  write_module m = Ok out ↔ fits_module m ∧ out = enc_module (at_current_version m).
Proof.
  unfold write_module, fits_module, enc_module, enc_counted. rewrite bind_ok.
  setoid_rewrite write_u16_ok. cbn [version functions at_current_version]. split.
  - intros (o & [Hl ->] & H). apply (write_all_ok _ _ _ write_function_ok) in H as [Ha ->].
    split; [done|]. by rewrite <- !app_assoc.
  - intros [[Hl Ha] ->]. eexists. split; [done|].
    rewrite (writes_run _ _ _ _ _ (write_all_ok _ _ _ write_function_ok) Ha).
    by f_equal.
Qed.

(** What the reader accepts at the current version is what the writer can
    write. *)
Lemma ok_module_current m :
  ok_module (at_current_version m) ↔ Forall wt_function (functions m) ∧ fits_module m.
Proof.
  unfold ok_module, fits_module, ok_function, legacy_function.
  cbn [version functions at_current_version]. unfold FORMAT_VERSION, u32_max. rewrite !list.Forall_and.
  assert (∀ l : list BytecodeFunction,
    Forall (λ f, (3 < 3 → async_kind f = AsyncKind.Sync) ∧ (3 < 2 → debug_locals f = [])) l).
  { intros l. apply Forall_true. intros f. by split. }
  specialize (H (functions m)). rewrite list.Forall_and in H.
  split; [naive_solver|]. intros (? & ? & ?). split; [lia|]. naive_solver.
Qed.
