(* ===== verification/BytecodeCheck.v ===== *)
(** * Bytecode validation and AOT targets

    Models the rest of [crates/fcb_core/src/bytecode.rs]: [validate_envelope],
    [validate_bytecode], [validate], the [from_*] and [to_*] entry points, and
    the collection of the functions a module calls by name in the AOT snapshot.
    [valid_bytecode] states, without reference to the scanning loops, what a
    well-formed function body is. *)
From S2P Require Import Prelude Text External Bytecode BytecodeWire.
Local Open Scope N_scope.

(** [{opcode:?}]. *)
Definition opcode_debug (op : OpCode.t) : string :=
  match op with
  | OpCode.LoadConst => "LoadConst" | OpCode.LoadArg => "LoadArg"
  | OpCode.LoadLocal => "LoadLocal" | OpCode.StoreLocal => "StoreLocal"
  | OpCode.Pop => "Pop" | OpCode.Add => "Add" | OpCode.Sub => "Sub"
  | OpCode.Mul => "Mul" | OpCode.Div => "Div" | OpCode.Greater => "Greater"
  | OpCode.Equal => "Equal" | OpCode.Jump => "Jump"
  | OpCode.JumpIfFalse => "JumpIfFalse" | OpCode.JumpIfTrue => "JumpIfTrue"
  | OpCode.MakeList => "MakeList" | OpCode.MakeMap => "MakeMap"
  | OpCode.StringConcat => "StringConcat" | OpCode.GetField => "GetField"
  | OpCode.SetField => "SetField" | OpCode.IsType => "IsType"
  | OpCode.AsType => "AsType" | OpCode.CallStatic => "CallStatic"
  | OpCode.CallDynamic => "CallDynamic" | OpCode.CallOriginal => "CallOriginal"
  | OpCode.CallClosure => "CallClosure" | OpCode.MakeClosure => "MakeClosure"
  | OpCode.NewObject => "NewObject" | OpCode.Throw => "Throw"
  | OpCode.TryBegin => "TryBegin" | OpCode.Await => "Await"
  | OpCode.AsyncReturn => "AsyncReturn" | OpCode.Yield => "Yield"
  | OpCode.TryFinally => "TryFinally" | OpCode.EndFinally => "EndFinally"
  | OpCode.Rethrow => "Rethrow" | OpCode.Return => "Return"
  end.

(** [read_u16(code, pos)]. *)
Definition read_u16_at (code : list byte) (pos : N) : result N :=
  a ← index code pos;
  b ← index code (pos + 1);
  Ok (from_be_bytes [a; b]).

Definition MARKER : string := ";named:".
Definition comma : Ascii.ascii := Ascii.ascii_of_nat 44.

Definition count_named_arguments (metadata : string) (require_prefix : bool) : N :=
  match find MARKER metadata with
  | None => 0
  | Some marker_start =>
    if require_prefix && negb (Nat.eqb marker_start 0) then 0
    else len (filter (λ n, n ≠ ""%string)
                (split comma (sdrop (marker_start + String.length MARKER) metadata)))
  end.

(** ** [validate_bytecode] *)
Definition has_string_operand (op : OpCode.t) : bool :=
  match op with
  | OpCode.GetField | OpCode.SetField | OpCode.IsType | OpCode.AsType
  | OpCode.CallStatic | OpCode.CallDynamic | OpCode.CallOriginal
  | OpCode.MakeClosure | OpCode.NewObject => true
  | _ => false
  end.
Definition has_named_arguments (op : OpCode.t) : bool :=
  match op with
  | OpCode.CallDynamic | OpCode.CallOriginal | OpCode.NewObject => true
  | _ => false
  end.
Definition is_jump (op : OpCode.t) : bool :=
  match op with
  | OpCode.Jump | OpCode.JumpIfFalse | OpCode.JumpIfTrue
  | OpCode.TryBegin | OpCode.TryFinally => true
  | _ => false
  end.
Definition is_try (op : OpCode.t) : bool :=
  match op with OpCode.TryBegin | OpCode.TryFinally => true | _ => false end.

(** The operand checks of the first loop, for the opcode at [pos]. *)
Definition check_operands (f : BytecodeFunction) (op : OpCode.t) (pos : N) : result unit :=
  let operand_start := pos + 1 in
  if decide (op = OpCode.LoadConst) then
    idx ← read_u16_at (code f) operand_start;
    if len (constants f) <=? idx then
      err ("LoadConst at offset " +:+ dec pos +:+ " references missing constant " +:+ dec idx)
    else Ok tt
  else if decide (op = OpCode.LoadArg) then
    b ← index (code f) operand_start;
    let idx := Byte.to_N b in
    if param_count f <=? idx then
      err ("LoadArg at offset " +:+ dec pos +:+ " references missing argument " +:+ dec idx)
    else Ok tt
  else if decide (op = OpCode.LoadLocal ∨ op = OpCode.StoreLocal) then
    b ← index (code f) operand_start;
    let idx := Byte.to_N b in
    if local_count f <=? idx then
      err (opcode_debug op +:+ " at offset " +:+ dec pos +:+ " references missing local " +:+ dec idx)
    else Ok tt
  else if decide (op = OpCode.CallClosure) then
    metadata_idx ← read_u16_at (code f) operand_start;
    if metadata_idx =? 0 then Ok tt
    else
      let idx := metadata_idx - 1 in
      match get (constants f) idx with
      | Some (Constant.String value) =>
        if negb (starts_with MARKER value) then
          err ("CallClosure metadata at offset " +:+ dec pos +:+ " must start with ;named:")
        else
          b ← index (code f) (operand_start + 2);
          let argc := Byte.to_N b in
          let named_count := count_named_arguments value true in
          if argc <? named_count then
            err ("CallClosure at offset " +:+ dec pos +:+ " has " +:+ dec named_count
                 +:+ " named arguments but argc is " +:+ dec argc)
          else Ok tt
      | _ =>
        err ("CallClosure at offset " +:+ dec pos
             +:+ " references missing metadata constant " +:+ dec idx)
      end
  else if has_string_operand op then
    idx ← read_u16_at (code f) operand_start;
    match get (constants f) idx with
    | Some (Constant.String value) =>
      if has_named_arguments op then
        b ← index (code f) (operand_start + 2);
        let argc := Byte.to_N b in
        let named_count := count_named_arguments value false in
        if argc <? named_count then
          err (opcode_debug op +:+ " at offset " +:+ dec pos +:+ " has " +:+ dec named_count
               +:+ " named arguments but argc is " +:+ dec argc)
        else Ok tt
      else Ok tt
    | _ =>
      err (opcode_debug op +:+ " at offset " +:+ dec pos
           +:+ " references missing string constant " +:+ dec idx)
    end
  else Ok tt.

(** The first [while] loop: operand checks, and the set [starts] of
    instruction offsets. *)
Fixpoint scan (fuel : nat) (f : BytecodeFunction) (pos : N) (starts : gset N) : result (gset N) :=
  match fuel with
  | O => Panic "out of fuel"
  | S fuel =>
    if pos <? len (code f) then
      let starts := {[pos]} ∪ starts in
      opcode_byte ← index (code f) pos;
      match OpCode.from_byte opcode_byte with
      | None => err ("invalid opcode 0x" +:+ hex2 false opcode_byte +:+ " at offset " +:+ dec pos)
      | Some op =>
        let operand_start := pos + 1 in
        let next := operand_start + OpCode.operand_len op in
        if len (code f) <? next then
          err ("opcode " +:+ opcode_debug op +:+ " at offset " +:+ dec pos +:+ " requires "
               +:+ dec (OpCode.operand_len op) +:+ " operand bytes")
        else
          _ ← check_operands f op pos;
          scan fuel f next starts
      end
    else Ok starts
  end.

(** The jump checks of the second loop, for the opcode at [pos]. *)
Definition check_targets (f : BytecodeFunction) (starts : gset N) (op : OpCode.t) (pos : N) :
    result unit :=
  let operand_start := pos + 1 in
  if is_jump op then
    target ← read_u16_at (code f) operand_start;
    if len (code f) <=? target then
      err (opcode_debug op +:+ " at offset " +:+ dec pos
           +:+ " targets out-of-range offset " +:+ dec target)
    else if negb (bool_decide (target ∈ starts)) then
      err (opcode_debug op +:+ " at offset " +:+ dec pos
           +:+ " targets non-instruction offset " +:+ dec target)
    else if is_try op then
      end_ ← read_u16_at (code f) (operand_start + 2);
      if len (code f) <=? end_ then
        err (opcode_debug op +:+ " at offset " +:+ dec pos
             +:+ " has out-of-range end offset " +:+ dec end_)
      else if negb (bool_decide (end_ ∈ starts)) then
        err (opcode_debug op +:+ " at offset " +:+ dec pos
             +:+ " has non-instruction end offset " +:+ dec end_)
      else if (target <=? pos) || (end_ <=? target) then
        err (opcode_debug op +:+ " at offset " +:+ dec pos
             +:+ " requires current < handler < end")
      else Ok tt
    else Ok tt
  else Ok tt.

(** The second [while] loop. *)
Fixpoint scan_targets (fuel : nat) (f : BytecodeFunction) (starts : gset N) (pos : N) :
    result unit :=
  match fuel with
  | O => Panic "out of fuel"
  | S fuel =>
    if pos <? len (code f) then
      b ← index (code f) pos;
      op ← expect "validated opcode" (OpCode.from_byte b);
      _ ← check_targets f starts op pos;
      scan_targets fuel f starts (pos + 1 + OpCode.operand_len op)
    else Ok tt
  end.

Definition counts_message (f : BytecodeFunction) : string :=
  "function " +:+ name f +:+ " local_count " +:+ dec (local_count f)
  +:+ " is smaller than param_count " +:+ dec (param_count f).

Definition validate_bytecode (f : BytecodeFunction) : result unit :=
  if local_count f <? param_count f then err (counts_message f)
  else
    starts ← scan (S (length (code f))) f 0 ∅;
    if decide (code f = []) then err ("function " +:+ name f +:+ " has empty bytecode")
    else scan_targets (S (length (code f))) f starts 0.

(** ** [validate_envelope] *)
Definition check_source_map_entry (f : BytecodeFunction) (e : SourceMapEntry) : result unit :=
  if len (code f) <=? bytecode_offset e then
    err ("source_map for function " +:+ name f +:+ " targets out-of-range bytecode offset "
         +:+ dec (bytecode_offset e))
  else if is_blank (source_location e) then
    err ("source_map for function " +:+ name f +:+ " has empty source_location")
  else Ok tt.

Definition check_debug_local (f : BytecodeFunction) (e : DebugLocalEntry) : result unit :=
  if param_count f + local_count f <=? slot e then
    err ("debug_locals for function " +:+ name f +:+ " targets out-of-range slot " +:+ dec (slot e))
  else if is_blank (local_name e) then
    err ("debug_locals for function " +:+ name f +:+ " has empty name")
  else Ok tt.

(** The loop over the functions, with the set [names] seen so far. *)
Fixpoint check_functions (names : gset string) (fs : list BytecodeFunction) : result unit :=
  match fs with
  | [] => Ok tt
  | f :: fs =>
    if is_blank (name f) then err "bytecode function name must not be empty"
    else if negb (String.eqb (return_convention f) "tagged")
            && negb (String.eqb (return_convention f) "unboxed_int64") then
      err ("unsupported return_convention " +:+ return_convention f
           +:+ " for function " +:+ name f)
    else if bool_decide (name f ∈ names) then
      err ("duplicate bytecode function " +:+ name f)
    else if local_count f <? param_count f then err (counts_message f)
    else if decide (code f = []) then err ("function " +:+ name f +:+ " has empty bytecode")
    else
      _ ← for_each (check_source_map_entry f) (source_map f);
      _ ← for_each (check_debug_local f) (debug_locals f);
      check_functions ({[name f]} ∪ names) fs
  end.

Definition validate_envelope (m : BytecodeModule) : result unit :=
  if (version m <? MIN_SUPPORTED_MODULE_VERSION) || (FORMAT_VERSION <? version m) then
    err ("unexpected bytecode module version " +:+ dec (version m) +:+ ", supported range "
         +:+ dec MIN_SUPPORTED_MODULE_VERSION +:+ "..=" +:+ dec FORMAT_VERSION)
  else if decide (functions m = []) then
    err "bytecode module must contain at least one function"
  else check_functions ∅ (functions m).

Definition validate (m : BytecodeModule) : result unit :=
  _ ← validate_envelope m;
  for_each validate_bytecode (functions m).

(** ** Entry points *)
Definition from_binary (bytes : list byte) : result BytecodeModule :=
  m ← read_binary bytes; _ ← validate m; Ok m.
Definition from_binary_envelope (bytes : list byte) : result BytecodeModule :=
  m ← read_binary bytes; _ ← validate_envelope m; Ok m.

(** [bytes.starts_with(BINARY_MAGIC)]. *)
Definition has_magic (bytes : list byte) : bool :=
  bool_decide (take (length BINARY_MAGIC) bytes = BINARY_MAGIC).

Section Json.
Context `{Serde BytecodeModule}.

Definition module_from_slice (bytes : list byte) : result BytecodeModule :=
  if has_magic bytes then from_binary bytes
  else m ← map_err Json (from_slice bytes); _ ← validate m; Ok m.
Definition module_from_slice_envelope (bytes : list byte) : result BytecodeModule :=
  if has_magic bytes then from_binary_envelope bytes
  else m ← map_err Json (from_slice bytes); _ ← validate_envelope m; Ok m.
Definition module_to_vec (m : BytecodeModule) : result (list byte) :=
  _ ← validate m; map_err Json (to_vec m).
End Json.

Definition to_binary_vec (m : BytecodeModule) : result (list byte) :=
  _ ← validate m; write_module m.

(** ** Functions called by name *)
(** The [while] loop of [targets_for] over one function. *)
Fixpoint collect_targets (fuel : nat) (opcodes : list OpCode.t) (f : BytecodeFunction)
    (pos : N) (targets : gset string) : result (gset string) :=
  match fuel with
  | O => Panic "out of fuel"
  | S fuel =>
    if pos <? len (code f) then
      b ← index (code f) pos;
      match OpCode.from_byte b with
      | None => Ok targets
      | Some op =>
        let operand_start := pos + 1 in
        targets ←
          (if bool_decide (op ∈ opcodes) && (operand_start + 2 <=? len (code f)) then
             idx ← read_u16_at (code f) operand_start;
             match get (constants f) idx with
             | Some (Constant.String target) => Ok ({[target]} ∪ targets)
             | _ => Ok targets
             end
           else Ok targets);
        collect_targets fuel opcodes f (operand_start + OpCode.operand_len op) targets
      end
    else Ok targets
  end.

Fixpoint collect_all (opcodes : list OpCode.t) (fs : list BytecodeFunction)
    (targets : gset string) : result (gset string) :=
  match fs with
  | [] => Ok targets
  | f :: fs =>
    targets ← collect_targets (S (length (code f))) opcodes f 0 targets;
    collect_all opcodes fs targets
  end.

Definition targets_for (opcodes : list OpCode.t) (m : BytecodeModule) : result (list string) :=
  btree_iter <$> collect_all opcodes (functions m) ∅.
Definition call_original_targets : BytecodeModule → result (list string) :=
  targets_for [OpCode.CallOriginal].
Definition aot_referenced_targets : BytecodeModule → result (list string) :=
  targets_for [OpCode.CallStatic; OpCode.CallOriginal].
Definition missing_aot_targets (m : BytecodeModule) (aot_present : gset string) :
    result (list string) :=
  filter (λ target, target ∉ aot_present) <$> aot_referenced_targets m.

(** ** What a well-formed function body is *)
Definition byte_at (code : list byte) (p : N) : N := default 0 (Byte.to_N <$> get code p).
Definition u16_at (code : list byte) (p : N) : N := byte_at code p * 256 + byte_at code (p + 1).

(** An instruction with opcode [op] lies at [p] within the code. *)
Definition fetch (code : list byte) (p : N) (op : OpCode.t) : Prop :=
  get code p ≫= OpCode.from_byte = Some op.
Definition next_pc (p : N) (op : OpCode.t) : N := p + 1 + OpCode.operand_len op.

(** Decoding from [p], instruction by instruction, gets to [q]. *)
Inductive reaches (code : list byte) : N → N → Prop :=
| reaches_refl p : reaches code p p
| reaches_step p op q : fetch code p op → reaches code (next_pc p op) q → reaches code p q.

Definition instr_start (code : list byte) (p : N) : Prop := reaches code 0 p ∧ p < len code.

Definition string_constant (f : BytecodeFunction) (idx : N) (s : string) : Prop :=
  get (constants f) idx = Some (Constant.String s).

Definition operands_ok (f : BytecodeFunction) (op : OpCode.t) (p : N) : Prop :=
  let idx := u16_at (code f) (p + 1) in
  let argc := byte_at (code f) (p + 3) in
  match op with
  | OpCode.LoadConst => idx < len (constants f)
  | OpCode.LoadArg => byte_at (code f) (p + 1) < param_count f
  | OpCode.LoadLocal | OpCode.StoreLocal => byte_at (code f) (p + 1) < local_count f
  | OpCode.CallClosure =>
      idx = 0 ∨ ∃ s, string_constant f (idx - 1) s ∧ starts_with MARKER s = true
                     ∧ count_named_arguments s true ≤ argc
  | _ =>
      if has_named_arguments op then
        ∃ s, string_constant f idx s ∧ count_named_arguments s false ≤ argc
      else if has_string_operand op then ∃ s, string_constant f idx s
      else True
  end.

Definition targets_ok (f : BytecodeFunction) (op : OpCode.t) (p : N) : Prop :=
  let target := u16_at (code f) (p + 1) in
  let end_ := u16_at (code f) (p + 3) in
  (is_jump op = true → instr_start (code f) target) ∧
  (is_try op = true → instr_start (code f) end_ ∧ p < target < end_).

Record valid_bytecode (f : BytecodeFunction) : Prop := {
  valid_counts : param_count f ≤ local_count f;
  valid_nonempty : code f ≠ [];
  valid_instrs p : instr_start (code f) p →
    ∃ op, fetch (code f) p op ∧ next_pc p op ≤ len (code f)
          ∧ operands_ok f op p ∧ targets_ok f op p;
}.

(** The declarative counterparts for the envelope. *)
Record valid_envelope_function (f : BytecodeFunction) : Prop := {
  ve_name : is_blank (name f) = false;
  ve_convention : known_convention (return_convention f);
  ve_counts : param_count f ≤ local_count f;
  ve_code : code f ≠ [];
  ve_source_map : Forall (λ e, bytecode_offset e < len (code f)
                              ∧ is_blank (source_location e) = false) (source_map f);
  ve_debug_locals : Forall (λ e, slot e < param_count f + local_count f
                              ∧ is_blank (local_name e) = false) (debug_locals f);
}.
Record valid_envelope (m : BytecodeModule) : Prop := {
  ve_version : MIN_SUPPORTED_MODULE_VERSION ≤ version m ≤ FORMAT_VERSION;
  ve_nonempty : functions m ≠ [];
  ve_functions : Forall valid_envelope_function (functions m);
  ve_names : NoDup (name <$> functions m);
}.

(** [t] is the string operand of an [ops] instruction of the module. *)
Definition calls_target (ops : list OpCode.t) (m : BytecodeModule) (t : string) : Prop :=
  ∃ f p op, f ∈ functions m ∧ reaches (code f) 0 p ∧ fetch (code f) p op ∧ op ∈ ops
            ∧ p + 3 ≤ len (code f) ∧ string_constant f (u16_at (code f) (p + 1)) t.

(** ** Indexing *)
Lemma index_byte code p :
  p < len code → ∃ b, index code p = Ok b ∧ get code p = Some b ∧ Byte.to_N b = byte_at code p.
Proof.
  intros [b Hb]%get_some. exists b. unfold index, byte_at. by rewrite Hb.
Qed.

Lemma read_u16_at_ok code p : p + 2 ≤ len code → read_u16_at code p = Ok (u16_at code p).
Proof.
  intros Hp. unfold read_u16_at, u16_at.
  destruct (index_byte code p) as (a & -> & _ & <-); [lia|].
  destruct (index_byte code (p + 1)) as (b & -> & _ & <-); [lia|].
  done.
Qed.

Lemma fetch_lt code p op : fetch code p op → p < len code.
Proof. unfold fetch. destruct (get code p) eqn:E; [|done]. intros _. by eapply get_lt. Qed.
Lemma fetch_det code p op op' : fetch code p op → fetch code p op' → op = op'.
Proof. unfold fetch. congruence. Qed.

Lemma reaches_inv code p q :
  reaches code p q → q = p ∨ ∃ op, fetch code p op ∧ reaches code (next_pc p op) q.
Proof. destruct 1; eauto. Qed.
Lemma reaches_le code p q : reaches code p q → p ≤ q.
Proof. induction 1; unfold next_pc in *; lia. Qed.

(** ** Operand checks *)
Lemma check_operands_spec f op p :
  next_pc p op ≤ len (code f) →
  no_panic (check_operands f op p) ∧ (check_operands f op p = Ok tt ↔ operands_ok f op p).
Proof.
  unfold next_pc. intros Hp.
  assert (2 ≤ OpCode.operand_len op → read_u16_at (code f) (p + 1) = Ok (u16_at (code f) (p + 1)))
    as Hu16 by (intros; apply read_u16_at_ok; lia).
  assert (1 ≤ OpCode.operand_len op → ∃ b, index (code f) (p + 1) = Ok b
            ∧ Byte.to_N b = byte_at (code f) (p + 1)) as Hb1.
  { intros. destruct (index_byte (code f) (p + 1)) as (b & ? & _ & ?); [lia|eauto]. }
  assert (3 ≤ OpCode.operand_len op → ∃ b, index (code f) (p + 1 + 2) = Ok b
            ∧ Byte.to_N b = byte_at (code f) (p + 3)) as Hb3.
  { intros. destruct (index_byte (code f) (p + 1 + 2)) as (b & ? & _ & ?); [lia|].
    exists b. replace (p + 3) with (p + 1 + 2) by lia. eauto. }
  unfold check_operands, operands_ok, string_constant.
  destruct op; cbn [OpCode.operand_len] in *; simpl;
    try (rewrite Hu16 by lia); simpl;
    try (destruct (Hb1 ltac:(lia)) as (b1 & E1 & E1'); rewrite E1; simpl; rewrite E1');
    try (destruct (Hb3 ltac:(lia)) as (b3 & E3 & E3')); try rewrite E3; simpl; try done.
  all: repeat case_match; simpl in *; simplify_eq.
  all: rewrite ?N.leb_gt, ?N.leb_le, ?N.ltb_lt, ?N.ltb_ge, ?N.eqb_eq, ?N.eqb_neq,
         ?negb_true_iff, ?negb_false_iff in *.
  all: split; [by intros ?|]; try done; try naive_solver lia.
  split; [discriminate|]. intros [?|(s & [= <-] & ? & _)]; congruence.
Qed.

(** ** The scan of the first loop *)
Definition instr_ok (f : BytecodeFunction) (p : N) : Prop :=
  ∃ op, fetch (code f) p op ∧ next_pc p op ≤ len (code f) ∧ operands_ok f op p.

Definition fuel_for (code : list byte) (pos : N) (fuel : nat) : Prop :=
  (N.to_nat (len code - pos) < fuel)%nat.
Lemma fuel_step code pos fuel op :
  fuel_for code pos (S fuel) → pos < len code → fuel_for code (next_pc pos op) fuel.
Proof. unfold fuel_for, next_pc. lia. Qed.
Lemma fuel_init code : fuel_for code 0 (S (length code)).
Proof. unfold fuel_for, len. lia. Qed.
Lemma fetch_index code p op :
  fetch code p op → ∃ b, index code p = Ok b ∧ OpCode.from_byte b = Some op.
Proof.
  unfold fetch, index. destruct (get code p) as [b|]; [|done]. simpl. intros ?. by exists b.
Qed.
Lemma index_fetch code p b op :
  index code p = Ok b → OpCode.from_byte b = Some op → fetch code p op.
Proof. unfold fetch, index. destruct (get code p); [|done]. simpl. naive_solver. Qed.

Lemma scan_no_panic fuel f pos S :
  fuel_for (code f) pos fuel → no_panic (scan fuel f pos S).
Proof.
  revert pos S. induction fuel as [|fuel IH]; intros pos S Hfuel; [unfold fuel_for in *; lia|].
  cbn [scan]. destruct (N.ltb_spec pos (len (code f))) as [Hlt|]; [|done].
  destruct (index_byte _ _ Hlt) as (b & -> & _). cbn [mbind res_bind].
  destruct (OpCode.from_byte b) as [op|]; [|done].
  destruct (N.ltb_spec (len (code f)) (pos + 1 + OpCode.operand_len op)); [done|].
  apply bind_no_panic; [by apply check_operands_spec|].
  intros [] _. by eapply IH, fuel_step.
Qed.

Lemma scan_step fuel f pos S S' :
  scan (Datatypes.S fuel) f pos S = Ok S' ↔
    (len (code f) ≤ pos ∧ S' = S) ∨
    (∃ op, fetch (code f) pos op ∧ next_pc pos op ≤ len (code f) ∧ operands_ok f op pos
           ∧ scan fuel f (next_pc pos op) ({[pos]} ∪ S) = Ok S').
Proof.
  cbn [scan]. destruct (N.ltb_spec pos (len (code f))) as [Hlt|Hge].
  2:{ split; [naive_solver|]. intros [[_ ->]|(op & ?%fetch_lt & _)]; [done|lia]. }
  split.
  - intros H. right. inv_res H. case_res H.
    inv_res H. destruct a0. apply N.ltb_ge in Heqb.
    exists t. split; [by eapply index_fetch|]. split; [done|].
    split; [by apply check_operands_spec|done].
  - intros [[??]|(op & Hop & Hle & Hok & Hscan)]; [lia|].
    destruct (fetch_index _ _ _ Hop) as (b & -> & Hb). cbn [mbind res_bind]. rewrite Hb.
    unfold next_pc in *. rewrite (proj2 (N.ltb_ge _ _) Hle).
    apply check_operands_spec in Hok; [|done]. by rewrite Hok.
Qed.

Lemma scan_sound fuel f pos S S' :
  scan fuel f pos S = Ok S' →
  (∀ q, reaches (code f) pos q → q < len (code f) → instr_ok f q)
  ∧ (∀ q, q ∈ S' ↔ q ∈ S ∨ (reaches (code f) pos q ∧ q < len (code f))).
Proof.
  revert pos S. induction fuel as [|fuel IH]; intros pos S; [done|].
  rewrite scan_step. intros [[Hge ->]|(op & Hop & Hle & Hok & Hscan)].
  - split; [intros q ?%reaches_le; lia|].
    intros q. split; [auto|]. intros [?|[?%reaches_le ?]]; [done|lia].
  - destruct (IH _ _ Hscan) as [IHok IHin].
    assert (∀ q, reaches (code f) pos q ↔ q = pos ∨ reaches (code f) (next_pc pos op) q) as Hr.
    { intros q. split.
      - intros [->|(op' & Hop' & ?)]%reaches_inv; [by left|].
        rewrite (fetch_det _ _ _ _ Hop Hop'). by right.
      - intros [->|?]; [constructor|by econstructor]. }
    split.
    + intros q [->|?]%Hr ?; [by exists op|eauto].
    + intros q. rewrite IHin, elem_of_union, elem_of_singleton, Hr.
      pose proof (fetch_lt _ _ _ Hop). naive_solver.
Qed.

Lemma scan_complete fuel f pos S :
  fuel_for (code f) pos fuel →
  (∀ q, reaches (code f) pos q → q < len (code f) → instr_ok f q) →
  ∃ S', scan fuel f pos S = Ok S'.
Proof.
  revert pos S. induction fuel as [|fuel IH]; intros pos S Hfuel Hok; [unfold fuel_for in *; lia|].
  destruct (decide (pos < len (code f))) as [Hlt|].
  2:{ exists S. apply scan_step. left. split; [lia|done]. }
  destruct (Hok pos) as (op & Hop & Hle & Hops); [constructor|done|].
  destruct (IH (next_pc pos op) ({[pos]} ∪ S)) as [S' HS'].
  - by eapply fuel_step.
  - intros q Hq. apply Hok. by econstructor.
  - exists S'. apply scan_step. right. eauto 6.
Qed.

(** ** The target checks of the second loop *)
Lemma check_targets_spec f starts op p :
  next_pc p op ≤ len (code f) → (∀ q, q ∈ starts ↔ instr_start (code f) q) →
  no_panic (check_targets f starts op p) ∧ (check_targets f starts op p = Ok tt ↔ targets_ok f op p).
Proof.
  unfold next_pc. intros Hp Hstarts.
  assert (2 ≤ OpCode.operand_len op → read_u16_at (code f) (p + 1) = Ok (u16_at (code f) (p + 1)))
    as Hu1 by (intros; apply read_u16_at_ok; lia).
  assert (4 ≤ OpCode.operand_len op → read_u16_at (code f) (p + 1 + 2) = Ok (u16_at (code f) (p + 3)))
    as Hu3.
  { intros. replace (p + 3) with (p + 1 + 2) by lia. apply read_u16_at_ok. lia. }
  unfold check_targets, targets_ok. rewrite <- !Hstarts.
  assert (∀ q, q ∈ starts → q < len (code f)) as Hlt by (intros q; rewrite Hstarts; by intros []).
  destruct op; cbn [OpCode.operand_len is_jump is_try] in *; try (by split; [by intros ?|]);
    rewrite Hu1 by lia; cbn [mbind res_bind]; try (rewrite Hu3 by lia); cbn [mbind res_bind].
  all: repeat case_match.
  all: rewrite ?orb_true_iff, ?orb_false_iff, ?N.leb_le, ?N.leb_gt, ?negb_true_iff,
         ?negb_false_iff, ?bool_decide_eq_true, ?bool_decide_eq_false in *.
  all: split; [by intros ?|]; naive_solver (eauto with lia).
Qed.

Lemma scan_targets_spec fuel f starts pos :
  fuel_for (code f) pos fuel →
  (∀ q, q ∈ starts ↔ instr_start (code f) q) →
  (∀ q, reaches (code f) pos q → q < len (code f) → instr_ok f q) →
  no_panic (scan_targets fuel f starts pos) ∧
  (scan_targets fuel f starts pos = Ok tt ↔
     ∀ q op, reaches (code f) pos q → fetch (code f) q op → targets_ok f op q).
Proof.
  intros Hfuel Hstarts. revert pos Hfuel.
  induction fuel as [|fuel IH]; intros pos Hfuel Hok; [unfold fuel_for in *; lia|].
  cbn [scan_targets]. destruct (N.ltb_spec pos (len (code f))) as [Hlt|Hge].
  2:{ split; [by intros ?|]. split; [|done]. intros _ q op ?%reaches_le ?%fetch_lt. lia. }
  destruct (Hok pos) as (op & Hop & Hle & _); [constructor|done|].
  destruct (fetch_index _ _ _ Hop) as (b & -> & Hb). cbn [mbind res_bind].
  rewrite Hb. cbn [expect mbind res_bind].
  destruct (check_targets_spec f starts op pos Hle Hstarts) as [Hnp Hct].
  destruct (IH (next_pc pos op)) as [IHnp IHok]; [by eapply fuel_step| |].
  { intros q Hq. apply Hok. by econstructor. }
  split.
  - apply bind_no_panic; [done|]. by intros [] _.
  - rewrite bind_ok. split.
    + intros ([] & H1 & H2). rewrite Hct in H1. fold (next_pc pos op) in H2. rewrite IHok in H2.
      intros q op' [->|(o & Ho & Hr)]%reaches_inv Hf; [by rewrite (fetch_det _ _ _ _ Hf Hop)|].
      rewrite (fetch_det _ _ _ _ Ho Hop) in Hr. eauto.
    + intros H. exists tt. split; [apply Hct, (H pos); [constructor|done]|].
      apply IHok. intros q op' Hr. apply H. by econstructor.
Qed.

(** ** [validate_bytecode] decides [valid_bytecode] *)
Lemma validate_bytecode_spec f :
  no_panic (validate_bytecode f) ∧ (validate_bytecode f = Ok tt ↔ valid_bytecode f).
Proof.
  unfold validate_bytecode. destruct (N.ltb_spec (local_count f) (param_count f)) as [|Hcount].
  { split; [done|]. split; [done|]. intros []. lia. }
  destruct (scan _ _ _ _) as [S| |] eqn:Hscan; cbn [mbind res_bind].
  - destruct (scan_sound _ _ _ _ _ Hscan) as [Hok HS].
    destruct (decide (code f = [])) as [Hnil|Hnil].
    { split; [done|]. split; [done|]. by intros []. }
    destruct (scan_targets_spec _ f S 0 (fuel_init _)) as [Hnp Hst]; [|done|].
    { intros q. rewrite HS. unfold instr_start. set_solver. }
    split; [done|]. rewrite Hst. split.
    + intros Ht. split; [done..|]. intros p [Hp Hlt].
      destruct (Hok p Hp Hlt) as (op & ? & ? & ?). eauto 6.
    + intros [_ _ Hv] q op Hq Hop. destruct (Hv q) as (op' & Hop' & _ & _ & ?).
      { split; [done|by eapply fetch_lt]. }
      by rewrite (fetch_det _ _ _ _ Hop Hop').
  - split; [done|]. split; [done|]. intros [_ _ Hv].
    destruct (scan_complete (S (length (code f))) f 0 ∅) as [S' HS']; [apply fuel_init| |congruence].
    intros q Hq Hlt. destruct (Hv q) as (op & ? & ? & ? & _); [done|]. by exists op.
  - exfalso. eapply (scan_no_panic _ _ _ _ (fuel_init _)), Hscan.
Qed.

(** ** [validate_envelope] decides [valid_envelope] *)
Lemma check_source_map_entry_ok f e :
  check_source_map_entry f e = Ok tt ↔
    bytecode_offset e < len (code f) ∧ is_blank (source_location e) = false.
Proof.
  unfold check_source_map_entry.
  destruct (N.leb_spec (len (code f)) (bytecode_offset e)), (is_blank (source_location e));
    naive_solver lia.
Qed.
Lemma check_debug_local_ok f e :
  check_debug_local f e = Ok tt ↔
    slot e < param_count f + local_count f ∧ is_blank (local_name e) = false.
Proof.
  unfold check_debug_local.
  destruct (N.leb_spec (param_count f + local_count f) (slot e)), (is_blank (local_name e));
    naive_solver lia.
Qed.
Lemma convention_check rc :
  negb (String.eqb rc "tagged") && negb (String.eqb rc "unboxed_int64") = false
  ↔ known_convention rc.
Proof.
  unfold known_convention. rewrite andb_false_iff, !negb_false_iff, !String.eqb_eq. done.
Qed.

Lemma for_each_ok' {A} (g : A → result unit) l u : for_each g l = Ok u ↔ Forall (λ a, g a = Ok tt) l.
Proof. destruct u. apply for_each_ok. Qed.

Lemma check_functions_ok names fs :
  check_functions names fs = Ok tt ↔
    Forall valid_envelope_function fs ∧ NoDup (name <$> fs)
    ∧ Forall (λ f, name f ∉ names) fs.
Proof.
  revert names. induction fs as [|f fs IH]; intros names; [simpl; repeat split; constructor|].
  cbn [check_functions]. rewrite fmap_cons, NoDup_cons, !list.Forall_cons.
  destruct (is_blank (name f)) eqn:Hb; [split; [done|]; intros ([[] ?] & _); congruence|].
  destruct (negb _ && negb _) eqn:Hrc.
  { split; [done|]. intros ([[_ Hk] ?] & _). apply convention_check in Hk. congruence. }
  rewrite convention_check in Hrc.
  case_bool_decide as Hin; [naive_solver|].
  destruct (N.ltb_spec (local_count f) (param_count f)) as [|Hc].
  { split; [done|]. intros ([[] ?] & _). lia. }
  destruct (decide (code f = [])) as [|Hcode]; [split; [done|]; by intros ([[] ?] & _)|].
  assert (∀ S : gset string,
    Forall (λ g, name g ∉ {[name f]} ∪ S) fs ↔ name f ∉ name <$> fs ∧ Forall (λ g, name g ∉ S) fs) as Hnames.
  { intros S. rewrite !list.Forall_forall, list_elem_of_fmap. set_solver. }
  transitivity (valid_envelope_function f ∧ check_functions ({[name f]} ∪ names) fs = Ok tt).
  - rewrite bind_ok. setoid_rewrite bind_ok. setoid_rewrite for_each_ok'.
    setoid_rewrite check_source_map_entry_ok. setoid_rewrite check_debug_local_ok. split.
    + by intros (_ & Hsm & _ & Hdl & ?).
    + intros [[] ?]. by exists tt; split; [|exists tt].
  - rewrite IH, Hnames. naive_solver.
Qed.

Lemma check_functions_no_panic names fs : no_panic (check_functions names fs).
Proof.
  revert names. induction fs as [|f fs IH]; intros names; [done|]. cbn [check_functions].
  repeat (case_match; [done|]). repeat (apply bind_no_panic; [|intros [] _]); [..|apply IH].
  all: apply for_each_no_panic, list.Forall_forall; intros e _.
  - unfold check_source_map_entry. by repeat case_match.
  - unfold check_debug_local. by repeat case_match.
Qed.

Lemma validate_envelope_spec m :
  no_panic (validate_envelope m) ∧ (validate_envelope m = Ok tt ↔ valid_envelope m).
Proof.
  unfold validate_envelope.
  destruct (_ || _) eqn:Hv.
  { split; [done|]. split; [done|]. intros [Hver _ _ _].
    apply orb_true_iff in Hv. rewrite !N.ltb_lt in Hv. lia. }
  apply orb_false_iff in Hv. rewrite !N.ltb_ge in Hv.
  destruct (decide (functions m = [])) as [|Hne]; [split; [done|]; by split; [|intros []]|].
  split; [apply check_functions_no_panic|]. rewrite check_functions_ok. split.
  - by intros (? & ? & _).
  - intros []. split_and!; [done..|]. apply list.Forall_forall. set_solver.
Qed.

Lemma validate_spec m :
  no_panic (validate m) ∧
  (validate m = Ok tt ↔ valid_envelope m ∧ Forall valid_bytecode (functions m)).
Proof.
  unfold validate. destruct (validate_envelope_spec m) as [Hnp Hv]. split.
  - apply bind_no_panic; [done|]. intros _ _. apply for_each_no_panic, list.Forall_forall.
    intros f _. apply validate_bytecode_spec.
  - rewrite bind_ok. setoid_rewrite for_each_ok. split.
    + intros ([] & Henv & Hf). split; [by apply Hv|].
      eapply Forall_impl; [done|]. intros f. apply validate_bytecode_spec.
    + intros [? Hf]. exists tt. split; [by apply Hv|].
      eapply Forall_impl; [done|]. intros f. apply validate_bytecode_spec.
Qed.

(** ** Entry points *)
Lemma from_binary_spec bs :
  len bs ≤ usize_max →
  no_panic (from_binary bs) ∧
  ∀ m, from_binary bs = Ok m ↔
    ok_module m ∧ bs = enc_module m ∧ valid_envelope m ∧ Forall valid_bytecode (functions m).
Proof.
  intros Hlen. unfold from_binary. split.
  - apply bind_no_panic; [by apply read_binary_no_panic|]. intros m _.
    apply bind_no_panic; [apply validate_spec|]. done.
  - intros m. split.
    + intros H. inv_res H. destruct a0. subst. apply (read_binary_iff _ _ Hlen) in H0.
      apply validate_spec in H1. naive_solver.
    + intros (? & ? & Hv). rewrite (proj2 (read_binary_iff bs m Hlen)) by done.
      cbn [mbind res_bind]. by rewrite (proj2 (proj2 (validate_spec m))).
Qed.

Lemma to_binary_vec_spec m bs :
  to_binary_vec m = Ok bs ↔
    valid_envelope m ∧ Forall valid_bytecode (functions m)
    ∧ fits_module m ∧ bs = enc_module (at_current_version m).
Proof.
  unfold to_binary_vec. rewrite bind_ok. split.
  - intros ([] & Hv & ?%write_module_iff). apply validate_spec in Hv. naive_solver.
  - intros (? & ? & ?). exists tt. by rewrite (proj2 (validate_spec m)), write_module_iff.
Qed.

Lemma valid_envelope_current m : valid_envelope m → valid_envelope (at_current_version m).
Proof. intros []. split; [by unfold FORMAT_VERSION, MIN_SUPPORTED_MODULE_VERSION|done..]. Qed.
Lemma at_current_version_id m : version m = FORMAT_VERSION → at_current_version m = m.
Proof. destruct m; simpl. by intros ->. Qed.

(** ** Called names *)
Lemma collect_targets_spec fuel ops f pos T :
  fuel_for (code f) pos fuel →
  ∃ T', collect_targets fuel ops f pos T = Ok T' ∧
    ∀ t, t ∈ T' ↔ t ∈ T ∨ ∃ p op, reaches (code f) pos p ∧ fetch (code f) p op ∧ op ∈ ops
      ∧ p + 3 ≤ len (code f) ∧ string_constant f (u16_at (code f) (p + 1)) t.
Proof.
  revert pos T. induction fuel as [|fuel IH]; intros pos T Hfuel; [unfold fuel_for in *; lia|].
  cbn [collect_targets]. destruct (N.ltb_spec pos (len (code f))) as [Hlt|Hge].
  2:{ exists T. split; [done|]. intros t. split; [by left|].
      intros [?|(p & op & ?%reaches_le & ?%fetch_lt & _)]; [done|lia]. }
  destruct (index_byte _ _ Hlt) as (b & -> & Hget & _). cbn [mbind res_bind].
  destruct (OpCode.from_byte b) as [op|] eqn:Hb.
  2:{ exists T. split; [done|]. intros t. split; [by left|].
      intros [?|(p & op & Hr & Hf & _)]; [done|].
      apply reaches_inv in Hr as [->|(op' & Hf' & _)]; unfold fetch in *; rewrite Hget in *;
        simpl in *; congruence. }
  assert (fetch (code f) pos op) as Hop by (unfold fetch; by rewrite Hget).
  set (here t := op ∈ ops ∧ pos + 3 ≤ len (code f) ∧ string_constant f (u16_at (code f) (pos + 1)) t).
  set (m := if _ && _ then _ else _).
  assert (∃ T1, m = Ok T1 ∧ ∀ t, t ∈ T1 ↔ t ∈ T ∨ here t) as (T1 & -> & HT1).
  { unfold m, here, string_constant. clear m here.
    case_bool_decide; simpl; [|exists T; naive_solver].
    destruct (N.leb_spec (pos + 1 + 2) (len (code f))).
    2:{ exists T. split; [done|]. intros t. split; [by left|]. intros [?|(_ & ? & _)]; [done|lia]. }
    rewrite read_u16_at_ok by lia. cbn [mbind res_bind].
    destruct (get (constants f) _) as [[]|]; eexists; (split; [done|]); set_solver by lia. }
  cbn [mbind res_bind].
  fold (next_pc pos op). destruct (IH (next_pc pos op) T1) as (T' & -> & HT'); [by eapply fuel_step|].
  exists T'. split; [done|]. intros t. rewrite HT', HT1. unfold here. split.
  - intros [[?|(?&?&?)]|(p & op' & ? & ?)]; [by left| |].
    + right. exists pos, op. split; [constructor|done].
    + right. exists p, op'. split; [by econstructor|done].
  - intros [?|(p & op' & Hr & Hf & Hrest)]; [by do 2 left|].
    apply reaches_inv in Hr as [->|(o & Ho & Hr)].
    + rewrite (fetch_det _ _ _ _ Hf Hop) in Hrest. left; by right.
    + rewrite (fetch_det _ _ _ _ Ho Hop) in Hr. right. by exists p, op'.
Qed.

Definition calls_in (ops : list OpCode.t) (f : BytecodeFunction) (t : string) : Prop :=
  ∃ p op, reaches (code f) 0 p ∧ fetch (code f) p op ∧ op ∈ ops
    ∧ p + 3 ≤ len (code f) ∧ string_constant f (u16_at (code f) (p + 1)) t.

Lemma collect_all_spec ops fs T :
  ∃ T', collect_all ops fs T = Ok T' ∧
    ∀ t, t ∈ T' ↔ t ∈ T ∨ ∃ f, f ∈ fs ∧ calls_in ops f t.
Proof.
  revert T. induction fs as [|f fs IH]; intros T; cbn [collect_all].
  { exists T. set_solver. }
  destruct (collect_targets_spec _ ops f 0 T (fuel_init _)) as (T1 & -> & HT1). cbn [mbind res_bind].
  destruct (IH T1) as (T' & -> & HT'). exists T'. split; [done|]. intros t.
  rewrite HT', HT1. fold (calls_in ops f t). set_solver.
Qed.

Lemma targets_for_spec ops m :
  ∃ l, targets_for ops m = Ok l ∧ StronglySorted str_le l ∧ NoDup l
    ∧ ∀ t, t ∈ l ↔ calls_target ops m t.
Proof.
  unfold targets_for. destruct (collect_all_spec ops (functions m) ∅) as (T & -> & HT).
  exists (btree_iter T). split; [done|]. split; [apply btree_iter_sorted|].
  split; [apply btree_iter_NoDup|]. intros t. rewrite elem_of_btree_iter, HT.
  unfold calls_target, calls_in. set_solver.
Qed.
