(* ===== verification/BytecodeFacts.v ===== *)
(** * What the bytecode container guarantees

    The properties of [Bytecode] and [BytecodeCheck]: round trips, acceptance,
    validation, the names a module calls in the AOT snapshot and the constant
    pool. *)
From S2P Require Import Prelude Text External Bytecode BytecodeWire BytecodeCheck.
Local Open Scope N_scope.

(** ** A concrete module *)
(** [LoadLocal 0; JumpIfFalse 10; CallOriginal 1 0; Return; LoadConst 0; Return]. *)
Definition demo_code : list byte :=
  [x03; x00; x31; x00; x0a; x52; x00; x01; x00; xff; x01; x00; x00; xff].
Definition demo_function : BytecodeFunction := {|
  name := "package:demo/main.dart::greet"; return_convention := "tagged";
  async_kind := AsyncKind.AsyncFuture; param_count := 1; local_count := 1;
  constants := [Constant.Int (-7); Constant.String "package:demo/main.dart::greet"];
  code := demo_code;
  source_map := [{| bytecode_offset := 0; source_location := "lib/main.dart:3:1" |}];
  debug_locals := [{| slot := 0; local_name := "who" |}];
|}.
Definition demo_module : BytecodeModule := module_new [demo_function].
Definition demo_bytes : list byte :=
  Eval vm_compute in match to_binary_vec demo_module with Ok bs => bs | _ => [] end.

Lemma demo_to_binary : to_binary_vec demo_module = Ok demo_bytes.
Proof. vm_compute. reflexivity. Qed.
Lemma demo_wt : wt_module demo_module.
Proof.
  split; [done|]. repeat constructor; try done.
Qed.
Lemma demo_len : len demo_bytes ≤ usize_max.
Proof. vm_compute. discriminate. Qed.

(** An encoding of modules, for the witnesses that need JSON. *)
#[global] Program Instance byte_countable : Countable byte :=
  inj_countable Byte.to_N Byte.of_N _.
Next Obligation. intros b. apply Byte.of_to_N. Qed.
#[global] Instance async_kind_countable : Countable AsyncKind.t.
Proof.
  refine (inj_countable'
    (λ k, match k with AsyncKind.Sync => 0 | AsyncKind.AsyncFuture => 1 | AsyncKind.AsyncStar => 2
          | AsyncKind.SyncStar => 3 end)
    (λ n, match n with 0 => AsyncKind.Sync | 1 => AsyncKind.AsyncFuture | 2 => AsyncKind.AsyncStar
          | _ => AsyncKind.SyncStar end) _).
  by intros [].
Defined.
#[global] Instance constant_countable : Countable Constant.t.
Proof.
  refine (inj_countable'
    (λ c, match c with Constant.Int z => inl z | Constant.Double n => inr (inl n)
          | Constant.Bool b => inr (inr (inl b)) | Constant.String s => inr (inr (inr (Some s)))
          | Constant.Null => inr (inr (inr None)) end)
    (λ x, match x with inl z => Constant.Int z | inr (inl n) => Constant.Double n
          | inr (inr (inl b)) => Constant.Bool b | inr (inr (inr (Some s))) => Constant.String s
          | inr (inr (inr None)) => Constant.Null end) _).
  by intros [].
Defined.
#[global] Instance source_map_entry_eq_dec : EqDecision SourceMapEntry.
Proof. solve_decision. Defined.
#[global] Instance debug_local_entry_eq_dec : EqDecision DebugLocalEntry.
Proof. solve_decision. Defined.
#[global] Instance bytecode_function_eq_dec : EqDecision BytecodeFunction.
Proof. solve_decision. Defined.
#[global] Program Instance source_map_entry_countable : Countable SourceMapEntry :=
  inj_countable' (λ e, (bytecode_offset e, source_location e)) (λ '(o, t), Build_SourceMapEntry o t) _.
Next Obligation. by intros []. Qed.
#[global] Program Instance debug_local_entry_countable : Countable DebugLocalEntry :=
  inj_countable' (λ e, (slot e, local_name e)) (λ '(o, t), Build_DebugLocalEntry o t) _.
Next Obligation. by intros []. Qed.
#[global] Instance bytecode_function_countable : Countable BytecodeFunction.
Proof.
  refine (inj_countable
    (λ f, [encode (name f); encode (return_convention f); encode (async_kind f); encode (param_count f);
           encode (local_count f); encode (constants f); encode (code f); encode (source_map f);
           encode (debug_locals f)])
    (λ l, match l with
     | [n; r; a; p; l; c; b; s; d] =>
       n ← decode n; r ← decode r; a ← decode a; p ← decode p; l ← decode l; c ← decode c;
       b ← decode b; s ← decode s; d ← decode d; Some (Build_BytecodeFunction n r a p l c b s d)
     | _ => None end) _).
  intros x. cbv beta iota. rewrite !decode_encode. by destruct x.
Defined.
#[global] Instance bytecode_module_eq_dec : EqDecision BytecodeModule.
Proof. solve_decision. Defined.
#[global] Program Instance bytecode_module_countable : Countable BytecodeModule :=
  inj_countable' (λ m, (functions m, version m)) (λ '(f, v), Build_BytecodeModule v f) _.
Next Obligation. by intros []. Qed.

(** ** Round trips *)
(** C18: a module the writer serialises is read back unchanged, at the current
    format version. *)
Theorem binary_write_read m bs :
  wt_module m → len bs ≤ usize_max →
  to_binary_vec m = Ok bs → from_binary bs = Ok (at_current_version m).
Proof.
  intros [_ Hwt] Hlen (Henv & Hv & Hfits & ->)%to_binary_vec_spec.
  apply from_binary_spec; [done|].
  split_and!; [by apply ok_module_current|done|by apply valid_envelope_current|done].
Qed.
Lemma binary_write_read_witness :
  wt_module demo_module ∧ from_binary demo_bytes = Ok (at_current_version demo_module).
Proof.
  split; [exact demo_wt|]. exact (binary_write_read _ _ demo_wt demo_len demo_to_binary).
Defined.

(** C29: the container has one encoding per module: a byte string the reader
    accepts at the current version is exactly the one the writer produces. *)
Theorem binary_read_write bs m :
  len bs ≤ usize_max → from_binary bs = Ok m → version m = FORMAT_VERSION →
  to_binary_vec m = Ok bs.
Proof.
  intros Hlen (Hok & -> & Henv & Hv)%from_binary_spec Hver; [|done].
  rewrite <- (at_current_version_id m Hver) in Hok at 1. apply ok_module_current in Hok as [_ Hf].
  apply to_binary_vec_spec. by rewrite at_current_version_id.
Qed.
Lemma binary_read_write_witness :
  len demo_bytes ≤ usize_max ∧ from_binary demo_bytes = Ok demo_module
  ∧ to_binary_vec demo_module = Ok demo_bytes.
Proof.
  assert (from_binary demo_bytes = Ok demo_module) as H by (vm_compute; reflexivity).
  split_and!; [exact demo_len|exact H|]. exact (binary_read_write _ _ demo_len H eq_refl).
Defined.

(** C19: on arbitrary bytes the reader never panics, and it accepts exactly the
    encodings (of any supported version) of well-typed modules whose envelope
    and function bodies are valid. *)
Theorem from_binary_accepts bs :
  len bs ≤ usize_max →
  no_panic (from_binary bs) ∧
  ∀ m, from_binary bs = Ok m ↔
    ok_module m ∧ bs = enc_module m ∧ valid_envelope m ∧ Forall valid_bytecode (functions m).
Proof. apply from_binary_spec. Qed.
Lemma from_binary_accepts_witness :
  len demo_bytes ≤ usize_max ∧ no_panic (from_binary demo_bytes).
Proof. split; [exact demo_len|]. exact (proj1 (from_binary_accepts _ demo_len)). Defined.

(** ** Validation *)
(** C20: [validate_bytecode] accepts exactly the function bodies in which every
    instruction reached by decoding from offset 0 is complete, has operands that
    refer to existing constants, arguments and locals, and jumps only to
    instructions of the body (handlers and ends of try blocks in order); it
    never panics and both loops end. *)
Theorem validate_bytecode_decides f :
  no_panic (validate_bytecode f) ∧ (validate_bytecode f = Ok tt ↔ valid_bytecode f).
Proof. apply validate_bytecode_spec. Qed.

(** [validate_envelope] accepts exactly the modules of a supported version
    with at least one function, distinct non-blank names, a known return
    convention, consistent counts, code, and in-range debug information; it
    never panics. *)
Theorem validate_envelope_decides m :
  no_panic (validate_envelope m) ∧ (validate_envelope m = Ok tt ↔ valid_envelope m).
Proof. apply validate_envelope_spec. Qed.

(** ** Calls by name *)
(** The referenced AOT targets of a module, valid or not, are the string
    operands of the [CallStatic] and [CallOriginal] instructions decoding
    reaches, each once and in byte order, and the missing ones are those the
    snapshot does not have. *)
Lemma missing_aot_targets_complete m aot :
  ∃ all missing,
    aot_referenced_targets m = Ok all ∧ missing_aot_targets m aot = Ok missing
    ∧ StronglySorted str_le all ∧ NoDup all
    ∧ (∀ t, t ∈ all ↔ calls_target [OpCode.CallStatic; OpCode.CallOriginal] m t)
    ∧ (∀ t, t ∈ missing ↔
         calls_target [OpCode.CallStatic; OpCode.CallOriginal] m t ∧ t ∉ aot).
Proof.
  destruct (targets_for_spec [OpCode.CallStatic; OpCode.CallOriginal] m)
    as (l & Hl & Hs & Hd & Hin).
  exists l, (filter (λ t, t ∉ aot) l). unfold missing_aot_targets, aot_referenced_targets.
  rewrite Hl. split_and!; [done..|]. intros t. rewrite list_elem_of_filter, Hin. tauto.
Qed.

(** ** The constant pool *)
(** No two entries of the pool compare equal. *)
Definition pool_distinct (pool : list Constant.t) : Prop :=
  ∀ i j a b, i < j → get pool i = Some a → get pool j = Some b → constant_eq a b = false.

(** Pushing a constant keeps the indices handed out before and a pool
    without repetitions, and returns an index that fits [u16] and holds the
    constant (an equal one when there was one); an error means that index does
    not fit. *)
Lemma pool_push_spec pool c :
  let '(r, pool') := pool_push pool c in
  (∃ tl, pool' = pool ++ tl)
  ∧ (pool_distinct pool → pool_distinct pool')
  ∧ (∃ i c', get pool' i = Some c' ∧ (c' = c ∨ constant_eq c' c = true)
       ∧ (∀ i', r = Ok i' ↔ i' = i ∧ i ≤ u16_max)
       ∧ (len pool' ≤ 65536 → r = Ok i)).
Proof.
  unfold pool_push. destruct (position _ pool) as [i|] eqn:Hp.
  - apply position_some in Hp as [(a & Ha & Heq) _].
    split_and!; [by exists []; rewrite app_nil_r|done|]. exists i, a.
    assert (i < len pool) by (by eapply get_lt).
    split_and!; [done|by right| |]; unfold try_from, u16_max in *;
      destruct (N.leb_spec i 65535); simpl; naive_solver lia.
  - apply position_none in Hp. rewrite list.Forall_forall in Hp. split_and!.
    + by exists [c].
    + intros Hd i j a b Hij. rewrite !get_snoc. intros [Ha|[-> ->]] [Hb|[-> ->]]; [eauto| | |lia].
      * apply Hp. unfold get in Ha. by eapply list_elem_of_lookup_2.
      * apply get_lt in Hb. lia.
    + exists (len pool), c. rewrite get_snoc. split_and!; [by right|by left| |];
        rewrite ?len_app, ?len_cons, ?len_nil; unfold try_from, u16_max in *;
        destruct (N.leb_spec (len pool) 65535); simpl; naive_solver lia.
Qed.
