(* ===== verification/Diff.v ===== *)
(** * Binary diffs between artifacts

    Models [crates/fcb_core/src/diff.rs].  The loops of [create_simple_diff]
    are recursive functions on an explicit bound; [usize] sums wrap as they do
    in a release build, slices and [Vec::with_capacity] panic as Rust's do. *)
From S2P Require Import Prelude Text External Crypto.
Local Open Scope N_scope.

Definition BSDIFF_ZSTD_ALGORITHM : string := "bsdiff-zstd-v1".
Definition SIMPLE_DIFF_ALGORITHM : string := "fcb-simple-v1".
Definition isize_max : N := 9223372036854775807.

Record SimpleBinaryDiff := {
  diff_algorithm_name : string;
  diff_base_hash : string;
  diff_output_hash : string;
  prefix_len : N;
  suffix_len : N;
  insert_b64 : string;
}.
#[global] Instance simple_diff_eq_dec : EqDecision SimpleBinaryDiff.
Proof. solve_decision. Defined.
#[global] Instance simple_diff_countable : Countable SimpleBinaryDiff.
Proof.
  refine (inj_countable
    (λ d, [encode (diff_algorithm_name d); encode (diff_base_hash d); encode (diff_output_hash d);
           encode (prefix_len d); encode (suffix_len d); encode (insert_b64 d)])
    (λ l, match l with
     | [a; b; o; p; s; i] =>
       a ← decode a; b ← decode b; o ← decode o; p ← decode p; s ← decode s; i ← decode i;
       Some (Build_SimpleBinaryDiff a b o p s i)
     | _ => None end) _).
  intros x. cbv beta iota. rewrite !decode_encode. by destruct x.
Defined.

(** [a[i] == b[j]]. *)
Definition byte_eq_at (a b : list byte) (i j : N) : bool :=
  bool_decide (a !! N.to_nat i = b !! N.to_nat j).

(** The two [while] loops; the bound is [base.len()], which no counter passes. *)
Fixpoint prefix_loop (fuel : nat) (base target : list byte) (n : N) : N :=
  match fuel with
  | O => n
  | S fuel =>
    if (n <? len base) && (n <? len target) && byte_eq_at base target n n
    then prefix_loop fuel base target (n + 1) else n
  end.
Fixpoint suffix_loop (fuel : nat) (base target : list byte) (prefix n : N) : N :=
  match fuel with
  | O => n
  | S fuel =>
    if (n <? saturating_sub (len base) prefix) && (n <? saturating_sub (len target) prefix)
       && byte_eq_at base target (len base - 1 - n) (len target - 1 - n)
    then suffix_loop fuel base target prefix (n + 1) else n
  end.

(** [&s[..n]], [&s[n..]] and [&s[a..b]] with the bounds checks. *)
Definition slice_range {A} (l : list A) (a b : N) : result (list A) :=
  if (a <=? b) && (b <=? len l) then Ok (slice l a b) else Panic "range out of bounds for slice".
Definition vec_with_capacity (n : N) : result unit :=
  if n <=? isize_max then Ok tt else Panic "capacity overflow".

Section Diff.
Context `{Hash, Base64, BsdiffZstd, Serde SimpleBinaryDiff}.

Definition create_simple_diff (base target : list byte) : result (list byte) :=
  let prefix := prefix_loop (length base) base target 0 in
  let suffix := suffix_loop (length base) base target prefix 0 in
  insert ← slice_range target prefix (len target - suffix);
  let diff := {|
    diff_algorithm_name := SIMPLE_DIFF_ALGORITHM;
    diff_base_hash := sha256_hex base;
    diff_output_hash := sha256_hex target;
    prefix_len := prefix;
    suffix_len := suffix;
    insert_b64 := b64_encode insert;
  |} in
  map_err Json (to_vec diff).

Definition create_bsdiff_zstd (base target : list byte) : result (list byte) :=
  raw_patch ← map_err Io (bsdiff_diff base target);
  map_err Io (zstd_compress raw_patch).

Definition apply_bsdiff_zstd (base diff_bytes : list byte) : result (list byte) :=
  raw_patch ← map_err Io (zstd_decode diff_bytes);
  map_err Io (bsdiff_patch base raw_patch).

Definition apply_parsed (base : list byte) (diff : SimpleBinaryDiff) : result (list byte) :=
  if negb (String.eqb (diff_algorithm_name diff) SIMPLE_DIFF_ALGORITHM) then
    err "unsupported binary diff algorithm"
  else if negb (String.eqb (sha256_hex base) (diff_base_hash diff)) then
    err "base artifact sha256 mismatch"
  else if len base <? wrapping_add usize_max (prefix_len diff) (suffix_len diff) then
    err "binary diff range exceeds base artifact"
  else
    insert ← map_err Message (b64_decode (insert_b64 diff));
    _ ← vec_with_capacity
          (wrapping_add usize_max (wrapping_add usize_max (prefix_len diff) (len insert)) (suffix_len diff));
    head ← slice_range base 0 (prefix_len diff);
    tail_start ← (if suffix_len diff <=? len base then Ok (len base - suffix_len diff)
                  else Ok (len base + (usize_max + 1) - suffix_len diff));
    tail ← slice_range base tail_start (len base);
    let output := head ++ insert ++ tail in
    if negb (String.eqb (sha256_hex output) (diff_output_hash diff)) then
      err "patched artifact sha256 mismatch"
    else Ok output.

Definition apply_simple_diff (base diff_bytes : list byte) : result (list byte) :=
  diff ← map_err Json (from_slice diff_bytes);
  apply_parsed base diff.

Definition apply_binary_diff (algorithm : string) (base diff_bytes : list byte) :
    result (list byte) :=
  if String.eqb algorithm BSDIFF_ZSTD_ALGORITHM then apply_bsdiff_zstd base diff_bytes
  else if String.eqb algorithm SIMPLE_DIFF_ALGORITHM then apply_simple_diff base diff_bytes
  else err "unsupported binary diff algorithm".
End Diff.

(** ** The loops *)
Lemma prefix_loop_spec fuel base target n :
  n ≤ len base → n ≤ len target →
  take (N.to_nat n) base = take (N.to_nat n) target →
  let p := prefix_loop fuel base target n in
  n ≤ p ∧ p ≤ len base ∧ p ≤ len target
  ∧ take (N.to_nat p) base = take (N.to_nat p) target.
Proof.
  revert n. induction fuel as [|fuel IH]; intros n Hb Ht Heq; simpl; [by split_and!|].
  destruct (_ && _) eqn:E; [|by split_and!].
  rewrite !andb_true_iff, !N.ltb_lt in E. destruct E as [[H1 H2] H3].
  unfold byte_eq_at in H3. apply bool_decide_eq_true in H3.
  destruct (IH (n + 1)) as (? & ? & ? & ?); [lia|lia| |split_and!; [lia|done..]].
  rewrite N.add_1_r, N2Nat.inj_succ.
  unfold len in *. destruct (lookup_lt_is_Some_2 base (N.to_nat n)) as [x Hx]; [lia|].
  rewrite (take_S_r _ _ x) by done. rewrite (take_S_r _ _ x) by congruence. by rewrite Heq.
Qed.

Lemma suffix_loop_spec fuel base target prefix n :
  prefix ≤ len base → prefix ≤ len target →
  n ≤ len base - prefix → n ≤ len target - prefix →
  drop (N.to_nat (len base - n)) base = drop (N.to_nat (len target - n)) target →
  let s := suffix_loop fuel base target prefix n in
  n ≤ s ∧ s ≤ len base - prefix ∧ s ≤ len target - prefix
  ∧ drop (N.to_nat (len base - s)) base = drop (N.to_nat (len target - s)) target.
Proof.
  intros Hp1 Hp2. revert n. induction fuel as [|fuel IH]; intros n Hb Ht Heq; simpl; [by split_and!|].
  destruct (_ && _) eqn:E; [|by split_and!].
  rewrite !andb_true_iff, !N.ltb_lt in E. unfold saturating_sub in E. destruct E as [[H1 H2] H3].
  unfold byte_eq_at in H3. apply bool_decide_eq_true in H3.
  destruct (IH (n + 1)) as (? & ? & ? & ?); [lia|lia| |split_and!; [lia|done..]].
  replace (N.to_nat (len base - (n + 1))) with (N.to_nat (len base - 1 - n)) by lia.
  replace (N.to_nat (len target - (n + 1))) with (N.to_nat (len target - 1 - n)) by lia.
  destruct (lookup_lt_is_Some_2 base (N.to_nat (len base - 1 - n))) as [x Hx]; [unfold len in *; lia|].
  rewrite (drop_S _ x (N.to_nat (len base - 1 - n))) by done.
  rewrite (drop_S _ x (N.to_nat (len target - 1 - n))) by congruence.
  f_equal.
  replace (S (N.to_nat (len base - 1 - n))) with (N.to_nat (len base - n)) by lia.
  replace (S (N.to_nat (len target - 1 - n))) with (N.to_nat (len target - n)) by lia. done.
Qed.

Lemma take_drop_mid {A} (l : list A) p s :
  p + s ≤ len l →
  take (N.to_nat p) l ++ slice l p (len l - s) ++ drop (N.to_nat (len l - s)) l = l.
Proof.
  intros Hle. unfold slice.
  replace (drop (N.to_nat (len l - s)) l)
    with (drop (N.to_nat (len l - s - p)) (drop (N.to_nat p) l)).
  - by rewrite take_drop, take_drop.
  - rewrite drop_drop. f_equal. lia.
Qed.

(** ** Round trip *)
Section Facts.
Context `{Hash, Base64Laws, BsdiffZstdLaws}.
Context `{Serde SimpleBinaryDiff, !SerdeLaws SimpleBinaryDiff (λ _, True)}.

Lemma create_simple_diff_spec base target :
  len base ≤ isize_max → len target ≤ isize_max →
  ∃ p s insert, p + s ≤ len base ∧ p + s ≤ len target
    ∧ take (N.to_nat p) base = take (N.to_nat p) target
    ∧ drop (N.to_nat (len base - s)) base = drop (N.to_nat (len target - s)) target
    ∧ insert = slice target p (len target - s)
    ∧ create_simple_diff base target = map_err Json (to_vec {|
        diff_algorithm_name := SIMPLE_DIFF_ALGORITHM; diff_base_hash := sha256_hex base;
        diff_output_hash := sha256_hex target; prefix_len := p; suffix_len := s;
        insert_b64 := b64_encode insert |}).
Proof.
  intros Hb Ht. unfold create_simple_diff.
  set (p := prefix_loop _ _ _ _). set (s := suffix_loop _ _ _ _ _).
  destruct (prefix_loop_spec (length base) base target 0) as (_ & Hp1 & Hp2 & Hp); [lia|lia|done|].
  fold p in Hp1, Hp2, Hp.
  destruct (suffix_loop_spec (length base) base target p 0) as (_ & Hs1 & Hs2 & Hs); [done|done|lia|lia| |].
  { rewrite !N.sub_0_r. unfold len. rewrite !Nat2N.id. by rewrite !drop_all. }
  fold s in Hs1, Hs2, Hs.
  exists p, s, (slice target p (len target - s)). split_and!; [lia|lia|done|done|done|].
  unfold slice_range. rewrite (proj2 (N.leb_le p _)) by lia.
  by rewrite (proj2 (N.leb_le (len target - s) _)) by lia.
Qed.

Lemma apply_parsed_ok base target p s :
  len base ≤ isize_max → len target ≤ isize_max → p + s ≤ len base → p + s ≤ len target →
  take (N.to_nat p) base = take (N.to_nat p) target →
  drop (N.to_nat (len base - s)) base = drop (N.to_nat (len target - s)) target →
  apply_parsed base {|
    diff_algorithm_name := SIMPLE_DIFF_ALGORITHM; diff_base_hash := sha256_hex base;
    diff_output_hash := sha256_hex target; prefix_len := p; suffix_len := s;
    insert_b64 := b64_encode (slice target p (len target - s)) |} = Ok target.
Proof.
  intros Hb Ht Hpb Hpt Hp Hs. unfold apply_parsed.
  cbn [diff_algorithm_name diff_base_hash diff_output_hash prefix_len suffix_len insert_b64].
  rewrite !String.eqb_refl. cbn [negb].
  assert (len (slice target p (len target - s)) = len target - s - p) as Hins.
  { unfold slice, len. rewrite length_take, length_drop. lia. }
  unfold isize_max in *.
  rewrite (wrapping_add_small _ p s) by (unfold usize_max, u64_max; lia).
  rewrite (proj2 (N.ltb_ge _ _)) by lia.
  rewrite b64_roundtrip. cbn [map_err mbind res_bind].
  rewrite Hins, (wrapping_add_small _ p), wrapping_add_small by (unfold usize_max, u64_max; lia).
  unfold vec_with_capacity, isize_max.
  rewrite (proj2 (N.leb_le (p + (len target - s - p) + s) _)) by lia. cbn [mbind res_bind].
  unfold slice_range. rewrite (proj2 (N.leb_le 0 p)), (proj2 (N.leb_le p (len base))) by lia.
  cbn [andb mbind res_bind]. rewrite (proj2 (N.leb_le s (len base))) by lia. cbn [mbind res_bind].
  rewrite (proj2 (N.leb_le (len base - s) _)), N.leb_refl by lia. cbn [andb mbind res_bind].
  assert (slice base 0 p = take (N.to_nat p) target) as ->.
  { unfold slice. rewrite N.sub_0_r, drop_0. done. }
  assert (slice base (len base - s) (len base) = drop (N.to_nat (len target - s)) target) as ->.
  { unfold slice. rewrite <- Hs. apply take_ge. rewrite length_drop. unfold len. lia. }
  rewrite take_drop_mid by lia. by rewrite String.eqb_refl.
Qed.

Lemma bsdiff_zstd_roundtrip base target d :
  create_bsdiff_zstd base target = Ok d → apply_binary_diff BSDIFF_ZSTD_ALGORITHM base d = Ok target.
Proof.
  unfold create_bsdiff_zstd. intros (raw & Hraw & Hd)%bind_ok. apply map_err_ok in Hraw, Hd.
  unfold apply_binary_diff, apply_bsdiff_zstd. rewrite String.eqb_refl, (zstd_roundtrip _ _ Hd).
  cbn [map_err mbind res_bind]. by rewrite (bsdiff_roundtrip _ _ _ Hraw).
Qed.
(** C34: applying the diff created between two artifacts to the first gives
    back the second, for both algorithms. *)
Theorem diff_roundtrip base target d :
  len base ≤ isize_max → len target ≤ isize_max →
  (create_simple_diff base target = Ok d →
     apply_binary_diff SIMPLE_DIFF_ALGORITHM base d = Ok target)
  ∧ (create_bsdiff_zstd base target = Ok d →
     apply_binary_diff BSDIFF_ZSTD_ALGORITHM base d = Ok target).
Proof.
  intros Hb Ht. split.
  - destruct (create_simple_diff_spec base target Hb Ht) as (p & s & ins & ? & ? & ? & ? & -> & ->).
    intros Hd%map_err_ok. unfold apply_binary_diff, apply_simple_diff.
    change (String.eqb SIMPLE_DIFF_ALGORITHM BSDIFF_ZSTD_ALGORITHM) with false.
    rewrite String.eqb_refl. cbn iota.
    rewrite (from_to_vec _ _ I Hd). by apply apply_parsed_ok.
  - apply bsdiff_zstd_roundtrip.
Qed.

(** What [apply_simple_diff] returns has the output hash the diff names,
    and was built on a base with the hash the diff names. *)
Lemma apply_simple_diff_hashes base d out :
  apply_simple_diff base d = Ok out →
  ∃ diff, from_slice d = Ok diff
    ∧ sha256_hex base = diff_base_hash diff ∧ sha256_hex out = diff_output_hash diff.
Proof.
  unfold apply_simple_diff. intros Hd. inv_res Hd. apply map_err_ok in H5. exists a.
  split; [done|]. unfold apply_parsed in Hd.
  destruct (String.eqb_spec (sha256_hex base) (diff_base_hash a)) as [->|];
    [|by destruct (negb _)]. split; [done|].
  repeat case_match; try done; inv_res Hd; case_match; try done;
    injection Hd as <-; by apply String.eqb_eq, negb_false_iff.
Qed.
End Facts.

(** C35: a diff document whose two lengths sum past [usize::MAX] passes the
    range check and makes [apply_simple_diff] panic instead of returning an
    error. *)
Theorem apply_simple_diff_overflow `{Hash, Base64, Serde SimpleBinaryDiff} base d diff insert :
  from_slice d = Ok diff →
  diff_algorithm_name diff = SIMPLE_DIFF_ALGORITHM → diff_base_hash diff = sha256_hex base →
  b64_decode (insert_b64 diff) = Ok insert →
  prefix_len diff ≤ usize_max → suffix_len diff ≤ usize_max → len base < prefix_len diff →
  usize_max < prefix_len diff + suffix_len diff →
  prefix_len diff + suffix_len diff - (usize_max + 1) ≤ len base →
  ∃ msg, apply_simple_diff base d = Panic msg.
Proof.
  intros Hd Ha Hb Hi Hp Hs Hlt Hover Hwrap. unfold apply_simple_diff. rewrite Hd.
  cbn [map_err mbind res_bind]. unfold apply_parsed.
  rewrite Ha, Hb, !String.eqb_refl. cbn [negb].
  assert (wrapping_add usize_max (prefix_len diff) (suffix_len diff)
          = prefix_len diff + suffix_len diff - (usize_max + 1)) as ->.
  { unfold wrapping_add.
    replace (prefix_len diff + suffix_len diff)
      with (prefix_len diff + suffix_len diff - (usize_max + 1) + 1 * (usize_max + 1)) at 1 by lia.
    rewrite N.Div0.mod_add. apply N.mod_small. lia. }
  rewrite (proj2 (N.ltb_ge _ _)) by lia. rewrite Hi. cbn [map_err mbind res_bind].
  unfold vec_with_capacity. destruct (_ <=? isize_max); cbn [mbind res_bind]; [|eauto].
  unfold slice_range. rewrite (proj2 (N.leb_gt (prefix_len diff) _)) by lia.
  rewrite andb_false_r. cbn [mbind res_bind]. eauto.
Qed.

(** ** Witnesses *)
Definition demo_base : list byte := [x01; x02; x03; x04].
Definition demo_target : list byte := [x01; x09; x09; x09; x04].
Definition demo_diff : list byte := Eval vm_compute in
  match @create_simple_diff demo_hash demo_base64 countable_serde demo_base demo_target with
  | Ok d => d | _ => [] end.
(** The two lengths sum to [2^64 + 1]. *)
Definition overflow_diff : SimpleBinaryDiff := {|
  diff_algorithm_name := SIMPLE_DIFF_ALGORITHM;
  diff_base_hash := @sha256_hex demo_hash demo_base; diff_output_hash := "";
  prefix_len := usize_max; suffix_len := 2; insert_b64 := "";
|}.

Lemma diff_roundtrip_witness :
  @apply_binary_diff demo_hash demo_base64 demo_bsdiff countable_serde
    SIMPLE_DIFF_ALGORITHM demo_base demo_diff = Ok demo_target.
Proof.
  apply (@diff_roundtrip demo_hash demo_base64 demo_base64_laws demo_bsdiff demo_bsdiff_laws
           countable_serde (countable_serde_laws _)); vm_compute; [discriminate..|reflexivity].
Defined.

Lemma apply_simple_diff_hashes_witness :
  ∃ diff, @from_slice _ countable_serde demo_diff = Ok diff
    ∧ @sha256_hex demo_hash demo_base = diff_base_hash diff
    ∧ @sha256_hex demo_hash demo_target = diff_output_hash diff.
Proof.
  apply (@apply_simple_diff_hashes demo_hash demo_base64 countable_serde demo_base demo_diff demo_target).
  vm_compute. reflexivity.
Defined.

Lemma apply_simple_diff_overflow_witness :
  ∃ msg, @apply_simple_diff demo_hash demo_base64 countable_serde demo_base
           (pos_bytes (encode overflow_diff)) = Panic msg.
Proof.
  apply (@apply_simple_diff_overflow demo_hash demo_base64 countable_serde demo_base
           (pos_bytes (encode overflow_diff)) overflow_diff []);
    vm_compute; first [reflexivity|discriminate].
Defined.
