(* ===== verification/Manifest.v ===== *)
(** * Manifests and canonical JSON

    Models [crates/fcb_core/src/manifest.rs]: the manifest structs,
    [canonical_json] with [normalize], [sign_patch_manifest] and
    [verify_patch_manifest].  [read_json] and [write_json] are in [World]. *)
From S2P Require Import Prelude Text Floats External Bytecode BytecodeWire Crypto.
Local Open Scope N_scope.

(** ** Data *)
Record ReleaseManifest := {
  rm_schema_version : N; rm_app_id : string; rm_release_version : string;
  rm_channel : string; rm_platform : string; rm_arch : string; rm_backend : string;
  rm_artifact_hash : string; rm_artifact_size : N;
}.
Record PayloadManifest := {
  kind : string; compression : string; hash : string; size : N; download_url : string;
  diff_algorithm : option string; base_hash : option string; output_hash : option string;
}.
Record PatchPolicy := { rollout_percentage : N; allow_downgrade : bool }.
Record PatchSignature := { algorithm : string; key_id : string; value : string }.
Record PatchManifest := {
  schema_version : N; app_id : string; release_version : string; patch_number : N;
  channel : string; created_at : string; backend : string; platform : string; arch : string;
  payload : PayloadManifest; policy : PatchPolicy; signature : PatchSignature;
}.

#[global] Instance payload_manifest_eq_dec : EqDecision PayloadManifest.
Proof. solve_decision. Defined.
#[global] Instance patch_policy_eq_dec : EqDecision PatchPolicy.
Proof. solve_decision. Defined.
#[global] Instance patch_signature_eq_dec : EqDecision PatchSignature.
Proof. solve_decision. Defined.
#[global] Instance patch_manifest_eq_dec : EqDecision PatchManifest.
Proof. solve_decision. Defined.
#[global] Instance payload_manifest_countable : Countable PayloadManifest.
Proof.
  refine (inj_countable
    (λ p, [encode (kind p); encode (compression p); encode (hash p); encode (size p);
           encode (download_url p); encode (diff_algorithm p); encode (base_hash p);
           encode (output_hash p)])
    (λ l, match l with
     | [k; c; h; s; d; a; b; o] =>
       k ← decode k; c ← decode c; h ← decode h; s ← decode s; d ← decode d;
       a ← decode a; b ← decode b; o ← decode o; Some (Build_PayloadManifest k c h s d a b o)
     | _ => None end) _).
  intros x. cbv beta iota. rewrite !decode_encode. by destruct x.
Defined.
#[global] Program Instance patch_policy_countable : Countable PatchPolicy :=
  inj_countable' (λ p, (rollout_percentage p, allow_downgrade p))
    (λ '(r, a), Build_PatchPolicy r a) _.
Next Obligation. by intros []. Qed.
#[global] Program Instance patch_signature_countable : Countable PatchSignature :=
  inj_countable' (λ s, (algorithm s, key_id s, value s))
    (λ '(a, k, v), Build_PatchSignature a k v) _.
Next Obligation. by intros []. Qed.
#[global] Instance patch_manifest_countable : Countable PatchManifest.
Proof.
  refine (inj_countable
    (λ m, [encode (schema_version m); encode (app_id m); encode (release_version m);
           encode (patch_number m); encode (channel m); encode (created_at m);
           encode (backend m); encode (platform m); encode (arch m); encode (payload m);
           encode (policy m); encode (signature m)])
    (λ l, match l with
     | [v; a; r; n; c; t; b; pl; ar; p; po; s] =>
       v ← decode v; a ← decode a; r ← decode r; n ← decode n; c ← decode c; t ← decode t;
       b ← decode b; pl ← decode pl; ar ← decode ar; p ← decode p; po ← decode po; s ← decode s;
       Some (Build_PatchManifest v a r n c t b pl ar p po s)
     | _ => None end) _).
  intros x. cbv beta iota. rewrite !decode_encode. by destruct x.
Defined.

(** Field assignments. *)
Definition set_signature (m : PatchManifest) (s : PatchSignature) : PatchManifest := {|
  schema_version := schema_version m; app_id := app_id m; release_version := release_version m;
  patch_number := patch_number m; channel := channel m; created_at := created_at m;
  backend := backend m; platform := platform m; arch := arch m; payload := payload m;
  policy := policy m; signature := s;
|}.
Definition with_algorithm (s : PatchSignature) (a : string) : PatchSignature :=
  {| algorithm := a; key_id := key_id s; value := value s |}.
Definition with_value (s : PatchSignature) (v : string) : PatchSignature :=
  {| algorithm := algorithm s; key_id := key_id s; value := v |}.

(** ** [serde_json::Value]

    An object is its list of fields in iteration order; [serde_json]'s [Map] is
    a [BTreeMap], whose [insert] keeps the keys sorted.  A number is kept as
    its text. *)
Module Value.
Inductive t :=
| Null
| Bool (b : bool)
| Number (n : string)
| String (s : string)
| Array (items : list t)
| Object (fields : list (string * t)).
End Value.

Definition map_get {A} (key : string) (fields : list (string * A)) : option A :=
  snd <$> List.find (λ kv, String.eqb kv.1 key) fields.
Fixpoint map_insert {A} (key : string) (a : A) (fields : list (string * A)) :
    list (string * A) :=
  match fields with
  | [] => [(key, a)]
  | (k, b) :: rest =>
    if String.eqb key k then (key, a) :: rest
    else if String.leb key k then (key, a) :: (k, b) :: rest
    else (k, b) :: map_insert key a rest
  end.

(** [serde_json::json!({..})]: a [Map] keeps its keys in byte order. *)
Definition json_object (fields : list (string * Value.t)) : Value.t :=
  Value.Object (foldl (λ m kv, map_insert kv.1 kv.2 m) [] fields).
Definition json_opt_string (o : option string) : Value.t :=
  match o with Some s => Value.String s | None => Value.Null end.
Definition json_opt_u32 (o : option N) : Value.t :=
  match o with Some n => Value.Number (dec n) | None => Value.Null end.

(** How [serde_json] represents an [f64]. *)
Class JsonF64 := json_f64 : spec_float → Value.t.

(** [normalize]: [map.get(&key).unwrap()] is taken in the fields whose values
    are already normalised. *)
Fixpoint normalize (v : Value.t) : Value.t :=
  match v with
  | Value.Object fields =>
    let normalized := map (λ kv, (kv.1, normalize kv.2)) fields in
    let keys := merge_sort str_le (map fst fields) in
    Value.Object
      (foldl (λ ordered key,
         match map_get key normalized with
         | Some item => map_insert key item ordered
         | None => ordered
         end) [] keys)
  | Value.Array items => Value.Array (map normalize items)
  | other => other
  end.

Class ToValue (A : Type) := to_value : A → res string Value.t.
#[global] Hint Mode ToValue ! : typeclass_instances.

Section Manifest.
Context `{Hash, Base64, Ed25519, Serde Value.t, ToValue PatchManifest}.

Definition canonical_json {A} `{ToValue A} (a : A) : result (list byte) :=
  v ← map_err Json (to_value a);
  let normalized := normalize v in
  map_err Json (to_vec normalized).

(** [sign_patch_manifest(&mut manifest, key)]: the outcome and the manifest
    after the call. *)
Definition sign_patch_manifest (manifest : PatchManifest) (private_key_b64 : string) :
    result unit * PatchManifest :=
  let original_value := value (signature manifest) in
  let original_algorithm := algorithm (signature manifest) in
  let signed :=
    let unsigned := set_signature manifest
                      (with_value (with_algorithm (signature manifest) "ed25519") "") in
    bytes ← canonical_json unsigned;
    sign_b64 private_key_b64 bytes in
  match signed with
  | Ok signed_b64 =>
    (Ok tt, set_signature manifest
              (with_value (with_algorithm (signature manifest) "ed25519") signed_b64))
  | Err e =>
    (Err e, set_signature manifest
              (with_value (with_algorithm (signature manifest) original_algorithm) original_value))
  | Panic s => (Panic s, manifest)
  end.

Definition verify_patch_manifest (manifest : PatchManifest) (public_key_b64 : string) :
    result unit :=
  if negb (String.eqb (algorithm (signature manifest)) "ed25519") then
    err "unsupported patch signature algorithm"
  else
    let signature_value := value (signature manifest) in
    let unsigned := set_signature manifest (with_value (signature manifest) "") in
    bytes ← canonical_json unsigned;
    verify_b64 public_key_b64 bytes signature_value.
End Manifest.

(** ** Canonical form *)
Definition str_lt (s t : string) : Prop := str_le s t ∧ s ≠ t.
Definition sorted_keys {A} (fields : list (string * A)) : Prop :=
  StronglySorted str_lt (map fst fields).

(** Keys strictly increase in every object. *)
Inductive canonical : Value.t → Prop :=
| canonical_null : canonical Value.Null
| canonical_bool b : canonical (Value.Bool b)
| canonical_number n : canonical (Value.Number n)
| canonical_string s : canonical (Value.String s)
| canonical_array l : Forall canonical l → canonical (Value.Array l)
| canonical_object f : sorted_keys f → Forall (λ kv, canonical kv.2) f → canonical (Value.Object f).

(** The same document up to the order of the fields of objects. *)
Inductive same : Value.t → Value.t → Prop :=
| same_null : same Value.Null Value.Null
| same_bool b : same (Value.Bool b) (Value.Bool b)
| same_number n : same (Value.Number n) (Value.Number n)
| same_string s : same (Value.String s) (Value.String s)
| same_array l l' : Forall2 same l l' → same (Value.Array l) (Value.Array l')
| same_object f f' :
    (∀ k, option_Forall2 same (map_get k f) (map_get k f')) → same (Value.Object f) (Value.Object f').

Section ValueInd.
Variable P : Value.t → Prop.
Hypothesis (HN : P Value.Null) (HB : ∀ b, P (Value.Bool b)) (Hn : ∀ n, P (Value.Number n))
  (HS : ∀ s, P (Value.String s)) (HA : ∀ l, Forall P l → P (Value.Array l))
  (HO : ∀ f, Forall (λ kv, P kv.2) f → P (Value.Object f)).
Fixpoint value_ind (v : Value.t) : P v :=
  match v with
  | Value.Null => HN
  | Value.Bool b => HB b
  | Value.Number n => Hn n
  | Value.String s => HS s
  | Value.Array l => HA l ((fix go l := match l return Forall P l with
      | [] => @List.Forall_nil _ _ | v :: l => @List.Forall_cons _ _ _ _ (value_ind v) (go l) end) l)
  | Value.Object f => HO f ((fix go f := match f return Forall (λ kv, P kv.2) f with
      | [] => @List.Forall_nil _ _ | kv :: f => @List.Forall_cons _ _ _ _ (value_ind kv.2) (go f) end) f)
  end.
End ValueInd.

Lemma map_get_cons {A} k k' (a : A) f :
  map_get k ((k', a) :: f) = if String.eqb k' k then Some a else map_get k f.
Proof. unfold map_get. simpl. by destruct (String.eqb k' k). Qed.

Lemma map_get_insert {A} k k' (a : A) f :
  map_get k (map_insert k' a f) = if String.eqb k' k then Some a else map_get k f.
Proof.
  induction f as [|[j b] f IH]; simpl.
  - by rewrite map_get_cons.
  - destruct (String.eqb_spec k' j) as [->|]; [|destruct (String.leb k' j)].
    + rewrite !map_get_cons. by destruct (String.eqb j k).
    + by rewrite map_get_cons.
    + rewrite !map_get_cons, IH.
      destruct (String.eqb_spec j k), (String.eqb_spec k' k); congruence.
Qed.

Lemma map_get_some_key {A} k (f : list (string * A)) a : map_get k f = Some a → k ∈ map fst f.
Proof.
  induction f as [|[j b] f IH]; [done|]. rewrite map_get_cons. simpl.
  destruct (String.eqb_spec j k) as [->|]; set_solver.
Qed.
Lemma map_get_in {A} k (f : list (string * A)) a : map_get k f = Some a → (k, a) ∈ f.
Proof.
  induction f as [|[j b] f IH]; [done|]. rewrite map_get_cons.
  destruct (String.eqb_spec j k) as [->|]; set_solver.
Qed.
Lemma map_get_key {A} k (f : list (string * A)) : k ∈ map fst f → is_Some (map_get k f).
Proof.
  induction f as [|[j b] f IH]; simpl; [set_solver|]. rewrite map_get_cons.
  destruct (String.eqb_spec j k); [by eexists|]. rewrite list.elem_of_cons. naive_solver.
Qed.
Lemma map_get_map {A B} (g : A → B) k f :
  map_get k (map (λ kv, (kv.1, g kv.2)) f) = g <$> map_get k f.
Proof.
  induction f as [|[j b] f IH]; [done|]. simpl. rewrite !map_get_cons.
  by destruct (String.eqb j k).
Qed.

Lemma str_lt_trans a b c : str_lt a b → str_lt b c → str_lt a c.
Proof.
  intros [H1 N1] [H2 N2]. split; [by etransitivity|]. intros ->. apply N2.
  by apply (anti_symm str_le).
Qed.

Lemma map_insert_keys {A} k k' (a : A) f : k' ∈ map fst (map_insert k a f) ↔ k' = k ∨ k' ∈ map fst f.
Proof.
  induction f as [|[j b] f IH]; simpl; [set_solver|].
  destruct (String.eqb_spec k j) as [->|]; [set_solver|destruct (String.leb k j); set_solver].
Qed.
Lemma map_insert_sorted {A} k (a : A) f : sorted_keys f → sorted_keys (map_insert k a f).
Proof.
  unfold sorted_keys. induction f as [|[j b] f IH]; simpl; [repeat constructor|].
  intros [Hs Hall]%StronglySorted_inv. rewrite list.Forall_forall in Hall.
  destruct (String.eqb_spec k j) as [->|Hne]; [|destruct (String.leb k j) eqn:Hle]; simpl.
  - constructor; [done|]. by apply list.Forall_forall.
  - constructor; [constructor; [done|by apply list.Forall_forall]|].
    constructor; [by split|]. apply list.Forall_forall. intros x Hx.
    eapply str_lt_trans; [by split|auto].
  - constructor; [auto|]. apply list.Forall_forall. intros x [->|?]%map_insert_keys; [|auto].
    split; [|done]. destruct (total str_le j k); [done|]. unfold str_le in *. congruence.
Qed.

(** A strictly sorted field list is determined by its lookups. *)
Lemma sorted_keys_ext {A} (f g : list (string * A)) :
  sorted_keys f → sorted_keys g → (∀ k, map_get k f = map_get k g) → f = g.
Proof.
  unfold sorted_keys. revert g.
  induction f as [|[j a] f IH]; intros [|[j' a'] g]; simpl; intros Hf Hg Heq; [done| | |].
  - specialize (Heq j'). rewrite map_get_cons, String.eqb_refl in Heq. done.
  - specialize (Heq j). rewrite map_get_cons, String.eqb_refl in Heq. done.
  - apply StronglySorted_inv in Hf as [Hf Hfa]. apply StronglySorted_inv in Hg as [Hg Hga].
    rewrite list.Forall_forall in Hfa, Hga.
    assert (j = j') as ->.
    { pose proof (Heq j) as H1. pose proof (Heq j') as H2. rewrite !map_get_cons, String.eqb_refl in *.
      destruct (String.eqb_spec j j') as [|N1]; [done|]. destruct (String.eqb_spec j' j); [done|].
      symmetry in H1. apply map_get_some_key, Hga in H1. apply map_get_some_key, Hfa in H2.
      exfalso. apply N1. by apply (anti_symm str_le); [apply H2|apply H1]. }
    assert (a = a') as ->.
    { specialize (Heq j'). rewrite !map_get_cons, String.eqb_refl in Heq. congruence. }
    f_equal. apply IH; [done|done|]. intros k. specialize (Heq k). rewrite !map_get_cons in Heq.
    destruct (String.eqb_spec j' k) as [E|]; [|done]. rewrite <- E.
    destruct (map_get j' f) eqn:E1; [apply map_get_some_key, Hfa in E1 as []; done|].
    destruct (map_get j' g) eqn:E2; [apply map_get_some_key, Hga in E2 as []; done|]. done.
Qed.

Definition ordered_fields (normalized : list (string * Value.t)) (keys : list string)
    (init : list (string * Value.t)) : list (string * Value.t) :=
  foldl (λ ordered key, match map_get key normalized with
    | Some item => map_insert key item ordered | None => ordered end) init keys.

Lemma ordered_fields_get normalized keys init k :
  map_get k (ordered_fields normalized keys init) =
    if decide (k ∈ keys) then
      match map_get k normalized with Some v => Some v | None => map_get k init end
    else map_get k init.
Proof.
  unfold ordered_fields. revert init.
  induction keys as [|j keys IH]; intros init; [done|]. simpl. rewrite IH.
  destruct (map_get j normalized) eqn:Ej; rewrite ?map_get_insert;
    destruct (String.eqb_spec j k) as [->|]; rewrite ?Ej;
    repeat case_decide; try done; try (destruct (map_get k normalized); set_solver).
Qed.
Lemma ordered_fields_sorted normalized keys init :
  sorted_keys init → sorted_keys (ordered_fields normalized keys init).
Proof.
  unfold ordered_fields. revert init. induction keys as [|j keys IH]; intros init Hi; [done|].
  simpl. apply IH. destruct (map_get j normalized); [by apply map_insert_sorted|done].
Qed.

Lemma normalize_object f :
  ∃ g, normalize (Value.Object f) = Value.Object g ∧ sorted_keys g
    ∧ ∀ k, map_get k g = normalize <$> map_get k f.
Proof.
  eexists. split; [reflexivity|]. split; [apply ordered_fields_sorted; constructor|].
  intros k. change (map_get k (ordered_fields (map (λ kv, (kv.1, normalize kv.2)) f)
    (merge_sort str_le (map fst f)) []) = normalize <$> map_get k f).
  rewrite ordered_fields_get, map_get_map.
  case_decide as Hk; rewrite merge_sort_Permutation in Hk.
  - apply map_get_key in Hk as [v ->]. done.
  - destruct (map_get k f) eqn:E; [|done]. by apply map_get_some_key in E.
Qed.

Lemma sorted_keys_get {A} (f : list (string * A)) k a :
  sorted_keys f → (k, a) ∈ f → map_get k f = Some a.
Proof.
  unfold sorted_keys. induction f as [|[j b] f IH]; simpl; [set_solver|].
  intros [Hs Hall]%StronglySorted_inv Hin. rewrite map_get_cons.
  apply list.elem_of_cons in Hin as [[= -> ->]|Hin]; [by rewrite String.eqb_refl|].
  destruct (String.eqb_spec j k) as [->|]; [|auto].
  rewrite list.Forall_forall in Hall. destruct (Hall k) as [_ []]; [|done].
  apply list_elem_of_fmap. by exists (k, a).
Qed.

Lemma normalize_canonical v : canonical (normalize v).
Proof.
  induction v as [| | | |l IH|f IH] using value_ind; simpl normalize;
    [constructor..| |].
  - constructor. by apply Forall_fmap.
  - destruct (normalize_object f) as (g & Hg & Hs & Hget). cbn [normalize] in Hg.
    rewrite Hg. constructor; [done|]. apply list.Forall_forall. intros [k w] Hin. simpl.
    apply (sorted_keys_get _ _ _ Hs) in Hin. rewrite Hget in Hin.
    apply fmap_Some in Hin as (v & Hv%map_get_in & ->).
    rewrite list.Forall_forall in IH. exact (IH _ Hv).
Qed.

Lemma same_normalize v : same v (normalize v).
Proof.
  induction v as [| | | |l IH|f IH] using value_ind; simpl normalize;
    [constructor..| |].
  - constructor. induction IH; simpl; by constructor.
  - destruct (normalize_object f) as (g & Hg & _ & Hget). cbn [normalize] in Hg.
    rewrite Hg. constructor. intros k. rewrite Hget.
    destruct (map_get k f) as [v|] eqn:E; simpl; constructor.
    rewrite list.Forall_forall in IH. exact (IH _ (map_get_in _ _ _ E)).
Qed.

Lemma normalize_same v v' : same v v' → normalize v = normalize v'.
Proof.
  revert v'. induction v as [| | | |l IH|f IH] using value_ind; intros v' Hs; inversion Hs; subst; try done.
  - simpl. f_equal. clear Hs.
    match goal with H : Forall2 _ _ _ |- _ => rename H into Hl end.
    induction Hl as [|x y l l' Hxy Hl IHl]; [done|]. apply list.Forall_cons in IH as [IHx IH].
    simpl. rewrite (IHx y Hxy). f_equal. auto.
  - destruct (normalize_object f) as (g & -> & Hgs & Hget).
    destruct (normalize_object f') as (g' & -> & Hgs' & Hget').
    f_equal. apply sorted_keys_ext; [done..|]. intros k. rewrite Hget, Hget'.
    match goal with H : ∀ k, option_Forall2 _ _ _ |- _ => specialize (H k); rename H into Hk end.
    destruct (map_get k f) as [w|] eqn:E; inversion Hk as [? ? Hw E1 E2|E1 E2]; simpl.
    + f_equal. rewrite list.Forall_forall in IH. exact (IH _ (map_get_in _ _ _ E) _ Hw).
    + done.
Qed.

(** ** Signing *)
Section Facts.
Context `{Hash, Base64Laws, Ed25519Laws, Serde Value.t, ToValue PatchManifest}.

Lemma set_signature_idem m s s' : set_signature (set_signature m s) s' = set_signature m s'.
Proof. done. Qed.
Lemma set_signature_id m : set_signature m (signature m) = m.
Proof. by destruct m. Qed.
Lemma with_back s : with_value (with_algorithm s (algorithm s)) (value s) = s.
Proof. by destruct s. Qed.

Lemma sign_patch_manifest_ok m key m' :
  sign_patch_manifest m key = (Ok tt, m') ↔
    ∃ bytes sig,
      canonical_json (set_signature m (with_value (with_algorithm (signature m) "ed25519") "")) = Ok bytes
      ∧ sign_b64 key bytes = Ok sig
      ∧ m' = set_signature m (with_value (with_algorithm (signature m) "ed25519") sig).
Proof.
  unfold sign_patch_manifest. destruct (canonical_json _) as [bytes| |]; simpl;
    [destruct (sign_b64 _ _) as [sig| |] eqn:Es|..];
    (split; [intros H6; try discriminate H6; injection H6 as <-; eauto
            |intros (b & s & Hb & Hs & ->); congruence]).
Qed.

Lemma signed_manifest_verifies m key public m' :
  sign_patch_manifest m key = (Ok tt, m') → public_key_b64_from_private_key key = Ok public →
  verify_patch_manifest m' public = Ok tt ∧ m' = set_signature m (signature m')
  ∧ key_id (signature m') = key_id (signature m).
Proof.
  intros (bytes & sig & Hb & Hsig & ->)%sign_patch_manifest_ok Hp. split; [|done].
  unfold verify_patch_manifest. cbn [signature set_signature algorithm with_value with_algorithm].
  rewrite String.eqb_refl. cbn [negb].
  change (set_signature (set_signature m (with_value (with_algorithm (signature m) "ed25519") sig))
    (with_value (with_value (with_algorithm (signature m) "ed25519") sig) ""))
    with (set_signature m (with_value (with_algorithm (signature m) "ed25519") "")).
  rewrite Hb. cbn [mbind res_bind].
  eapply sign_verify; [done..|]. intros seed. apply private_key_seed_length.
Qed.

(** C32: signing sets the algorithm and the signature and nothing else; the
    result verifies under the public key of the signing key; a failed signing
    leaves the manifest as it was. *)
Theorem sign_patch_manifest_verifies m key public r m' :
  sign_patch_manifest m key = (r, m') →
  public_key_b64_from_private_key key = Ok public →
  (r = Ok tt ∧ verify_patch_manifest m' public = Ok tt
     ∧ key_id (signature m') = key_id (signature m)
     ∧ m = set_signature m' (signature m))
  ∨ (r ≠ Ok tt ∧ m' = m).
Proof.
  intros Hs Hp. destruct (decide (r = Ok tt)) as [->|Hr].
  - left. destruct (signed_manifest_verifies _ _ _ _ Hs Hp) as (Hv & Hm & Hk).
    split; [done|]. split; [done|]. split; [done|]. by rewrite Hm, set_signature_idem, set_signature_id.
  - right. split; [done|]. unfold sign_patch_manifest in Hs.
    destruct (_ ≫= _) in Hs; simplify_eq; try done.
    by rewrite with_back, set_signature_id.
Qed.

(** The canonical bytes of a value do not depend on the order in which its
    objects list their fields. *)
Lemma canonical_json_order_insensitive A `{ToValue A} (a b : A) v w :
  to_value a = Ok v → to_value b = Ok w → same v w → canonical_json a = canonical_json b.
Proof.
  intros Ha Hb Hs. unfold canonical_json. rewrite Ha, Hb. cbn [map_err mbind res_bind].
  by rewrite (normalize_same _ _ Hs).
Qed.
End Facts.

(** [normalize] keeps the document (up to the order of fields), sorts every
    object's keys, and maps documents that differ in field order only to the
    same value. *)
Lemma normalize_spec v :
  same v (normalize v) ∧ canonical (normalize v) ∧ ∀ v', same v v' → normalize v = normalize v'.
Proof. split_and!; [apply same_normalize|apply normalize_canonical|apply normalize_same]. Qed.

(** ** Witnesses *)
(** What [#[derive(Serialize)]] produces for a [PatchManifest]. *)
Definition opt_field (k : string) (o : option string) : list (string * Value.t) :=
  match o with Some s => [(k, Value.String s)] | None => [] end.
Definition demo_to_value : ToValue PatchManifest := λ m,
  Ok (Value.Object [
    ("schema_version", Value.Number (dec (schema_version m))); ("app_id", Value.String (app_id m));
    ("release_version", Value.String (release_version m));
    ("patch_number", Value.Number (dec (patch_number m))); ("channel", Value.String (channel m));
    ("created_at", Value.String (created_at m)); ("backend", Value.String (backend m));
    ("platform", Value.String (platform m)); ("arch", Value.String (arch m));
    ("payload", Value.Object (
       [("kind", Value.String (kind (payload m))); ("compression", Value.String (compression (payload m)));
        ("hash", Value.String (hash (payload m))); ("size", Value.Number (dec (size (payload m))));
        ("download_url", Value.String (download_url (payload m)))]
       ++ opt_field "diff_algorithm" (diff_algorithm (payload m))
       ++ opt_field "base_hash" (base_hash (payload m))
       ++ opt_field "output_hash" (output_hash (payload m))));
    ("policy", Value.Object [("rollout_percentage", Value.Number (dec (rollout_percentage (policy m))));
                             ("allow_downgrade", Value.Bool (allow_downgrade (policy m)))]);
    ("signature", Value.Object [("algorithm", Value.String (algorithm (signature m)));
                                ("key_id", Value.String (key_id (signature m)));
                                ("value", Value.String (value (signature m)))])])%string.

(** Compact JSON without escapes. *)
Definition quote (s : string) : string :=
  String (Ascii.ascii_of_nat 34) (s +:+ String (Ascii.ascii_of_nat 34) "").
Fixpoint print_value (v : Value.t) : string :=
  match v with
  | Value.Null => "null"
  | Value.Bool b => bool_to_string b
  | Value.Number n => n
  | Value.String s => quote s
  | Value.Array l => "[" +:+ join "," (map print_value l) +:+ "]"
  | Value.Object f => "{" +:+ join "," (map (λ kv, quote kv.1 +:+ ":" +:+ print_value kv.2) f) +:+ "}"
  end.
Definition demo_value_serde : Serde Value.t := {|
  to_vec v := Ok (str_bytes (print_value v));
  to_vec_pretty v := Ok (str_bytes (print_value v));
  from_slice _ := Err "not needed"%string;
|}.

Definition demo_manifest : PatchManifest := {|
  schema_version := 1; app_id := "app"; release_version := "1.0.0+1"; patch_number := 7;
  channel := "stable"; created_at := "2024"; backend := "bytecode"; platform := "android";
  arch := "arm64"; payload := {| kind := "bytecode_module"; compression := "none"; hash := "";
    size := 0; download_url := ""; diff_algorithm := None; base_hash := None; output_hash := None |};
  policy := {| rollout_percentage := 100; allow_downgrade := false |};
  signature := {| algorithm := ""; key_id := "k1"; value := "stale" |};
|}.
Definition demo_sign := @sign_patch_manifest demo_base64 demo_ed25519 demo_value_serde demo_to_value.
Definition demo_verify := @verify_patch_manifest demo_base64 demo_ed25519 demo_value_serde demo_to_value.
Definition demo_signed : PatchManifest := Eval vm_compute in (demo_sign demo_manifest demo_private_key).2.

Lemma sign_patch_manifest_verifies_witness :
  demo_verify demo_signed demo_public_key = Ok tt.
Proof.
  destruct (@sign_patch_manifest_verifies demo_base64 demo_base64_laws demo_ed25519
    demo_ed25519_laws demo_value_serde demo_to_value demo_manifest demo_private_key
    demo_public_key (Ok tt) demo_signed) as [(_ & H & _)|[[] _]].
  - vm_compute. reflexivity.
  - vm_compute. reflexivity.
  - exact H.
  - reflexivity.
Defined.

(** One document listed in two orders. *)
Definition demo_ab : list (string * Value.t) := [("a", Value.Bool true); ("b", Value.Null)]%string.
Definition demo_ba : list (string * Value.t) := [("b", Value.Null); ("a", Value.Bool true)]%string.
Definition demo_ordered : ToValue bool := λ forward,
  Ok (Value.Object (if forward then demo_ab else demo_ba)).
Lemma canonical_json_order_insensitive_witness :
  @canonical_json demo_value_serde bool demo_ordered true
  = @canonical_json demo_value_serde bool demo_ordered false.
Proof.
  eapply (@canonical_json_order_insensitive demo_value_serde bool demo_ordered).
  1,2: reflexivity. constructor. intros k. unfold demo_ab, demo_ba. rewrite !map_get_cons.
  destruct (String.eqb_spec "a" k) as [<-|]; [cbn; repeat constructor|].
  destruct (String.eqb "b" k); cbn; repeat constructor.
Defined.
