(* ===== verification/World.v ===== *)
(** * The operating system

    The [std::fs], [std::time] and [std::process] calls the updater makes,
    against an explicit machine state.  An I/O call takes its outcome from a
    schedule of faults: it may fail, and a call that is not atomic may fail
    part way.  The metadata calls behind [Path::exists], [is_dir], [is_file] and
    [metadata] have a schedule of their own, one entry per call.  Stopping the
    process at a call leaves the same files as a schedule in which that call and all
    later ones fail, so theorems about all schedules also speak of crashes.

    Paths are absolute and resolved lists of components; symbolic links and
    power loss are not modelled. *)
From S2P Require Import Prelude Text External Manifest.
Local Open Scope N_scope.

(** ** State *)
Abbreviation path := (list string).
Inductive node := File (bytes : list byte) | Dir.
#[global] Instance node_eq_dec : EqDecision node.
Proof. solve_decision. Defined.
Abbreviation FS := (gmap path node).

(** How a call fails: its error, and how far it got (bytes written or
    directories made; entries removed). *)
Record fault := { fault_error : string; fault_progress : N; fault_removed : gset path }.

(** [w_stats] says which of the metadata calls to come fail ([true]); past its
    end, as past the end of [w_faults], no call fails. *)
Record World := mk_world {
  w_fs : FS;
  w_faults : list (option fault);
  w_stats : list bool;
  w_clock : list Z;
  w_pid : N;
  w_counter : N;
}.
Definition with_fs (w : World) (fs : FS) : World :=
  mk_world fs (w_faults w) (w_stats w) (w_clock w) (w_pid w) (w_counter w).
Definition with_faults (w : World) (l : list (option fault)) : World :=
  mk_world (w_fs w) l (w_stats w) (w_clock w) (w_pid w) (w_counter w).

Definition IO (A : Type) : Type := World → result A * World.
#[global] Instance io_ret : MRet IO := λ A a w, (Ok a, w).
#[global] Instance io_bind : MBind IO := λ A B f m w,
  match m w with
  | (Ok a, w') => f a w'
  | (Err e, w') => (Err e, w')
  | (Panic s, w') => (Panic s, w')
  end.
Definition io_lift {A} (r : result A) : IO A := λ w, (r, w).
Definition io_err {A} (message : string) : IO A := io_lift (err message).
(** [m.ok()]: an error becomes [None]. *)
Definition io_ok {A} (m : IO A) : IO (option A) := λ w,
  match m w with
  | (Ok a, w') => (Ok (Some a), w')
  | (Err _, w') => (Ok None, w')
  | (Panic s, w') => (Panic s, w')
  end.
(** [for x in xs { ...?; }]. *)
Fixpoint io_for_each {A} (f : A → IO unit) (l : list A) : IO unit :=
  match l with
  | [] => mret tt
  | a :: l => _ ← f a; io_for_each f l
  end.

(** One I/O call: [run] computes the new files from the fault, if any. *)
Definition io_call {A} (run : option fault → FS → (string + A) * FS) : IO A := λ w,
  let '(f, faults) := match w_faults w with [] => (None, []) | f :: l => (f, l) end in
  let '(r, fs) := run f (w_fs w) in
  (match r with inl e => Err (Io e) | inr a => Ok a end, with_faults (with_fs w fs) faults).

(** ** Paths *)
Definition file_name (p : path) : option string := last p.
Definition parent (p : path) : option path :=
  match p with [] => None | _ => Some (removelast p) end.
Definition with_file_name (p : path) (n : string) : path := removelast p ++ [n].
Definition join1 (p : path) (n : string) : path := p ++ [n].
Definition slash : Ascii.ascii := Ascii.ascii_of_nat 47.
(** [p.join(s)] for a text [s] with separators; [..] is resolved. *)
Definition join_rel (p : path) (s : string) : path :=
  let start := if starts_with "/" s then [] else p in
  foldl (λ acc c,
    if String.eqb c "" || String.eqb c "." then acc
    else if String.eqb c ".." then removelast acc
    else acc ++ [c]) start (split slash s).

(** [p.join(s).to_string_lossy()]. *)
Definition join_text (p s : string) : string :=
  if starts_with "/" s then s
  else if is_empty p then s
  else if ends_with "/" p then p +:+ s else p +:+ "/" +:+ s.

(** All prefixes of a path, shortest first, without the root. *)
Fixpoint ancestors_from (acc p : path) : list path :=
  match p with
  | [] => []
  | c :: p => (acc ++ [c]) :: ancestors_from (acc ++ [c]) p
  end.
Definition ancestors (p : path) : list path := ancestors_from [] p.

Lemma parent_join1 d n : parent (join1 d n) = Some d.
Proof. unfold parent, join1. by destruct (d ++ [n]) eqn:E; [destruct d|rewrite <- E, removelast_last]. Qed.

(** ** Files *)
Definition is_dir (fs : FS) (p : path) : bool :=
  bool_decide (p = []) || bool_decide (fs !! p = Some Dir).
Definition parent_is_dir (fs : FS) (p : path) : bool :=
  match parent p with Some d => is_dir fs d | None => false end.

Definition fs_read (p : path) : IO (list byte) := io_call (λ f fs,
  match f with
  | Some f => (inl (fault_error f), fs)
  | None =>
    match fs !! p with
    | Some (File bs) => (inr bs, fs)
    | Some Dir => (inl "Is a directory"%string, fs)
    | None => (inl "No such file or directory"%string, fs)
    end
  end).
Definition fs_read_to_string (p : path) : IO string :=
  bs ← fs_read p;
  io_lift (map_err (λ _, Io "stream did not contain valid UTF-8") (from_utf8 bs)).

(** One metadata call: [absent] is what the caller makes of an error. *)
Definition stat_call {A} (absent : A) (look : FS → A) : IO A := λ w,
  (Ok (match w_stats w with true :: _ => absent | _ => look (w_fs w) end),
   mk_world (w_fs w) (w_faults w) (tail (w_stats w)) (w_clock w) (w_pid w) (w_counter w)).
(** [Path::exists] answers [false] when the metadata call fails. *)
Definition fs_exists (p : path) : IO bool :=
  stat_call false (λ fs, bool_decide (p = []) || bool_decide (is_Some (fs !! p))).
(** [fs::metadata(p).map(|m| m.len()).unwrap_or(0)]. *)
Definition fs_file_len (p : path) : IO N :=
  stat_call 0 (λ fs, match fs !! p with Some (File bs) => len bs | _ => 0 end).

Fixpoint make_dirs (ps : list path) (fs : FS) : (string + unit) * FS :=
  match ps with
  | [] => (inr tt, fs)
  | p :: ps =>
    match fs !! p with
    | None => make_dirs ps (<[p := Dir]> fs)
    | Some Dir => make_dirs ps fs
    | Some (File _) => (inl "Not a directory"%string, fs)
    end
  end.
Definition fs_create_dir_all (p : path) : IO unit := io_call (λ f fs,
  match f with
  | Some f => (inl (fault_error f), (make_dirs (take (N.to_nat (fault_progress f)) (ancestors p)) fs).2)
  | None => make_dirs (ancestors p) fs
  end).

(** [File::create]: the file is empty afterwards. *)
Definition fs_create (p : path) : IO unit := io_call (λ f fs,
  match f with
  | Some f => (inl (fault_error f), fs)
  | None =>
    if negb (parent_is_dir fs p) then (inl "No such file or directory"%string, fs)
    else if is_dir fs p then (inl "Is a directory"%string, fs)
    else (inr tt, <[p := File []]> fs)
  end).
(** [write_all] at the end of the open file [p]. *)
Definition fs_append (p : path) (bs : list byte) : IO unit := io_call (λ f fs,
  let old := match fs !! p with Some (File bs) => bs | _ => [] end in
  match f with
  | Some f => (inl (fault_error f), <[p := File (old ++ take (N.to_nat (fault_progress f)) bs)]> fs)
  | None => (inr tt, <[p := File (old ++ bs)]> fs)
  end).
(** [sync_all] or [flush] of an open file. *)
Definition fs_sync : IO unit := io_call (λ f fs,
  match f with Some f => (inl (fault_error f), fs) | None => (inr tt, fs) end).
(** [fs::write]. *)
Definition fs_write (p : path) (bs : list byte) : IO unit :=
  _ ← fs_create p; fs_append p bs.

(** [fs::rename] of a file. *)
Definition fs_rename (p q : path) : IO unit := io_call (λ f fs,
  match f with
  | Some f => (inl (fault_error f), fs)
  | None =>
    match fs !! p with
    | Some (File bs) =>
      if negb (parent_is_dir fs q) then (inl "No such file or directory"%string, fs)
      else if is_dir fs q then (inl "Is a directory"%string, fs)
      else (inr tt, <[q := File bs]> (delete p fs))
    | Some Dir => (inl "renaming a directory is not modelled"%string, fs)
    | None => (inl "No such file or directory"%string, fs)
    end
  end).

Definition fs_remove_file (p : path) : IO unit := io_call (λ f fs,
  match f with
  | Some f => (inl (fault_error f), fs)
  | None =>
    match fs !! p with
    | Some (File _) => (inr tt, delete p fs)
    | Some Dir => (inl "Is a directory"%string, fs)
    | None => (inl "No such file or directory"%string, fs)
    end
  end).

(** [p] and everything below it. *)
Definition under (p q : path) : Prop := p `prefix_of` q.
#[global] Instance under_dec p q : Decision (under p q).
Proof. unfold under. apply _. Defined.
Definition fs_remove_dir_all (p : path) : IO unit := io_call (λ f fs,
  match f with
  | Some f =>
    (inl (fault_error f), filter (λ kn, ¬ (under p kn.1 ∧ kn.1 ∈ fault_removed f)) fs)
  | None =>
    match fs !! p with
    | Some Dir => (inr tt, filter (λ kn, ¬ under p kn.1) fs)
    | Some (File _) => (inl "Not a directory"%string, fs)
    | None => (inl "No such file or directory"%string, fs)
    end
  end).

(** ** Clock, process, [TEMP_COUNTER] *)
(** Nanoseconds since the epoch; [unwrap_or_default] for an earlier clock. *)
Definition now_nanos : IO N := λ w,
  let '(z, clock) := match w_clock w with [] => (0%Z, []) | z :: l => (z, l) end in
  (Ok (Z.to_N z), mk_world (w_fs w) (w_faults w) (w_stats w) clock (w_pid w) (w_counter w)).
Definition process_id : IO N := λ w, (Ok (w_pid w), w).
Definition temp_counter_fetch_add : IO N := λ w,
  (Ok (w_counter w),
   mk_world (w_fs w) (w_faults w) (w_stats w) (w_clock w) (w_pid w)
     (wrapping_add u64_max (w_counter w) 1)).

(** ** [manifest.rs] *)
Definition read_json {A} `{Serde A} (p : path) : IO A :=
  bs ← fs_read p; io_lift (map_err Json (from_slice bs)).
Definition write_json {A} `{Serde A} (p : path) (value : A) : IO unit :=
  _ ← match parent p with Some d => fs_create_dir_all d | None => mret tt end;
  bytes ← io_lift (map_err Json (to_vec_pretty value));
  fs_write p bytes.

(** ** Which files a computation touches *)
Definition touches {A} (S : path → Prop) (m : IO A) : Prop := ∀ w,
  w_stats (m w).2 `suffix_of` w_stats w ∧ w_pid (m w).2 = w_pid w
  ∧ ∀ p, ¬ S p → w_fs (m w).2 !! p = w_fs w !! p.

Section Touches.
Implicit Types (S T : path → Prop).

Lemma touches_ret {A} S (a : A) : touches S (mret a).
Proof. intros w. by split_and!. Qed.
Lemma touches_lift {A} S (r : result A) : touches S (io_lift r).
Proof. intros w. by split_and!. Qed.
Lemma touches_err {A} S m : touches S (io_err (A:=A) m).
Proof. apply touches_lift. Qed.
Lemma touches_bind {A B} S (m : IO A) (f : A → IO B) :
  touches S m → (∀ a, touches S (f a)) → touches S (m ≫= f).
Proof.
  intros Hm Hf w. unfold mbind, io_bind. specialize (Hm w).
  destruct (m w) as [[a|e|s] w']; simpl in *; [|done..].
  destruct Hm as (H1 & H2 & H3), (Hf a w') as (H1' & H2' & H3').
  split_and!; [by etrans|congruence|]. intros p Hp. rewrite H3' by done. by apply H3.
Qed.
Lemma touches_ok {A} S (m : IO A) : touches S m → touches S (io_ok m).
Proof. intros Hm w. unfold io_ok. specialize (Hm w). by destruct (m w) as [[]]. Qed.
Lemma touches_weaken {A} S T (m : IO A) : touches S m → (∀ p, S p → T p) → touches T m.
Proof.
  intros Hm HS w. destruct (Hm w) as (? & ? & Hp). split_and!; [done..|].
  intros p HT. apply Hp. auto.
Qed.
Lemma touches_call {A} S (run : option fault → FS → (string + A) * FS) :
  (∀ f fs p, ¬ S p → (run f fs).2 !! p = fs !! p) → touches S (io_call run).
Proof.
  intros Hrun w. unfold io_call. destruct (w_faults w) as [|f l];
    [specialize (Hrun None (w_fs w))|specialize (Hrun f (w_fs w))];
    destruct (run _ _) as [r fs]; (split; [reflexivity|by split]).
Qed.

Lemma touches_read S p : touches S (fs_read p).
Proof. apply touches_call. intros [f|] fs q _; [done|]. by destruct (fs !! p) as [[]|]. Qed.
Lemma touches_read_to_string S p : touches S (fs_read_to_string p).
Proof. apply touches_bind; [apply touches_read|]. intros. apply touches_lift. Qed.
Lemma touches_stat_call {A} S (absent : A) look : touches S (stat_call absent look).
Proof. intros w. split; [|by split]. unfold stat_call. cbn. destruct (w_stats w) as [|b l]; [done|by exists [b]]. Qed.
Lemma touches_exists S p : touches S (fs_exists p).
Proof. apply touches_stat_call. Qed.
Lemma touches_file_len S p : touches S (fs_file_len p).
Proof. apply touches_stat_call. Qed.
Lemma touches_now S : touches S now_nanos.
Proof. intros w. unfold now_nanos. by destruct (w_clock w). Qed.
Lemma touches_pid S : touches S process_id.
Proof. intros w. by split_and!. Qed.
Lemma touches_counter S : touches S temp_counter_fetch_add.
Proof. intros w. by split_and!. Qed.
Lemma touches_sync S : touches S fs_sync.
Proof. apply touches_call. by intros [f|] fs q. Qed.

Lemma make_dirs_other ps fs q : q ∉ ps → (make_dirs ps fs).2 !! q = fs !! q.
Proof.
  revert fs. induction ps as [|p ps IH]; intros fs Hq; [done|]. simpl.
  apply not_elem_of_cons in Hq as [Hne Hq].
  destruct (fs !! p) as [[]|]; [done|by apply IH|].
  rewrite IH by done. by rewrite lookup_insert_ne.
Qed.
Lemma touches_create_dir_all S p : (∀ q, q ∈ ancestors p → S q) → touches S (fs_create_dir_all p).
Proof.
  intros HS. apply touches_call. intros [f|] fs q Hq; simpl.
  - apply make_dirs_other. intros Hin. apply Hq, HS.
    apply list_elem_of_lookup in Hin as [i Hi]. apply lookup_take_Some in Hi as [Hi _].
    by eapply list_elem_of_lookup_2.
  - apply make_dirs_other. auto.
Qed.
Lemma touches_create S p : S p → touches S (fs_create p).
Proof.
  intros HS. apply touches_call. intros [f|] fs q Hq; [done|].
  repeat case_match; simpl; try done. by rewrite lookup_insert_ne by (intros ->; auto).
Qed.
Lemma touches_append S p bs : S p → touches S (fs_append p bs).
Proof.
  intros HS. apply touches_call. intros [f|] fs q Hq; simpl; by rewrite lookup_insert_ne by (intros ->; auto).
Qed.
Lemma touches_write S p bs : S p → touches S (fs_write p bs).
Proof. intros. apply touches_bind; [by apply touches_create|]. intros. by apply touches_append. Qed.
Lemma touches_rename S p q : S p → S q → touches S (fs_rename p q).
Proof.
  intros HSp HSq. apply touches_call. intros [f|] fs x Hx; [done|].
  repeat case_match; simpl; try done.
  by rewrite lookup_insert_ne, lookup_delete_ne by (intros ->; auto).
Qed.
Lemma touches_remove_file S p : S p → touches S (fs_remove_file p).
Proof.
  intros HS. apply touches_call. intros [f|] fs x Hx; [done|].
  repeat case_match; simpl; try done. by rewrite lookup_delete_ne by (intros ->; auto).
Qed.
Lemma filter_keep (P : path * node → Prop) `{∀ x, Decision (P x)} (fs : FS) q :
  (∀ n, P (q, n)) → filter P fs !! q = fs !! q.
Proof.
  intros HP. destruct (fs !! q) as [n|] eqn:E.
  - by apply map_lookup_filter_Some.
  - apply map_lookup_filter_None. by left.
Qed.
Lemma touches_remove_dir_all S p : (∀ q, under p q → S q) → touches S (fs_remove_dir_all p).
Proof.
  intros HS. apply touches_call. intros [f|] fs x Hx; simpl.
  - apply filter_keep. simpl. naive_solver.
  - repeat case_match; simpl; try done. apply filter_keep. simpl. naive_solver.
Qed.
End Touches.

#[export] Hint Resolve touches_ret touches_lift touches_err touches_ok touches_read touches_read_to_string
  touches_exists touches_file_len touches_now touches_pid touches_counter touches_sync
  touches_create touches_append touches_write touches_rename touches_remove_file : fcb.

(** Decomposes a computation along its binds. *)
Ltac touches_tac :=
  repeat first
    [ apply touches_bind; [|intros ?]
    | progress auto with fcb
    | match goal with |- touches _ (match ?x with _ => _ end) => destruct x end ].

(** The same where hints cover the calls, which are not to be unfolded. *)
Ltac touches_hints :=
  repeat first
    [ solve [auto with fcb]
    | apply touches_bind; [|intros ?]
    | match goal with |- touches _ (match ?x with _ => _ end) => destruct x end ].

Lemma ancestors_from_elem acc p q :
  q ∈ ancestors_from acc p ↔ ∃ r, r ≠ [] ∧ r `prefix_of` p ∧ q = acc ++ r.
Proof.
  revert acc. induction p as [|c p IH]; intros acc; simpl.
  - split; [set_solver|]. intros (r & Hr & [k Hk] & _). by destruct r.
  - rewrite list.elem_of_cons, IH. split.
    + intros [->|(r & Hr & Hp & ->)].
      * exists [c]. split_and!; [done| |done]. apply prefix_cons, prefix_nil.
      * exists (c :: r). split_and!; [done|by apply prefix_cons|by rewrite <- app_assoc].
    + intros (r & Hr & Hp & ->). destruct r as [|c' r]; [done|].
      pose proof (prefix_cons_inv_1 _ _ _ _ Hp) as ->. apply prefix_cons_inv_2 in Hp.
      destruct r as [|d r]; [by left|]. right. exists (d :: r).
      split_and!; [done..|]. by rewrite <- app_assoc.
Qed.
Lemma ancestors_elem p q : q ∈ ancestors p ↔ q ≠ [] ∧ q `prefix_of` p.
Proof. unfold ancestors. rewrite ancestors_from_elem. naive_solver. Qed.

(** ** Inversion of [IO] computations *)
Lemma io_bind_inv {A B} (m : IO A) (f : A → IO B) w r w' :
  (m ≫= f) w = (r, w') →
  (∃ a w1, m w = (Ok a, w1) ∧ f a w1 = (r, w'))
  ∨ (∃ e, m w = (Err e, w') ∧ r = Err e) ∨ (∃ s, m w = (Panic s, w') ∧ r = Panic s).
Proof.
  unfold mbind, io_bind. destruct (m w) as [[a|e|s] w1]; intros H; [left; eauto|..];
    right; [left|right]; injection H as <- <-; eauto.
Qed.
Lemma io_bind_assoc {A B C} (x : IO A) (f : A → IO B) (g : B → IO C) w :
  (x ≫= λ a, f a ≫= g) w = ((x ≫= f) ≫= g) w.
Proof. unfold mbind, io_bind. by destruct (x w) as [[]]. Qed.
Lemma io_bind_ok {A B} (m : IO A) (f : A → IO B) w b w' :
  (m ≫= f) w = (Ok b, w') ↔ ∃ a w1, m w = (Ok a, w1) ∧ f a w1 = (Ok b, w').
Proof.
  unfold mbind, io_bind. split.
  - destruct (m w) as [[a|e|s] w1]; [eauto|discriminate..].
  - by intros (a & w1 & -> & ->).
Qed.
Lemma io_lift_ok {A} (r : result A) w a w' : io_lift r w = (Ok a, w') ↔ r = Ok a ∧ w' = w.
Proof. unfold io_lift. naive_solver. Qed.
Lemma io_call_inv {A} (run : option fault → FS → (string + A) * FS) w r w' :
  io_call run w = (r, w') →
  ∃ f r0, run f (w_fs w) = (r0, w_fs w') ∧ r = match r0 with inl e => Err (Io e) | inr a => Ok a end.
Proof.
  unfold io_call. destruct (w_faults w) as [|f l].
  - destruct (run None (w_fs w)) as [r0 fs] eqn:E. intros [= <- <-]. by exists None, r0.
  - destruct (run f (w_fs w)) as [r0 fs] eqn:E. intros [= <- <-]. by exists f, r0.
Qed.

(** A metadata call answers and changes nothing but its schedule. *)
Lemma stat_call_inv {A} (absent : A) look w r w' :
  stat_call absent look w = (r, w') →
  (r = Ok absent ∨ r = Ok (look (w_fs w))) ∧ w_fs w' = w_fs w ∧ w_faults w' = w_faults w.
Proof.
  unfold stat_call. intros [= <- <-]. split; [|done]. destruct (w_stats w) as [|[] ?]; auto.
Qed.
Lemma stat_call_ok {A} (absent : A) look w :
  w_stats w = [] → stat_call absent look w = (Ok (look (w_fs w)), w).
Proof. intros Hst. unfold stat_call. rewrite Hst. cbn. rewrite <- Hst. by destruct w. Qed.
Lemma stat_call_bind {A B} (absent : A) look (f : A → IO B) w :
  w_stats w = [] → (stat_call absent look ≫= f) w = f (look (w_fs w)) w.
Proof. intros Hst. unfold mbind, io_bind. by rewrite stat_call_ok. Qed.

(** The calls of [atomic_write_bytes]. *)
Lemma fs_create_ok p w w' : fs_create p w = (Ok tt, w') → w_fs w' = <[p := File []]> (w_fs w).
Proof.
  intros ([f|] & r0 & Hr & Hok)%io_call_inv; [by injection Hr as <- _|].
  repeat case_match; simplify_eq/=; done.
Qed.
Lemma fs_append_ok p bs w w' :
  fs_append p bs w = (Ok tt, w') →
  w_fs w' = <[p := File (match w_fs w !! p with Some (File old) => old | _ => [] end ++ bs)]> (w_fs w).
Proof.
  intros ([f|] & r0 & Hr & Hok)%io_call_inv; injection Hr as <- <-; [done|].
  by destruct (w_fs w !! p) as [[]|].
Qed.
Lemma fs_sync_fs w r w' : fs_sync w = (r, w') → w_fs w' = w_fs w.
Proof. intros ([f|] & r0 & Hr & Hok)%io_call_inv; by injection Hr as <- <-. Qed.
Lemma fs_rename_ok p q w w' :
  fs_rename p q w = (Ok tt, w') →
  ∃ bs, w_fs w !! p = Some (File bs) ∧ w_fs w' = <[q := File bs]> (delete p (w_fs w)).
Proof.
  intros ([f|] & r0 & Hr & Hok)%io_call_inv; [by injection Hr as <- _|].
  repeat case_match; simplify_eq/=; eauto.
Qed.
Lemma fs_rename_err p q w r w' :
  fs_rename p q w = (r, w') → r ≠ Ok tt → w_fs w' = w_fs w.
Proof.
  intros ([f|] & r0 & Hr & Hok)%io_call_inv Hne; [by injection Hr as <- <-|].
  repeat case_match; simplify_eq/=; done.
Qed.
Lemma fs_read_fs p w r w' :
  fs_read p w = (r, w') →
  w_fs w' = w_fs w ∧ ((∃ bs, w_fs w !! p = Some (File bs) ∧ r = Ok bs) ∨ ∃ e, r = Err e).
Proof.
  intros ([f|] & r0 & Hr & Hok)%io_call_inv.
  - injection Hr as <- <-. subst. split; [done|]. right. eauto.
  - destruct (w_fs w !! p) as [[bs|]|] eqn:E; injection Hr as <- <-; subst; simpl; split; eauto.
Qed.
(** What was read is what the file holds. *)
Lemma fs_read_ok p w bs w' : fs_read p w = (Ok bs, w') → w_fs w !! p = Some (File bs) ∧ w_fs w' = w_fs w.
Proof. intros [Hfs [(b & Hb & [= ->])|[? [=]]]]%fs_read_fs. done. Qed.
Lemma read_json_ok {A} `{Serde A} p w (a : A) w' :
  read_json p w = (Ok a, w') → ∃ bs, w_fs w !! p = Some (File bs) ∧ from_slice bs = Ok a ∧ w_fs w' = w_fs w.
Proof.
  intros (bs & w1 & [Hb Hfs]%fs_read_ok & [Ha%map_err_ok ->]%io_lift_ok)%io_bind_ok. by exists bs.
Qed.

(** Where no metadata call is to fail, none is to fail later. *)
Lemma stats_none w w' : w_stats w' `suffix_of` w_stats w → w_stats w = [] → w_stats w' = [].
Proof. intros Hs E. rewrite E in Hs. by apply suffix_nil_inv. Qed.

(** ** Computations that never panic *)
Definition io_no_panic {A} (m : IO A) : Prop := ∀ w, no_panic (m w).1.
Lemma io_no_panic_ret {A} (a : A) : io_no_panic (mret a).
Proof. intros w. apply ok_no_panic. Qed.
Lemma io_no_panic_lift {A} (r : result A) : no_panic r → io_no_panic (io_lift r).
Proof. by intros ? w. Qed.
Lemma io_no_panic_err {A} m : io_no_panic (io_err (A:=A) m).
Proof. by intros w. Qed.
Lemma io_no_panic_bind {A B} (m : IO A) (f : A → IO B) :
  io_no_panic m → (∀ a, io_no_panic (f a)) → io_no_panic (m ≫= f).
Proof.
  intros Hm Hf w. unfold mbind, io_bind. specialize (Hm w).
  destruct (m w) as [[a|e|s] w']; [apply Hf|intros t; discriminate|by destruct (Hm s)].
Qed.
Lemma io_no_panic_ok {A} (m : IO A) : io_no_panic m → io_no_panic (io_ok m).
Proof. intros Hm w. unfold io_ok. specialize (Hm w). destruct (m w) as [[|?|s] ?]; [by intros ?..|by destruct (Hm s)]. Qed.
Lemma io_no_panic_call {A} (run : option fault → FS → (string + A) * FS) : io_no_panic (io_call run).
Proof.
  intros w. unfold io_call. destruct (w_faults w) as [|f l]; destruct (run _ _) as [[] fs]; done.
Qed.
Lemma io_no_panic_exists p : io_no_panic (fs_exists p).
Proof. by intros w. Qed.
Lemma io_no_panic_file_len p : io_no_panic (fs_file_len p).
Proof. by intros w. Qed.
Lemma io_no_panic_now : io_no_panic now_nanos.
Proof. intros w. unfold now_nanos. by destruct (w_clock w). Qed.
Lemma io_no_panic_pid : io_no_panic process_id.
Proof. by intros w. Qed.
Lemma io_no_panic_counter : io_no_panic temp_counter_fetch_add.
Proof. by intros w. Qed.
Lemma io_no_panic_write p bs : io_no_panic (fs_write p bs).
Proof. apply io_no_panic_bind; intros; apply io_no_panic_call. Qed.
Lemma io_no_panic_read_to_string p : io_no_panic (fs_read_to_string p).
Proof.
  apply io_no_panic_bind; [apply io_no_panic_call|]. intros bs.
  apply io_no_panic_lift. auto with fcb.
Qed.
#[export] Hint Resolve io_no_panic_ret io_no_panic_err io_no_panic_call io_no_panic_lift io_no_panic_ok io_no_panic_exists
  io_no_panic_file_len io_no_panic_now io_no_panic_pid io_no_panic_counter io_no_panic_write
  io_no_panic_read_to_string : fcb.
Ltac no_panic_tac :=
  repeat first
    [ apply io_no_panic_bind; [|intros ?]
    | progress auto with fcb
    | apply io_no_panic_call
    | match goal with |- io_no_panic (match ?x with _ => _ end) => destruct x end ].

Lemma io_no_panic_run {A} (m : IO A) w r w' : io_no_panic m → m w = (r, w') → no_panic r.
Proof. intros Hm E. specialize (Hm w). by rewrite E in Hm. Qed.
