(* ===== verification/State.v ===== *)
(** * The updater's patch state

    Models [crates/fcb_core/src/state.rs]: the state kept in [state.json], the
    patches installed under [patches/], the rollback event log, and every
    operation of [Updater].  The operations run in the [IO] of [World];
    [StateFacts] relates them to a transition system on [State]. *)
From S2P Require Import Prelude Text External Bytecode BytecodeCheck Crypto Manifest Diff World.
Local Open Scope N_scope.

Definition STATE_SCHEMA_VERSION : N := 2.
Definition MAX_BOOT_ATTEMPTS : N := 3.
Definition ROLLBACK_EVENTS_FILE : string := "events.log".
Definition MAX_ROLLBACK_EVENTS : nat := 50.

(** ** Data *)
Record LastLaunch := { ll_patch_number : N; status : string; started_at : string }.
Record InstalledPatch := {
  ip_patch_number : N; ip_backend : string; manifest_path : string; payload_path : string;
  artifact_path : option string; installed_at : string;
}.
Record State := {
  st_schema_version : N; st_release_version : string;
  current_patch_number : N; pending_patch_number : option N;
  last_known_good_patch_number : option N; boot_attempts : N;
  bad_patches : list N; last_launch : option LastLaunch; installed : list InstalledPatch;
}.
Record CrashRollbackEvent := {
  event_type : string; ev_patch_number : N; ev_boot_attempts : N;
  ev_last_known_good : option N; timestamp : string; reason : option string;
}.
(** [State { schema_version: STATE_SCHEMA_VERSION, ..State::default() }]. *)
Definition default_state : State := {|
  st_schema_version := STATE_SCHEMA_VERSION; st_release_version := "";
  current_patch_number := 0; pending_patch_number := None;
  last_known_good_patch_number := None; boot_attempts := 0; bad_patches := [];
  last_launch := None; installed := [];
|}.

#[global] Instance last_launch_eq_dec : EqDecision LastLaunch.
Proof. solve_decision. Defined.
#[global] Instance installed_patch_eq_dec : EqDecision InstalledPatch.
Proof. solve_decision. Defined.
#[global] Instance state_eq_dec : EqDecision State.
Proof. solve_decision. Defined.
#[global] Instance event_eq_dec : EqDecision CrashRollbackEvent.
Proof. solve_decision. Defined.
#[global] Instance last_launch_countable : Countable LastLaunch.
Proof.
  refine (inj_countable
    (λ l, [encode (ll_patch_number l); encode (status l); encode (started_at l)])
    (λ l, match l with
     | [n; s; t] => n ← decode n; s ← decode s; t ← decode t; Some (Build_LastLaunch n s t)
     | _ => None end) _).
  intros x. cbv beta iota. rewrite !decode_encode. by destruct x.
Defined.
#[global] Instance installed_patch_countable : Countable InstalledPatch.
Proof.
  refine (inj_countable
    (λ p, [encode (ip_patch_number p); encode (ip_backend p); encode (manifest_path p);
           encode (payload_path p); encode (artifact_path p); encode (installed_at p)])
    (λ l, match l with
     | [n; b; m; p; a; t] =>
       n ← decode n; b ← decode b; m ← decode m; p ← decode p; a ← decode a; t ← decode t;
       Some (Build_InstalledPatch n b m p a t)
     | _ => None end) _).
  intros x. cbv beta iota. rewrite !decode_encode. by destruct x.
Defined.
#[global] Instance state_countable : Countable State.
Proof.
  refine (inj_countable
    (λ s, [encode (st_schema_version s); encode (st_release_version s);
           encode (current_patch_number s); encode (pending_patch_number s);
           encode (last_known_good_patch_number s); encode (boot_attempts s);
           encode (bad_patches s); encode (last_launch s); encode (installed s)])
    (λ l, match l with
     | [v; r; c; p; g; a; b; l; i] =>
       v ← decode v; r ← decode r; c ← decode c; p ← decode p; g ← decode g; a ← decode a;
       b ← decode b; l ← decode l; i ← decode i; Some (Build_State v r c p g a b l i)
     | _ => None end) _).
  intros x. cbv beta iota. rewrite !decode_encode. by destruct x.
Defined.
#[global] Instance event_countable : Countable CrashRollbackEvent.
Proof.
  refine (inj_countable
    (λ e, [encode (event_type e); encode (ev_patch_number e); encode (ev_boot_attempts e);
           encode (ev_last_known_good e); encode (timestamp e); encode (reason e)])
    (λ l, match l with
     | [t; n; a; g; s; r] =>
       t ← decode t; n ← decode n; a ← decode a; g ← decode g; s ← decode s; r ← decode r;
       Some (Build_CrashRollbackEvent t n a g s r)
     | _ => None end) _).
  intros x. cbv beta iota. rewrite !decode_encode. by destruct x.
Defined.

(** Field assignments. *)
Definition set_current (s : State) (n : N) : State :=
  Build_State (st_schema_version s) (st_release_version s) n (pending_patch_number s)
    (last_known_good_patch_number s) (boot_attempts s) (bad_patches s) (last_launch s) (installed s).
Definition set_pending (s : State) (p : option N) : State :=
  Build_State (st_schema_version s) (st_release_version s) (current_patch_number s) p
    (last_known_good_patch_number s) (boot_attempts s) (bad_patches s) (last_launch s) (installed s).
Definition set_last_known_good (s : State) (g : option N) : State :=
  Build_State (st_schema_version s) (st_release_version s) (current_patch_number s)
    (pending_patch_number s) g (boot_attempts s) (bad_patches s) (last_launch s) (installed s).
Definition set_boot_attempts (s : State) (a : N) : State :=
  Build_State (st_schema_version s) (st_release_version s) (current_patch_number s)
    (pending_patch_number s) (last_known_good_patch_number s) a (bad_patches s)
    (last_launch s) (installed s).
Definition set_bad_patches (s : State) (b : list N) : State :=
  Build_State (st_schema_version s) (st_release_version s) (current_patch_number s)
    (pending_patch_number s) (last_known_good_patch_number s) (boot_attempts s) b
    (last_launch s) (installed s).
Definition set_last_launch (s : State) (l : option LastLaunch) : State :=
  Build_State (st_schema_version s) (st_release_version s) (current_patch_number s)
    (pending_patch_number s) (last_known_good_patch_number s) (boot_attempts s) (bad_patches s)
    l (installed s).
Definition set_installed (s : State) (i : list InstalledPatch) : State :=
  Build_State (st_schema_version s) (st_release_version s) (current_patch_number s)
    (pending_patch_number s) (last_known_good_patch_number s) (boot_attempts s) (bad_patches s)
    (last_launch s) i.
Definition set_release (s : State) (v : N) (r : string) : State :=
  Build_State v r (current_patch_number s)
    (pending_patch_number s) (last_known_good_patch_number s) (boot_attempts s) (bad_patches s)
    (last_launch s) (installed s).

(** ** Pure helpers *)
Definition saturating_incr (n : N) : N := saturating_add u32_max n 1.

Definition migrate_state (state : State) : State :=
  if st_schema_version state <? STATE_SCHEMA_VERSION then
    let state :=
      match last_known_good_patch_number state with
      | None => if 0 <? current_patch_number state
                then set_last_known_good state (Some (current_patch_number state)) else state
      | Some _ => state
      end in
    set_release state STATE_SCHEMA_VERSION (st_release_version state)
  else state.

Definition mark_patch_bad (state : State) (patch_number : N) : State :=
  let state :=
    if bool_decide (patch_number ∈ bad_patches state) then state
    else set_bad_patches state (bad_patches state ++ [patch_number]) in
  let state :=
    if current_patch_number state =? patch_number then
      set_current state
        (default 0 (option_filter (λ lkg, negb (lkg =? patch_number))
                      (last_known_good_patch_number state)))
    else state in
  let state :=
    if bool_decide (pending_patch_number state = Some patch_number)
    then set_pending state None else state in
  let state :=
    if bool_decide (last_known_good_patch_number state = Some patch_number)
    then set_last_known_good state None else state in
  set_boot_attempts state 0.

Definition find_installed (n : N) (l : list InstalledPatch) : option InstalledPatch :=
  List.find (λ p, ip_patch_number p =? n) l.

Definition launchable (state : State) (n : N) : bool :=
  negb (bool_decide (n ∈ bad_patches state))
  && existsb (λ p, ip_patch_number p =? n) (installed state).

Definition launch_candidates (state : State) : list N :=
  option_list (pending_patch_number state)
  ++ (if 0 <? current_patch_number state then [current_patch_number state] else [])
  ++ option_list (last_known_good_patch_number state).

Definition select_launch_patch_number (state : State) : option N :=
  List.find (launchable state) (launch_candidates state).

(** [sort_by_key]: a stable sort. *)
Fixpoint insert_by_key {A} (key : A → N) (x : A) (l : list A) : list A :=
  match l with
  | [] => [x]
  | y :: l => if key x <=? key y then x :: y :: l else y :: insert_by_key key x l
  end.
Definition sort_by_key {A} (key : A → N) (l : list A) : list A :=
  foldr (insert_by_key key) [] l.

(** [installed.iter().position(..)] of the eviction loop. *)
Definition evictable (state : State) (p : InstalledPatch) : bool :=
  negb (ip_patch_number p =? current_patch_number state)
  && negb (bool_decide (Some (ip_patch_number p) = pending_patch_number state))
  && negb (bool_decide (Some (ip_patch_number p) = last_known_good_patch_number state)).

(** [format!("patches/{n}/...")]. *)
Definition patch_file (n : N) (file : string) : string := "patches/" +:+ dec n +:+ "/" +:+ file.

Section Updater.
Context `{Hash, Base64, Ed25519, BsdiffZstd}.
Context `{Serde Value.t, ToValue PatchManifest, Serde PatchManifest, Serde SimpleBinaryDiff}.
Context `{Serde BytecodeModule, Serde State, Serde CrashRollbackEvent}.
(** The cargo feature [snapshot_replace], and [Updater::cache_dir]. *)
Variable snapshot_replace : bool.
Variable cache_dir : path.

Definition state_path : path := join1 cache_dir "state.json".
Definition rollback_events_path : path := join1 cache_dir ROLLBACK_EVENTS_FILE.
Definition patches_dir (n : N) : path := join1 (join1 cache_dir "patches") (dec n).

(** ** Files *)
Definition now_string : IO string := n ← now_nanos; mret (dec (n / 1000000000)).

(** [(nanos << 32) | counter] in [u128]. *)
Definition unique_suffix : IO N :=
  nanos ← now_nanos;
  counter ← temp_counter_fetch_add;
  mret (N.lor ((N.shiftl nanos 32) mod 2 ^ 128) counter).

Definition temp_path (p : path) (pid suffix : N) : path :=
  with_file_name p ("." +:+ default "state"%string (file_name p) +:+ "." +:+ dec pid
                    +:+ "." +:+ dec suffix +:+ ".tmp").

Definition atomic_write_bytes (p : path) (bytes : list byte) : IO unit :=
  _ ← match parent p with Some d => fs_create_dir_all d | None => mret tt end;
  pid ← process_id;
  suffix ← unique_suffix;
  let tmp := temp_path p pid suffix in
  _ ← fs_create tmp;
  _ ← fs_append tmp bytes;
  _ ← fs_sync;
  fs_rename tmp p.

Definition atomic_write_json {A} `{Serde A} (p : path) (value : A) : IO unit :=
  bytes ← io_lift (map_err Json (to_vec_pretty value));
  atomic_write_bytes p bytes.

Definition backup_corrupt_state (p : path) : IO unit :=
  suffix ← unique_suffix;
  fs_rename p (with_file_name p ("state.json.corrupt." +:+ dec suffix)).

(** ** The event log *)
Definition nonblank_lines (content : string) : list string :=
  filter (λ line, is_blank line = false) (lines content).

Definition append_rollback_event (event : CrashRollbackEvent) : IO unit :=
  _ ← fs_create_dir_all cache_dir;
  e ← fs_exists rollback_events_path;
  old ← (if (e : bool) then
           content ← fs_read_to_string rollback_events_path; mret (nonblank_lines content)
         else mret []);
  line ← io_lift (map_err Json (to_vec event));
  let all := old ++ [str_of_bytes line] in
  let kept := drop (length all - MAX_ROLLBACK_EVENTS) all in
  atomic_write_bytes rollback_events_path
    (str_bytes (join (String newline "") kept) ++ [x0a]).

Definition rollback_events : IO (list CrashRollbackEvent) :=
  e ← fs_exists rollback_events_path;
  if negb e then mret []
  else
    content ← fs_read_to_string rollback_events_path;
    io_lift (mapM (λ line, map_err Json (from_slice (str_bytes line))) (nonblank_lines content)).

Definition clear_rollback_events : IO unit :=
  e ← fs_exists rollback_events_path;
  if (e : bool) then fs_remove_file rollback_events_path else mret tt.

(** ** Loading and saving *)
Definition load_state : IO State :=
  e ← fs_exists state_path;
  if negb e then mret default_state
  else
    bytes ← fs_read state_path;
    match from_slice bytes with
    | Ok state => mret (migrate_state state)
    | Err error =>
      _ ← backup_corrupt_state state_path;
      now ← now_string;
      _ ← append_rollback_event {|
            event_type := "state_reset"; ev_patch_number := 0; ev_boot_attempts := 0;
            ev_last_known_good := None; timestamp := now;
            reason := Some ("failed to parse state.json: " +:+ error) |};
      mret default_state
    | Panic s => io_lift (Panic s)
    end.

Definition save_state (state : State) : IO unit := atomic_write_json state_path state.

(** ** Installing *)
Definition validate_bytecode_module_payload (bytes : list byte) : result unit :=
  (λ _, tt) <$> module_from_slice_envelope bytes.

Definition validate_payload_contract (manifest : PatchManifest) (bytes : list byte) : result unit :=
  let p := payload manifest in
  if String.eqb (backend manifest) "bytecode" then
    if negb (String.eqb (kind p) "bytecode_module") then
      err "bytecode backend requires bytecode_module payload"
    else validate_bytecode_module_payload bytes
  else if snapshot_replace && String.eqb (backend manifest) "snapshot_replace" then
    if negb (String.eqb (kind p) "binary_diff") then
      err "snapshot_replace backend requires binary_diff payload"
    else if bool_decide (diff_algorithm p = None) then
      err "snapshot_replace binary_diff requires diff_algorithm"
    else if bool_decide (base_hash p = None) then
      err "snapshot_replace binary_diff requires base_hash"
    else if bool_decide (output_hash p = None) then
      err "snapshot_replace binary_diff requires output_hash"
    else Ok tt
  else err ("unsupported patch backend " +:+ backend manifest).

(** The loop of [find_diff_base] over [installed.iter().rev()]. *)
Fixpoint find_installed_base (expected_hash : string) (l : list InstalledPatch) :
    IO (option (list byte)) :=
  match l with
  | [] => mret None
  | patch :: l =>
    match artifact_path patch with
    | None => find_installed_base expected_hash l
    | Some artifact_rel =>
      candidate ← io_ok (fs_read (join_rel cache_dir artifact_rel));
      match candidate with
      | None => find_installed_base expected_hash l
      | Some candidate =>
        if String.eqb (sha256_hex candidate) expected_hash then mret (Some candidate)
        else find_installed_base expected_hash l
      end
    end
  end.

Definition find_diff_base (expected_hash : string) (l : list InstalledPatch)
    (baseline_artifact_path : option path) : IO (list byte) :=
  found ← find_installed_base expected_hash (reverse l);
  match found with
  | Some candidate => mret candidate
  | None =>
    match baseline_artifact_path with
    | None => io_err "no installed patch artifact matches base_hash and no baseline artifact provided"
    | Some baseline_path =>
      baseline ← fs_read baseline_path;
      if negb (String.eqb (sha256_hex baseline) expected_hash) then
        io_err "baseline artifact sha256 does not match manifest base_hash"
      else mret baseline
    end
  end.

Definition snapshot_replace_chained_diff (manifest : PatchManifest) (bytes : list byte)
    (l : list InstalledPatch) (baseline_artifact_path : option path) : IO (list byte) :=
  algorithm ← io_lift (ok_or (Message "missing binary diff algorithm")
                         (diff_algorithm (payload manifest)));
  expected_base_hash ← io_lift (ok_or (Message "snapshot_replace binary_diff requires base_hash")
                                  (base_hash (payload manifest)));
  base ← find_diff_base expected_base_hash l baseline_artifact_path;
  artifact ← io_lift (apply_binary_diff algorithm base bytes);
  match output_hash (payload manifest) with
  | Some expected_output_hash =>
    if negb (String.eqb (sha256_hex artifact) expected_output_hash) then
      io_err "patched artifact sha256 mismatch"
    else mret artifact
  | None => mret artifact
  end.

(** The [while] loop of [install_payload_with_baseline]; every iteration
    removes a patch, so [installed.len()] bounds it. *)
Fixpoint evict (fuel : nat) (state : State) : IO State :=
  match fuel with
  | O => mret state
  | S fuel =>
    if (2 <? len (installed state)) then
      match position (evictable state) (installed state) with
      | None => mret state
      | Some index =>
        match get (installed state) index with
        | None => mret state
        | Some old =>
          let state := set_installed state (delete (N.to_nat index) (installed state)) in
          _ ← io_ok (fs_remove_dir_all (patches_dir (ip_patch_number old)));
          evict fuel state
        end
      end
    else mret state
  end.

(** The state after the assignments that record the new patch. *)
Definition record_install (state : State) (manifest : PatchManifest)
    (artifact : option string) (now : string) : State :=
  let n := patch_number manifest in
  let state := set_release state STATE_SCHEMA_VERSION (release_version manifest) in
  let state := set_pending state (Some n) in
  let state := set_boot_attempts state 0 in
  let others := filter (λ p, ip_patch_number p ≠ n) (installed state) in
  set_installed state (sort_by_key ip_patch_number (others ++ [{|
    ip_patch_number := n; ip_backend := backend manifest;
    manifest_path := patch_file n "manifest.json"; payload_path := patch_file n "payload.bin";
    artifact_path := artifact; installed_at := now |}])).

Definition install_payload_with_baseline (manifest_path payload_path : path)
    (public_key_b64 : string) (baseline_artifact_path : option path) : IO unit :=
  manifest ← read_json (A:=PatchManifest) manifest_path;
  _ ← io_lift (verify_patch_manifest manifest public_key_b64);
  bytes ← fs_read payload_path;
  let h := sha256_hex bytes in
  if negb (String.eqb h (hash (payload manifest))) then io_err "payload sha256 mismatch" else
  _ ← io_lift (validate_payload_contract manifest bytes);
  let patch_dir := patches_dir (patch_number manifest) in
  _ ← fs_create_dir_all patch_dir;
  manifest_bytes ← fs_read manifest_path;
  _ ← atomic_write_bytes (join1 patch_dir "manifest.json") manifest_bytes;
  _ ← atomic_write_bytes (join1 patch_dir "payload.bin") bytes;
  state ← load_state;
  artifact ←
    (if String.eqb (backend manifest) "snapshot_replace" then
       if snapshot_replace then
         artifact ← snapshot_replace_chained_diff manifest bytes (installed state)
                      baseline_artifact_path;
         _ ← atomic_write_bytes (join1 patch_dir "libapp.so") artifact;
         mret (Some (patch_file (patch_number manifest) "libapp.so"))
       else io_err "snapshot_replace backend is not enabled in this build"
     else mret None);
  now ← now_string;
  let state := record_install state manifest artifact now in
  state ← evict (length (installed state)) state;
  save_state state.

Definition install_payload (manifest_path payload_path : path) (public_key_b64 : string) : IO unit :=
  install_payload_with_baseline manifest_path payload_path public_key_b64 None.

(** ** Launching *)
Definition launch_patch : IO (option InstalledPatch) :=
  state ← load_state;
  '(state, state_changed) ←
    (match last_launch state with
     | Some launch =>
       if String.eqb (status launch) "pending_success" then
         let patch_number := ll_patch_number launch in
         state ←
           (if MAX_BOOT_ATTEMPTS <=? saturating_incr (boot_attempts state) then
              now ← now_string;
              _ ← append_rollback_event {|
                    event_type := "crash_rollback"; ev_patch_number := patch_number;
                    ev_boot_attempts := saturating_incr (boot_attempts state);
                    ev_last_known_good := last_known_good_patch_number state;
                    timestamp := now; reason := None |};
              mret (mark_patch_bad state patch_number)
            else mret state);
         mret (set_last_launch state None, true)
       else mret (state, false)
     | None => mret (state, false)
     end : IO (State * bool));
  match select_launch_patch_number state with
  | None =>
    _ ← (if (state_changed : bool) then save_state state else mret tt);
    mret None
  | Some patch_number =>
    let found := find_installed patch_number (installed state) in
    '(state, state_changed) ←
      (if bool_decide (is_Some found) then
         let state := set_boot_attempts state (saturating_incr (boot_attempts state)) in
         now ← now_string;
         mret (set_last_launch state (Some {|
           ll_patch_number := patch_number; status := "pending_success"; started_at := now |}), true)
       else mret (state, state_changed) : IO (State * bool));
    _ ← (if (state_changed : bool) then save_state state else mret tt);
    mret found
  end.

Definition ready_patch : IO (option InstalledPatch) :=
  state ← load_state;
  match pending_patch_number state with
  | None => mret None
  | Some patch_number =>
    if bool_decide (patch_number ∈ bad_patches state) then mret None
    else mret (find_installed patch_number (installed state))
  end.

Definition mark_success : IO unit :=
  state ← load_state;
  match last_launch state with
  | None => io_err "no last_launch to mark success"
  | Some last =>
    if bool_decide (ll_patch_number last ∈ bad_patches state) then
      io_err "cannot mark a bad patch as successful"
    else if starts_with "failure:" (status last) then
      io_err "cannot mark a failed launch as successful"
    else
      let state := set_current state (ll_patch_number last) in
      let state := set_last_known_good state (Some (ll_patch_number last)) in
      let state := set_pending state None in
      let state := set_boot_attempts state 0 in
      let state := set_last_launch state (Some {|
        ll_patch_number := ll_patch_number last; status := "success";
        started_at := started_at last |}) in
      save_state state
  end.

Definition mark_failure (patch_number : N) (reason : string) : IO unit :=
  state ← load_state;
  let state := mark_patch_bad state patch_number in
  now ← now_string;
  let state := set_last_launch state (Some {|
    ll_patch_number := patch_number; status := "failure:" +:+ reason; started_at := now |}) in
  save_state state.
End Updater.
