(* ===== verification/StateFacts.v ===== *)
(** * What the updater's state machine guarantees

    An abstract transition system on [State], the proof that the operations of
    [State] implement it atomically under every schedule of faults, and the
    properties of its traces. *)
From S2P Require Import Prelude Text External Bytecode BytecodeCheck Crypto Manifest Diff World State.
Local Open Scope N_scope.

(** ** The transition system *)
Definition pending_launch (s : State) : option N :=
  match last_launch s with
  | Some l => if String.eqb (status l) "pending_success" then Some (ll_patch_number l) else None
  | None => None
  end.
(** A launch that finds the previous one unconfirmed. *)
Definition launch_recover (s : State) : State :=
  match pending_launch s with
  | Some n =>
    set_last_launch
      (if MAX_BOOT_ATTEMPTS <=? saturating_incr (boot_attempts s) then mark_patch_bad s n else s) None
  | None => s
  end.
Definition start_launch (s : State) (n : N) (now : string) : State :=
  set_last_launch (set_boot_attempts s (saturating_incr (boot_attempts s)))
    (Some {| ll_patch_number := n; status := "pending_success"; started_at := now |}).
Definition launch_next (s : State) (now : string) : State * option InstalledPatch :=
  let s := launch_recover s in
  match select_launch_patch_number s with
  | None => (s, None)
  | Some n =>
    match find_installed n (installed s) with
    | Some p => (start_launch s n now, Some p)
    | None => (s, None)
    end
  end.

Definition can_mark_success (s : State) (l : LastLaunch) : Prop :=
  last_launch s = Some l ∧ ll_patch_number l ∉ bad_patches s
  ∧ starts_with "failure:" (status l) = false.
Definition success_next (s : State) (l : LastLaunch) : State :=
  let n := ll_patch_number l in
  set_last_launch
    (set_boot_attempts (set_pending (set_last_known_good (set_current s n) (Some n)) None) 0)
    (Some {| ll_patch_number := n; status := "success"; started_at := started_at l |}).
Definition failure_next (s : State) (n : N) (reason now : string) : State :=
  set_last_launch (mark_patch_bad s n)
    (Some {| ll_patch_number := n; status := "failure:" +:+ reason; started_at := now |}).

(** Eviction without the file system. *)
Fixpoint evict_next (fuel : nat) (s : State) : State :=
  match fuel with
  | O => s
  | S fuel =>
    if 2 <? len (installed s) then
      match position (evictable s) (installed s) with
      | None => s
      | Some i => evict_next fuel (set_installed s (delete (N.to_nat i) (installed s)))
      end
    else s
  end.
Definition install_next (s : State) (m : PatchManifest) (artifact : option string) (now : string) :
    State :=
  let s := record_install s m artifact now in evict_next (length (installed s)) s.

(** ** Pure facts *)
Lemma migrate_schema s : STATE_SCHEMA_VERSION ≤ st_schema_version (migrate_state s).
Proof.
  unfold migrate_state, STATE_SCHEMA_VERSION.
  destruct (N.ltb_spec (st_schema_version s) 2); simpl; [|done].
  reflexivity.
Qed.
Lemma migrate_id s : STATE_SCHEMA_VERSION ≤ st_schema_version s → migrate_state s = s.
Proof.
  unfold migrate_state, STATE_SCHEMA_VERSION.
  destruct (N.ltb_spec (st_schema_version s) 2); [lia|done].
Qed.

(** [mark_patch_bad] field by field. *)
Lemma mark_patch_bad_spec s n :
  (∀ m, m ∈ bad_patches (mark_patch_bad s n) ↔ m = n ∨ m ∈ bad_patches s)
  ∧ pending_patch_number (mark_patch_bad s n)
    = (if bool_decide (pending_patch_number s = Some n) then None else pending_patch_number s)
  ∧ last_known_good_patch_number (mark_patch_bad s n)
    = (if bool_decide (last_known_good_patch_number s = Some n) then None
       else last_known_good_patch_number s)
  ∧ current_patch_number (mark_patch_bad s n)
    = (if current_patch_number s =? n
       then default 0 (option_filter (λ g, negb (g =? n)) (last_known_good_patch_number s))
       else current_patch_number s)
  ∧ boot_attempts (mark_patch_bad s n) = 0
  ∧ installed (mark_patch_bad s n) = installed s
  ∧ last_launch (mark_patch_bad s n) = last_launch s
  ∧ st_schema_version (mark_patch_bad s n) = st_schema_version s.
Proof.
  unfold mark_patch_bad.
  assert (∀ m, m ∈ bad_patches (if bool_decide (n ∈ bad_patches s) then s
            else set_bad_patches s (bad_patches s ++ [n])) ↔ m = n ∨ m ∈ bad_patches s) as Hb.
  { intros m. case_bool_decide; simpl; set_solver. }
  revert Hb. destruct s as [v r c p g a b l i]. unfold set_bad_patches. simpl.
  case_bool_decide; simpl; intros Hb;
    (destruct (c =? n); simpl; (case_bool_decide; simpl); (case_bool_decide; simpl);
      (split_and!; [exact Hb|try done..]); simpl in *; by case_bool_decide).
Qed.

Section Machine.
Context `{Hash, Base64, Ed25519, BsdiffZstd}.
Context `{Serde Value.t, ToValue PatchManifest, Serde PatchManifest, Serde SimpleBinaryDiff}.
Context `{Serde BytecodeModule, Serde State, Serde CrashRollbackEvent}.
Context `{!SerdeLaws State (λ _, True)}.
Variable snapshot_replace : bool.
Variable cache_dir : path.
Abbreviation state_path := (state_path cache_dir).

(** The state [state.json] stands for; [None] when it cannot be parsed. *)
Definition disk_state (fs : FS) : option State :=
  match fs !! state_path with
  | None => Some default_state
  | Some (File bs) =>
    match from_slice bs with Ok s => Some (migrate_state s) | _ => None end
  | Some Dir => None
  end.
Definition holds (w : World) (s : State) : Prop :=
  w_stats w = [] ∧ disk_state (w_fs w) = Some s.

Lemma disk_state_ext fs fs' : fs' !! state_path = fs !! state_path → disk_state fs' = disk_state fs.
Proof. unfold disk_state. by intros ->. Qed.
Lemma disk_state_schema fs s : disk_state fs = Some s → STATE_SCHEMA_VERSION ≤ st_schema_version s.
Proof.
  unfold disk_state. intros Hs. repeat case_match; simplify_eq; [apply migrate_schema|].
  by unfold default_state.
Qed.

(** ** Atomic replacement of a file *)
Lemma temp_path_ne p pid suffix : temp_path p pid suffix ≠ p.
Proof.
  unfold temp_path, with_file_name, file_name. intros Hp.
  assert (last p = Some ("." +:+ default "state"%string (last p) +:+ "." +:+ dec pid
            +:+ "." +:+ dec suffix +:+ ".tmp")%string) as Hl by (rewrite <- Hp at 1; apply last_snoc).
  destruct (last p) as [n|]; [|done]. injection Hl as Hl.
  apply (f_equal String.length) in Hl. revert Hl.
  rewrite !string_length_app. simpl. lia.
Qed.
Lemma ancestors_length q p : q ∈ ancestors p → (length q ≤ length p)%nat.
Proof. intros [_ Hp]%ancestors_elem. by apply prefix_length. Qed.

Lemma removelast_length (p : path) : p ≠ [] → length p = S (length (removelast p)).
Proof.
  intros Hp. rewrite (app_removelast_last ""%string Hp) at 1. rewrite length_app. simpl. lia.
Qed.

(** The files [atomic_write_bytes p] may touch. *)
Definition write_zone (p q : path) : Prop :=
  q = p ∨ (∃ pid suffix, q = temp_path p pid suffix) ∨ q ∈ ancestors (removelast p).
Lemma touches_unique_suffix S : touches S unique_suffix.
Proof. unfold unique_suffix. touches_tac. Qed.
Lemma touches_now_string S : touches S now_string.
Proof. unfold now_string. touches_tac. Qed.

Lemma touches_create_parent S p :
  (∀ q, q ∈ ancestors (removelast p) → S q) →
  touches S (match parent p with Some d => fs_create_dir_all d | None => mret tt end).
Proof. intros HS. unfold parent. destruct p; [apply touches_ret|by apply touches_create_dir_all]. Qed.

Lemma touches_atomic_write p bs : touches (write_zone p) (atomic_write_bytes p bs).
Proof.
  unfold atomic_write_bytes. apply touches_bind.
  { apply touches_create_parent. unfold write_zone. auto. }
  intros _. apply touches_bind; [apply touches_pid|]. intros pid.
  apply touches_bind; [apply touches_unique_suffix|]. intros suffix.
  assert (write_zone p (temp_path p pid suffix)) by (unfold write_zone; eauto).
  assert (write_zone p p) by (by left). touches_tac.
Qed.
Lemma no_panic_unique_suffix : io_no_panic unique_suffix.
Proof. unfold unique_suffix. no_panic_tac. Qed.
Lemma no_panic_now_string : io_no_panic now_string.
Proof. unfold now_string. no_panic_tac. Qed.
Lemma no_panic_atomic_write p bs : io_no_panic (atomic_write_bytes p bs).
Proof.
  unfold atomic_write_bytes.
  apply io_no_panic_bind; [destruct (parent p); no_panic_tac|intros _].
  apply io_no_panic_bind; [no_panic_tac|intros pid].
  apply io_no_panic_bind; [apply no_panic_unique_suffix|intros suffix]. no_panic_tac.
Qed.

Lemma touches_at {A} S (m : IO A) w r w' p :
  touches S m → m w = (r, w') → ¬ S p → w_fs w' !! p = w_fs w !! p.
Proof. intros Hm E HS. destruct (Hm w) as (_ & _ & Hp). rewrite E in Hp. auto. Qed.
Lemma touches_stat {A} S (m : IO A) w r w' :
  touches S m → m w = (r, w') → w_stats w' `suffix_of` w_stats w.
Proof. intros Hm E. destruct (Hm w) as (H' & _). by rewrite E in H'. Qed.
Lemma touches_stats {A} S (m : IO A) w r w' :
  touches S m → m w = (r, w') → w_stats w = [] → w_stats w' = [].
Proof. intros Hm E. by eapply stats_none, touches_stat. Qed.

(** The part of [atomic_write_bytes p] before the rename. *)
Definition write_temp (p : path) (bs : list byte) : IO path :=
  _ ← match parent p with Some d => fs_create_dir_all d | None => mret tt end;
  pid ← process_id;
  suffix ← unique_suffix;
  let tmp := temp_path p pid suffix in
  _ ← fs_create tmp;
  _ ← fs_append tmp bs;
  _ ← fs_sync;
  mret tmp.
Lemma atomic_write_split p bs w :
  atomic_write_bytes p bs w = (tmp ← write_temp p bs; fs_rename tmp p) w.
Proof.
  unfold atomic_write_bytes, write_temp, mbind, io_bind.
  repeat (case_match; simplify_eq; try done).
Qed.
Lemma touches_write_temp p bs : p ≠ [] → touches (λ q, q ≠ p) (write_temp p bs).
Proof.
  intros Hp. unfold write_temp. apply touches_bind.
  { apply touches_create_parent. intros q Hq%ancestors_length ->.
    rewrite (removelast_length p Hp) in Hq. lia. }
  intros _. apply touches_bind; [apply touches_pid|]. intros pid.
  apply touches_bind; [apply touches_unique_suffix|]. intros suffix.
  pose proof (temp_path_ne p pid suffix). touches_tac.
Qed.
Lemma write_temp_ok p bs w tmp w' :
  write_temp p bs w = (Ok tmp, w') → w_fs w' !! tmp = Some (File bs).
Proof.
  unfold write_temp. intros ([] & w1 & _ & Hw)%io_bind_ok.
  apply io_bind_ok in Hw as (pid & w2 & _ & Hw).
  apply io_bind_ok in Hw as (suffix & w3 & _ & Hw).
  apply io_bind_ok in Hw as ([] & w4 & Hc%fs_create_ok & Hw).
  apply io_bind_ok in Hw as ([] & w5 & Ha%fs_append_ok & Hw).
  apply io_bind_ok in Hw as ([] & w6 & Hs%fs_sync_fs & Hw).
  injection Hw as <- <-. rewrite Hs, Ha, Hc, lookup_insert_eq. cbn iota.
  by rewrite lookup_insert_eq.
Qed.

(** Whatever the faults, the file is the old one or the complete new one. *)
Lemma atomic_write_spec p bs w r w' :
  p ≠ [] → atomic_write_bytes p bs w = (r, w') →
  (r = Ok tt ∧ w_fs w' !! p = Some (File bs))
  ∨ (∃ e, r = Err e) ∧ w_fs w' !! p = w_fs w !! p.
Proof.
  intros Hp Hw.
  pose proof (io_no_panic_run _ _ _ _ (no_panic_atomic_write p bs) Hw) as Hnp.
  rewrite atomic_write_split in Hw.
  apply io_bind_inv in Hw as [(tmp & w1 & E1 & Hw)|[(e & E & ->)|(s & E & ->)]].
  - pose proof (touches_at _ _ _ _ _ p (touches_write_temp p bs Hp) E1 ltac:(tauto)) as Hkeep.
    destruct r as [[]|e|s].
    + left. split; [done|]. apply fs_rename_ok in Hw as (bs' & Htmp & ->).
      rewrite (write_temp_ok _ _ _ _ _ E1) in Htmp. injection Htmp as <-. apply lookup_insert_eq.
    + right. split; [eauto|]. by rewrite (fs_rename_err _ _ _ _ _ Hw).
    + by destruct (Hnp s).
  - right. split; [eauto|]. eapply touches_at; [by apply touches_write_temp|done|tauto].
  - by destruct (Hnp s).
Qed.

(** ** Writes elsewhere leave [state.json] alone *)
Definition off_state (q : path) : Prop := q ≠ state_path.

Lemma state_path_length : length state_path = S (length cache_dir).
Proof. unfold State.state_path, join1. rewrite length_app. simpl. lia. Qed.
Lemma temp_path_off_state p pid suffix : off_state (temp_path p pid suffix).
Proof.
  unfold off_state, temp_path, with_file_name, State.state_path, join1.
  intros [_ E]%app_inj_tail. discriminate E.
Qed.
Lemma patches_off_state n q r : q `prefix_of` patches_dir cache_dir n ++ r → off_state q.
Proof.
  intros Hq ->. unfold patches_dir, State.state_path, join1 in Hq.
  rewrite <- !app_assoc in Hq. by apply prefix_app_inv, prefix_cons_inv_1 in Hq.
Qed.
Lemma patches_under_off_state n q : under (patches_dir cache_dir n) q → off_state q.
Proof. intros [k ->]. by apply (patches_off_state n _ k). Qed.

Lemma touches_write_off_state p bs :
  off_state p → (∀ q, q ∈ ancestors (removelast p) → off_state q) →
  touches off_state (atomic_write_bytes p bs).
Proof.
  intros Hp Hd. eapply touches_weaken; [apply touches_atomic_write|].
  intros q [->|[(pid & suffix & ->)|Hq]]; [done|apply temp_path_off_state|auto].
Qed.
Lemma touches_patch_write n f bs :
  touches off_state (atomic_write_bytes (join1 (patches_dir cache_dir n) f) bs).
Proof.
  unfold join1. apply touches_write_off_state.
  - by apply (patches_off_state n _ [f]).
  - intros q [_ Hq]%ancestors_elem. rewrite removelast_last in Hq.
    apply (patches_off_state n _ []). by rewrite app_nil_r.
Qed.
Lemma touches_patch_dir n : touches off_state (fs_create_dir_all (patches_dir cache_dir n)).
Proof.
  apply touches_create_dir_all. intros q [_ Hq]%ancestors_elem.
  apply (patches_off_state n _ []). by rewrite app_nil_r.
Qed.
Lemma touches_append_event_zone e :
  touches (write_zone (rollback_events_path cache_dir)) (append_rollback_event cache_dir e).
Proof.
  unfold append_rollback_event.
  apply touches_bind.
  { apply touches_create_dir_all. intros q Hq. right; right.
    unfold rollback_events_path, join1. by rewrite removelast_last. }
  intros _. apply touches_bind; [apply touches_exists|intros b].
  apply touches_bind; [destruct b; touches_tac|intros old].
  apply touches_bind; [apply touches_lift|intros line]. apply touches_atomic_write.
Qed.
(** A file next to [events.log], with another name and not a temporary one. *)
Lemma event_zone_sibling n :
  n ≠ ROLLBACK_EVENTS_FILE → ("." ≠ stake 1 n)%string →
  ¬ write_zone (rollback_events_path cache_dir) (join1 cache_dir n).
Proof.
  unfold rollback_events_path, join1. intros Hn Hdot [E|[(pid & sfx & E)|Hq]].
  - by apply app_inj_tail in E as [_ ->].
  - unfold temp_path, with_file_name in E. apply app_inj_tail in E as [_ ->]. done.
  - rewrite removelast_last in Hq. apply ancestors_length in Hq. rewrite length_app in Hq. simpl in Hq. lia.
Qed.
Lemma touches_append_event e : touches off_state (append_rollback_event cache_dir e).
Proof.
  eapply touches_weaken; [apply touches_append_event_zone|]. intros q Hq ->.
  by apply (event_zone_sibling "state.json") in Hq.
Qed.


Lemma touches_find_installed_base S h l : touches S (find_installed_base cache_dir h l).
Proof.
  induction l as [|p l IH]; simpl; [apply touches_ret|].
  destruct (artifact_path p); [|done]. apply touches_bind; [apply touches_ok, touches_read|].
  intros [c|]; [|done]. destruct (String.eqb _ _); [apply touches_ret|done].
Qed.
Lemma touches_find_diff_base S h l baseline : touches S (find_diff_base cache_dir h l baseline).
Proof.
  unfold find_diff_base. apply touches_bind; [apply touches_find_installed_base|].
  intros [c|]; [apply touches_ret|]. destruct baseline; touches_tac.
Qed.
Lemma touches_chained_diff S m bs l baseline :
  touches S (snapshot_replace_chained_diff cache_dir m bs l baseline).
Proof.
  unfold snapshot_replace_chained_diff.
  apply touches_bind; [apply touches_lift|intros alg].
  apply touches_bind; [apply touches_lift|intros h].
  apply touches_bind; [apply touches_find_diff_base|intros base].
  apply touches_bind; [apply touches_lift|intros artifact].
  destruct (output_hash _); [|apply touches_ret]. destruct (negb _); touches_tac.
Qed.

(** ** Loading *)
Lemma load_state_spec w s r w' :
  holds w s → load_state cache_dir w = (r, w') →
  w_fs w' = w_fs w ∧ w_stats w' = [] ∧ (r = Ok s ∨ ∃ e, r = Err e).
Proof.
  intros [Hstat Hs] Hl. unfold load_state, disk_state in *.
  unfold fs_exists in Hl. rewrite stat_call_bind in Hl by done.
  rewrite bool_decide_eq_false_2 in Hl by (unfold State.state_path, join1; by destruct cache_dir).
  destruct (w_fs w !! state_path) as [[bs|]|] eqn:E; [|done|].
  - cbn in Hl. apply io_bind_inv in Hl as [(bs' & w1 & Hread & Hl)|[(e & Hread & ->)|(? & Hread & _)]].
    + pose proof Hread as Ht. apply (touches_stats (λ _, True)) in Ht; [|apply touches_read|done].
      apply fs_read_fs in Hread as [Hfs [(bs0 & Hb & [= ->])|[? [=]]]].
      rewrite E in Hb. injection Hb as <-.
      destruct (from_slice bs); try done. injection Hs as <-. injection Hl as <- <-. eauto.
    + pose proof Hread as Ht. apply (touches_stats (λ _, True)) in Ht; [|apply touches_read|done].
      apply fs_read_fs in Hread as [Hfs _]. eauto.
    + apply fs_read_fs in Hread as [_ [(? & _ & [=])|[? [=]]]].
  - cbn in Hl. injection Hl as <- <-. injection Hs as ->. eauto.
Qed.

(** ** Saving *)
Lemma save_state_spec w s s' r w' :
  holds w s → STATE_SCHEMA_VERSION ≤ st_schema_version s' → save_state cache_dir s' w = (r, w') →
  (r = Ok tt ∧ holds w' s') ∨ (∃ e, r = Err e) ∧ holds w' s.
Proof.
  intros [Hstat Hs] Hv Hw. unfold save_state, atomic_write_json in Hw.
  apply io_bind_inv in Hw as [(bs & w1 & Hbs & Hw)|[(e & E & ->)|(m & E & ->)]].
  - apply io_lift_ok in Hbs as [Hbs%map_err_ok ->].
    pose proof (touches_stats _ _ _ _ _ (touches_atomic_write _ _) Hw Hstat) as Hst.
    apply atomic_write_spec in Hw as [[-> Hp]|[He Hp]];
      [| |unfold State.state_path, join1; by destruct cache_dir].
    + left. split; [done|]. split; [congruence|]. unfold disk_state. rewrite Hp.
      rewrite (from_to_vec_pretty _ _ I Hbs). by rewrite migrate_id.
    + right. split; [done|]. split; [congruence|]. by rewrite (disk_state_ext _ _ Hp).
  - injection E as E <-. right. split; [eauto|done].
  - exfalso. injection E as E _. destruct (to_vec_pretty_total (A:=State) s' I) as [bs Hbs].
    by rewrite Hbs in E.
Qed.

(** ** Atomic implementation *)
(** From a world that holds [s]: success is a [step] that is on disk, anything
    else leaves [s] on disk. *)
Definition implements {A} (s : State) (m : IO A) (step : A → State → Prop) : Prop :=
  ∀ w r w', holds w s → m w = (r, w') →
    match r with Ok a => ∃ s', step a s' ∧ holds w' s' | _ => holds w' s end.

Lemma implements_ret {A} s (a : A) (step : A → State → Prop) : step a s → implements s (mret a) step.
Proof. intros Hs w r w' Hw [= <- <-]. eauto. Qed.
Lemma implements_lift {A} s (r : result A) :
  implements s (io_lift r) (λ a s', s' = s ∧ r = Ok a).
Proof. intros w r0 w' Hw [= <- <-]. destruct r; eauto. Qed.
Lemma implements_err {A} s m (step : A → State → Prop) : implements s (io_err m) step.
Proof. by intros w r w' Hw [= <- <-]. Qed.
Lemma implements_bind {A B} s (m : IO A) (f : A → IO B) (P : A → Prop) step :
  implements s m (λ a s', s' = s ∧ P a) → (∀ a, P a → implements s (f a) step) →
  implements s (m ≫= f) step.
Proof.
  intros Hm Hf w r w' Hw Hr.
  apply io_bind_inv in Hr as [(a & w1 & E & Hr)|[(e & E & ->)|(t & E & ->)]];
    specialize (Hm _ _ _ Hw E); simpl in Hm; [|done..].
  destruct Hm as (s' & [-> Ha] & Hw1). exact (Hf a Ha _ _ _ Hw1 Hr).
Qed.
Lemma implements_return {A B} s (m : IO A) (g : A → B) (step : A → State → Prop) (step' : B → State → Prop) :
  implements s m step → (∀ a s', step a s' → step' (g a) s') →
  implements s (a ← m; mret (g a)) step'.
Proof.
  intros Hm Hstep w r w' Hw Hr.
  apply io_bind_inv in Hr as [(a & w1 & E & Hr)|[(e & E & ->)|(t & E & ->)]];
    specialize (Hm _ _ _ Hw E); simpl in Hm; [|done..].
  injection Hr as <- <-. destruct Hm as (s' & Hs & Hw1). eauto.
Qed.
Lemma implements_off_state {A} s (m : IO A) :
  touches off_state m → implements s m (λ _ s', s' = s ∧ True).
Proof.
  intros Hm w r w' [Hstat Hs] Hr.
  assert (holds w' s) as Hw'.
  { split; [by eapply touches_stats|].
    rewrite (disk_state_ext (w_fs w)); [done|].
    eapply touches_at; [done..|]. unfold off_state. tauto. }
  destruct r; eauto.
Qed.
Lemma implements_load s : implements s (load_state cache_dir) (λ a s', s' = s ∧ a = s).
Proof.
  intros w r w' Hw Hr. destruct (load_state_spec _ _ _ _ Hw Hr) as (Hfs & Hst & Hres).
  assert (holds w' s) as Hw' by (destruct Hw; split; [congruence|by rewrite Hfs]).
  destruct Hres as [->|[e ->]]; eauto.
Qed.
Lemma implements_save s s1 :
  STATE_SCHEMA_VERSION ≤ st_schema_version s1 →
  implements s (save_state cache_dir s1) (λ _ s', s' = s1).
Proof.
  intros Hv w r w' Hw Hr.
  destruct (save_state_spec _ _ _ _ _ Hw Hv Hr) as [[-> ?]|[[e ->] ?]]; eauto.
Qed.
Lemma implements_holds {A} s (m : IO A) step :
  (STATE_SCHEMA_VERSION ≤ st_schema_version s → implements s m step) → implements s m step.
Proof. intros Hm w r w' Hw. apply Hm; [|done]. destruct Hw as [_ Hs]. by eapply disk_state_schema. Qed.

(** ** The operations *)
Lemma select_is_installed s n :
  select_launch_patch_number s = Some n →
  n ∉ bad_patches s ∧ ∃ p, find_installed n (installed s) = Some p ∧ ip_patch_number p = n ∧ p ∈ installed s.
Proof.
  unfold select_launch_patch_number. intros [_ Hl]%List.find_some.
  unfold launchable in Hl. apply andb_true_iff in Hl as [Hb Hi].
  apply negb_true_iff, bool_decide_eq_false in Hb. split; [done|].
  unfold find_installed. destruct (List.find _ _) as [p|] eqn:E.
  - exists p. apply List.find_some in E as [Hin Hp]. apply N.eqb_eq in Hp.
    split_and!; [done..|]. by apply list_elem_of_In.
  - exfalso. apply existsb_exists in Hi as (p & Hin & Hp).
    by rewrite (List.find_none _ _ E p Hin) in Hp.
Qed.

Lemma launch_recover_schema s : st_schema_version (launch_recover s) = st_schema_version s.
Proof.
  unfold launch_recover. destruct (pending_launch s) as [n|]; [|done]. simpl.
  destruct (_ <=? _); [|done]. by destruct (mark_patch_bad_spec s n) as (_&_&_&_&_&_&_&->).
Qed.

Lemma implements_launch s :
  implements s (launch_patch cache_dir) (λ p s', ∃ now, launch_next s now = (s', p)).
Proof.
  apply implements_holds. intros Hv. unfold launch_patch.
  eapply implements_bind; [apply implements_load|]. intros ? ->.
  eapply (implements_bind _ _ _ (λ sb, sb.1 = launch_recover s ∧ (sb.2 = false → sb.1 = s))).
  { unfold launch_recover, pending_launch. destruct (last_launch s) as [l|]; [|by apply implements_ret].
    destruct (String.eqb (status l) "pending_success"); [|by apply implements_ret].
    eapply (implements_bind _ _ _ (λ s1, s1 = if MAX_BOOT_ATTEMPTS <=? saturating_incr (boot_attempts s)
              then mark_patch_bad s (ll_patch_number l) else s)).
    - destruct (_ <=? _); [|by apply implements_ret].
      eapply implements_bind; [apply implements_off_state, touches_now_string|intros now _].
      eapply implements_bind; [apply implements_off_state, touches_append_event|intros _ _].
      by apply implements_ret.
    - intros s1 ->. by apply implements_ret. }
  intros [s1 changed] [Hs1 Hch]. simpl in Hs1, Hch. subst s1.
  assert (STATE_SCHEMA_VERSION ≤ st_schema_version (launch_recover s)) as Hv1
    by by rewrite launch_recover_schema.
  assert (∀ p (now : string), launch_next s now = (launch_recover s, p) →
    implements s (_ ← (if changed then save_state cache_dir (launch_recover s) else mret tt); mret p)
      (λ p s', ∃ now, launch_next s now = (s', p))) as Hquiet.
  { intros p now Hn. apply (implements_return _ _ _ (λ _ s', s' = launch_recover s));
      [|intros ? s' ->; by exists now].
    destruct changed; [by apply implements_save|]. apply implements_ret. symmetry; auto. }
  destruct (select_launch_patch_number (launch_recover s)) as [n|] eqn:Hsel.
  - destruct (select_is_installed _ _ Hsel) as (_ & p & Hp & _). rewrite Hp.
    rewrite bool_decide_eq_true_2 by done.
    eapply (implements_bind _ _ _ (λ sb, ∃ now, sb = (start_launch (launch_recover s) n now, true))).
    { eapply implements_bind; [apply implements_off_state, touches_now_string|intros now _].
      apply implements_ret. split; [done|]. by exists now. }
    intros [s2 ch] (now & [= -> ->]).
    eapply implements_return; [by apply implements_save|].
    intros [] s' Hs'. simpl in Hs'. subst s'. exists now. unfold launch_next. by rewrite Hsel, Hp.
  - apply (Hquiet _ ""%string). unfold launch_next. by rewrite Hsel.
Qed.

Lemma implements_mark_success s :
  implements s (mark_success cache_dir) (λ _ s', ∃ l, can_mark_success s l ∧ s' = success_next s l).
Proof.
  apply implements_holds. intros Hv. unfold mark_success.
  eapply implements_bind; [apply implements_load|]. intros ? ->.
  destruct (last_launch s) as [l|] eqn:Hl; [|apply implements_err].
  case_bool_decide as Hb; [apply implements_err|].
  destruct (starts_with "failure:" (status l)) eqn:Hf; [apply implements_err|].
  intros w r w' Hw Hr. pose proof (implements_save s (success_next s l) Hv w r w' Hw Hr) as Hsave.
  destruct r; [|done..]. destruct Hsave as (s' & -> & ?). exists (success_next s l).
  split; [|done]. exists l. by split.
Qed.

Lemma implements_mark_failure s n why :
  implements s (mark_failure cache_dir n why) (λ _ s', ∃ now, s' = failure_next s n why now).
Proof.
  apply implements_holds. intros Hv. unfold mark_failure.
  eapply implements_bind; [apply implements_load|]. intros ? ->.
  eapply implements_bind; [apply implements_off_state, touches_now_string|intros now _].
  intros w r w' Hw Hr.
  assert (STATE_SCHEMA_VERSION ≤ st_schema_version (failure_next s n why now)) as Hv'.
  { unfold failure_next. cbn [st_schema_version set_last_launch].
    by destruct (mark_patch_bad_spec s n) as (_&_&_&_&_&_&_&->). }
  pose proof (implements_save s _ Hv' w r w' Hw Hr) as Hsave.
  destruct r; [|done..]. destruct Hsave as (s' & -> & ?). eauto.
Qed.


Lemma implements_evict s0 fuel s :
  implements s0 (evict cache_dir fuel s) (λ a s', s' = s0 ∧ a = evict_next fuel s).
Proof.
  revert s. induction fuel as [|fuel IH]; intros s; simpl; [by apply implements_ret|].
  destruct (2 <? _); [|by apply implements_ret].
  destruct (position _ _) as [i|] eqn:Hi; [|by apply implements_ret].
  apply position_some in Hi as [(p & Hp & _) _]. rewrite Hp.
  eapply implements_bind; [|intros _ _; apply IH].
  apply implements_off_state, touches_ok, touches_remove_dir_all.
  intros q. apply patches_under_off_state.
Qed.

Lemma evict_next_schema fuel s : st_schema_version (evict_next fuel s) = st_schema_version s.
Proof.
  revert s. induction fuel as [|fuel IH]; intros s; simpl; [done|].
  destruct (2 <? _); [|done]. destruct (position _ _); [|done]. by rewrite IH.
Qed.

(** The checks [install_payload_with_baseline] makes. *)
Definition installable (key : string) (m : PatchManifest) (bytes : list byte) : Prop :=
  verify_patch_manifest m key = Ok tt ∧ sha256_hex bytes = hash (payload m)
  ∧ validate_payload_contract snapshot_replace m bytes = Ok tt.
(** What an accepted payload satisfies. *)
Definition verified (fs : FS) (mp pp : path) (key : string) (m : PatchManifest) (bytes : list byte) : Prop :=
  (∃ mb, fs !! mp = Some (File mb) ∧ from_slice mb = Ok m)
  ∧ verify_patch_manifest m key = Ok tt
  ∧ fs !! pp = Some (File bytes)
  ∧ sha256_hex bytes = hash (payload m)
  ∧ validate_payload_contract snapshot_replace m bytes = Ok tt.

Lemma implements_install s mp pp key baseline :
  implements s (install_payload_with_baseline snapshot_replace cache_dir mp pp key baseline)
    (λ _ s', ∃ m artifact now, s' = install_next s m artifact now
       ∧ verify_patch_manifest m key = Ok tt
       ∧ (artifact = None ∨ artifact = Some (patch_file (patch_number m) "libapp.so")
            ∧ backend m = "snapshot_replace"%string)).
Proof.
  apply implements_holds. intros Hv. unfold install_payload_with_baseline.
  eapply (implements_bind _ _ _ (λ _, True));
    [apply implements_off_state; unfold read_json; touches_tac|intros m _].
  eapply implements_bind; [apply implements_lift|intros [] Hver].
  eapply implements_bind; [apply implements_off_state, touches_read|intros bs _].
  destruct (negb _); [apply implements_err|].
  eapply implements_bind; [apply implements_lift|intros [] _].
  eapply implements_bind; [apply implements_off_state, touches_patch_dir|intros [] _].
  eapply implements_bind; [apply implements_off_state, touches_read|intros mb _].
  eapply implements_bind; [apply implements_off_state, touches_patch_write|intros [] _].
  eapply implements_bind; [apply implements_off_state, touches_patch_write|intros [] _].
  eapply implements_bind; [apply implements_load|intros ? ->].
  eapply (implements_bind _ _ _ (λ artifact, artifact = None
    ∨ artifact = Some (patch_file (patch_number m) "libapp.so") ∧ backend m = "snapshot_replace"%string)).
  { destruct (String.eqb_spec (backend m) "snapshot_replace"); [|apply implements_ret; auto].
    destruct snapshot_replace; [|apply implements_err].
    eapply implements_bind; [apply implements_off_state, touches_chained_diff|intros art _].
    eapply implements_bind; [apply implements_off_state, touches_patch_write|intros [] _].
    apply implements_ret. auto. }
  intros artifact Hart.
  eapply implements_bind; [apply implements_off_state, touches_now_string|intros now _].
  eapply implements_bind; [apply implements_evict|intros ? ->].
  intros w r w' Hw Hr.
  assert (STATE_SCHEMA_VERSION ≤ st_schema_version (install_next s m artifact now)) as Hv'.
  { unfold install_next. rewrite evict_next_schema. done. }
  pose proof (implements_save s _ Hv' w r w' Hw Hr) as Hsave.
  destruct r; [|done..]. destruct Hsave as (s' & -> & ?). eexists. split; [|done]. eauto 6.
Qed.

Lemma implements_ready s : implements s (ready_patch cache_dir) (λ p s', s' = s ∧
  p = n ← pending_patch_number s; if bool_decide (n ∈ bad_patches s) then None
      else find_installed n (installed s)).
Proof.
  unfold ready_patch. eapply implements_bind; [apply implements_load|intros ? ->].
  destruct (pending_patch_number s) as [n|]; [|by apply implements_ret]. simpl.
  case_bool_decide; by apply implements_ret.
Qed.

Lemma touches_events : touches off_state (rollback_events cache_dir).
Proof.
  unfold rollback_events. apply touches_bind; [apply touches_exists|intros e].
  destruct (negb e); touches_tac.
Qed.
Lemma touches_clear_events : touches off_state (clear_rollback_events cache_dir).
Proof.
  unfold clear_rollback_events. apply touches_bind; [apply touches_exists|intros []]; [|touches_tac].
  apply touches_remove_file. unfold off_state, rollback_events_path, State.state_path, join1.
  by intros [_ E]%app_inj_tail.
Qed.

(** ** Traces *)
Inductive action :=
| Install (manifest payload : path) (key : string) (baseline : option path)
| Launch
| Ready
| MarkSuccess
| MarkFailure (n : N) (why : string)
| ReadEvents
| ClearEvents.
Definition run_action (a : action) (w : World) : World :=
  match a with
  | Install m p k b => (install_payload_with_baseline snapshot_replace cache_dir m p k b w).2
  | Launch => (launch_patch cache_dir w).2
  | Ready => (ready_patch cache_dir w).2
  | MarkSuccess => (mark_success cache_dir w).2
  | MarkFailure n why => (mark_failure cache_dir n why w).2
  | ReadEvents => (rollback_events cache_dir w).2
  | ClearEvents => (clear_rollback_events cache_dir w).2
  end.

(** One step of a device: an operation (under the faults its world schedules),
    or a change of everything but [state.json]: downloads, a new schedule, a new
    process, the clock. *)
Inductive device_step : World → World → Prop :=
| step_action a w : device_step w (run_action a w)
| step_environment w w' :
    w_stats w' `suffix_of` w_stats w → w_fs w' !! state_path = w_fs w !! state_path → device_step w w'.

Inductive state_step : State → State → Prop :=
| state_launch s now : state_step s (launch_next s now).1
| state_success s l : can_mark_success s l → state_step s (success_next s l)
| state_failure s n why now : state_step s (failure_next s n why now)
| state_install s m artifact now : state_step s (install_next s m artifact now).

Lemma implements_run {A} s (m : IO A) step w :
  implements s m step → holds w s →
  holds (m w).2 s ∨ ∃ a s', step a s' ∧ holds (m w).2 s'.
Proof.
  intros Hm Hw. specialize (Hm w (m w).1 (m w).2 Hw (surjective_pairing _)).
  destruct (m w).1; [|by left..]. destruct Hm as (s' & ? & ?). right. eauto.
Qed.

(** Every step of a device is a step of the state machine or leaves the state. *)
Lemma device_step_simulated w w' s :
  device_step w w' → holds w s → ∃ s', holds w' s' ∧ (s' = s ∨ state_step s s').
Proof.
  intros Hstep Hw. destruct Hstep as [a w|w w' Hst Hfs].
  - destruct a; simpl.
    + destruct (implements_run _ _ _ w (implements_install s manifest payload key baseline) Hw)
        as [?|([] & s' & (m & art & now & -> & _) & ?)]; eauto using state_step.
    + destruct (implements_run _ _ _ w (implements_launch s) Hw) as [?|(p & s' & [now Hn] & ?)]; [eauto|].
      exists s'. split; [done|]. right. change s' with (s', p).1. rewrite <- Hn. constructor.
    + destruct (implements_run _ _ _ w (implements_ready s) Hw) as [?|(p & s' & [-> _] & ?)]; eauto.
    + destruct (implements_run _ _ _ w (implements_mark_success s) Hw)
        as [?|([] & s' & (l & ? & ->) & ?)]; eauto using state_step.
    + destruct (implements_run _ _ _ w (implements_mark_failure s n why) Hw)
        as [?|([] & s' & [now ->] & ?)]; eauto using state_step.
    + destruct (implements_run _ _ _ w (implements_off_state s _ touches_events) Hw)
        as [?|(? & s' & [-> _] & ?)]; eauto.
    + destruct (implements_run _ _ _ w (implements_off_state s _ touches_clear_events) Hw)
        as [?|(? & s' & [-> _] & ?)]; eauto.
  - exists s. split; [|by left]. destruct Hw as [Hw1 Hw2]. split; [by eapply stats_none|].
    by rewrite (disk_state_ext (w_fs w)).
Qed.

Lemma device_simulated w w' s :
  rtc device_step w w' → holds w s → ∃ s', holds w' s' ∧ rtc state_step s s'.
Proof.
  intros Hr. revert s. induction Hr as [w|w w1 w' Hstep _ IH]; intros s Hw; [by exists s|].
  destruct (device_step_simulated _ _ _ Hstep Hw) as (s1 & Hw1 & Hs1).
  destruct (IH s1 Hw1) as (s' & Hw' & Hr'). exists s'. split; [done|].
  destruct Hs1 as [->|Hs1]; [done|]. by econstructor.
Qed.
End Machine.

(** ** Invariants of the state machine *)
Lemma evict_next_fields fuel s :
  bad_patches (evict_next fuel s) = bad_patches s
  ∧ current_patch_number (evict_next fuel s) = current_patch_number s
  ∧ pending_patch_number (evict_next fuel s) = pending_patch_number s
  ∧ last_known_good_patch_number (evict_next fuel s) = last_known_good_patch_number s
  ∧ boot_attempts (evict_next fuel s) = boot_attempts s
  ∧ last_launch (evict_next fuel s) = last_launch s.
Proof.
  revert s. induction fuel as [|fuel IH]; intros s; simpl; [done|].
  destruct (2 <? _); [|done]. destruct (position _ _) as [i|]; [|done].
  destruct (IH (set_installed s (delete (N.to_nat i) (installed s)))) as (->&->&->&->&->&->). done.
Qed.

Lemma launch_recover_bad s n : n ∈ bad_patches s → n ∈ bad_patches (launch_recover s).
Proof.
  unfold launch_recover. destruct (pending_launch s) as [m|]; [|done]. simpl.
  destruct (_ <=? _); [|done]. intros Hn. apply mark_patch_bad_spec. auto.
Qed.
Lemma launch_next_bad s now : bad_patches (launch_next s now).1 = bad_patches (launch_recover s).
Proof. unfold launch_next. repeat case_match; done. Qed.

Lemma state_step_bad s s' n : state_step s s' → n ∈ bad_patches s → n ∈ bad_patches s'.
Proof.
  destruct 1; intros Hn.
  - rewrite launch_next_bad. by apply launch_recover_bad.
  - done.
  - unfold failure_next. apply mark_patch_bad_spec. auto.
  - unfold install_next. by rewrite (proj1 (evict_next_fields _ _)).
Qed.
Lemma state_trace_bad s s' n : rtc state_step s s' → n ∈ bad_patches s → n ∈ bad_patches s'.
Proof. induction 1; eauto using state_step_bad. Qed.

Lemma launch_next_launches s now s' p :
  launch_next s now = (s', Some p) →
  ip_patch_number p ∉ bad_patches s' ∧ p ∈ installed s'
  ∧ s' = start_launch (launch_recover s) (ip_patch_number p) now.
Proof.
  unfold launch_next. destruct (select_launch_patch_number _) as [n|] eqn:Hsel; [|done].
  destruct (select_is_installed _ _ Hsel) as (Hb & q & -> & Hq & Hin).
  intros [= <- <-]. rewrite Hq. done.
Qed.

(** *** The installed patches *)
Definition installed_numbers (s : State) : list N := ip_patch_number <$> installed s.
(** Sorted by strictly increasing number, at most three of them. *)
Definition installed_ok (s : State) : Prop :=
  StronglySorted N.lt (installed_numbers s) ∧ len (installed s) ≤ 3.

Lemma insert_by_key_sorted (x : InstalledPatch) l :
  StronglySorted N.lt (ip_patch_number <$> l) → ip_patch_number x ∉ ip_patch_number <$> l →
  StronglySorted N.lt (ip_patch_number <$> insert_by_key ip_patch_number x l).
Proof.
  induction l as [|y l IH]; simpl; [by repeat constructor|].
  intros [Hs Hall]%StronglySorted_inv Hx. apply not_elem_of_cons in Hx as [Hxy Hx].
  destruct (N.leb_spec (ip_patch_number x) (ip_patch_number y)); simpl.
  - constructor; [by constructor|]. constructor; [lia|].
    eapply Forall_impl; [done|]. simpl. lia.
  - constructor; [auto|]. apply list.Forall_forall. intros n Hn.
    assert (n = ip_patch_number x ∨ n ∈ ip_patch_number <$> l) as [->|Hin]; [|lia|].
    { revert Hn. clear. induction l as [|z l IH]; simpl; [set_solver|].
      destruct (_ <=? _); simpl; set_solver. }
    rewrite list.Forall_forall in Hall. auto.
Qed.
Lemma insert_by_key_perm {A} (key : A → N) x l : insert_by_key key x l ≡ₚ x :: l.
Proof.
  induction l as [|y l IH]; simpl; [done|]. destruct (_ <=? _); [done|].
  rewrite IH. apply Permutation_swap.
Qed.
Lemma sort_by_key_perm {A} (key : A → N) l : sort_by_key key l ≡ₚ l.
Proof. induction l as [|x l IH]; simpl; [done|]. by rewrite insert_by_key_perm, IH. Qed.
Lemma sort_by_key_sorted l :
  NoDup (ip_patch_number <$> l) → StronglySorted N.lt (ip_patch_number <$> sort_by_key ip_patch_number l).
Proof.
  induction l as [|x l IH]; simpl; [constructor|]. intros [Hx Hd]%NoDup_cons.
  apply insert_by_key_sorted; [auto|]. by rewrite sort_by_key_perm.
Qed.
Lemma sorted_lt_NoDup l : StronglySorted N.lt l → NoDup l.
Proof.
  induction 1 as [|x l Hs IH Hall]; constructor; [|done].
  rewrite list.Forall_forall in Hall. intros Hx. specialize (Hall x Hx). lia.
Qed.
Lemma elem_of_delete {A} (l : list A) (i : nat) y : y ∈ delete i l → y ∈ l.
Proof.
  revert i. induction l as [|x l IH]; intros [|i]; simpl; [set_solver..|].
  rewrite !list.elem_of_cons. naive_solver.
Qed.
Lemma sorted_lt_delete (l : list N) (i : nat) : StronglySorted N.lt l → StronglySorted N.lt (delete i l).
Proof.
  intros Hs. revert i. induction Hs as [|x l Hs IH Hall]; intros [|i]; simpl; [constructor..|done|].
  constructor; [done|]. rewrite list.Forall_forall in *. intros y Hy. by eapply Hall, elem_of_delete.
Qed.
Lemma fmap_delete {A B} (f : A → B) (l : list A) (i : nat) : f <$> delete i l = delete i (f <$> l).
Proof. revert i. induction l as [|x l IH]; intros [|i]; simpl; [done..|]. by rewrite <- IH. Qed.

(** Four different numbers are not all current, pending or last known good. *)
Lemma protected_bound s l :
  NoDup l → (∀ n, n ∈ l → n = current_patch_number s ∨ Some n = pending_patch_number s
               ∨ Some n = last_known_good_patch_number s) → (length l ≤ 3)%nat.
Proof.
  intros Hd Hl.
  transitivity (length (current_patch_number s :: option_list (pending_patch_number s)
    ++ option_list (last_known_good_patch_number s))).
  - apply submseteq_length, NoDup_submseteq; [done|]. intros n Hn.
    destruct (Hl n Hn) as [->|[E|E]]; [left|right; apply elem_of_app..];
      rewrite <- E; simpl; set_solver.
  - simpl. rewrite length_app. destruct (pending_patch_number s), (last_known_good_patch_number s); simpl; lia.
Qed.

Lemma evict_next_installed fuel s :
  (length (installed s) ≤ fuel)%nat → StronglySorted N.lt (installed_numbers s) →
  installed_ok (evict_next fuel s).
Proof.
  revert s. induction fuel as [|fuel IH]; intros s Hfuel Hs; simpl.
  { split; [done|]. unfold len. lia. }
  destruct (N.ltb_spec 2 (len (installed s))) as [Hlen|Hlen]; [|split; [done|lia]].
  destruct (position (evictable s) (installed s)) as [i|] eqn:Hi.
  - apply position_some in Hi as [(p & Hp & _) _].
    assert (installed s !! N.to_nat i = Some p) as Hp' by done.
    apply IH; unfold installed_numbers; simpl.
    + rewrite length_delete by eauto. apply lookup_lt_Some in Hp'. lia.
    + rewrite fmap_delete. by apply sorted_lt_delete.
  - split; [done|]. apply position_none in Hi. rewrite list.Forall_forall in Hi.
    assert (length (installed_numbers s) ≤ 3)%nat as Hl;
      [|unfold installed_numbers in Hl; rewrite length_fmap in Hl; unfold len; lia].
    apply (protected_bound s); [by apply sorted_lt_NoDup|].
    intros n (p & -> & Hp)%list_elem_of_fmap. specialize (Hi p Hp). unfold evictable in Hi.
    rewrite !andb_false_iff, !negb_false_iff, N.eqb_eq, !bool_decide_eq_true in Hi. tauto.
Qed.

Lemma NoDup_fmap_filter {A B} (f : A → B) (P : A → Prop) `{∀ x, Decision (P x)} l :
  NoDup (f <$> l) → NoDup (f <$> filter P l).
Proof.
  intros Hd. eapply sublist_NoDup; [exact Hd|]. apply fmap_sublist, sublist_filter.
Qed.

Lemma install_next_installed s m artifact now :
  installed_ok s → installed_ok (install_next s m artifact now).
Proof.
  intros [Hs _]. unfold install_next. apply evict_next_installed; [done|].
  unfold installed_numbers, record_install. simpl. apply sort_by_key_sorted.
  rewrite fmap_app. apply NoDup_app. split_and!.
  - apply NoDup_fmap_filter. by apply sorted_lt_NoDup.
  - intros n (p & -> & Hp)%list_elem_of_fmap. apply list_elem_of_filter in Hp as [Hp _]. simpl. set_solver.
  - apply NoDup_singleton.
Qed.

Lemma launch_recover_installed s : installed (launch_recover s) = installed s.
Proof.
  unfold launch_recover. destruct (pending_launch s) as [n|]; [|done]. simpl.
  destruct (_ <=? _); [|done]. by destruct (mark_patch_bad_spec s n) as (_&_&_&_&_&->&_).
Qed.
Lemma launch_next_installed s now : installed (launch_next s now).1 = installed s.
Proof.
  unfold launch_next. rewrite <- (launch_recover_installed s). repeat case_match; done.
Qed.

Lemma state_step_installed s s' : state_step s s' → installed_ok s → installed_ok s'.
Proof.
  unfold installed_ok, installed_numbers. destruct 1; intros Hs.
  - by rewrite launch_next_installed.
  - done.
  - unfold failure_next. cbn [installed set_last_launch].
    by destruct (mark_patch_bad_spec s n) as (_&_&_&_&_&->&_).
  - by apply install_next_installed.
Qed.
Lemma state_trace_installed s s' : rtc state_step s s' → installed_ok s → installed_ok s'.
Proof. induction 1; eauto using state_step_installed. Qed.
Lemma default_installed : installed_ok default_state.
Proof. split; [constructor|done]. Qed.

(** *** Boots without confirmation *)
Definition good_patches (s : State) : nat :=
  length (filter (λ p, ip_patch_number p ∉ bad_patches s) (installed s)).
(** Boots left for the patch being tried. *)
Definition tries_left (s : State) : nat := 2 - N.to_nat (N.min 2 (boot_attempts s)).
Definition boots_left (s : State) : nat := tries_left s + 2 * (good_patches s - 1).

Lemma filter_length_le {A} (P Q : A → Prop) `{∀ x, Decision (P x), ∀ x, Decision (Q x)} l :
  (∀ x, P x → Q x) → (length (filter P l) ≤ length (filter Q l))%nat.
Proof.
  intros HPQ. induction l as [|x l IH]; [done|]. rewrite !filter_cons.
  repeat case_decide; simpl; try lia. naive_solver.
Qed.
Lemma filter_length_lt {A} (P Q : A → Prop) `{∀ x, Decision (P x), ∀ x, Decision (Q x)} l a :
  (∀ x, P x → Q x) → a ∈ l → Q a → ¬ P a → (length (filter P l) < length (filter Q l))%nat.
Proof.
  intros HPQ Hin HQ HP. induction l as [|x l IH]; [set_solver|]. rewrite !filter_cons.
  pose proof (filter_length_le P Q l HPQ).
  apply list.elem_of_cons in Hin as [<-|Hin].
  - rewrite decide_False, decide_True by done. simpl. lia.
  - specialize (IH Hin). repeat case_decide; simpl; try lia. naive_solver.
Qed.

(** The state after a launch that returned a patch. *)
Definition booted (s : State) : Prop :=
  ∃ p, pending_launch s = Some (ip_patch_number p) ∧ ip_patch_number p ∉ bad_patches s
       ∧ p ∈ installed s ∧ 1 ≤ boot_attempts s.

Lemma start_launch_spec s n now :
  good_patches (start_launch s n now) = good_patches s
  ∧ boot_attempts (start_launch s n now) = saturating_incr (boot_attempts s)
  ∧ pending_launch (start_launch s n now) = Some n.
Proof. done. Qed.
Lemma saturating_incr_spec a : 1 ≤ saturating_incr a ∧ (2 ≤ a → 3 ≤ saturating_incr a)
  ∧ (a < 2 → saturating_incr a = a + 1).
Proof. unfold saturating_incr, saturating_add, u32_max. lia. Qed.

Lemma good_patches_recover s : (good_patches (launch_recover s) ≤ good_patches s)%nat.
Proof.
  unfold good_patches. rewrite launch_recover_installed. apply filter_length_le.
  intros p Hp Hb. by apply Hp, launch_recover_bad.
Qed.
Lemma good_patches_length s : (good_patches s ≤ length (installed s))%nat.
Proof. apply length_filter. Qed.

Lemma launch_booted s now s' p :
  launch_next s now = (s', Some p) → booted s' ∧ (1 ≤ good_patches s' ≤ good_patches s)%nat.
Proof.
  intros Hl. destruct (launch_next_launches _ _ _ _ Hl) as (Hb & Hin & ->).
  set (s' := start_launch _ _ _) in *. split.
  - exists p. split_and!; [done..|]. apply saturating_incr_spec.
  - split; [|apply good_patches_recover]. unfold good_patches.
    destruct (filter _ _) as [|q l] eqn:E; [|simpl; lia].
    assert (p ∈ filter (λ p, ip_patch_number p ∉ bad_patches s') (installed s')) as Hp
      by by apply list_elem_of_filter.
    rewrite E in Hp. set_solver.
Qed.

Lemma boots_left_decreases s now s' p :
  booted s → launch_next s now = (s', Some p) → (boots_left s' + 1 ≤ boots_left s)%nat.
Proof.
  intros (q & Hpl & Hq & Hin & Ha) Hl.
  destruct (launch_booted _ _ _ _ Hl) as [_ [Hg1 _]].
  destruct (launch_next_launches _ _ _ _ Hl) as (_ & _ & ->).
  destruct (start_launch_spec (launch_recover s) (ip_patch_number p) now) as (Hg & Hat & _).
  unfold boots_left, tries_left. rewrite Hg in *. rewrite Hat. clear Hat Hg Hl.
  revert Hg1. unfold launch_recover, MAX_BOOT_ATTEMPTS. rewrite Hpl.
  destruct (saturating_incr_spec (boot_attempts s)) as (H1 & H2 & H3).
  destruct (N.leb_spec 3 (saturating_incr (boot_attempts s))) as [Hflag|Hflag].
  - destruct (mark_patch_bad_spec s (ip_patch_number q)) as (Hbad & _ & _ & _ & Hat & Hinst & _).
    unfold good_patches. cbn [installed bad_patches set_last_launch boot_attempts]. rewrite Hat, Hinst.
    pose proof (filter_length_lt (λ p, ip_patch_number p ∉ bad_patches (mark_patch_bad s (ip_patch_number q)))
      (λ p, ip_patch_number p ∉ bad_patches s) (installed s) q) as Hlt.
    change (saturating_incr 0) with 1. intros Hg1.
    assert (∀ x, ip_patch_number x ∉ bad_patches (mark_patch_bad s (ip_patch_number q)) →
      ip_patch_number x ∉ bad_patches s) as Hsub by (intros x Hx Hx'; apply Hx, Hbad; auto).
    specialize (Hlt Hsub Hin Hq). unfold good_patches in Hlt.
    assert (¬ (ip_patch_number q ∉ bad_patches (mark_patch_bad s (ip_patch_number q)))) as Hn
      by (intros Hn; apply Hn, Hbad; auto).
    specialize (Hlt Hn). change (N.to_nat (N.min 2 1)) with 1%nat. lia.
  - cbn [installed bad_patches set_last_launch boot_attempts]. intros Hg1.
    change (good_patches (set_last_launch s None)) with (good_patches s) in *. lia.
Qed.

Section Properties.
Context `{Hash, Base64, Ed25519, BsdiffZstd}.
Context `{Serde Value.t, ToValue PatchManifest, Serde PatchManifest, Serde SimpleBinaryDiff}.
Context `{Serde BytecodeModule, Serde State, Serde CrashRollbackEvent}.
Context `{!SerdeLaws State (λ _, True)}.
Variable snapshot_replace : bool.
Variable cache_dir : path.

(** [k] boots in a row that each launched a patch, with nothing but changes of
    the environment in between. *)
Inductive boots : nat → World → World → Prop :=
| boots_done w : boots 0 w w
| boots_boot k w w1 p w2 w' :
    w_stats w1 `suffix_of` w_stats w →
    w_fs w1 !! state_path cache_dir = w_fs w !! state_path cache_dir →
    launch_patch cache_dir w1 = (Ok (Some p), w2) → boots k w2 w' → boots (S k) w w'.

Lemma holds_environment w w1 s :
  w_stats w1 `suffix_of` w_stats w →
  w_fs w1 !! state_path cache_dir = w_fs w !! state_path cache_dir →
  holds cache_dir w s → holds cache_dir w1 s.
Proof.
  intros Hst Hfs [Hw1 Hw2]. split; [by eapply stats_none|]. by rewrite (disk_state_ext _ (w_fs w)).
Qed.
Lemma launch_holds w s p w' :
  holds cache_dir w s → launch_patch cache_dir w = (Ok p, w') →
  ∃ now s', launch_next s now = (s', p) ∧ holds cache_dir w' s'.
Proof.
  intros Hw Hl. destruct (implements_launch cache_dir s _ _ _ Hw Hl) as (s' & [now Hn] & Hw'). eauto.
Qed.

Lemma boots_after_boot k w s w' :
  holds cache_dir w s → booted s → boots k w w' → (k ≤ boots_left s)%nat.
Proof.
  intros Hw Hb Hk. revert s Hw Hb.
  induction Hk as [|k w w1 p w2 w' Hst Hfs Hl _ IH]; intros s Hw Hb; [lia|].
  destruct (launch_holds w1 s (Some p) w2) as (now & s' & Hn & Hw2);
    [by eapply holds_environment|done|].
  destruct (launch_booted _ _ _ _ Hn) as [Hb' _].
  pose proof (boots_left_decreases _ _ _ _ Hb Hn). specialize (IH s' Hw2 Hb'). lia.
Qed.
Lemma boots_bounded k w s w' :
  holds cache_dir w s → boots k w w' → (k ≤ 2 * length (installed s))%nat.
Proof.
  intros Hw Hk. destruct Hk as [|k w w1 p w2 w' Hst Hfs Hl Hk]; [lia|].
  destruct (launch_holds w1 s (Some p) w2) as (now & s' & Hn & Hw2);
    [by eapply holds_environment|done|].
  destruct (launch_booted _ _ _ _ Hn) as [Hb' Hg].
  pose proof (boots_after_boot _ _ _ _ Hw2 Hb' Hk) as Hle.
  destruct Hb' as (q & _ & _ & _ & Ha). pose proof (good_patches_length s).
  unfold boots_left, tries_left in Hle. lia.
Qed.
End Properties.
