(* ===== verification/StateProperties.v ===== *)
(** * Properties of the updater's state

    The theorems about [State]: the operations are atomic and implement the
    transition system of [StateFacts]; what holds along every trace of a device;
    what an accepted installation leaves on disk; the event log; recovery from a
    corrupt [state.json]; and three behaviours that lose information. *)
From S2P Require Import Prelude Text External Bytecode BytecodeWire BytecodeCheck BytecodeFacts Crypto Manifest Diff World State StateFacts.
Local Open Scope N_scope.

(** ** Panics *)
Section NoPanic.
Context `{Hash, Base64, Ed25519, BsdiffZstd}.
Context `{Serde Value.t, ToValue PatchManifest, Serde PatchManifest, Serde SimpleBinaryDiff}.
Context `{Serde BytecodeModule, Serde State, Serde CrashRollbackEvent}.
Context `{!SerdeLaws State (λ _, True), !SerdeLaws CrashRollbackEvent (λ _, True)}.
Variable snapshot_replace : bool.
Variable cache_dir : path.

Lemma serde_to_vec_no_panic {A} `{SerdeLaws A (λ _, True)} (a : A) : no_panic (map_err Json (to_vec a)).
Proof. destruct (to_vec_total a I) as [bs ->]. done. Qed.
Lemma serde_pretty_no_panic {A} `{SerdeLaws A (λ _, True)} (a : A) :
  no_panic (map_err Json (to_vec_pretty a)).
Proof. destruct (to_vec_pretty_total a I) as [bs ->]. done. Qed.
Lemma no_panic_append_event e : io_no_panic (append_rollback_event cache_dir e).
Proof.
  unfold append_rollback_event. apply io_no_panic_bind; [no_panic_tac|intros _].
  apply io_no_panic_bind; [no_panic_tac|intros b].
  apply io_no_panic_bind; [destruct b; no_panic_tac|intros old].
  apply io_no_panic_bind; [apply io_no_panic_lift, serde_to_vec_no_panic|intros line].
  apply no_panic_atomic_write.
Qed.
Lemma no_panic_load : io_no_panic (load_state cache_dir).
Proof.
  unfold load_state. apply io_no_panic_bind; [no_panic_tac|intros e].
  destruct (negb e); [no_panic_tac|]. apply io_no_panic_bind; [no_panic_tac|intros bs].
  pose proof (from_slice_no_panic (A:=State) bs) as Hnp.
  destruct (from_slice bs) as [s|err|t]; [no_panic_tac| |by destruct (Hnp t)].
  apply io_no_panic_bind.
  { unfold backup_corrupt_state. apply io_no_panic_bind; [apply no_panic_unique_suffix|].
    intros; no_panic_tac. }
  intros _. apply io_no_panic_bind; [apply no_panic_now_string|intros now].
  apply io_no_panic_bind; [apply no_panic_append_event|]. intros; no_panic_tac.
Qed.
Lemma no_panic_save s : io_no_panic (save_state cache_dir s).
Proof.
  unfold save_state, atomic_write_json. apply io_no_panic_bind.
  - apply io_no_panic_lift, serde_pretty_no_panic.
  - intros bs. apply no_panic_atomic_write.
Qed.
Lemma no_panic_mark_success : io_no_panic (mark_success cache_dir).
Proof.
  unfold mark_success. apply io_no_panic_bind; [apply no_panic_load|intros s].
  destruct (last_launch s); [|no_panic_tac]. destruct (bool_decide _); [no_panic_tac|].
  destruct (starts_with _ _); [no_panic_tac|apply no_panic_save].
Qed.
Lemma no_panic_mark_failure n why : io_no_panic (mark_failure cache_dir n why).
Proof.
  unfold mark_failure. apply io_no_panic_bind; [apply no_panic_load|intros s].
  apply io_no_panic_bind; [apply no_panic_now_string|intros now]. apply no_panic_save.
Qed.
Lemma no_panic_launch : io_no_panic (launch_patch cache_dir).
Proof.
  unfold launch_patch. apply io_no_panic_bind; [apply no_panic_load|intros s].
  apply io_no_panic_bind.
  { destruct (last_launch s); [|no_panic_tac]. destruct (String.eqb _ _); [|no_panic_tac].
    apply io_no_panic_bind; [|intros; no_panic_tac]. destruct (_ <=? _); [|no_panic_tac].
    apply io_no_panic_bind; [apply no_panic_now_string|intros now].
    apply io_no_panic_bind; [apply no_panic_append_event|intros; no_panic_tac]. }
  intros [s1 ch].
  assert (∀ s (p : option InstalledPatch),
    io_no_panic (_ ← (if ch then save_state cache_dir s else mret tt); mret p)) as Hq.
  { intros s' p. apply io_no_panic_bind; [destruct ch; [apply no_panic_save|no_panic_tac]|].
    intros; no_panic_tac. }
  destruct (select_launch_patch_number s1); [|apply Hq].
  apply io_no_panic_bind.
  { destruct (bool_decide _); [|no_panic_tac].
    apply io_no_panic_bind; [apply no_panic_now_string|intros; no_panic_tac]. }
  intros [s2 ch2]. apply io_no_panic_bind; [destruct ch2; [apply no_panic_save|no_panic_tac]|].
  intros; no_panic_tac.
Qed.

(** An outcome in which failure leaves [s] on disk. *)
Definition atomic_outcome {A} (s : State) (step : A → State → Prop) (r : result A) (w' : World) : Prop :=
  match r with
  | Ok a => ∃ s', step a s' ∧ holds cache_dir w' s'
  | Err _ => holds cache_dir w' s
  | Panic _ => False
  end.

Lemma implements_atomic {A} s (m : IO A) step w :
  implements cache_dir s m step → io_no_panic m → holds cache_dir w s →
  atomic_outcome s step (m w).1 (m w).2.
Proof.
  intros Hm Hnp Hw. specialize (Hm w _ _ Hw (surjective_pairing _)). specialize (Hnp w).
  destruct (m w).1 as [| |t]; [done|done|by destruct (Hnp t)].
Qed.

(** C2: under every schedule of I/O faults other than failing metadata calls,
    [launch_patch], [mark_success] and [mark_failure] never panic, and each either
    returns [Ok] with exactly the state change of the transition system on disk, or
    returns an error and the state on disk is the old one. *)
Theorem state_operations_atomic w s n why :
  holds cache_dir w s →
  (let o := launch_patch cache_dir w in
   atomic_outcome s (λ p s', ∃ now, launch_next s now = (s', p)) o.1 o.2)
  ∧ (let o := mark_success cache_dir w in
     atomic_outcome s (λ _ s', ∃ l, can_mark_success s l ∧ s' = success_next s l) o.1 o.2)
  ∧ (let o := mark_failure cache_dir n why w in
     atomic_outcome s (λ _ s', ∃ now, s' = failure_next s n why now) o.1 o.2).
Proof.
  intros Hw. split_and!; apply implements_atomic;
    eauto using implements_launch, implements_mark_success, implements_mark_failure,
      no_panic_launch, no_panic_mark_success, no_panic_mark_failure.
Qed.

(** C4: refinement: while no metadata call fails, every trace of a device
    (operations under any other faults, restarts, changes to other files) is a
    trace of the transition system on the state that [state.json] stands for.  (A
    metadata call that fails lets [load_state] take the device for a fresh one:
    [stat_error_resets_state].) *)
Theorem device_refines_state_machine w w' s :
  rtc (device_step snapshot_replace cache_dir) w w' → holds cache_dir w s →
  ∃ s', holds cache_dir w' s' ∧ rtc state_step s s'.
Proof. apply device_simulated. Qed.

(** C1: a patch once marked bad (by a failure report or a crash rollback) is
    never launched nor offered again, whatever operations, re-installations,
    restarts and faults happen in between, provided none of the faults is a failing
    metadata call ([holds] says that none is to come).  With one the mark can be
    lost: [stat_error_resets_state]. *)
Theorem bad_patch_never_launched w w1 w' s p :
  rtc (device_step snapshot_replace cache_dir) w w1 → holds cache_dir w s →
  launch_patch cache_dir w1 = (Ok (Some p), w') ∨ ready_patch cache_dir w1 = (Ok (Some p), w') →
  ip_patch_number p ∉ bad_patches s.
Proof.
  intros Htr Hw Hl Hbad. destruct (device_simulated _ _ _ _ _ Htr Hw) as (s1 & Hw1 & Hs).
  apply (state_trace_bad _ _ _ Hs) in Hbad. destruct Hl as [Hl|Hl].
  - destruct (launch_holds _ _ _ _ _ Hw1 Hl) as (now & s' & Hn & _).
    destruct (launch_next_launches _ _ _ _ Hn) as (Hp & _ & ->).
    apply Hp. by apply launch_recover_bad.
  - destruct (implements_ready cache_dir s1 _ _ _ Hw1 Hl) as (s' & (-> & Hp) & _).
    destruct (pending_patch_number s1) as [m|]; [|done]. simpl in Hp.
    case_bool_decide as Hm; [done|]. symmetry in Hp. unfold find_installed in Hp.
    apply List.find_some in Hp as [_ Hp]. apply N.eqb_eq in Hp. by subst m.
Qed.

End NoPanic.

(** ** The event log *)
Section Events.
Context `{Hash, Base64, Ed25519, BsdiffZstd}.
Context `{Serde CrashRollbackEvent, !SerdeLaws CrashRollbackEvent (λ _, True), !SerdeLine CrashRollbackEvent}.
Variable cache_dir : path.

Definition event_line (e : CrashRollbackEvent) (l : string) : Prop := to_vec e = Ok (str_bytes l).
(** [events.log] lists exactly the events [evs], oldest first. *)
Definition log_holds (w : World) (evs : list CrashRollbackEvent) : Prop :=
  w_stats w = [] ∧
  match w_fs w !! rollback_events_path cache_dir with
  | None => evs = []
  | Some (File bs) => ∃ ls, Forall2 event_line evs ls ∧ bs = str_bytes (unlines ls)
  | Some Dir => False
  end.
(** The most recent [MAX_ROLLBACK_EVENTS]. *)
Definition recent {A} (l : list A) : list A := drop (length l - MAX_ROLLBACK_EVENTS) l.

Lemma event_line_clean e l : event_line e l → clean_line l ∧ is_blank l = false ∧ utf8_valid (str_bytes l) = true.
Proof.
  unfold event_line. intros (Hu & Hn & Hc & Hb)%to_vec_line. rewrite str_of_str_bytes in Hb.
  split_and!; [split; by apply no_char_bytes|done..].
Qed.
Lemma unlines_read evs ls :
  Forall2 event_line evs ls →
  from_utf8 (str_bytes (unlines ls)) = Ok (unlines ls) ∧ nonblank_lines (unlines ls) = ls.
Proof.
  intros Hls. split.
  - apply from_utf8_ok. split; [|done].
    induction Hls as [|e l evs ls Hl _ IH]; [done|].
    change (unlines (l :: ls)) with (l +:+ String newline (unlines ls)).
    rewrite str_bytes_app. apply utf8_valid_app; [by apply event_line_clean in Hl as (_ & _ & ?)|].
    rewrite str_bytes_cons. exact IH.
  - unfold nonblank_lines. rewrite lines_unlines.
    + induction Hls as [|e l evs ls Hl _ IH]; [done|]. rewrite filter_cons_True, IH; [done|].
      by apply event_line_clean in Hl as (_ & ? & _).
    + induction Hls as [|e l evs ls Hl _ IH]; constructor; [|done]. by apply event_line_clean in Hl as (? & _).
Qed.

Lemma events_path_ne : rollback_events_path cache_dir ≠ [].
Proof. unfold rollback_events_path, join1. by destruct cache_dir. Qed.
Lemma cache_dir_off_events q : q ∈ ancestors cache_dir → q ≠ rollback_events_path cache_dir.
Proof.
  intros Hq%ancestors_length ->. unfold rollback_events_path, join1 in Hq.
  rewrite length_app in Hq. simpl in Hq. lia.
Qed.

Lemma log_holds_keep w w' evs :
  w_stats w' `suffix_of` w_stats w →
  w_fs w' !! rollback_events_path cache_dir = w_fs w !! rollback_events_path cache_dir →
  log_holds w evs → log_holds w' evs.
Proof. intros Hst Hfs [? Hw]. split; [by eapply stats_none|]. by rewrite Hfs. Qed.

(** Reading the lines back, as both the reader and the writer do. *)
Lemma read_lines w evs r w' :
  log_holds w evs →
  (e ← fs_exists (rollback_events_path cache_dir);
   if (e : bool) then
     content ← fs_read_to_string (rollback_events_path cache_dir); mret (nonblank_lines content)
   else mret []) w = (r, w') →
  log_holds w' evs ∧ ((∃ ls, r = Ok ls ∧ Forall2 event_line evs ls) ∨ ∃ e, r = Err e).
Proof.
  set (p := rollback_events_path cache_dir). intros Hw Hr.
  set (m := e ← fs_exists p; if (e : bool) then content ← fs_read_to_string p; mret (nonblank_lines content)
            else mret []) in Hr.
  assert (touches (λ _, False) m) as Ht.
  { unfold m. apply touches_bind; [apply touches_exists|intros []; touches_tac]. }
  split.
  { apply (log_holds_keep w); [by eapply touches_stat|eapply touches_at; [done|done|tauto]|done]. }
  destruct Hw as [Hst Hlog]. unfold m in Hr. clear m Ht.
  unfold fs_exists in Hr. rewrite stat_call_bind in Hr by done. fold p in Hlog.
  rewrite bool_decide_eq_false_2 in Hr by apply events_path_ne.
  destruct (w_fs w !! p) as [[bs|]|] eqn:E; [|done|].
  - rewrite bool_decide_eq_true_2 in Hr by done. cbn in Hr. destruct Hlog as (ls & Hls & ->).
    destruct (unlines_read _ _ Hls) as [Hu Hn].
    apply io_bind_inv in Hr as [(s & w1 & Hs & Hr)|[(e & _ & ->)|(t & Ht & _)]]; [|by right; eauto|].
    + injection Hr as <- <-. left. exists ls. split; [|done].
      apply io_bind_ok in Hs as (bs & w2 & Hread & Hs). apply io_lift_ok in Hs as [Hs ->].
      apply fs_read_fs in Hread as [_ [(bs0 & Hb & [= ->])|[? [=]]]].
      rewrite E in Hb. injection Hb as <-. rewrite Hu in Hs. injection Hs as <-. by rewrite Hn.
    + by destruct (io_no_panic_run _ _ _ _ (io_no_panic_read_to_string p) Ht t).
  - rewrite bool_decide_eq_false_2 in Hr by (intros [? ?]; congruence).
    cbn in Hr. injection Hr as <- <-. subst. left. by exists [].
Qed.

Lemma recent_snoc_ne {A} (l : list A) a : recent (l ++ [a]) ≠ [].
Proof.
  unfold recent, MAX_ROLLBACK_EVENTS. intros Hr%(f_equal length).
  rewrite length_drop, length_app in Hr. simpl in Hr. lia.
Qed.

Lemma append_event_spec w evs e r w' :
  log_holds w evs → append_rollback_event cache_dir e w = (r, w') →
  (r = Ok tt ∧ log_holds w' (recent (evs ++ [e]))) ∨ (∃ e, r = Err e) ∧ log_holds w' evs.
Proof.
  intros Hw Hr.
  pose proof (io_no_panic_run _ _ _ _ (no_panic_append_event cache_dir e) Hr) as Hnp.
  unfold append_rollback_event in Hr.
  assert (∀ w1, w_stats w1 `suffix_of` w_stats w →
    w_fs w1 !! rollback_events_path cache_dir = w_fs w !! rollback_events_path cache_dir →
    log_holds w1 evs) as Hkeep by (intros; by apply (log_holds_keep w)).
  assert (touches (λ q, q ≠ rollback_events_path cache_dir) (fs_create_dir_all cache_dir)) as Htd
    by apply touches_create_dir_all, cache_dir_off_events.
  apply io_bind_inv in Hr as [([] & w1 & E1 & Hr)|[(x & E & ->)|(t & E & ->)]]; [| |by destruct (Hnp t)].
  2:{ right. split; [eauto|]. apply Hkeep; [by eapply touches_stat|eapply touches_at; [done..|tauto]]. }
  assert (log_holds w1 evs) as Hw1.
  { apply Hkeep; [by eapply touches_stat|eapply touches_at; [done..|tauto]]. }
  clear Hkeep Hw E1 w.
  rewrite io_bind_assoc in Hr.
  apply io_bind_inv in Hr as [(old & w2 & E2 & Hr)|[(x & E & ->)|(t & E & ->)]]; [| |by destruct (Hnp t)].
  2:{ right. split; [eauto|]. by destruct (read_lines _ _ _ _ Hw1 E) as [? _]. }
  destruct (read_lines _ _ _ _ Hw1 E2) as [Hw2 [(ls & [= ->] & Hls)|[? [=]]]].
  apply io_bind_inv in Hr as [(line & w3 & E3 & Hr)|[(x & E & ->)|(t & E & ->)]]; [| |by destruct (Hnp t)].
  2:{ right. split; [eauto|]. injection E as _ <-. done. }
  apply io_lift_ok in E3 as [Hline%map_err_ok ->].
  pose proof (touches_stat _ _ _ _ _ (touches_atomic_write _ _) Hr) as Hst.
  apply atomic_write_spec in Hr as [[-> Hp]|[He Hp]]; [| |apply events_path_ne].
  - left. split; [done|]. split; [destruct Hw2; by eapply stats_none|]. rewrite Hp.
    set (all := ls ++ [str_of_bytes line]).
    assert (Forall2 event_line (evs ++ [e]) all) as Hall.
    { apply Forall2_app; [done|]. constructor; [|constructor]. unfold event_line. by rewrite str_bytes_of. }
    exists (recent all). split.
    + unfold recent. rewrite (Forall2_length _ _ _ Hall). by apply Forall2_drop.
    + change [x0a] with (str_bytes (String newline "")). rewrite <- str_bytes_app. f_equal.
      apply join_unlines, recent_snoc_ne.
  - right. split; [done|]. by apply (log_holds_keep w2).
Qed.

Lemma mapM_lines evs ls :
  Forall2 event_line evs ls →
  mapM (λ line, map_err Json (from_slice (A:=CrashRollbackEvent) (str_bytes line))) ls = Ok evs.
Proof.
  induction 1 as [|e l evs ls Hl _ IH]; [done|]. simpl.
  rewrite (from_to_vec e _ I Hl). cbn [map_err mbind res_bind]. by rewrite IH.
Qed.

Lemma rollback_events_spec w evs r w' :
  log_holds w evs → rollback_events cache_dir w = (r, w') →
  log_holds w' evs ∧ (r = Ok evs ∨ ∃ e, r = Err e).
Proof.
  intros Hw Hr. unfold rollback_events in Hr.
  assert ((ls ← (e ← fs_exists (rollback_events_path cache_dir);
      if (e : bool) then
        content ← fs_read_to_string (rollback_events_path cache_dir); mret (nonblank_lines content)
      else mret []);
    io_lift (mapM (λ line, map_err Json (from_slice (A:=CrashRollbackEvent) (str_bytes line))) ls)) w = (r, w')) as Hr'.
  { rewrite <- Hr. unfold mbind, io_bind. destruct (fs_exists _ w) as [[[]| |] w1]; [|done..].
    cbn. by destruct (fs_read_to_string _ w1) as [[]]. }
  clear Hr. apply io_bind_inv in Hr' as [(ls & w1 & E & Hr)|[(x & E & ->)|(t & E & ->)]];
    destruct (read_lines _ _ _ _ Hw E) as [Hw1 Hres].
  - destruct Hres as [(ls' & [= ->] & Hls)|[? [=]]]. rewrite (mapM_lines _ _ Hls) in Hr.
    injection Hr as <- <-. eauto.
  - eauto.
  - by destruct Hres as [(? & [=] & _)|[? [=]]].
Qed.

(** C30: appending to a well-formed event log leaves, atomically, a log of the 50
    most recent events with the new one last; reading it returns exactly these
    events. *)
Theorem event_log_keeps_recent w evs e r w' r' w'' :
  log_holds w evs → append_rollback_event cache_dir e w = (r, w') →
  rollback_events cache_dir w' = (r', w'') →
  let evs' := match r with Ok _ => recent (evs ++ [e]) | _ => evs end in
  log_holds w' evs' ∧ log_holds w'' evs' ∧ (r' = Ok evs' ∨ ∃ x, r' = Err x)
  ∧ (length (recent (evs ++ [e])) ≤ 50)%nat ∧ e ∈ recent (evs ++ [e]).
Proof.
  intros Hw Ha Hr evs'.
  assert (log_holds w' evs') as Hw'.
  { unfold evs'. destruct (append_event_spec _ _ _ _ _ Hw Ha) as [[-> ?]|[[? ->] ?]]; done. }
  destruct (rollback_events_spec _ _ _ _ Hw' Hr) as [Hw'' Hres]. split_and!; [done..| |].
  - unfold recent, MAX_ROLLBACK_EVENTS. rewrite length_drop. lia.
  - unfold recent, MAX_ROLLBACK_EVENTS. rewrite drop_app_le by (rewrite length_app; simpl; lia). set_solver.
Qed.
End Events.

(** ** Installation *)
Section Installation.
Context `{Hash, Base64, Ed25519, BsdiffZstd}.
Context `{Serde Value.t, ToValue PatchManifest, Serde PatchManifest, Serde SimpleBinaryDiff}.
Context `{Serde BytecodeModule, Serde State, Serde CrashRollbackEvent}.
Context `{!SerdeLaws State (λ _, True)}.
Variable snapshot_replace : bool.
Variable cache_dir : path.

Definition patch_path (n : N) (file : string) : path := join1 (patches_dir cache_dir n) file.

(** What the manifest and the payload of an accepted patch satisfy. *)
Record accepted (key : string) (m : PatchManifest) (bytes : list byte) : Prop := {
  accepted_signature : verify_patch_manifest m key = Ok tt;
  accepted_hash : sha256_hex bytes = hash (payload m);
  accepted_contract : validate_payload_contract snapshot_replace m bytes = Ok tt;
}.

Lemma patches_dir_under n n' f q :
  under (patches_dir cache_dir n') q → q = patch_path n f → n' = n.
Proof.
  unfold under, patch_path, patches_dir, join1. intros [k ->]. rewrite <- !app_assoc.
  intros E%app_inv_head. injection E as E _. by apply (inj pretty) in E.
Qed.
Lemma patch_path_length n f : length (patch_path n f) = (3 + length cache_dir)%nat.
Proof. unfold patch_path, patches_dir, join1. rewrite !length_app. simpl. lia. Qed.
Lemma patch_path_ne n f : patch_path n f ≠ [].
Proof. intros E. pose proof (patch_path_length n f) as Hl. rewrite E in Hl. done. Qed.
Lemma write_zone_patch n f f' :
  f ≠ f' → ("." ≠ stake 1 f)%string → ¬ write_zone (patch_path n f') (patch_path n f).
Proof.
  intros Hne Hdot [E|[(pid & sfx & E)|Hq]].
  - unfold patch_path, join1 in E. apply app_inj_tail in E as [_ ->]. done.
  - unfold temp_path, with_file_name, patch_path, join1 in E. apply app_inj_tail in E as [_ ->]. done.
  - apply ancestors_length in Hq. pose proof (removelast_length _ (patch_path_ne n f')) as Hl.
    rewrite !patch_path_length in *. lia.
Qed.
Lemma write_zone_state n f : ¬ write_zone (state_path cache_dir) (patch_path n f).
Proof.
  pose proof (patch_path_length n f) as Hp. pose proof (state_path_length cache_dir) as Hs.
  intros [E|[(pid & sfx & E)|Hq]].
  - rewrite E in Hp. lia.
  - rewrite E in Hp. unfold temp_path, with_file_name in Hp. rewrite length_app in Hp.
    pose proof (removelast_length (state_path cache_dir)) as Hl.
    unfold state_path, join1 in Hl, Hs, Hp. rewrite removelast_last in Hp. simpl in Hp. lia.
  - apply ancestors_length in Hq. unfold state_path, join1 in Hq. rewrite removelast_last in Hq. lia.
Qed.

(** Eviction removes directories of other patches only. *)
Lemma evict_keeps_pending fuel s n f :
  pending_patch_number s = Some n → touches (λ q, q ≠ patch_path n f) (evict cache_dir fuel s).
Proof.
  revert s. induction fuel as [|fuel IH]; intros s Hp; [apply touches_ret|]. simpl.
  destruct (2 <? _); [|apply touches_ret].
  destruct (position _ _) as [i|] eqn:Hi; [|apply touches_ret].
  apply position_some in Hi as [(p & Hg & He) _]. rewrite Hg.
  apply touches_bind; [|intros _; by apply IH].
  apply touches_ok, touches_remove_dir_all. intros q Hq ->.
  apply (patches_dir_under n _ f) in Hq; [|done]. unfold evictable in He.
  rewrite !andb_true_iff, !negb_true_iff, !bool_decide_eq_false in He. rewrite Hp, Hq in He. tauto.
Qed.

Lemma chained_diff_ok m bytes l baseline w art w' :
  snapshot_replace_chained_diff cache_dir m bytes l baseline w = (Ok art, w') →
  ∀ h, output_hash (payload m) = Some h → sha256_hex art = h.
Proof.
  intros Hc h Hh. unfold snapshot_replace_chained_diff in Hc.
  apply io_bind_ok in Hc as (alg & w1 & _ & Hc). apply io_bind_ok in Hc as (bh & w2 & _ & Hc).
  apply io_bind_ok in Hc as (base & w3 & _ & Hc). apply io_bind_ok in Hc as (a & w4 & _ & Hc).
  rewrite Hh in Hc. destruct (String.eqb_spec (sha256_hex a) h) as [E|]; [|discriminate Hc].
  injection Hc as <- _. done.
Qed.

Lemma state_path_ne : state_path cache_dir ≠ [].
Proof. unfold state_path, join1. by destruct cache_dir. Qed.

Lemma atomic_write_ok p bs w w' :
  p ≠ [] → atomic_write_bytes p bs w = (Ok tt, w') → w_fs w' !! p = Some (File bs).
Proof. intros Hp Hw. by destruct (atomic_write_spec _ _ _ _ _ Hp Hw) as [[_ ?]|[[? [=]] _]]. Qed.

Lemma save_keeps_patch s n f w w' r :
  save_state cache_dir s w = (r, w') → w_fs w' !! patch_path n f = w_fs w !! patch_path n f.
Proof.
  intros Hs. eapply (touches_at (write_zone (state_path cache_dir))); [|exact Hs|apply write_zone_state].
  unfold save_state, atomic_write_json. apply touches_bind; [apply touches_lift|intros].
  apply touches_atomic_write.
Qed.

Lemma off_state_holds {A} (m : IO A) w s r w' :
  touches (off_state cache_dir) m → holds cache_dir w s → m w = (r, w') → holds cache_dir w' s.
Proof.
  intros Hm [Hst Hs] Hr. split; [by eapply touches_stats|].
  rewrite (disk_state_ext _ (w_fs w)); [done|].
  eapply touches_at; [done..|]. unfold off_state. tauto.
Qed.
Lemma load_ok w s a w' :
  holds cache_dir w s → load_state cache_dir w = (Ok a, w') →
  a = s ∧ holds cache_dir w' s ∧ w_fs w' = w_fs w.
Proof.
  intros Hw Hl. destruct (load_state_spec _ _ _ _ _ Hw Hl) as (Hfs & Hst & [[= ->]|[? [=]]]).
  split_and!; [done| |done]. destruct Hw. split; [congruence|by rewrite Hfs].
Qed.

(** The part of an installation after the payload has been checked and written. *)
Definition install_artifact (m : PatchManifest) (bytes : list byte) (s : State)
    (baseline : option path) : IO (option string) :=
  if String.eqb (backend m) "snapshot_replace" then
    if snapshot_replace then
      artifact ← snapshot_replace_chained_diff cache_dir m bytes (installed s) baseline;
      _ ← atomic_write_bytes (patch_path (patch_number m) "libapp.so") artifact;
      mret (Some (patch_file (patch_number m) "libapp.so"))
    else io_err "snapshot_replace backend is not enabled in this build"
  else mret None.

Lemma install_artifact_ok m bytes s baseline w artifact w' :
  install_artifact m bytes s baseline w = (Ok artifact, w') →
  w_fs w' !! patch_path (patch_number m) "payload.bin" = w_fs w !! patch_path (patch_number m) "payload.bin"
  ∧ (if String.eqb (backend m) "snapshot_replace" then
       artifact = Some (patch_file (patch_number m) "libapp.so")
       ∧ ∃ art, w_fs w' !! patch_path (patch_number m) "libapp.so" = Some (File art)
           ∧ ∀ h, output_hash (payload m) = Some h → sha256_hex art = h
     else artifact = None).
Proof.
  unfold install_artifact. destruct (String.eqb _ _); [|by intros [= <- <-]].
  destruct snapshot_replace; [|discriminate].
  intros (art & w1 & Hc & Hr)%io_bind_ok. apply io_bind_ok in Hr as ([] & w2 & Hwr & Hr).
  injection Hr as <- <-. split.
  - transitivity (w_fs w1 !! patch_path (patch_number m) "payload.bin").
    + eapply touches_at; [apply touches_atomic_write|exact Hwr|by apply write_zone_patch].
    + eapply touches_at; [apply (touches_chained_diff cache_dir (λ _, False))|exact Hc|tauto].
  - split; [done|]. exists art. split; [by eapply atomic_write_ok, Hwr; apply patch_path_ne|].
    by eapply chained_diff_ok.
Qed.
Lemma install_artifact_off_state m bytes s baseline :
  touches (off_state cache_dir) (install_artifact m bytes s baseline).
Proof.
  unfold install_artifact. destruct (String.eqb _ _); [|apply touches_ret].
  destruct snapshot_replace; [|apply touches_err].
  apply touches_bind; [apply touches_chained_diff|intros art].
  apply touches_bind; [apply touches_patch_write|intros; apply touches_ret].
Qed.

Lemma record_evict_save w s m artifact now r w' :
  holds cache_dir w s →
  (state ← evict cache_dir (length (installed (record_install s m artifact now)))
             (record_install s m artifact now);
   save_state cache_dir state) w = (Ok r, w') →
  holds cache_dir w' (install_next s m artifact now)
  ∧ ∀ f, w_fs w' !! patch_path (patch_number m) f = w_fs w !! patch_path (patch_number m) f.
Proof.
  intros Hw (s1 & w1 & He & Hsv)%io_bind_ok.
  destruct (implements_evict cache_dir s _ _ w _ w1 Hw He) as (s' & (-> & Hs1) & Hw1). subst s1.
  fold (install_next s m artifact now) in Hsv.
  assert (STATE_SCHEMA_VERSION ≤ st_schema_version (install_next s m artifact now)) as Hv
    by (unfold install_next; by rewrite evict_next_schema).
  destruct (implements_save cache_dir s _ Hv w1 _ w' Hw1 Hsv) as (s' & -> & Hw'). split; [done|].
  intros f. rewrite (save_keeps_patch _ _ _ _ _ _ Hsv).
  eapply (touches_at (λ q, q ≠ patch_path (patch_number m) f)); [|exact He|tauto].
  by apply evict_keeps_pending.
Qed.

Lemma install_ok_inv w s mp pp key baseline w' :
  holds cache_dir w s →
  install_payload_with_baseline snapshot_replace cache_dir mp pp key baseline w = (Ok tt, w') →
  ∃ m bytes artifact now,
    accepted key m bytes ∧ holds cache_dir w' (install_next s m artifact now)
    ∧ w_fs w' !! patch_path (patch_number m) "payload.bin" = Some (File bytes)
    ∧ (if String.eqb (backend m) "snapshot_replace" then
         artifact = Some (patch_file (patch_number m) "libapp.so")
         ∧ ∃ art, w_fs w' !! patch_path (patch_number m) "libapp.so" = Some (File art)
             ∧ ∀ h, output_hash (payload m) = Some h → sha256_hex art = h
       else artifact = None)
    ∧ ∃ mb, w_fs w !! mp = Some (File mb) ∧ from_slice mb = Ok m ∧ w_fs w !! pp = Some (File bytes).
Proof.
  intros Hw Hr. unfold install_payload_with_baseline in Hr.
  apply io_bind_ok in Hr as (m & w1 & E & Hr).
  destruct (read_json_ok _ _ _ _ E) as (manifest_bytes & Hmf & Hmb & Hfs1).
  eapply off_state_holds in E; [clear Hw|unfold read_json; touches_tac|exact Hw].
  apply io_bind_ok in Hr as ([] & w2 & [Hver ->]%io_lift_ok & Hr).
  apply io_bind_ok in Hr as (bytes & w3 & E3 & Hr). pose proof (fs_read_ok _ _ _ _ E3) as [Hpf _]. rewrite Hfs1 in Hpf.
  eapply off_state_holds in E3; [clear E|apply touches_read|exact E].
  destruct (String.eqb_spec (sha256_hex bytes) (hash (payload m))) as [Hh|]; [|discriminate Hr].
  cbn [negb] in Hr. apply io_bind_ok in Hr as ([] & w4 & [Hc ->]%io_lift_ok & Hr).
  apply io_bind_ok in Hr as ([] & w5 & E5 & Hr).
  eapply off_state_holds in E5; [clear E3|apply touches_patch_dir|exact E3].
  apply io_bind_ok in Hr as (mb & w6 & E6 & Hr).
  eapply off_state_holds in E6; [clear E5|apply touches_read|exact E5].
  apply io_bind_ok in Hr as ([] & w7 & E7 & Hr).
  eapply off_state_holds in E7; [clear E6|apply touches_patch_write|exact E6].
  apply io_bind_ok in Hr as ([] & w8 & E8 & Hr).
  assert (w_fs w8 !! patch_path (patch_number m) "payload.bin" = Some (File bytes)) as Hpay
    by (eapply atomic_write_ok, E8; apply patch_path_ne).
  eapply off_state_holds in E8; [clear E7|apply touches_patch_write|exact E7].
  apply io_bind_ok in Hr as (s1 & w9 & E9 & Hr).
  apply (load_ok _ _ _ _ E8) in E9 as (-> & Hw9 & Hfs9). rewrite <- Hfs9 in Hpay. clear E8 Hfs9.
  apply io_bind_ok in Hr as (artifact & w10 & E10 & Hr).
  change (install_artifact m bytes s baseline w9 = (Ok artifact, w10)) in E10.
  destruct (install_artifact_ok _ _ _ _ _ _ _ E10) as [Hkeep Hart]. rewrite <- Hkeep in Hpay.
  eapply off_state_holds in E10; [|apply install_artifact_off_state|exact Hw9]. clear Hw9 Hkeep.
  apply io_bind_ok in Hr as (now & w11 & E11 & Hr).
  assert (∀ q, w_fs w11 !! q = w_fs w10 !! q) as Hfs11
    by (intros q; eapply touches_at; [apply (touches_now_string (λ _, False))|exact E11|tauto]).
  eapply off_state_holds in E11; [|apply touches_now_string|exact E10].
  eapply record_evict_save in Hr as [Hw' Hkeep]; [|exact E11].
  exists m, bytes, artifact, now. split_and!; [by split|done|by rewrite Hkeep, Hfs11| |by exists manifest_bytes].
  destruct (String.eqb _ _); [|done]. destruct Hart as (Ha & art & Hat & Hout).
  split; [done|]. exists art. by rewrite Hkeep, Hfs11.
Qed.
End Installation.

Lemma evict_next_keeps fuel s n :
  pending_patch_number s = Some n → n ∈ installed_numbers s → n ∈ installed_numbers (evict_next fuel s).
Proof.
  revert s. induction fuel as [|fuel IH]; intros s Hp Hin; simpl; [done|].
  destruct (2 <? _); [|done]. destruct (position _ _) as [i|] eqn:Hi; [|done].
  apply position_some in Hi as [(p & Hg & He) _]. apply IH; [done|].
  unfold installed_numbers in *. simpl. rewrite fmap_delete.
  unfold evictable in He. rewrite !andb_true_iff, !negb_true_iff, !bool_decide_eq_false in He.
  rewrite Hp in He. apply list_elem_of_lookup in Hin as [j Hj].
  assert ((ip_patch_number <$> installed s) !! N.to_nat i = Some (ip_patch_number p)) as Hip
    by (unfold get in Hg; by rewrite list_lookup_fmap, Hg).
  assert (j ≠ N.to_nat i) as Hji by (intros ->; rewrite Hip in Hj; injection Hj as Hj; rewrite Hj in He; tauto).
  rewrite delete_take_drop. apply elem_of_app.
  destruct (decide (j < N.to_nat i)%nat).
  - left. apply list_elem_of_lookup. exists j. by rewrite lookup_take_lt.
  - right. apply list_elem_of_lookup. exists (j - S (N.to_nat i))%nat.
    rewrite lookup_drop. rewrite <- Hj. f_equal. lia.
Qed.

Section Properties.
Context `{Hash, Base64, Ed25519, BsdiffZstd}.
Context `{Serde Value.t, ToValue PatchManifest, Serde PatchManifest, Serde SimpleBinaryDiff}.
Context `{Serde BytecodeModule, Serde State, Serde CrashRollbackEvent}.
Context `{!SerdeLaws State (λ _, True)}.
Variable snapshot_replace : bool.
Variable cache_dir : path.

(** C3: an installation that succeeds had, in the two files it was given, a
    manifest whose signature verifies and a payload with the manifest's hash and
    the form its backend requires; that payload (and for [snapshot_replace] an artifact with the manifest's
    output hash) is on disk under the patch's number, which is pending, listed
    once, and not evicted; the installed list stays well formed. *)
Theorem install_payload_correct w s mp pp key baseline w' :
  holds cache_dir w s → installed_ok s →
  install_payload_with_baseline snapshot_replace cache_dir mp pp key baseline w = (Ok tt, w') →
  ∃ m bytes s',
    accepted snapshot_replace key m bytes
    ∧ (∃ mb, w_fs w !! mp = Some (File mb) ∧ from_slice mb = Ok m) ∧ w_fs w !! pp = Some (File bytes)
    ∧ holds cache_dir w' s'
    ∧ w_fs w' !! patch_path cache_dir (patch_number m) "payload.bin" = Some (File bytes)
    ∧ (backend m = "snapshot_replace"%string → ∃ art h,
         w_fs w' !! patch_path cache_dir (patch_number m) "libapp.so" = Some (File art)
         ∧ output_hash (payload m) = Some h ∧ sha256_hex art = h)
    ∧ pending_patch_number s' = Some (patch_number m) ∧ boot_attempts s' = 0
    ∧ installed_ok s' ∧ patch_number m ∈ installed_numbers s'.
Proof.
  intros Hw Hok Hr.
  destruct (install_ok_inv _ _ _ _ _ _ _ _ _ Hw Hr) as (m & bytes & art & now & Hacc & Hw' & Hpay & Hart & Hread).
  destruct Hread as (mb & Hmf & Hmb & Hpf). exists m, bytes, (install_next s m art now).
  pose proof (evict_next_fields (length (installed (record_install s m art now)))
    (record_install s m art now)) as (_ & _ & Hpend & _ & Hatt & _).
  split_and!; [done|by exists mb|done..| |exact Hpend|exact Hatt|by apply install_next_installed|].
  - intros Hb. rewrite Hb in Hart. destruct Hart as (_ & a & Ha & Hout). destruct Hacc as [_ _ Hc].
    unfold validate_payload_contract in Hc. cbv zeta in Hc. rewrite Hb in Hc.
    destruct (output_hash (payload m)) as [h|] eqn:Eh; [exists a, h; eauto|].
    exfalso. change (String.eqb "snapshot_replace" "bytecode") with false in Hc. cbn iota in Hc.
    rewrite String.eqb_refl in Hc. destruct snapshot_replace; [|discriminate Hc]. cbn [andb] in Hc.
    rewrite (bool_decide_eq_true_2 (@None string = None)) in Hc by done. case_res Hc.
  - apply evict_next_keeps; [done|].
    unfold installed_numbers, record_install. cbn [installed set_installed].
    rewrite sort_by_key_perm, fmap_app. set_solver.
Qed.

(** The base of a snapshot diff, whether an installed artifact or the
    release baseline, is a file that has the hash the manifest names. *)
Lemma find_diff_base_matches h l baseline w base w' :
  find_diff_base cache_dir h l baseline w = (Ok base, w') →
  sha256_hex base = h ∧ ∃ p, w_fs w !! p = Some (File base)
    ∧ (baseline = Some p ∨ ∃ q rel, q ∈ l ∧ artifact_path q = Some rel ∧ p = join_rel cache_dir rel).
Proof.
  unfold find_diff_base. intros (found & w1 & Hf & Hr)%io_bind_ok.
  assert (∀ l' w found w1, find_installed_base cache_dir h l' w = (Ok found, w1) →
    w_fs w1 = w_fs w ∧ ∀ c, found = Some c → sha256_hex c = h ∧ ∃ q rel, q ∈ l'
      ∧ artifact_path q = Some rel ∧ w_fs w !! join_rel cache_dir rel = Some (File c)) as Hl.
  { clear. induction l' as [|q l' IH]; intros w found w1; simpl; [by intros [= <- <-]|].
    destruct (artifact_path q) as [rel|] eqn:Erel.
    2:{ intros Hf. destruct (IH _ _ _ Hf) as [? Hc]. split; [done|]. intros c Hfc.
        destruct (Hc c Hfc) as (? & q' & rel & ? & ?). split; [done|]. exists q', rel. set_solver. }
    intros (c0 & w2 & Hread & Hf)%io_bind_ok. unfold io_ok in Hread.
    destruct (fs_read _ w) as [r w3] eqn:Er. apply fs_read_fs in Er as [Hfs Hres].
    assert (w_fs w2 = w_fs w) as Hfs2 by (destruct r; simplify_eq; done).
    assert (∀ c', find_installed_base cache_dir h l' w2 = (Ok found, w1) → w_fs w1 = w_fs w ∧ (found = Some c' →
      sha256_hex c' = h ∧ ∃ q' rel, q' ∈ q :: l' ∧ artifact_path q' = Some rel
      ∧ w_fs w !! join_rel cache_dir rel = Some (File c'))) as Hrest.
    { intros c' Hf'. destruct (IH _ _ _ Hf') as [? Hc]. rewrite Hfs2 in *. split; [done|]. intros Hfc.
      destruct (Hc c' Hfc) as (? & q' & rel' & ? & ? & ?). split; [done|]. exists q', rel'. set_solver. }
    destruct c0 as [c|]; [destruct (String.eqb_spec (sha256_hex c) h)|].
    - injection Hf as <- <-. split; [done|]. intros c' [= <-]. split; [done|]. exists q, rel.
      split_and!; [set_solver|done|]. destruct Hres as [(bs & Hbs & ->)|[? ->]]; [|discriminate Hread].
      by simplify_eq.
    - split; [by apply (Hrest c)|]. intros c' Hc'. by apply (Hrest c').
    - split; [by apply (Hrest [])|]. intros c' Hc'. by apply (Hrest c'). }
  destruct (Hl _ _ _ _ Hf) as [Hfs Hc]. destruct found as [c|].
  - injection Hr as <- <-. destruct (Hc c eq_refl) as (? & q & rel & Hq & ? & ?). split; [done|].
    exists (join_rel cache_dir rel). split; [done|]. right. exists q, rel.
    split_and!; [|done..]. by apply elem_of_reverse.
  - destruct baseline as [bp|]; [|discriminate Hr].
    apply io_bind_ok in Hr as (bs & w2 & Hread & Hr). apply fs_read_fs in Hread as [_ Hread].
    destruct (String.eqb_spec (sha256_hex bs) h) as [E|]; [|discriminate Hr].
    injection Hr as <- _. split; [done|]. exists bp. split; [|by left].
    destruct Hread as [(bs' & Hbs & [= <-])|[? [=]]]. by rewrite <- Hfs.
Qed.

(** C31: a [state.json] that cannot be parsed is moved aside, not deleted: when no
    metadata call fails and loading succeeds, it answers the default state, the
    unreadable bytes are in a backup file next to it, and [state.json] is gone. *)
Theorem corrupt_state_backed_up w bs e s w' :
  w_stats w = [] → w_fs w !! state_path cache_dir = Some (File bs) →
  from_slice (A:=State) bs = Err e → load_state cache_dir w = (Ok s, w') →
  s = default_state ∧ w_fs w' !! state_path cache_dir = None
  ∧ ∃ suffix, w_fs w' !! join1 cache_dir ("state.json.corrupt." +:+ dec suffix) = Some (File bs).
Proof.
  intros Hst Hfile Hbad Hr. unfold load_state in Hr.
  unfold fs_exists in Hr. rewrite stat_call_bind, Hfile in Hr by done.
  rewrite bool_decide_eq_false_2 in Hr by apply state_path_ne.
  rewrite bool_decide_eq_true_2 in Hr by done. cbn [negb andb orb] in Hr.
  apply io_bind_ok in Hr as (bs' & w1 & Hread & Hr).
  apply fs_read_fs in Hread as [Hfs [(bs0 & Hb & [= ->])|[? [=]]]].
  rewrite Hfile in Hb. injection Hb as <-. rewrite Hbad in Hr.
  apply io_bind_ok in Hr as ([] & w2 & Hback & Hr). unfold backup_corrupt_state in Hback.
  apply io_bind_ok in Hback as (suffix & w3 & Hsfx & Hren).
  assert (∀ q, w_fs w3 !! q = w_fs w1 !! q) as Hfs3
    by (intros q; eapply touches_at; [apply (touches_unique_suffix (λ _, False))|exact Hsfx|tauto]).
  apply fs_rename_ok in Hren as (bs1 & Hbs1 & Hfs2). rewrite Hfs3, Hfs, Hfile in Hbs1. injection Hbs1 as <-.
  unfold with_file_name, state_path, join1 in Hfs2. rewrite removelast_last in Hfs2.
  apply io_bind_ok in Hr as (now & w4 & Hnow & Hr).
  assert (∀ q, w_fs w4 !! q = w_fs w2 !! q) as Hfs4
    by (intros q; eapply touches_at; [apply (touches_now_string (λ _, False))|exact Hnow|tauto]).
  apply io_bind_ok in Hr as ([] & w5 & Happ & Hr). injection Hr as <- <-. split; [done|].
  set (backup := cache_dir ++ ["state.json.corrupt." +:+ dec suffix]%string) in *.
  assert (backup ≠ state_path cache_dir) as Hne
    by (unfold backup, state_path, join1; by intros [_ E]%app_inj_tail).
  split.
  - rewrite (touches_at _ _ _ _ _ (state_path cache_dir) (touches_append_event cache_dir _) Happ)
      by (unfold off_state; tauto).
    rewrite Hfs4, Hfs2, lookup_insert_ne by done. apply lookup_delete_eq.
  - exists suffix. change (join1 cache_dir _) with backup.
    rewrite (touches_at _ _ _ _ _ backup (touches_append_event_zone cache_dir _) Happ).
    + rewrite Hfs4, Hfs2. apply lookup_insert_eq.
    + by apply event_zone_sibling.
Qed.
End Properties.

(** ** Behaviours that lose information *)
Section Losses.
Context `{Hash, Base64, Ed25519, BsdiffZstd}.
Context `{Serde State, Serde CrashRollbackEvent, !SerdeLaws State (λ _, True)}.
Variable cache_dir : path.

Lemma success_next_selects s l n :
  select_launch_patch_number (launch_recover (success_next s l)) = Some n → n = ll_patch_number l.
Proof.
  unfold launch_recover, pending_launch. simpl. unfold select_launch_patch_number, launch_candidates. simpl.
  intros [Hin _]%List.find_some. revert Hin.
  destruct (0 <? ll_patch_number l); simpl; naive_solver.
Qed.

(** Confirming a launch forgets a newer patch: after [mark_success] the
    next launch can only pick the patch just confirmed, even when another patch
    was installed and pending in the meantime. *)
Lemma mark_success_drops_newer_install w s l q w' p w'' :
  holds cache_dir w s → last_launch s = Some l → pending_patch_number s = Some q →
  mark_success cache_dir w = (Ok tt, w') → launch_patch cache_dir w' = (Ok (Some p), w'') →
  ip_patch_number p = ll_patch_number l.
Proof.
  intros Hw Hl _ Hs Hp.
  destruct (implements_mark_success cache_dir s _ _ _ Hw Hs) as (s' & (l' & (Hl' & _) & ->) & Hw').
  rewrite Hl in Hl'. injection Hl' as <-.
  destruct (launch_holds _ _ _ _ _ Hw' Hp) as (now & s' & Hn & _). unfold launch_next in Hn.
  destruct (select_launch_patch_number _) as [n|] eqn:Hsel; [|done].
  destruct (select_is_installed _ _ Hsel) as (_ & p' & Hf & Hp' & _). rewrite Hf in Hn.
  injection Hn as _ <-. by rewrite Hp', (success_next_selects _ _ _ Hsel).
Qed.

(** When the metadata call behind [Path::exists] fails once, [mark_failure]
    starts from the default state and overwrites [state.json]: every patch
    marked bad before is forgotten, and so are the installed ones. *)
Lemma stat_error_resets_state w n why w' :
  head (w_stats w) = Some true → mark_failure cache_dir n why w = (Ok tt, w') →
  ∃ now, disk_state cache_dir (w_fs w') = Some (failure_next default_state n why now)
    ∧ bad_patches (failure_next default_state n why now) = [n]
    ∧ installed (failure_next default_state n why now) = [].
Proof.
  intros Hst Hr. unfold mark_failure in Hr.
  apply io_bind_ok in Hr as (s & w1 & Hl & Hr). unfold load_state in Hl.
  assert (∃ l, w_stats w = true :: l) as [l Hl'] by (destruct (w_stats w); [done|injection Hst as ->; eauto]).
  unfold fs_exists, mbind, io_bind, stat_call in Hl. rewrite Hl' in Hl. injection Hl as <- <-.
  apply io_bind_ok in Hr as (now & w1 & _ & Hr). exists now.
  change (save_state cache_dir (failure_next default_state n why now) w1 = (Ok tt, w')) in Hr.
  unfold save_state, atomic_write_json in Hr.
  apply io_bind_ok in Hr as (bs & w2 & [Hbs%map_err_ok ->]%io_lift_ok & Hr).
  assert (STATE_SCHEMA_VERSION ≤ st_schema_version (failure_next default_state n why now)) as Hv.
  { unfold failure_next. cbn [st_schema_version set_last_launch].
    by destruct (mark_patch_bad_spec default_state n) as (_&_&_&_&_&_&_&->). }
  split_and!.
  - unfold disk_state. rewrite (atomic_write_ok _ _ _ _ (state_path_ne cache_dir) Hr).
    rewrite (from_to_vec_pretty _ _ I Hbs). by rewrite migrate_id.
  - unfold failure_next, mark_patch_bad. cbn [bad_patches default_state set_last_launch set_boot_attempts].
    rewrite (bool_decide_eq_false_2 (n ∈ [])) by set_solver. cbn. by destruct n.
  - unfold failure_next. cbn [installed set_last_launch].
    by destruct (mark_patch_bad_spec default_state n) as (_&_&_&_&_&->&_).
Qed.
End Losses.

(** A manifest of a bytecode patch. *)
Definition numbered_manifest (n : N) : PatchManifest := {|
  schema_version := 1; app_id := "app"; release_version := "1.0.0+1"; patch_number := n;
  channel := "stable"; created_at := "2024"; backend := "bytecode"; platform := "android";
  arch := "arm64"; payload := {| kind := "bytecode_module"; compression := "none"; hash := "";
    size := 0; download_url := ""; diff_algorithm := None; base_hash := None; output_hash := None |};
  policy := {| rollout_percentage := 100; allow_downgrade := false |};
  signature := {| algorithm := "ed25519"; key_id := "k1"; value := "" |};
|}.
Definition launched (n : N) : LastLaunch :=
  {| ll_patch_number := n; status := "pending_success"; started_at := "0" |}.

(** Without any failure, installing patch 3 while patch 2 makes its first
    launch evicts patch 2, and confirming that launch drops patch 3: the next
    launch finds nothing to launch although two good patches are installed. *)
Lemma install_during_session_strands_device :
  ∃ s, rtc state_step default_state s ∧ bad_patches s = []
    ∧ installed_numbers s = [1; 3] ∧ ∀ now, (launch_next s now).2 = None.
Proof.
  set (s1 := install_next default_state (numbered_manifest 1) None "0").
  set (s2 := success_next (launch_next s1 "0").1 (launched 1)).
  set (s3 := (launch_next (install_next s2 (numbered_manifest 2) None "0") "0").1).
  set (s4 := install_next s3 (numbered_manifest 3) None "0").
  exists (success_next s4 (launched 2)). split_and!; [|done..].
  eapply rtc_l; [apply (state_install _ (numbered_manifest 1) None "0")|].
  eapply rtc_l; [apply (state_launch _ "0")|].
  eapply rtc_l; [apply (state_success _ (launched 1)); split_and!; [done|set_solver|done]|].
  eapply rtc_l; [apply (state_install _ (numbered_manifest 2) None "0")|].
  eapply rtc_l; [apply (state_launch _ "0")|].
  eapply rtc_l; [apply (state_install _ (numbered_manifest 3) None "0")|].
  apply rtc_once. apply state_success. split_and!; [done|set_solver|done].
Qed.

(** ** Witnesses *)
#[local] Existing Instances demo_hash demo_base64 demo_ed25519 demo_bsdiff demo_value_serde demo_to_value.
(** A signed manifest with the payload of [BytecodeFacts]. *)
Definition demo_install_manifest : PatchManifest := Eval vm_compute in
  (sign_patch_manifest {|
    schema_version := 1; app_id := "app"; release_version := "1.0.0+1"; patch_number := 7;
    channel := "stable"; created_at := "2024"; backend := "bytecode"; platform := "android";
    arch := "arm64"; payload := {| kind := "bytecode_module"; compression := "none";
      hash := sha256_hex demo_bytes; size := len demo_bytes; download_url := "";
      diff_algorithm := None; base_hash := None; output_hash := None |};
    policy := {| rollout_percentage := 100; allow_downgrade := false |};
    signature := {| algorithm := ""; key_id := "k1"; value := "" |} |} demo_private_key).2.
(** Every document is this manifest. *)
#[local] Instance demo_manifest_serde : Serde PatchManifest := {|
  to_vec _ := Ok [x6d]; to_vec_pretty _ := Ok [x6d]; from_slice _ := Ok demo_install_manifest |}.
#[local] Instance demo_diff_serde : Serde SimpleBinaryDiff := countable_serde.
#[local] Instance demo_state_serde : Serde State := countable_serde.
#[local] Instance demo_event_serde : Serde CrashRollbackEvent := countable_serde.
#[local] Instance demo_module_serde : Serde BytecodeModule := {|
  to_vec _ := Err "not needed"%string; to_vec_pretty _ := Err "not needed"%string;
  from_slice _ := Err "not needed"%string |}.
#[local] Instance demo_state_laws : SerdeLaws State (λ _, True) := countable_serde_laws _.
#[local] Instance demo_event_laws : SerdeLaws CrashRollbackEvent (λ _, True) := countable_serde_laws _.
#[local] Instance demo_event_line : SerdeLine CrashRollbackEvent := countable_serde_line.

Definition demo_cache : path := ["cache"]%string.
Definition demo_world (files : FS) : World := mk_world files [] [] [1000000000%Z] 7 0.
Definition demo_state_world (s : State) : World :=
  demo_world {[ demo_cache := Dir; state_path demo_cache := File (pos_bytes (encode s)) ]}.
Lemma demo_state_holds s : STATE_SCHEMA_VERSION ≤ st_schema_version s → holds demo_cache (demo_state_world s) s.
Proof.
  intros Hv. split; [done|]. unfold disk_state.
  change (w_fs (demo_state_world s) !! state_path demo_cache) with (Some (File (pos_bytes (encode s)))).
  cbn [from_slice demo_state_serde countable_serde]. rewrite countable_from_encode. by rewrite migrate_id.
Qed.

Definition demo_patch (n : N) : InstalledPatch := {|
  ip_patch_number := n; ip_backend := ""; manifest_path := ""; payload_path := "";
  artifact_path := None; installed_at := "0";
|}.
(** Patch 2 is running for the first time, patch 3 is pending, patch 5 is bad. *)
Definition demo_state : State := {|
  st_schema_version := 2; st_release_version := "1"; current_patch_number := 1;
  pending_patch_number := Some 3; last_known_good_patch_number := Some 1; boot_attempts := 0;
  bad_patches := [5]; last_launch := Some (launched 2); installed := [demo_patch 2; demo_patch 3];
|}.

Lemma state_operations_atomic_witness :
  let o := launch_patch demo_cache (demo_state_world demo_state) in
  atomic_outcome demo_cache demo_state (λ p s', ∃ now, launch_next demo_state now = (s', p)) o.1 o.2.
Proof.
  refine (proj1 (state_operations_atomic demo_cache (demo_state_world demo_state) demo_state 3 "why" _)).
  by apply demo_state_holds.
Defined.

Lemma device_refines_state_machine_witness :
  ∃ s', holds demo_cache (run_action false demo_cache Launch (demo_state_world demo_state)) s'
        ∧ rtc state_step demo_state s'.
Proof.
  apply (device_refines_state_machine false demo_cache (demo_state_world demo_state)).
  - apply rtc_once. constructor.
  - by apply demo_state_holds.
Defined.

Lemma bad_patch_never_launched_witness : 3 ∉ bad_patches demo_state.
Proof.
  apply (bad_patch_never_launched false demo_cache (demo_state_world demo_state)
    (demo_state_world demo_state) (launch_patch demo_cache (demo_state_world demo_state)).2
    demo_state (demo_patch 3)).
  - apply rtc_refl.
  - by apply demo_state_holds.
  - left. vm_compute. reflexivity.
Defined.

Lemma mark_success_drops_newer_install_witness :
  ip_patch_number (demo_patch 2) = ll_patch_number (launched 2).
Proof.
  apply (mark_success_drops_newer_install demo_cache (demo_state_world demo_state) demo_state
    (launched 2) 3 (mark_success demo_cache (demo_state_world demo_state)).2 (demo_patch 2)
    (launch_patch demo_cache (mark_success demo_cache (demo_state_world demo_state)).2).2).
  - by apply demo_state_holds.
  - reflexivity.
  - reflexivity.
  - vm_compute. reflexivity.
  - vm_compute. reflexivity.
Defined.

Definition demo_stat_error_world : World :=
  mk_world (w_fs (demo_state_world demo_state)) [] [true] [] 7 0.
Lemma stat_error_resets_state_witness :
  ∃ s', disk_state demo_cache (w_fs (mark_failure demo_cache 6 "boot" demo_stat_error_world).2) = Some s'
    ∧ bad_patches s' = [6] ∧ bad_patches demo_state = [5].
Proof.
  destruct (stat_error_resets_state demo_cache demo_stat_error_world 6 "boot"
    (mark_failure demo_cache 6 "boot" demo_stat_error_world).2) as (now & Hd & Hb & _);
    [reflexivity|vm_compute; reflexivity|].
  eexists. split; [exact Hd|]. split; [exact Hb|reflexivity].
Defined.

Definition demo_event (n : N) : CrashRollbackEvent := {|
  event_type := "crash_rollback"; ev_patch_number := n; ev_boot_attempts := 3;
  ev_last_known_good := None; timestamp := "0"; reason := None;
|}.
Definition demo_event_world : World := (append_rollback_event demo_cache (demo_event 5) (demo_world ∅)).2.
Lemma event_log_keeps_recent_witness :
  log_holds demo_cache demo_event_world [demo_event 5].
Proof.
  refine (proj1 (event_log_keeps_recent demo_cache (demo_world ∅) [] (demo_event 5) (Ok tt)
    demo_event_world (Ok [demo_event 5]) (rollback_events demo_cache demo_event_world).2 _ _ _)).
  - split; reflexivity.
  - vm_compute. reflexivity.
  - vm_compute. reflexivity.
Defined.

Lemma corrupt_state_backed_up_witness :
  let w := demo_world {[ demo_cache := Dir; state_path demo_cache := File [x00] ]} in
  ∃ s, load_state demo_cache w = (Ok s, (load_state demo_cache w).2) ∧ s = default_state.
Proof.
  intros w. exists default_state. split; [vm_compute; reflexivity|].
  apply (corrupt_state_backed_up demo_cache w [x00] "invalid document" default_state (load_state demo_cache w).2);
    vm_compute; reflexivity.
Defined.

Definition demo_download_world : World := demo_world {[
  ["m.json"]%string := File [x6d];
  ["p.bin"]%string := File demo_bytes ]}.
Definition demo_install (w : World) : result unit * World :=
  install_payload_with_baseline true demo_cache ["m.json"]%string ["p.bin"]%string demo_public_key None w.

Lemma install_payload_correct_witness :
  ∃ m bytes s', accepted true demo_public_key m bytes
    ∧ holds demo_cache (demo_install demo_download_world).2 s' ∧ installed_ok s'.
Proof.
  destruct (install_payload_correct true demo_cache demo_download_world default_state
    ["m.json"]%string ["p.bin"]%string demo_public_key None (demo_install demo_download_world).2)
    as (m & bytes & s' & ? & _ & _ & ? & _ & _ & _ & _ & ? & _).
  - split; vm_compute; reflexivity.
  - apply default_installed.
  - vm_compute. reflexivity.
  - by exists m, bytes, s'.
Defined.


Lemma find_diff_base_matches_witness :
  let w := demo_world {[ demo_cache := Dir; ["cache"; "libapp.so"]%string := File [x01; x02] ]} in
  @sha256_hex demo_hash [x01; x02] = "0102"%string.
Proof.
  intros w.
  apply (find_diff_base_matches demo_cache "0102" [{|
    ip_patch_number := 1; ip_backend := "snapshot_replace"; manifest_path := ""; payload_path := "";
    artifact_path := Some "libapp.so"%string; installed_at := "0" |}] None w [x01; x02]
    (find_diff_base demo_cache "0102" [{|
    ip_patch_number := 1; ip_backend := "snapshot_replace"; manifest_path := ""; payload_path := "";
    artifact_path := Some "libapp.so"%string; installed_at := "0" |}] None w).2).
  vm_compute. reflexivity.
Defined.
