(* ===== verification/StateProgress.v ===== *)
(** * What the updater achieves when nothing fails

    The theorems of [StateProperties] say what holds when an operation returns.
    Here: on a machine whose calls do not fail and whose cache directory is laid
    out as the updater lays it out, the operations do return, and a patch that was
    installed is launched and confirmed. *)
From S2P Require Import Prelude Text External Bytecode BytecodeCheck BytecodeFacts Crypto Manifest Diff World State StateFacts StateProperties.
Local Open Scope N_scope.

(** ** Calls that do not fail *)
Definition calm_world (w : World) : Prop := w_faults w = [] ∧ w_stats w = [].
Lemma io_call_calm {A} (run : option fault → FS → (string + A) * FS) w a fs :
  calm_world w → run None (w_fs w) = (inr a, fs) →
  ∃ w', io_call run w = (Ok a, w') ∧ calm_world w' ∧ w_fs w' = fs.
Proof.
  intros [Hf Hs] Hr. unfold io_call. rewrite Hf, Hr. eexists. split; [reflexivity|]. by split.
Qed.
Lemma io_bind_run {A B} (m : IO A) (f : A → IO B) w a w1 : m w = (Ok a, w1) → (m ≫= f) w = f a w1.
Proof. unfold mbind, io_bind. by intros ->. Qed.

Lemma make_dirs_runs ps fs :
  (∀ q bs, q ∈ ps → fs !! q ≠ Some (File bs)) →
  ∃ fs', make_dirs ps fs = (inr tt, fs') ∧ ∀ q, fs' !! q = if decide (q ∈ ps) then Some Dir else fs !! q.
Proof.
  revert fs. induction ps as [|p ps IH]; intros fs Hok; [by exists fs|]. simpl.
  destruct (fs !! p) as [[bs|]|] eqn:E.
  - destruct (Hok p bs); [by left|done].
  - destruct (IH fs) as (fs' & -> & Hfs'); [intros q bs Hq; apply Hok; by right|].
    exists fs'. split; [done|]. intros q. rewrite Hfs'.
    destruct (decide (q ∈ ps)) as [Hin|Hin], (decide (q ∈ p :: ps)) as [Hin'|Hin']; [done| |..|done].
    + by destruct Hin'; right.
    + by apply elem_of_cons in Hin' as [->|].
  - destruct (IH (<[p:=Dir]> fs)) as (fs' & -> & Hfs').
    { intros q bs Hq. destruct (decide (q = p)) as [->|]; [by rewrite lookup_insert_eq|].
      rewrite lookup_insert_ne by done. apply Hok. by right. }
    exists fs'. split; [done|]. intros q. rewrite Hfs'.
    destruct (decide (q ∈ ps)) as [Hin|Hin], (decide (q ∈ p :: ps)) as [Hin'|Hin']; [done|..].
    + by destruct Hin'; right.
    + apply elem_of_cons in Hin' as [->|]; [by rewrite lookup_insert_eq|done].
    + apply lookup_insert_ne. intros ->. by destruct Hin'; left.
Qed.
Lemma create_dir_all_calm p w :
  calm_world w → (∀ q bs, q ∈ ancestors p → w_fs w !! q ≠ Some (File bs)) →
  ∃ w', fs_create_dir_all p w = (Ok tt, w') ∧ calm_world w'
    ∧ ∀ q, w_fs w' !! q = if decide (q ∈ ancestors p) then Some Dir else w_fs w !! q.
Proof.
  intros Hw Hok. destruct (make_dirs_runs _ _ Hok) as (fs & Hr & Hfs).
  unfold fs_create_dir_all.
  match goal with |- context [io_call ?run] => destruct (io_call_calm run w tt fs Hw Hr) as (w' & -> & Hw' & <-) end.
  eauto.
Qed.
Lemma read_calm p bs w :
  calm_world w → w_fs w !! p = Some (File bs) →
  ∃ w', fs_read p w = (Ok bs, w') ∧ calm_world w' ∧ w_fs w' = w_fs w.
Proof. intros Hw Hp. apply io_call_calm; [done|]. by rewrite Hp. Qed.
Lemma now_calm w : calm_world w → ∃ now w', now_string w = (Ok now, w') ∧ calm_world w' ∧ w_fs w' = w_fs w.
Proof.
  intros [Hf Hs]. unfold now_string, now_nanos, mbind, io_bind.
  destruct (w_clock w); eexists _, _; (split; [reflexivity|by split]).
Qed.
Lemma suffix_calm w : calm_world w → ∃ n w', unique_suffix w = (Ok n, w') ∧ calm_world w' ∧ w_fs w' = w_fs w.
Proof.
  intros [Hf Hs]. unfold unique_suffix, now_nanos, temp_counter_fetch_add, mbind, io_bind.
  destruct (w_clock w); eexists _, _; (split; [reflexivity|by split]).
Qed.

Lemma create_calm p w :
  calm_world w → parent_is_dir (w_fs w) p = true → is_dir (w_fs w) p = false →
  ∃ w', fs_create p w = (Ok tt, w') ∧ calm_world w' ∧ w_fs w' = <[p := File []]> (w_fs w).
Proof. intros Hw Hpar Hdir. apply io_call_calm; [done|]. by rewrite Hpar, Hdir. Qed.
Lemma append_calm p old bs w :
  calm_world w → w_fs w !! p = Some (File old) →
  ∃ w', fs_append p bs w = (Ok tt, w') ∧ calm_world w' ∧ w_fs w' = <[p := File (old ++ bs)]> (w_fs w).
Proof. intros Hw Hp. apply io_call_calm; [done|]. by rewrite Hp. Qed.
Lemma sync_calm w : calm_world w → ∃ w', fs_sync w = (Ok tt, w') ∧ calm_world w' ∧ w_fs w' = w_fs w.
Proof. intros Hw. by apply io_call_calm. Qed.
Lemma rename_calm p q bs w :
  calm_world w → w_fs w !! p = Some (File bs) → parent_is_dir (w_fs w) q = true → is_dir (w_fs w) q = false →
  ∃ w', fs_rename p q w = (Ok tt, w') ∧ calm_world w' ∧ w_fs w' = <[q := File bs]> (delete p (w_fs w)).
Proof. intros Hw Hp Hpar Hdir. apply io_call_calm; [done|]. by rewrite Hp, Hpar, Hdir. Qed.
(** Writing through a temporary file in the same directory. *)
Lemma replace_calm tmp p bs w :
  calm_world w → tmp ≠ p → parent tmp = parent p → length tmp = length p → parent_is_dir (w_fs w) p = true →
  is_dir (w_fs w) tmp = false → is_dir (w_fs w) p = false →
  ∃ w', (_ ← fs_create tmp; _ ← fs_append tmp bs; _ ← fs_sync; fs_rename tmp p) w = (Ok tt, w') ∧ calm_world w'
    ∧ w_fs w' = <[p := File bs]> (delete tmp (w_fs w)).
Proof.
  intros Hw Hne Hpar Hlen Hdir Htmp Hp.
  assert (∀ q, q ≠ tmp → ∀ bs, is_dir (<[tmp := File bs]> (w_fs w)) q = is_dir (w_fs w) q) as Hother
    by (intros q Hq b; unfold is_dir; by rewrite lookup_insert_ne).
  destruct (create_calm tmp w Hw) as (w1 & E1 & Hw1 & Hf1); [by unfold parent_is_dir in *; rewrite Hpar|done|].
  destruct (append_calm tmp [] bs w1 Hw1) as (w2 & E2 & Hw2 & Hf2); [by rewrite Hf1, lookup_insert_eq|].
  rewrite Hf1, insert_insert_eq in Hf2. cbn [Datatypes.app] in Hf2.
  destruct (sync_calm w2 Hw2) as (w3 & E3 & Hw3 & Hf3). rewrite Hf2 in Hf3.
  destruct (rename_calm tmp p bs w3 Hw3) as (w4 & E4 & Hw4 & Hf4); [by rewrite Hf3, lookup_insert_eq| | |].
  - unfold parent_is_dir in *. destruct (parent p) as [d|] eqn:Hd; [|done]. rewrite Hf3, Hother; [done|].
    intros ->. assert (p ≠ []) as Hne' by by destruct p.
    assert (removelast p = tmp) as E by (destruct p; [done|]; by injection Hd).
    pose proof (removelast_length p Hne') as Hl. rewrite E in Hl. lia.
  - by rewrite Hf3, Hother by done.
  - exists w4. rewrite (io_bind_run _ _ _ _ _ E1), (io_bind_run _ _ _ _ _ E2), (io_bind_run _ _ _ _ _ E3).
    split; [done|]. split; [done|]. by rewrite Hf4, Hf3, delete_insert_eq.
Qed.

(** Replacing a file: the directory is made, the temporary file comes and goes. *)
Lemma atomic_write_calm p bs w :
  calm_world w → p ≠ [] →
  (∀ q bs, q ∈ ancestors (removelast p) → w_fs w !! q ≠ Some (File bs)) →
  w_fs w !! p ≠ Some Dir → (∀ pid sfx, w_fs w !! temp_path p pid sfx ≠ Some Dir) →
  ∃ w', atomic_write_bytes p bs w = (Ok tt, w') ∧ calm_world w'
    ∧ ∀ q, w_fs w' !! q = w_fs w !! q ∨ (q = p ∧ w_fs w' !! q = Some (File bs))
           ∨ (q ∈ ancestors (removelast p) ∧ w_fs w' !! q = Some Dir)
           ∨ (∃ pid sfx, q = temp_path p pid sfx ∧ w_fs w' !! q = None).
Proof.
  intros Hw Hp Hdirs Hnd Htmp.
  destruct (create_dir_all_calm (removelast p) w Hw Hdirs) as (w1 & E1 & Hw1 & Hfs1).
  destruct (suffix_calm w1 Hw1) as (sfx & w2 & E2 & Hw2 & Hfs2). rewrite <- Hfs2 in Hfs1.
  set (tmp := temp_path p (w_pid w1) sfx).
  assert (length tmp = length p) as Htl.
  { unfold tmp, temp_path, with_file_name. rewrite length_app, (removelast_length p Hp). simpl. lia. }
  assert (parent p = Some (removelast p)) as Hpar by (by destruct p).
  assert (parent tmp = parent p) as Hpart.
  { assert (removelast tmp = removelast p) as Htr by (unfold tmp, temp_path, with_file_name; apply removelast_last).
    rewrite Hpar, <- Htr. destruct tmp; [by destruct p|done]. }
  assert (∀ q, length q = length p → w_fs w !! q ≠ Some Dir → is_dir (w_fs w2) q = false) as Hnotdir.
  { intros q Hq Hqd. unfold is_dir. rewrite Hfs1, decide_False.
    - rewrite !bool_decide_eq_false_2; [done..|]. intros ->. by destruct p.
    - intros Hin%ancestors_length. pose proof (removelast_length p Hp). rewrite Hq in Hin. lia. }
  destruct (replace_calm tmp p bs w2 Hw2) as (w3 & E3 & Hw3 & Hfs3);
    [apply temp_path_ne|done|done| |by apply Hnotdir; [|apply Htmp]|by apply Hnotdir|].
  { unfold parent_is_dir, is_dir. rewrite Hpar. destruct (decide (removelast p = [])) as [->|Hne]; [done|].
    rewrite Hfs1, decide_True by (by apply ancestors_elem).
    by rewrite (bool_decide_eq_true_2 (Some Dir = Some Dir)), orb_true_r by done. }
  exists w3. unfold atomic_write_bytes. rewrite Hpar. rewrite (io_bind_run _ _ _ _ _ E1).
  rewrite (io_bind_run process_id _ w1 (w_pid w1) w1) by done. rewrite (io_bind_run _ _ _ _ _ E2).
  split; [exact E3|]. split; [done|]. intros q. rewrite Hfs3.
  destruct (decide (q = p)) as [->|Hqp]; [right; left; split; [done|apply lookup_insert_eq]|].
  rewrite lookup_insert_ne by done. destruct (decide (q = tmp)) as [->|Hqt].
  { right. right. right. exists (w_pid w1), sfx. split; [done|]. apply lookup_delete_eq. }
  rewrite lookup_delete_ne, Hfs1 by done.
  destruct (decide (q ∈ ancestors (removelast p))); [right; right; by left|by left].
Qed.

Section Progress.
Context `{Hash, Base64, Ed25519, BsdiffZstd}.
Context `{Serde Value.t, ToValue PatchManifest, Serde PatchManifest, Serde SimpleBinaryDiff}.
Context `{Serde BytecodeModule, Serde State, Serde CrashRollbackEvent}.
Context `{!SerdeLaws State (λ _, True)}.
Variable snapshot_replace : bool.
Variable cache_dir : path.
Abbreviation state_path := (state_path cache_dir).
Abbreviation patches_dir := (patches_dir cache_dir).
Abbreviation patch_path := (patch_path cache_dir).

(** ** The layout of the cache directory *)
(** Where the updater makes directories, and where it makes files. *)
Definition dir_place (q : path) : Prop := ∃ n, q ∈ ancestors (patches_dir n).
Definition file_place (q : path) : Prop :=
  q = state_path ∨ (∃ t, q = cache_dir ++ ["." +:+ t]%string) ∨ ∃ n f, q = patch_path n f.
(** Nothing is in the way. *)
Definition tidy (fs : FS) : Prop :=
  (∀ q bs, dir_place q → fs !! q ≠ Some (File bs)) ∧ (∀ q, file_place q → fs !! q ≠ Some Dir).
Definition ready (w : World) : Prop := calm_world w ∧ tidy (w_fs w).

Lemma dir_not_file q : dir_place q → ¬ file_place q.
Proof.
  intros [n Hd] Hf. pose proof (ancestors_length _ _ Hd) as Hl.
  apply ancestors_elem in Hd as [_ Hd]. unfold State.patches_dir, join1 in Hd, Hl.
  rewrite !length_app in Hl. simpl in Hl. rewrite <- app_assoc in Hd.
  destruct Hf as [->|[[t ->]|(n' & f & ->)]].
  - unfold State.state_path, join1 in Hd. by apply prefix_app_inv, prefix_cons_inv_1 in Hd.
  - by apply prefix_app_inv, prefix_cons_inv_1 in Hd.
  - rewrite patch_path_length in Hl. lia.
Qed.
Lemma tidy_change fs fs' :
  tidy fs →
  (∀ q, fs' !! q = fs !! q ∨ fs' !! q = None ∨ (dir_place q ∧ fs' !! q = Some Dir)
        ∨ (file_place q ∧ ∃ bs, fs' !! q = Some (File bs))) →
  tidy fs'.
Proof.
  intros [Hd Hf] Hch. split.
  - intros q bs Hq. destruct (Hch q) as [->|[->|[[_ ->]|[Hfp _]]]]; [by apply Hd|done|done|].
    by destruct (dir_not_file q Hq).
  - intros q Hq. destruct (Hch q) as [->|[->|[[Hdp _]|[_ [bs ->]]]]]; [by apply Hf|done| |done].
    by destruct (dir_not_file q Hdp).
Qed.

(** The files that are replaced. *)
Definition written_place (p : path) : Prop := p = state_path ∨ ∃ n f, p = patch_path n f.
Lemma written_parent p q : written_place p → q ∈ ancestors (removelast p) → dir_place q.
Proof.
  intros [->|(n & f & ->)] Hq.
  - unfold State.state_path, join1 in Hq. rewrite removelast_last in Hq. exists 0.
    apply ancestors_elem in Hq as [Hne Hq]. apply ancestors_elem. split; [done|].
    unfold State.patches_dir, join1. rewrite <- app_assoc. by apply prefix_app_r.
  - unfold StateProperties.patch_path, join1 in Hq. rewrite removelast_last in Hq. by exists n.
Qed.
Lemma written_temp p pid sfx : written_place p → file_place (temp_path p pid sfx).
Proof.
  intros [->|(n & f & ->)]; unfold temp_path, with_file_name, State.state_path, StateProperties.patch_path, join1;
    rewrite removelast_last; right; [left|right]; eauto.
Qed.
Lemma written_file p : written_place p → file_place p.
Proof. intros [->|(n & f & ->)]; [by left|right; right; eauto]. Qed.
Lemma write_ready p bs w :
  ready w → written_place p → ∃ w', atomic_write_bytes p bs w = (Ok tt, w') ∧ ready w'.
Proof.
  intros [Hw Ht] Hp. pose proof Ht as [Hd Hf].
  assert (p ≠ []) as Hne by (destruct Hp as [->|(n & f & ->)]; [apply state_path_ne|apply patch_path_ne]).
  destruct (atomic_write_calm p bs w Hw Hne) as (w' & E & Hw' & Hch).
  - intros q bs' Hq. by apply Hd, (written_parent p).
  - by apply Hf, written_file.
  - intros pid sfx. by apply Hf, written_temp.
  - exists w'. split; [done|]. split; [done|]. eapply tidy_change; [exact Ht|]. intros q.
    destruct (Hch q) as [Hq|[[-> Hq]|[[Hq E']|(pid & sfx & _ & Hq)]]]; [by left| | |by right; left].
    + right. right. right. split; [by apply written_file|eauto].
    + right. right. left. split; [by eapply written_parent|done].
Qed.


(** ** The artifact of a native patch *)
Definition content (fs : FS) (q : path) : option (list byte) :=
  match fs !! q with Some (File bs) => Some bs | _ => None end.
(** The base a diff is applied to: the newest installed artifact with the hash
    [h], or else the baseline if it has it. *)
Fixpoint pick_installed (fs : FS) (h : string) (l : list InstalledPatch) : option (list byte) :=
  match l with
  | [] => None
  | p :: l =>
    match artifact_path p ≫= λ rel, content fs (join_rel cache_dir rel) with
    | Some c => if String.eqb (sha256_hex c) h then Some c else pick_installed fs h l
    | None => pick_installed fs h l
    end
  end.
Definition pick_base (fs : FS) (h : string) (l : list InstalledPatch) (baseline : option path) : option (list byte) :=
  match pick_installed fs h (reverse l) with
  | Some c => Some c
  | None => bs ← baseline ≫= content fs; if String.eqb (sha256_hex bs) h then Some bs else None
  end.
(** Places an installation of another file does not change. *)
Definition kept_place (q : path) : Prop :=
  (∃ n, q = patch_path n "libapp.so") ∨ ¬ cache_dir `prefix_of` q.
Definition artifacts_placed (l : list InstalledPatch) (baseline : option path) : Prop :=
  (∀ p rel, p ∈ l → artifact_path p = Some rel → kept_place (join_rel cache_dir rel))
  ∧ ∀ b, baseline = Some b → kept_place b.
(** The installation of [m] makes this artifact, or none. *)
Definition makes_artifact (fs : FS) (l : list InstalledPatch) (baseline : option path)
    (m : PatchManifest) (bytes : list byte) (artifact : option (list byte)) : Prop :=
  match artifact with
  | None => backend m ≠ "snapshot_replace"%string
  | Some art =>
    backend m = "snapshot_replace"%string ∧ snapshot_replace = true ∧ artifacts_placed l baseline
    ∧ ∃ algorithm h base, diff_algorithm (payload m) = Some algorithm ∧ base_hash (payload m) = Some h
        ∧ pick_base fs h l baseline = Some base ∧ apply_binary_diff algorithm base bytes = Ok art
        ∧ ∀ o, output_hash (payload m) = Some o → sha256_hex art = o
  end.
Definition artifact_file (n : N) (artifact : option (list byte)) : option string :=
  (λ _, patch_file n "libapp.so") <$> artifact.

Lemma pick_installed_ext fs fs' h l :
  (∀ p rel, p ∈ l → artifact_path p = Some rel → content fs' (join_rel cache_dir rel) = content fs (join_rel cache_dir rel)) →
  pick_installed fs' h l = pick_installed fs h l.
Proof.
  induction l as [|p l IH]; intros Hl; [done|]. simpl.
  rewrite IH by (intros q rel Hq; apply Hl; by right).
  destruct (artifact_path p) as [rel|] eqn:E; [|done]. cbn [mbind option_bind]. rewrite (Hl p rel); [done|by left|done].
Qed.
Lemma pick_base_ext fs fs' h l baseline :
  artifacts_placed l baseline → (∀ q, kept_place q → content fs' q = content fs q) →
  pick_base fs' h l baseline = pick_base fs h l baseline.
Proof.
  intros [Hl Hb] Hc. unfold pick_base. rewrite (pick_installed_ext fs fs').
  - destruct baseline as [b|]; [|done]. cbn [mbind option_bind]. by rewrite Hc by by apply Hb.
  - intros p rel Hp Hrel. apply Hc. eapply Hl; [|done]. by apply elem_of_reverse.
Qed.
Lemma makes_artifact_ext fs fs' l baseline m bytes artifact :
  (∀ q, kept_place q → content fs' q = content fs q) →
  makes_artifact fs l baseline m bytes artifact → makes_artifact fs' l baseline m bytes artifact.
Proof.
  intros Hc. destruct artifact as [art|]; [|done].
  intros (? & ? & Hpl & algorithm & h & base & ? & ? & Hpick & ? & ?). do 3 (split; [done|]).
  exists algorithm, h, base. do 2 (split; [done|]). split; [|done]. rewrite <- Hpick. by apply pick_base_ext.
Qed.
Lemma read_ok_calm p w : calm_world w →
  ∃ w', io_ok (fs_read p) w = (Ok (content (w_fs w) p), w') ∧ calm_world w' ∧ w_fs w' = w_fs w.
Proof.
  intros [Hf Hs]. unfold io_ok, fs_read, io_call, content. rewrite Hf.
  destruct (w_fs w !! p) as [[bs|]|]; eexists; (split; [reflexivity|by split]).
Qed.
Lemma find_installed_calm h l w : calm_world w →
  ∃ w', find_installed_base cache_dir h l w = (Ok (pick_installed (w_fs w) h l), w')
    ∧ calm_world w' ∧ w_fs w' = w_fs w.
Proof.
  revert w. induction l as [|p l IH]; intros w Hw; [by exists w|]. simpl.
  destruct (artifact_path p) as [rel|]; [|by apply IH]. cbn [mbind option_bind].
  destruct (read_ok_calm (join_rel cache_dir rel) w Hw) as (w1 & E1 & Hw1 & Hf1).
  rewrite (io_bind_run _ _ _ _ _ E1). rewrite <- Hf1.
  destruct (content (w_fs w1) _) as [c|]; [|by apply IH].
  destruct (String.eqb _ _); [by exists w1|by apply IH].
Qed.
Lemma chained_diff_calm m bytes l baseline art w :
  calm_world w → backend m = "snapshot_replace"%string →
  makes_artifact (w_fs w) l baseline m bytes (Some art) →
  ∃ w', snapshot_replace_chained_diff cache_dir m bytes l baseline w = (Ok art, w')
    ∧ calm_world w' ∧ w_fs w' = w_fs w.
Proof.
  intros Hw _ (_ & _ & _ & algorithm & h & base & Ha & Hh & Hp & Hd & Ho).
  assert (∃ w', find_diff_base cache_dir h l baseline w = (Ok base, w') ∧ calm_world w' ∧ w_fs w' = w_fs w)
    as (w' & E & Hw' & Hf').
  { unfold find_diff_base. destruct (find_installed_calm h (reverse l) w Hw) as (w1 & E1 & Hw1 & Hf1).
    rewrite (io_bind_run _ _ _ _ _ E1). unfold pick_base in Hp.
    destruct (pick_installed _ h (reverse l)) as [c|]; [injection Hp as ->; by exists w1|].
    destruct baseline as [b|]; [|done]. cbn [mbind option_bind] in Hp. rewrite <- Hf1 in Hp.
    unfold content in Hp. destruct (w_fs w1 !! b) as [[bs|]|] eqn:Eb; [|done..]. cbn [mbind option_bind] in Hp.
    destruct (read_calm b bs w1 Hw1 Eb) as (w2 & E2 & Hw2 & Hf2). rewrite (io_bind_run _ _ _ _ _ E2).
    destruct (String.eqb _ _); [|done]. injection Hp as ->. exists w2. split; [done|]. split; [done|congruence]. }
  exists w'. split; [|done]. unfold snapshot_replace_chained_diff. rewrite Ha, Hh.
  rewrite (io_bind_run _ _ w algorithm w), (io_bind_run _ _ w h w) by done.
  rewrite (io_bind_run _ _ _ _ _ E). rewrite (io_bind_run _ _ w' art w') by (unfold io_lift; by rewrite Hd).
  destruct (output_hash (payload m)) as [o|]; [|done]. by rewrite (Ho o eq_refl), String.eqb_refl.
Qed.

(** ** The operations return *)
Lemma ready_same w w' : ready w → calm_world w' → w_fs w' = w_fs w → ready w'.
Proof. intros [_ Ht] Hw E. split; [done|]. by rewrite E. Qed.
Lemma load_ready w s :
  ready w → holds cache_dir w s → ∃ w', load_state cache_dir w = (Ok s, w') ∧ ready w' ∧ holds cache_dir w' s.
Proof.
  intros Hr Hh. pose proof Hr as [Hw _].
  assert (∃ r w', load_state cache_dir w = (Ok r, w') ∧ calm_world w') as (r & w' & E & Hc).
  { destruct Hw as [Hf Hst]. destruct Hh as [_ Hs]. unfold disk_state in Hs. unfold load_state.
    unfold fs_exists. rewrite stat_call_bind, (bool_decide_eq_false_2 (state_path = [])) by (done || apply state_path_ne).
    destruct (w_fs w !! state_path) as [[bs|]|] eqn:Ef; [|done|].
    - rewrite bool_decide_eq_true_2 by eauto. cbn [negb orb].
      destruct (read_calm state_path bs w (conj Hf Hst) Ef) as (w1 & E1 & Hw1 & _).
      rewrite (io_bind_run _ _ _ _ _ E1). destruct (from_slice bs); [|done..]. eexists _, _. split; [reflexivity|done].
    - rewrite bool_decide_eq_false_2 by (by intros [? [=]]). cbn [negb orb]. eexists _, _. split; [reflexivity|by split]. }
  destruct (load_ok cache_dir _ _ _ _ Hh E) as (-> & Hh' & Hfs).
  exists w'. split; [done|]. split; [by eapply ready_same|done].
Qed.
Lemma save_ready w s : ready w → ∃ w', save_state cache_dir s w = (Ok tt, w') ∧ ready w'.
Proof.
  intros Hr. unfold save_state, atomic_write_json. destruct (to_vec_pretty_total (A:=State) s I) as [bs Hbs].
  rewrite (io_bind_run _ _ w bs w) by (unfold io_lift; by rewrite Hbs). apply write_ready; [done|by left].
Qed.
Lemma now_ready w s : ready w → holds cache_dir w s →
  ∃ now w', now_string w = (Ok now, w') ∧ ready w' ∧ holds cache_dir w' s.
Proof.
  intros Hr Hh. destruct (now_calm w (proj1 Hr)) as (now & w' & E & Hw' & Hfs).
  exists now, w'. split; [done|]. split; [by eapply ready_same|].
  eapply off_state_holds; [apply touches_now_string|exact Hh|exact E].
Qed.
Lemma evict_ready fuel s w : ready w → ∃ s' w', evict cache_dir fuel s w = (Ok s', w') ∧ ready w'.
Proof.
  revert s w. induction fuel as [|fuel IH]; intros s w Hr; [by exists s, w|]. simpl.
  destruct (2 <? _); [|by exists s, w]. destruct (position _ _) as [i|]; [|by exists s, w].
  destruct (get _ i) as [old|]; [|by exists s, w].
  assert (∃ o w1, io_ok (fs_remove_dir_all (patches_dir (ip_patch_number old))) w = (Ok o, w1) ∧ ready w1)
    as (o & w1 & E & Hr1).
  { destruct Hr as [[Hf Hst] Ht]. unfold io_ok, fs_remove_dir_all, io_call. rewrite Hf.
    destruct (w_fs w !! patches_dir (ip_patch_number old)) as [[bs|]|] eqn:Ed;
      (eexists _, _; split; [reflexivity|split; [by split|]]); try exact Ht.
    eapply tidy_change; [exact Ht|]. intros q. cbn.
    match goal with |- context [filter ?P (w_fs w) !! q] => destruct (filter P (w_fs w) !! q) as [node|] eqn:Eq end.
    - apply map_lookup_filter_Some in Eq as [Eq _]. left. congruence.
    - by right; left. }
  rewrite (io_bind_run _ _ _ _ _ E). by apply IH.
Qed.

Lemma payload_name : "payload.bin"%string ≠ "libapp.so"%string.
Proof. done. Qed.
Lemma manifest_name : "manifest.json"%string ≠ "libapp.so"%string.
Proof. done. Qed.
(** Files in kept places stay as they are when another file of a patch is written. *)
Lemma write_content n f bs w w' q :
  ready w → f ≠ "libapp.so"%string → kept_place q →
  atomic_write_bytes (patch_path n f) bs w = (Ok tt, w') → content (w_fs w') q = content (w_fs w) q.
Proof.
  intros [Hw Ht] Hf Hq E. pose proof Ht as [Hd Hfp].
  assert (written_place (patch_path n f)) as Hp by (right; eauto).
  destruct (atomic_write_calm (patch_path n f) bs w Hw (patch_path_ne _ _ _)) as (w2 & E2 & _ & Hch).
  { intros q' bs' Hq'. by apply Hd, (written_parent (patch_path n f)). }
  { by apply Hfp, written_file. }
  { intros pid sfx. by apply Hfp, written_temp. }
  rewrite E in E2. injection E2 as <-. unfold content.
  assert (∀ g, g ≠ "libapp.so"%string → q ≠ patch_path n g) as Hne.
  { intros g Hg ->. destruct Hq as [[n' E']|Hq].
    - unfold StateProperties.patch_path, join1 in E'. by apply app_inj_tail in E' as [_ ?].
    - apply Hq. unfold StateProperties.patch_path, State.patches_dir, join1. rewrite <- !app_assoc. by apply prefix_app_r. }
  destruct (Hch q) as [->|[[-> _]|[[Hin ->]|(pid & sfx & -> & _)]]]; [done|by destruct (Hne f)| |].
  - destruct (w_fs w !! q) as [[bs'|]|] eqn:Eq; [|done..]. by destruct (Hd q bs' (written_parent _ _ Hp Hin)).
  - exfalso. eapply Hne; [|unfold temp_path, with_file_name, StateProperties.patch_path, join1; by rewrite removelast_last].
    done.
Qed.
Lemma mkdir_content n w w' q :
  ready w → (∀ q, w_fs w' !! q = if decide (q ∈ ancestors (patches_dir n)) then Some Dir else w_fs w !! q) →
  content (w_fs w') q = content (w_fs w) q.
Proof.
  intros [_ [Hd _]] Hfs. unfold content. rewrite Hfs. destruct (decide _); [|done].
  destruct (w_fs w !! q) as [[bs|]|] eqn:Eq; [|done..]. destruct (Hd q bs); [by exists n|done].
Qed.
(** The artifact is made and written, or there is none to make. *)
Lemma artifact_ready m bytes l baseline artifact w s :
  ready w → holds cache_dir w s → makes_artifact (w_fs w) l baseline m bytes artifact →
  ∃ w', (if String.eqb (backend m) "snapshot_replace" then
           if snapshot_replace then
             artifact ← snapshot_replace_chained_diff cache_dir m bytes l baseline;
             _ ← atomic_write_bytes (join1 (patches_dir (patch_number m)) "libapp.so") artifact;
             mret (Some (patch_file (patch_number m) "libapp.so"))
           else io_err "snapshot_replace backend is not enabled in this build"
         else mret None) w = (Ok (artifact_file (patch_number m) artifact), w')
    ∧ ready w' ∧ holds cache_dir w' s
    ∧ (∀ f, f ≠ "libapp.so"%string → ("." ≠ stake 1 f)%string →
         w_fs w' !! patch_path (patch_number m) f = w_fs w !! patch_path (patch_number m) f)
    ∧ ∀ art, artifact = Some art → w_fs w' !! patch_path (patch_number m) "libapp.so" = Some (File art).
Proof.
  intros Hr Hh Hm. destruct artifact as [art|].
  - pose proof Hm as (Hb & -> & _). rewrite Hb, String.eqb_refl.
    destruct (chained_diff_calm m bytes l baseline art w (proj1 Hr) Hb Hm) as (w1 & E1 & Hw1 & Hf1).
    pose proof (ready_same _ _ Hr Hw1 Hf1) as Hr1.
    destruct (write_ready (patch_path (patch_number m) "libapp.so") art w1 Hr1) as (w2 & E2 & Hr2); [right; eauto|].
    exists w2. rewrite (io_bind_run _ _ _ _ _ E1), (io_bind_run _ _ w1 tt w2 E2). split; [done|]. split; [done|].
    split; [|split].
    + eapply off_state_holds; [apply touches_patch_write| |exact E2].
      eapply off_state_holds; [apply touches_chained_diff|exact Hh|exact E1].
    + intros f Hf Hdot. rewrite <- Hf1. eapply touches_at; [apply touches_atomic_write|exact E2|].
      by apply write_zone_patch.
    + intros ? [= <-]. eapply atomic_write_ok, E2. apply patch_path_ne.
  - cbn in Hm. apply String.eqb_neq in Hm. rewrite Hm. by exists w.
Qed.

(** The new record is stored, and older patches are forgotten. *)
Lemma record_ready w s m record now :
  ready w → holds cache_dir w s →
  ∃ w', (state ← evict cache_dir (length (installed (record_install s m record now))) (record_install s m record now);
         save_state cache_dir state) w = (Ok tt, w')
    ∧ ready w' ∧ holds cache_dir w' (install_next s m record now)
    ∧ ∀ f, w_fs w' !! patch_path (patch_number m) f = w_fs w !! patch_path (patch_number m) f.
Proof.
  intros Hr Hh.
  destruct (evict_ready (length (installed (record_install s m record now))) (record_install s m record now) w Hr)
    as (s1 & w1 & E1 & Hr1).
  destruct (save_ready w1 s1 Hr1) as (w2 & E2 & Hr2).
  assert ((state ← evict cache_dir (length (installed (record_install s m record now))) (record_install s m record now);
    save_state cache_dir state) w = (Ok tt, w2)) as E by (by rewrite (io_bind_run _ _ _ _ _ E1)).
  exists w2. split; [exact E|]. split; [done|]. exact (record_evict_save cache_dir _ _ _ _ _ _ _ Hh E).
Qed.

(** The installation of a patch that passes the checks returns. *)
Lemma install_ready w s mp pp key baseline m bytes artifact :
  ready w → holds cache_dir w s → verified snapshot_replace (w_fs w) mp pp key m bytes →
  makes_artifact (w_fs w) (installed s) baseline m bytes artifact →
  ∃ now w', install_payload_with_baseline snapshot_replace cache_dir mp pp key baseline w = (Ok tt, w')
    ∧ ready w' ∧ holds cache_dir w' (install_next s m (artifact_file (patch_number m) artifact) now)
    ∧ w_fs w' !! patch_path (patch_number m) "payload.bin" = Some (File bytes)
    ∧ ∀ art, artifact = Some art → w_fs w' !! patch_path (patch_number m) "libapp.so" = Some (File art).
Proof.
  intros Hr Hh ((mb & Hmb & Hm) & Hver & Hpp & Hhash & Hcon) Hart. pose proof Hr as [Hw Ht].
  unfold install_payload_with_baseline, read_json.
  destruct (read_calm mp mb w Hw Hmb) as (w1 & E1 & Hw1 & Hf1).
  rewrite (io_bind_run _ _ w m w1) by (rewrite (io_bind_run _ _ _ _ _ E1); unfold io_lift; by rewrite Hm).
  rewrite (io_bind_run _ _ w1 tt w1) by (unfold io_lift; by rewrite Hver).
  destruct (read_calm pp bytes w1 Hw1) as (w2 & E2 & Hw2 & Hf2); [by rewrite Hf1|].
  rewrite (io_bind_run _ _ _ _ _ E2). cbv zeta. rewrite Hhash, String.eqb_refl. cbn [negb].
  rewrite (io_bind_run _ _ w2 tt w2) by (unfold io_lift; by rewrite Hcon).
  destruct (create_dir_all_calm (patches_dir (patch_number m)) w2 Hw2) as (w3 & E3 & Hw3 & Hf3).
  { intros q bs Hq. rewrite Hf2, Hf1. apply Ht. by exists (patch_number m). }
  assert (ready w3) as Hr3.
  { split; [done|]. eapply tidy_change; [exact Ht|]. intros q. rewrite Hf3, Hf2, Hf1.
    destruct (decide _); [|by left]. right. right. left. split; [by exists (patch_number m)|done]. }
  rewrite (io_bind_run _ _ _ _ _ E3).
  destruct (read_calm mp mb w3 Hw3) as (w4 & E4 & Hw4 & Hf4).
  { rewrite Hf3, decide_False; [by rewrite Hf2, Hf1|]. intros Hin. destruct Ht as [Hd _].
    eapply Hd; [by exists (patch_number m)|exact Hmb]. }
  rewrite (io_bind_run _ _ _ _ _ E4). pose proof (ready_same _ _ Hr3 Hw4 Hf4) as Hr4.
  destruct (write_ready (patch_path (patch_number m) "manifest.json") mb w4 Hr4) as (w5 & E5 & Hr5); [right; eauto|].
  rewrite (io_bind_run _ _ _ _ _ E5).
  destruct (write_ready (patch_path (patch_number m) "payload.bin") bytes w5 Hr5) as (w6 & E6 & Hr6); [right; eauto|].
  rewrite (io_bind_run _ _ _ _ _ E6).
  assert (holds cache_dir w6 s) as Hh6.
  { eapply off_state_holds; [apply touches_patch_write| |exact E6].
    eapply off_state_holds; [apply touches_patch_write| |exact E5].
    eapply off_state_holds; [apply touches_read| |exact E4].
    eapply off_state_holds; [apply touches_patch_dir| |exact E3].
    eapply off_state_holds; [apply touches_read| |exact E2].
    eapply off_state_holds; [apply touches_read|exact Hh|exact E1]. }
  assert (w_fs w6 !! patch_path (patch_number m) "payload.bin" = Some (File bytes)) as Hpay
    by (eapply atomic_write_ok, E6; apply patch_path_ne).
  destruct (load_ready w6 s Hr6 Hh6) as (w7 & E7 & Hr7 & Hh7). rewrite (io_bind_run _ _ _ _ _ E7).
  destruct (load_ok cache_dir _ _ _ _ Hh6 E7) as (_ & _ & Hf7).
  assert (makes_artifact (w_fs w7) (installed s) baseline m bytes artifact) as Hart7.
  { eapply makes_artifact_ext; [|exact Hart]. intros q Hq. rewrite Hf7.
    rewrite (write_content _ _ _ _ _ q Hr5 payload_name Hq E6), (write_content _ _ _ _ _ q Hr4 manifest_name Hq E5).
    rewrite Hf4, (mkdir_content _ w2 w3 q (ready_same _ _ Hr Hw2 (eq_trans Hf2 Hf1)) Hf3). by rewrite Hf2, Hf1. }
  destruct (artifact_ready m bytes (installed s) baseline artifact w7 s Hr7 Hh7 Hart7)
    as (w7' & E7' & Hr7' & Hh7' & Hkept & Hlib). rewrite (io_bind_run _ _ w7 _ w7' E7').
  destruct (now_ready w7' s Hr7' Hh7') as (now & w8 & E8 & Hr8 & Hh8). rewrite (io_bind_run _ _ _ _ _ E8).
  assert (∀ f, w_fs w8 !! patch_path (patch_number m) f = w_fs w7' !! patch_path (patch_number m) f) as Hf8.
  { intros f. eapply touches_at; [apply (touches_now_string (λ _, False))|exact E8|tauto]. }
  destruct (record_ready w8 s m (artifact_file (patch_number m) artifact) now Hr8 Hh8) as (w9 & E9 & Hr9 & Hh9 & Hkeep).
  exists now, w9. split; [exact E9|]. split; [done|]. split; [done|]. split.
  - rewrite Hkeep, Hf8, Hkept by done. by rewrite Hf7.
  - intros art Hsome. by rewrite Hkeep, Hf8, (Hlib art Hsome).
Qed.

(** A launch that marks no patch bad. *)
Lemma launch_ready w s :
  ready w → holds cache_dir w s → boot_attempts s = 0 →
  ∃ p w', launch_patch cache_dir w = (Ok p, w') ∧ ready w'.
Proof.
  intros Hr Hh Ha. destruct (load_ready w s Hr Hh) as (w1 & E1 & Hr1 & Hh1).
  unfold launch_patch. rewrite (io_bind_run _ _ _ _ _ E1). rewrite Ha.
  match goal with |- context [(?x : IO (State * bool)) ≫= _] =>
    assert (∃ st w2, x w1 = (Ok st, w2) ∧ ready w2 ∧ holds cache_dir w2 s) as ([s2 ch] & w2 & E2 & Hr2 & Hh2) end.
  { destruct (last_launch s) as [l|]; [|by eexists _, _; split; [reflexivity|]].
    destruct (String.eqb _ _); by eexists _, _; split; [reflexivity|]. }
  rewrite (io_bind_run _ _ _ _ _ E2).
  destruct (select_launch_patch_number s2) as [n|].
  - cbv zeta.
    match goal with |- context [(?x : IO (State * bool)) ≫= _] =>
      assert (∃ st w3, x w2 = (Ok st, w3) ∧ ready w3) as ([s3 ch3] & w3 & E3 & Hr3) end.
    { case_bool_decide; [|by eexists _, _; split; [reflexivity|]].
      destruct (now_ready w2 s Hr2 Hh2) as (now & w3 & E3 & Hr3 & _). rewrite (io_bind_run _ _ _ _ _ E3).
      by eexists _, _; split; [reflexivity|]. }
    rewrite (io_bind_run _ _ _ _ _ E3). destruct ch3.
    + destruct (save_ready w3 s3 Hr3) as (w4 & E4 & Hr4). rewrite (io_bind_run _ _ _ _ _ E4).
      by eexists _, _; split; [reflexivity|].
    + by eexists _, _; split; [reflexivity|].
  - destruct ch.
    + destruct (save_ready w2 s2 Hr2) as (w4 & E4 & Hr4). rewrite (io_bind_run _ _ _ _ _ E4).
      by eexists _, _; split; [reflexivity|].
    + by eexists _, _; split; [reflexivity|].
Qed.
Lemma mark_success_ready w s l :
  ready w → holds cache_dir w s → can_mark_success s l →
  ∃ w', mark_success cache_dir w = (Ok tt, w') ∧ ready w'.
Proof.
  intros Hr Hh (Hl & Hb & Hf). destruct (load_ready w s Hr Hh) as (w1 & E1 & Hr1 & Hh1).
  unfold mark_success. rewrite (io_bind_run _ _ _ _ _ E1). rewrite Hl, bool_decide_eq_false_2, Hf by done.
  by apply save_ready.
Qed.

(** ** A valid patch takes effect *)
Lemma install_next_pending s m artifact now :
  pending_patch_number (install_next s m artifact now) = Some (patch_number m)
  ∧ boot_attempts (install_next s m artifact now) = 0
  ∧ bad_patches (install_next s m artifact now) = bad_patches s
  ∧ patch_number m ∈ installed_numbers (install_next s m artifact now).
Proof.
  unfold install_next.
  destruct (evict_next_fields (length (installed (record_install s m artifact now))) (record_install s m artifact now))
    as (-> & _ & -> & _ & -> & _).
  do 3 (split; [done|]). apply evict_next_keeps; [done|].
  unfold installed_numbers, record_install. cbn [installed set_installed].
  rewrite sort_by_key_perm, fmap_app. set_solver.
Qed.
Lemma pending_selected s n :
  pending_patch_number s = Some n → boot_attempts s = 0 → n ∉ bad_patches s → n ∈ installed_numbers s →
  select_launch_patch_number (launch_recover s) = Some n.
Proof.
  intros Hp Ha Hb Hin.
  assert (pending_patch_number (launch_recover s) = Some n ∧ bad_patches (launch_recover s) = bad_patches s
    ∧ installed (launch_recover s) = installed s) as (Ep & Eb & Ei).
  { unfold launch_recover. rewrite Ha. by destruct (pending_launch s). }
  unfold select_launch_patch_number, launch_candidates. rewrite Ep. simpl.
  assert (launchable (launch_recover s) n = true) as ->; [|done].
  unfold launchable. rewrite Eb, Ei, bool_decide_eq_false_2 by done. cbn [negb andb].
  apply existsb_exists. apply list_elem_of_fmap in Hin as (p & -> & Hin). exists p.
  split; [by apply list_elem_of_In|]. apply N.eqb_refl.
Qed.

(** A patch that was installed last and is not bad is the patch the next launch
    returns, and becomes the current and last known good patch when that launch is
    confirmed. *)
Lemma installed_takes_effect w s m artifact now :
  ready w → holds cache_dir w (install_next s m artifact now) → patch_number m ∉ bad_patches s →
  ∃ w2 w3 p s3,
    launch_patch cache_dir w = (Ok (Some p), w2) ∧ ip_patch_number p = patch_number m
    ∧ mark_success cache_dir w2 = (Ok tt, w3) ∧ ready w3 ∧ holds cache_dir w3 s3
    ∧ current_patch_number s3 = patch_number m ∧ last_known_good_patch_number s3 = Some (patch_number m).
Proof.
  intros Hr Hh Hbad.
  destruct (install_next_pending s m artifact now) as (Hp & Ha & Hb & Hin). set (s1 := install_next s m artifact now) in *.
  rewrite <- Hb in Hbad. pose proof (pending_selected s1 _ Hp Ha Hbad Hin) as Hsel.
  destruct (launch_ready w s1 Hr Hh Ha) as (po & w2 & E2 & Hr2).
  destruct (launch_holds cache_dir _ _ _ _ Hh E2) as (now2 & s2 & Hn & Hh2).
  unfold launch_next in Hn. rewrite Hsel in Hn.
  destruct (select_is_installed _ _ Hsel) as (Hb2 & p & Hfind & Hpn & _). rewrite Hfind in Hn.
  injection Hn as <- <-.
  destruct (mark_success_ready w2 _ {| ll_patch_number := patch_number m; status := "pending_success"; started_at := now2 |}
    Hr2 Hh2) as (w3 & E3 & Hr3); [by split|].
  destruct (implements_mark_success cache_dir _ _ _ _ Hh2 E3) as (s3 & (l & (Hl & _) & ->) & Hh3).
  injection Hl as <-. exists w2, w3, p. eexists. by repeat (split; [done|]).
Qed.
End Progress.
