(* ===== verification/Linker.v ===== *)
(** * The bytecode linker

    Models [crates/fcb_core/src/linker.rs]: the kernel inventories of a release
    and of a patch, their validation, and [plan_bytecode_link], which decides
    for every function of the patch whether it is unchanged, interpreted or
    rejected. *)
From S2P Require Import Prelude Text Manifest.
Local Open Scope N_scope.

Definition KERNEL_INVENTORY_SCHEMA_VERSION : N := 1.

(** ** Data *)
Module RejectReason.
Inductive t :=
| MissingBaselineFunction
| SignatureChanged
| ClassShapeChanged
| FieldSignatureChanged
| UnsupportedKernelNode
| EscapingCapturingClosure
| ReturningCapturingClosure
| PassingCapturingClosure
| AsyncAwaitUnsupported
| GenericClosureUnsupported
| FunctionTypeUnsupported
| RecordTypeUnsupported
| MissingBytecodeSource
| OriginalTargetNotInAot.
End RejectReason.

Record FunctionInventoryEntry := {
  function_id : string; library_uri : string; enclosing : string; member_name : string;
  signature_hash : string; body_hash : string; source_location : option string;
  bytecode_source : option Value.t; unsupported_reasons : list RejectReason.t;
}.
Record ClassInventoryEntry := { class_id : string; shape_hash : string }.
Record FieldInventoryEntry := { field_id : string; fd_signature_hash : string }.
Record KernelInventory := {
  ki_schema_version : N; functions : list FunctionInventoryEntry;
  classes : list ClassInventoryEntry; top_level_fields : list FieldInventoryEntry;
}.
Record FunctionDecision := { fd_function_id : string; fd_source_location : option string }.
Record RejectDecision := {
  rd_function_id : string; rd_source_location : option string;
  reject_reason : RejectReason.t; rd_message : string;
}.
Record LinkerPlan := {
  unchanged : list FunctionDecision; interpret : list FunctionDecision;
  reject : list RejectDecision;
}.

Definition has_rejects (plan : LinkerPlan) : bool := negb (bool_decide (reject plan = [])).
Definition changed_function_count (plan : LinkerPlan) : N := len (interpret plan).

(** [plan.unchanged.push], [plan.interpret.push], [plan.reject.push]. *)
Definition push_unchanged (plan : LinkerPlan) (d : FunctionDecision) : LinkerPlan :=
  Build_LinkerPlan (unchanged plan ++ [d]) (interpret plan) (reject plan).
Definition push_interpret (plan : LinkerPlan) (d : FunctionDecision) : LinkerPlan :=
  Build_LinkerPlan (unchanged plan) (interpret plan ++ [d]) (reject plan).
Definition push_reject (plan : LinkerPlan) (d : RejectDecision) : LinkerPlan :=
  Build_LinkerPlan (unchanged plan) (interpret plan) (reject plan ++ [d]).

(** ** Validation *)
Fixpoint validate_functions (seen : gset string) (l : list FunctionInventoryEntry) : result unit :=
  match l with
  | [] => Ok tt
  | function :: l =>
    if is_blank (function_id function) then err "kernel inventory function_id must not be empty"
    else if bool_decide (function_id function ∈ seen)
    then err ("duplicate kernel inventory function " +:+ function_id function)
    else validate_functions ({[function_id function]} ∪ seen) l
  end.
Definition validate_inventory (self : KernelInventory) : result unit :=
  if negb (ki_schema_version self =? KERNEL_INVENTORY_SCHEMA_VERSION)
  then err ("unsupported kernel_inventory schema_version " +:+ dec (ki_schema_version self)
            +:+ ", expected " +:+ dec KERNEL_INVENTORY_SCHEMA_VERSION)
  else validate_functions ∅ (functions self).

(** The loop of [function_map], [class_map] and [field_map]. *)
Fixpoint build_map {A} (key : A → string) (what : string) (l : list A) (map : gmap string A) :
    result (gmap string A) :=
  match l with
  | [] => Ok map
  | a :: l =>
    match map !! key a with
    | Some _ => err ("duplicate kernel inventory " +:+ what +:+ " " +:+ key a)
    | None => build_map key what l (<[key a := a]> map)
    end
  end.
Definition function_map (self : KernelInventory) : result (gmap string FunctionInventoryEntry) :=
  build_map function_id "function" (functions self) ∅.
Definition class_map (self : KernelInventory) : result (gmap string ClassInventoryEntry) :=
  build_map class_id "class" (classes self) ∅.
Definition field_map (self : KernelInventory) : result (gmap string FieldInventoryEntry) :=
  build_map field_id "field" (top_level_fields self) ∅.

(** ** Planning *)
Definition check_class (release_classes : gmap string ClassInventoryEntry)
    (plan : LinkerPlan) (entry : string * ClassInventoryEntry) : LinkerPlan :=
  match release_classes !! entry.1 with
  | Some release_class =>
    if negb (String.eqb (shape_hash release_class) (shape_hash entry.2))
    then push_reject plan {|
      rd_function_id := entry.1; rd_source_location := None;
      reject_reason := RejectReason.ClassShapeChanged; rd_message := "class shape changed" |}
    else plan
  | None => plan
  end.
Definition check_field (release_fields : gmap string FieldInventoryEntry)
    (plan : LinkerPlan) (entry : string * FieldInventoryEntry) : LinkerPlan :=
  match release_fields !! entry.1 with
  | Some release_field =>
    if negb (String.eqb (fd_signature_hash release_field) (fd_signature_hash entry.2))
    then push_reject plan {|
      rd_function_id := entry.1; rd_source_location := None;
      reject_reason := RejectReason.FieldSignatureChanged;
      rd_message := "top-level field signature changed" |}
    else plan
  | None => plan
  end.
Definition decision (function : FunctionInventoryEntry) : FunctionDecision :=
  {| fd_function_id := function_id function; fd_source_location := source_location function |}.
Definition reject_with (function : FunctionInventoryEntry) (reason : RejectReason.t)
    (message : string) : RejectDecision :=
  {| rd_function_id := function_id function; rd_source_location := source_location function;
     reject_reason := reason; rd_message := message |}.
Definition plan_function (release_functions : gmap string FunctionInventoryEntry)
    (plan : LinkerPlan) (function : FunctionInventoryEntry) : LinkerPlan :=
  match release_functions !! function_id function with
  | None => push_reject plan (reject_with function RejectReason.MissingBaselineFunction
      "function is not present in the release baseline")
  | Some release_function =>
    if negb (String.eqb (signature_hash release_function) (signature_hash function)) then
      push_reject plan (reject_with function RejectReason.SignatureChanged
        "function signature changed")
    else if String.eqb (body_hash release_function) (body_hash function) then
      push_unchanged plan (decision function)
    else
      match unsupported_reasons function with
      | reason :: _ => push_reject plan (reject_with function reason
          "changed function contains unsupported Kernel nodes")
      | [] =>
        match bytecode_source function with
        | None => push_reject plan (reject_with function RejectReason.MissingBytecodeSource
            "changed function has no bytecode source")
        | Some _ => push_interpret plan (decision function)
        end
      end
  end.

Definition plan_bytecode_link (release patch : KernelInventory) : result LinkerPlan :=
  _ ← validate_inventory release;
  _ ← validate_inventory patch;
  release_functions ← function_map release;
  release_classes ← class_map release;
  patch_classes ← class_map patch;
  release_fields ← field_map release;
  patch_fields ← field_map patch;
  let plan := Build_LinkerPlan [] [] [] in
  let plan := foldl (check_class release_classes) plan (btree_entries patch_classes) in
  let plan := foldl (check_field release_fields) plan (btree_entries patch_fields) in
  let plan := foldl (plan_function release_functions) plan (functions patch) in
  Ok plan.

(** ** Specification *)
(** What both inventories must satisfy for planning to start. *)
Definition well_formed (i : KernelInventory) : Prop :=
  ki_schema_version i = KERNEL_INVENTORY_SCHEMA_VERSION
  ∧ Forall (λ f, is_blank (function_id f) = false) (functions i)
  ∧ NoDup (function_id <$> functions i)
  ∧ NoDup (class_id <$> classes i) ∧ NoDup (field_id <$> top_level_fields i).

(** [f] of the patch has a function [r] of the release with its identity and
    signature; its body is the same, or is another one. *)
Definition same_body (f r : FunctionInventoryEntry) : Prop :=
  function_id r = function_id f ∧ signature_hash r = signature_hash f ∧ body_hash r = body_hash f.
Definition other_body (f r : FunctionInventoryEntry) : Prop :=
  function_id r = function_id f ∧ signature_hash r = signature_hash f ∧ body_hash r ≠ body_hash f.
Definition keeps (release : KernelInventory) (f : FunctionInventoryEntry) : Prop :=
  Exists (same_body f) (functions release).
Definition interprets (release : KernelInventory) (f : FunctionInventoryEntry) : Prop :=
  Exists (other_body f) (functions release)
  ∧ unsupported_reasons f = [] ∧ is_Some (bytecode_source f).
#[global] Instance reject_reason_eq_dec : EqDecision RejectReason.t.
Proof. solve_decision. Defined.
#[global] Instance keeps_dec release f : Decision (keeps release f).
Proof. unfold keeps, same_body. apply _. Defined.
#[global] Instance interprets_dec release f : Decision (interprets release f).
Proof. unfold interprets, other_body. apply _. Defined.

(** The reasons to reject. *)
Inductive rejected (release patch : KernelInventory) : RejectDecision → Prop :=
| rejected_class r p :
    r ∈ classes release → p ∈ classes patch → class_id r = class_id p → shape_hash r ≠ shape_hash p →
    rejected release patch
      (Build_RejectDecision (class_id p) None RejectReason.ClassShapeChanged "class shape changed")
| rejected_field r p :
    r ∈ top_level_fields release → p ∈ top_level_fields patch → field_id r = field_id p →
    fd_signature_hash r ≠ fd_signature_hash p →
    rejected release patch
      (Build_RejectDecision (field_id p) None RejectReason.FieldSignatureChanged
         "top-level field signature changed")
| rejected_missing f :
    f ∈ functions patch → function_id f ∉ (function_id <$> functions release) →
    rejected release patch (reject_with f RejectReason.MissingBaselineFunction
      "function is not present in the release baseline")
| rejected_signature r f :
    r ∈ functions release → f ∈ functions patch → function_id r = function_id f →
    signature_hash r ≠ signature_hash f →
    rejected release patch (reject_with f RejectReason.SignatureChanged "function signature changed")
| rejected_unsupported r f reason reasons :
    r ∈ functions release → f ∈ functions patch → other_body f r →
    unsupported_reasons f = reason :: reasons →
    rejected release patch (reject_with f reason "changed function contains unsupported Kernel nodes")
| rejected_source r f :
    r ∈ functions release → f ∈ functions patch → other_body f r →
    unsupported_reasons f = [] → bytecode_source f = None →
    rejected release patch (reject_with f RejectReason.MissingBytecodeSource
      "changed function has no bytecode source").

(** ** Facts *)
Lemma validate_functions_ok seen l :
  validate_functions seen l = Ok tt ↔
    Forall (λ f, is_blank (function_id f) = false) l ∧ NoDup (function_id <$> l)
    ∧ ∀ f, f ∈ l → function_id f ∉ seen.
Proof.
  revert seen. induction l as [|f l IH]; intros seen; simpl.
  { split; [|done]. intros _. split_and!; [constructor..|set_solver]. }
  rewrite list.Forall_cons, NoDup_cons. destruct (is_blank (function_id f)).
  { split; [done|]. by intros [[? _] _]. }
  case_bool_decide as Hs.
  { split; [done|]. intros (_ & _ & Hn). by destruct (Hn f (list_elem_of_here _ _)). }
  rewrite IH. setoid_rewrite list_elem_of_fmap. setoid_rewrite list.elem_of_cons.
  setoid_rewrite elem_of_union. setoid_rewrite elem_of_singleton. naive_solver.
Qed.
Lemma validate_functions_no_panic seen l : no_panic (validate_functions seen l).
Proof. revert seen. induction l as [|f l IH]; intros seen; simpl; [done|]. by repeat case_match. Qed.

Section BuildMap.
Context {A : Type} (key : A → string) (what : string).

Lemma build_map_no_panic l m : no_panic (build_map key what l m).
Proof. revert m. induction l as [|a l IH]; intros m; simpl; [done|]. by destruct (m !! key a). Qed.
Lemma build_map_ok l m m' :
  build_map key what l m = Ok m' ↔
    NoDup (key <$> l) ∧ (∀ a, a ∈ l → m !! key a = None)
    ∧ m' = list_to_map ((λ a, (key a, a)) <$> rev l) ∪ m.
Proof.
  revert m. induction l as [|a l IH]; intros m; simpl.
  { split.
    - intros [= ->]. split_and!; [constructor|set_solver|by rewrite (left_id_L ∅ _)].
    - intros (_ & _ & ->). by rewrite (left_id_L ∅ _). }
  rewrite NoDup_cons. destruct (m !! key a) as [b|] eqn:Hm.
  { split; [done|]. intros (_ & Hn & _). rewrite Hn in Hm by left. done. }
  rewrite IH. assert (list_to_map ((λ a, (key a, a)) <$> rev l ++ [a]) ∪ m
    = list_to_map ((λ a, (key a, a)) <$> rev l) ∪ <[key a := a]> m) as ->.
  { rewrite fmap_app, list_to_map_app. simpl. rewrite insert_empty, <- (assoc_L (∪)).
    by rewrite <- insert_union_singleton_l. }
  setoid_rewrite lookup_insert_None. setoid_rewrite list.elem_of_cons.
  setoid_rewrite list_elem_of_fmap. naive_solver.
Qed.
Lemma build_map_lookup l m k a :
  build_map key what l ∅ = Ok m → m !! k = Some a ↔ a ∈ l ∧ key a = k.
Proof.
  intros (Hnd & _ & ->)%build_map_ok. rewrite (right_id_L ∅ _).
  rewrite <- elem_of_list_to_map.
  - rewrite list_elem_of_fmap. setoid_rewrite list_elem_of_In. setoid_rewrite <- List.in_rev.
    setoid_rewrite <- list_elem_of_In. naive_solver.
  - rewrite <- list_fmap_compose. change (NoDup (key <$> rev l)).
    assert (rev l ≡ₚ l) as -> by (symmetry; apply Permutation_rev). done.
Qed.
Lemma build_map_is_ok l : NoDup (key <$> l) → ∃ m, build_map key what l ∅ = Ok m.
Proof. intros Hnd. eexists. apply build_map_ok. split_and!; [done| |reflexivity]. intros. apply lookup_empty. Qed.
End BuildMap.

(** The loops only append to the lists of the plan. *)
Definition class_reject (release_classes : gmap string ClassInventoryEntry)
    (entry : string * ClassInventoryEntry) : list RejectDecision :=
  reject (check_class release_classes (Build_LinkerPlan [] [] []) entry).
Definition field_reject (release_fields : gmap string FieldInventoryEntry)
    (entry : string * FieldInventoryEntry) : list RejectDecision :=
  reject (check_field release_fields (Build_LinkerPlan [] [] []) entry).
Definition one_function (fs : gmap string FunctionInventoryEntry) (f : FunctionInventoryEntry) :
    LinkerPlan := plan_function fs (Build_LinkerPlan [] [] []) f.
Definition plan_app (p q : LinkerPlan) : LinkerPlan :=
  Build_LinkerPlan (unchanged p ++ unchanged q) (interpret p ++ interpret q) (reject p ++ reject q).

Lemma fold_classes m l p :
  foldl (check_class m) p l
  = Build_LinkerPlan (unchanged p) (interpret p) (reject p ++ (l ≫= class_reject m)).
Proof.
  revert p. induction l as [|e l IH]; intros p; simpl; [rewrite app_nil_r; by destruct p|].
  rewrite IH, app_assoc. unfold class_reject at 2, check_class.
  repeat case_match; simpl; by rewrite ?app_nil_r.
Qed.
Lemma fold_fields m l p :
  foldl (check_field m) p l
  = Build_LinkerPlan (unchanged p) (interpret p) (reject p ++ (l ≫= field_reject m)).
Proof.
  revert p. induction l as [|e l IH]; intros p; simpl; [rewrite app_nil_r; by destruct p|].
  rewrite IH, app_assoc. unfold field_reject at 2, check_field.
  repeat case_match; simpl; by rewrite ?app_nil_r.
Qed.
Lemma plan_function_app m p f : plan_function m p f = plan_app p (one_function m f).
Proof.
  unfold one_function, plan_function, plan_app. destruct p.
  repeat case_match; simpl; by rewrite ?app_nil_r.
Qed.
Lemma fold_functions m l p :
  foldl (plan_function m) p l
  = plan_app p (Build_LinkerPlan (l ≫= unchanged ∘ one_function m) (l ≫= interpret ∘ one_function m)
      (l ≫= reject ∘ one_function m)).
Proof.
  revert p. induction l as [|f l IH]; intros p; simpl.
  { unfold plan_app. destruct p; simpl. by rewrite !app_nil_r. }
  rewrite IH, plan_function_app. unfold plan_app. simpl. by rewrite !app_assoc.
Qed.

(** What a release map that [build_map] returned says of one function. *)
Section OneFunction.
Context (release : KernelInventory) (fs : gmap string FunctionInventoryEntry).
Context (Hfs : function_map release = Ok fs).

Lemma release_lookup k r : fs !! k = Some r ↔ r ∈ functions release ∧ function_id r = k.
Proof. by apply (build_map_lookup function_id "function"). Qed.
Lemma release_unique r r' :
  r ∈ functions release → r' ∈ functions release → function_id r = function_id r' → r = r'.
Proof.
  intros Hr Hr' E. assert (fs !! function_id r = Some r) as H1 by by apply release_lookup.
  assert (fs !! function_id r = Some r') as H2 by by apply release_lookup. congruence.
Qed.
Lemma release_missing f :
  fs !! function_id f = None ↔ function_id f ∉ (function_id <$> functions release).
Proof.
  rewrite list_elem_of_fmap. split.
  - intros Hn (r & Hid & Hr). assert (fs !! function_id f = Some r) by (by apply release_lookup). congruence.
  - intros Hn. apply eq_None_not_Some. intros [r [Hr Hid]%release_lookup]. apply Hn. by exists r.
Qed.
(** A property of the function with the identity of [f]. *)
Lemma release_exists (P : FunctionInventoryEntry → Prop) f r :
  fs !! function_id f = Some r →
  (Exists (λ r, function_id r = function_id f ∧ P r) (functions release) ↔ P r).
Proof.
  intros [Hr Hid]%release_lookup. rewrite Exists_exists. split.
  - intros (r' & Hr' & Hid' & HP). by rewrite (release_unique r r') by congruence.
  - intros HP. exists r. by split_and!.
Qed.
Lemma release_exists_none (P : FunctionInventoryEntry → Prop) f :
  fs !! function_id f = None →
  ¬ Exists (λ r, function_id r = function_id f ∧ P r) (functions release).
Proof.
  intros Hn (r & Hr & Hid & _)%Exists_exists. apply release_missing in Hn. apply Hn.
  apply list_elem_of_fmap. by exists r.
Qed.

Lemma one_function_unchanged f :
  unchanged (one_function fs f) = if decide (keeps release f) then [decision f] else [].
Proof.
  unfold one_function, plan_function. destruct (fs !! function_id f) as [r|] eqn:Hf.
  - pose proof (release_exists (λ r, signature_hash r = signature_hash f ∧ body_hash r = body_hash f) f r Hf) as He.
    destruct (String.eqb_spec (signature_hash r) (signature_hash f)); simpl.
    + destruct (String.eqb_spec (body_hash r) (body_hash f)).
      * rewrite decide_True; [done|]. by apply He.
      * rewrite decide_False by (intros [_ ?]%He; done). by repeat case_match.
    + rewrite decide_False; [done|]. by intros [? _]%He.
  - rewrite decide_False; [done|]. by apply release_exists_none.
Qed.
Lemma one_function_interpret f :
  interpret (one_function fs f) = if decide (interprets release f) then [decision f] else [].
Proof.
  unfold one_function, plan_function. destruct (fs !! function_id f) as [r|] eqn:Hf.
  - pose proof (release_exists (λ r, signature_hash r = signature_hash f ∧ body_hash r ≠ body_hash f) f r Hf) as He.
    destruct (String.eqb_spec (signature_hash r) (signature_hash f)); simpl.
    + destruct (String.eqb_spec (body_hash r) (body_hash f)).
      * rewrite decide_False; [done|]. intros [[_ ?]%He _]. done.
      * destruct (unsupported_reasons f) eqn:Hu; [destruct (bytecode_source f) eqn:Hb|]; simpl.
        -- rewrite decide_True; [done|]. split; [by apply He|by rewrite Hb].
        -- rewrite decide_False; [done|]. intros (_ & _ & [? ?]). congruence.
        -- rewrite decide_False; [done|]. intros (_ & ? & _). congruence.
    + rewrite decide_False; [done|]. by intros [[? _]%He _].
  - rewrite decide_False; [done|]. intros [He _]. revert He. by apply release_exists_none.
Qed.
Lemma one_function_reject patch f :
  f ∈ functions patch →
  ∀ d, d ∈ reject (one_function fs f) → rejected release patch d.
Proof.
  intros Hin d. unfold one_function, plan_function. destruct (fs !! function_id f) as [r|] eqn:Hf.
  - apply release_lookup in Hf as [Hr Hid].
    destruct (String.eqb_spec (signature_hash r) (signature_hash f)); simpl.
    + destruct (String.eqb_spec (body_hash r) (body_hash f)); simpl; [set_solver|].
      destruct (unsupported_reasons f) eqn:?; [destruct (bytecode_source f) eqn:?|]; simpl; [set_solver|..];
        intros ->%list_elem_of_singleton; [eapply rejected_source|eapply rejected_unsupported]; done.
    + intros ->%list_elem_of_singleton. by eapply rejected_signature.
  - intros ->%list_elem_of_singleton. apply rejected_missing; [done|]. by apply release_missing.
Qed.
(** A function of the patch is in exactly one list. *)
Lemma one_function_rejects f :
  reject (one_function fs f) = [] ↔ keeps release f ∨ interprets release f.
Proof.
  pose proof (one_function_unchanged f) as Hu. pose proof (one_function_interpret f) as Hi.
  destruct (decide (keeps release f)), (decide (interprets release f));
    revert Hu Hi; unfold one_function, plan_function; repeat case_match; naive_solver.
Qed.
End OneFunction.

Lemma elem_of_class_reject release patch rc pc d :
  class_map release = Ok rc → class_map patch = Ok pc →
  d ∈ (btree_entries pc ≫= class_reject rc) ↔
    ∃ r p, r ∈ classes release ∧ p ∈ classes patch ∧ class_id r = class_id p
      ∧ shape_hash r ≠ shape_hash p
      ∧ d = Build_RejectDecision (class_id p) None RejectReason.ClassShapeChanged "class shape changed".
Proof.
  intros Hr Hp. rewrite list_elem_of_bind. split.
  - intros ([k p] & Hd & [Hin Hk]%elem_of_btree_entries%(build_map_lookup _ _ _ _ _ _ Hp)).
    unfold class_reject, check_class in Hd. simpl in Hd.
    destruct (rc !! k) as [r|] eqn:E; [|by apply not_elem_of_nil in Hd].
    apply (build_map_lookup _ _ _ _ _ _ Hr) in E as [Hrin Hrk].
    destruct (String.eqb_spec (shape_hash r) (shape_hash p)); simpl in Hd; [by apply not_elem_of_nil in Hd|].
    apply list_elem_of_singleton in Hd as ->. exists r, p. split_and!; congruence.
  - intros (r & p & Hrin & Hpin & Hid & Hne & ->). exists (class_id p, p).
    rewrite elem_of_btree_entries, (build_map_lookup _ _ _ _ _ _ Hp). split; [|done].
    unfold class_reject, check_class. simpl.
    rewrite (proj2 (build_map_lookup _ _ _ _ (class_id p) r Hr)) by done.
    destruct (String.eqb_spec (shape_hash r) (shape_hash p)); [done|]. by apply list_elem_of_singleton.
Qed.
Lemma elem_of_field_reject release patch rf pf d :
  field_map release = Ok rf → field_map patch = Ok pf →
  d ∈ (btree_entries pf ≫= field_reject rf) ↔
    ∃ r p, r ∈ top_level_fields release ∧ p ∈ top_level_fields patch ∧ field_id r = field_id p
      ∧ fd_signature_hash r ≠ fd_signature_hash p
      ∧ d = Build_RejectDecision (field_id p) None RejectReason.FieldSignatureChanged
              "top-level field signature changed".
Proof.
  intros Hr Hp. rewrite list_elem_of_bind. split.
  - intros ([k p] & Hd & [Hin Hk]%elem_of_btree_entries%(build_map_lookup _ _ _ _ _ _ Hp)).
    unfold field_reject, check_field in Hd. simpl in Hd.
    destruct (rf !! k) as [r|] eqn:E; [|by apply not_elem_of_nil in Hd].
    apply (build_map_lookup _ _ _ _ _ _ Hr) in E as [Hrin Hrk].
    destruct (String.eqb_spec (fd_signature_hash r) (fd_signature_hash p)); simpl in Hd;
      [by apply not_elem_of_nil in Hd|].
    apply list_elem_of_singleton in Hd as ->. exists r, p. split_and!; congruence.
  - intros (r & p & Hrin & Hpin & Hid & Hne & ->). exists (field_id p, p).
    rewrite elem_of_btree_entries, (build_map_lookup _ _ _ _ _ _ Hp). split; [|done].
    unfold field_reject, check_field. simpl.
    rewrite (proj2 (build_map_lookup _ _ _ _ (field_id p) r Hr)) by done.
    destruct (String.eqb_spec (fd_signature_hash r) (fd_signature_hash p)); [done|].
    by apply list_elem_of_singleton.
Qed.

(** A function that is there with other data: the reject [plan_function] records. *)
Lemma one_function_hit release fs f r :
  function_map release = Ok fs → r ∈ functions release → function_id r = function_id f →
  fs !! function_id f = Some r.
Proof. intros Hfs Hr Hid. by apply (release_lookup release fs Hfs). Qed.

Lemma rejected_complete release patch fs rc pc rf pf d :
  function_map release = Ok fs → class_map release = Ok rc → class_map patch = Ok pc →
  field_map release = Ok rf → field_map patch = Ok pf →
  rejected release patch d ↔
    d ∈ (btree_entries pc ≫= class_reject rc) ++ (btree_entries pf ≫= field_reject rf)
        ++ (functions patch ≫= reject ∘ one_function fs).
Proof.
  intros Hfs Hrc Hpc Hrf Hpf.
  rewrite !elem_of_app, (elem_of_class_reject release patch), (elem_of_field_reject release patch),
    list_elem_of_bind by done.
  split.
  - assert (∀ f reason m, f ∈ functions patch → reject (one_function fs f) = [reject_with f reason m] →
      ∃ x, reject_with f reason m ∈ (reject ∘ one_function fs) x ∧ x ∈ functions patch) as Hin.
    { intros f reason m Hf E. exists f. simpl. rewrite E. split; [by apply list_elem_of_singleton|done]. }
    destruct 1 as [r p ????|r p ????|f Hf Hn|r f Hr Hf Hid Hs|r f reason reasons Hr Hf (Hid & Hs & Hb) Hu
      |r f Hr Hf (Hid & Hs & Hb) Hu Hc]; [left; eauto 10|right; left; eauto 10|..];
      right; right; apply Hin; try done; unfold one_function, plan_function.
    + by rewrite (proj2 (release_missing release fs Hfs f) Hn).
    + rewrite (one_function_hit release fs f r) by done. by rewrite (proj2 (String.eqb_neq _ _) Hs).
    + rewrite (one_function_hit release fs f r) by done.
      by rewrite Hs, String.eqb_refl, (proj2 (String.eqb_neq _ _) Hb), Hu.
    + rewrite (one_function_hit release fs f r) by done.
      by rewrite Hs, String.eqb_refl, (proj2 (String.eqb_neq _ _) Hb), Hu, Hc.
  - intros [(r & p & ? & ? & ? & ? & ->)|[(r & p & ? & ? & ? & ? & ->)|(f & Hd & Hf)]].
    + by eapply rejected_class.
    + by eapply rejected_field.
    + by eapply (one_function_reject release fs Hfs patch f).
Qed.

Lemma bind_filter {A B} (P : A → Prop) `{∀ a, Decision (P a)} (g : A → list B) (h : A → B) l :
  (∀ a, g a = if decide (P a) then [h a] else []) → (l ≫= g) = h <$> filter P l.
Proof.
  intros Hg. induction l as [|a l IH]; [done|].
  rewrite bind_cons, Hg, IH, filter_cons. by destruct (decide (P a)).
Qed.

Lemma plan_inv release patch plan :
  plan_bytecode_link release patch = Ok plan →
  well_formed release ∧ well_formed patch ∧ ∃ fs rc pc rf pf,
    function_map release = Ok fs ∧ class_map release = Ok rc ∧ class_map patch = Ok pc
    ∧ field_map release = Ok rf ∧ field_map patch = Ok pf
    ∧ plan = Build_LinkerPlan (functions patch ≫= unchanged ∘ one_function fs)
        (functions patch ≫= interpret ∘ one_function fs)
        ((btree_entries pc ≫= class_reject rc) ++ (btree_entries pf ≫= field_reject rf)
          ++ (functions patch ≫= reject ∘ one_function fs)).
Proof.
  unfold plan_bytecode_link, validate_inventory. intros Hplan.
  destruct (N.eqb_spec (ki_schema_version release) KERNEL_INVENTORY_SCHEMA_VERSION); [|done].
  cbn [negb] in Hplan.
  apply bind_ok in Hplan as ([] & Hvr & Hplan).
  destruct (N.eqb_spec (ki_schema_version patch) KERNEL_INVENTORY_SCHEMA_VERSION); [|done].
  apply bind_ok in Hplan as ([] & Hvp & Hplan).
  apply bind_ok in Hplan as (fs & Hfs & Hplan). apply bind_ok in Hplan as (rc & Hrc & Hplan).
  apply bind_ok in Hplan as (pc & Hpc & Hplan). apply bind_ok in Hplan as (rf & Hrf & Hplan).
  apply bind_ok in Hplan as (pf & Hpf & [= <-]).
  apply validate_functions_ok in Hvr as (? & ? & _), Hvp as (? & ? & _).
  pose proof (proj1 (build_map_ok _ _ _ _ _) Hrc) as (? & _ & _).
  pose proof (proj1 (build_map_ok _ _ _ _ _) Hpc) as (? & _ & _).
  pose proof (proj1 (build_map_ok _ _ _ _ _) Hrf) as (? & _ & _).
  pose proof (proj1 (build_map_ok _ _ _ _ _) Hpf) as (? & _ & _).
  split; [by split_and!|]. split; [by split_and!|]. do 5 eexists. split_and!; [done..|].
  rewrite fold_functions, fold_fields, fold_classes. unfold plan_app. simpl. by rewrite app_assoc.
Qed.

Lemma plan_no_panic release patch : no_panic (plan_bytecode_link release patch).
Proof.
  unfold plan_bytecode_link. repeat (apply bind_no_panic; [|intros ? _]); [..|done];
    try apply build_map_no_panic; unfold validate_inventory; case_match; try done;
    apply validate_functions_no_panic.
Qed.
Lemma plan_succeeds release patch :
  well_formed release → well_formed patch → ∃ plan, plan_bytecode_link release patch = Ok plan.
Proof.
  intros (Hs & Hb & Hf & Hc & Hd) (Hs' & Hb' & Hf' & Hc' & Hd').
  destruct (build_map_is_ok function_id "function" (functions release) Hf) as [fs Hfs].
  destruct (build_map_is_ok class_id "class" (classes release) Hc) as [rc Hrc].
  destruct (build_map_is_ok class_id "class" (classes patch) Hc') as [pc Hpc].
  destruct (build_map_is_ok field_id "field" (top_level_fields release) Hd) as [rf Hrf].
  destruct (build_map_is_ok field_id "field" (top_level_fields patch) Hd') as [pf Hpf].
  unfold plan_bytecode_link, validate_inventory, function_map, class_map, field_map.
  rewrite Hs, Hs', N.eqb_refl. simpl negb. cbv iota.
  rewrite (proj2 (validate_functions_ok _ _)) by (split_and!; [done..|set_solver]).
  rewrite (proj2 (validate_functions_ok _ _)) by (split_and!; [done..|set_solver]).
  rewrite Hfs, Hrc, Hpc, Hrf, Hpf. cbn [mbind res_bind]. by eexists.
Qed.
Lemma plan_lists release patch plan :
  plan_bytecode_link release patch = Ok plan →
  unchanged plan = decision <$> filter (keeps release) (functions patch)
  ∧ interpret plan = decision <$> filter (interprets release) (functions patch)
  ∧ ∀ d, d ∈ reject plan ↔ rejected release patch d.
Proof.
  intros (_ & _ & fs & rc & pc & rf & pf & Hfs & Hrc & Hpc & Hrf & Hpf & ->)%plan_inv.
  cbn [unchanged interpret reject]. split_and!.
  - apply bind_filter. intros f. by apply one_function_unchanged.
  - apply bind_filter. intros f. by apply one_function_interpret.
  - intros d. by rewrite (rejected_complete release patch fs rc pc rf pf d).
Qed.

(** Classes and fields the two inventories share have not changed. *)
Definition shapes_agree (release patch : KernelInventory) : Prop :=
  (∀ r p, r ∈ classes release → p ∈ classes patch → class_id r = class_id p → shape_hash r = shape_hash p)
  ∧ (∀ r p, r ∈ top_level_fields release → p ∈ top_level_fields patch → field_id r = field_id p →
       fd_signature_hash r = fd_signature_hash p).

Lemma no_rejects release patch fs rc pc rf pf :
  function_map release = Ok fs → class_map release = Ok rc → class_map patch = Ok pc →
  field_map release = Ok rf → field_map patch = Ok pf →
  (btree_entries pc ≫= class_reject rc) ++ (btree_entries pf ≫= field_reject rf)
    ++ (functions patch ≫= reject ∘ one_function fs) = [] ↔
  Forall (λ f, keeps release f ∨ interprets release f) (functions patch) ∧ shapes_agree release patch.
Proof.
  intros Hfs Hrc Hpc Hrf Hpf.
  assert (∀ {A} (l : list A), l = [] ↔ ∀ a, a ∉ l) as Hnil.
  { intros A l. split; [intros ->; set_solver|]. intros Hn. destruct l as [|a l]; [done|]. destruct (Hn a). left. }
  rewrite Hnil. setoid_rewrite elem_of_app. setoid_rewrite elem_of_app.
  setoid_rewrite (elem_of_class_reject release patch rc pc _ Hrc Hpc).
  setoid_rewrite (elem_of_field_reject release patch rf pf _ Hrf Hpf).
  rewrite list.Forall_forall. split.
  - intros Hn. split; [|split].
    + intros f Hf. apply (one_function_rejects release fs Hfs). apply Hnil. intros d Hd.
      apply (Hn d). right. right. apply list_elem_of_bind. by exists f.
    + intros r p Hr Hp Hid. destruct (decide (shape_hash r = shape_hash p)); [done|].
      exfalso. eapply Hn. left. by exists r, p.
    + intros r p Hr Hp Hid. destruct (decide (fd_signature_hash r = fd_signature_hash p)); [done|].
      exfalso. eapply Hn. right. left. by exists r, p.
  - intros (Hall & Hc & Hf) d [(r & p & ? & ? & ? & Hne & _)|[(r & p & ? & ? & ? & Hne & _)|Hd]].
    + apply Hne. by apply Hc.
    + apply Hne. by apply Hf.
    + apply list_elem_of_bind in Hd as (f & Hd & Hin). apply Hall in Hin.
      apply (one_function_rejects release fs Hfs) in Hin. simpl in Hd. rewrite Hin in Hd. set_solver.
Qed.


(** Two lists that split a list between them. *)
Lemma filter_split {A B} (P Q : A → Prop) `{∀ a, Decision (P a), ∀ a, Decision (Q a)} (g : A → B) l :
  (∀ a, P a → ¬ Q a) → Forall (λ a, P a ∨ Q a) l →
  (g <$> filter P l) ++ (g <$> filter Q l) ≡ₚ g <$> l.
Proof.
  intros Hex. induction 1 as [|a l Ha _ IH]; [done|]. rewrite !filter_cons, fmap_cons.
  destruct (decide (P a)) as [HP|HP].
  - rewrite (decide_False (P:=Q a)) by auto. by rewrite fmap_cons, <- IH.
  - rewrite decide_True by tauto. by rewrite fmap_cons, <- Permutation_middle, <- IH.
Qed.
Lemma keeps_not_interprets release f : well_formed release → keeps release f → ¬ interprets release f.
Proof.
  intros (_ & _ & Hnd & _) (r & Hr & Hid & _ & Hb)%Exists_exists [(r' & Hr' & Hid' & _ & Hb')%Exists_exists _].
  destruct (build_map_is_ok function_id "function" (functions release) Hnd) as [fs Hfs].
  apply Hb'. by rewrite (release_unique release fs Hfs r' r) by congruence.
Qed.

Lemma build_map_unique {A} (key : A → string) what l m a b :
  build_map key what l ∅ = Ok m → a ∈ l → b ∈ l → key a = key b → a = b.
Proof.
  intros Hm Ha Hb E. assert (m !! key a = Some a) as H1 by by apply (build_map_lookup key what l).
  assert (m !! key a = Some b) as H2 by by apply (build_map_lookup key what l). congruence.
Qed.
Lemma filter_all {A} (P : A → Prop) `{∀ a, Decision (P a)} l : Forall P l → filter P l = l.
Proof. induction 1; [done|]. rewrite filter_cons, decide_True by done. by f_equal. Qed.
Lemma filter_none {A} (P : A → Prop) `{∀ a, Decision (P a)} l : Forall (λ a, ¬ P a) l → filter P l = [].
Proof. induction 1; [done|]. by rewrite filter_cons, decide_False. Qed.

(** ** Properties *)
(** C25: planning never panics, succeeds exactly when both inventories have the
    supported schema version, non-blank function identities and no duplicate
    functions, classes or fields; and then the plan lists, in the order of the
    patch, exactly the functions whose body is that of the release as
    unchanged and exactly the changed functions with the release's signature, a
    bytecode source and no unsupported node as interpreted, and its rejects are
    exactly those [rejected] derives. *)
Theorem link_plan_spec release patch :
  no_panic (plan_bytecode_link release patch)
  ∧ ((∃ plan, plan_bytecode_link release patch = Ok plan) ↔ well_formed release ∧ well_formed patch)
  ∧ ∀ plan, plan_bytecode_link release patch = Ok plan →
      unchanged plan = decision <$> filter (keeps release) (functions patch)
      ∧ interpret plan = decision <$> filter (interprets release) (functions patch)
      ∧ ∀ d, d ∈ reject plan ↔ rejected release patch d.
Proof.
  split_and!; [apply plan_no_panic| |apply plan_lists].
  split; [by intros [plan (? & ? & _)%plan_inv]|]. intros [??]. by apply plan_succeeds.
Qed.

Lemma plan_accepts release patch plan :
  plan_bytecode_link release patch = Ok plan →
  has_rejects plan = false ↔
    Forall (λ f, keeps release f ∨ interprets release f) (functions patch) ∧ shapes_agree release patch.
Proof.
  intros (_ & _ & fs & rc & pc & rf & pf & Hfs & Hrc & Hpc & Hrf & Hpf & Heq)%plan_inv.
  unfold has_rejects. rewrite negb_false_iff, bool_decide_eq_true, Heq.
  by apply (no_rejects release patch fs rc pc rf pf).
Qed.

(** A plan has no rejects exactly when every function of the patch exists in
    the release with the same signature and either has the same body or comes
    with a bytecode source free of unsupported nodes, and no shared class or
    field changed; then every function of the patch is in exactly one of the
    two lists. *)
Lemma link_without_rejects release patch plan :
  plan_bytecode_link release patch = Ok plan →
  (has_rejects plan = false ↔
     Forall (λ f, keeps release f ∨ interprets release f) (functions patch) ∧ shapes_agree release patch)
  ∧ (has_rejects plan = false →
     unchanged plan ++ interpret plan ≡ₚ decision <$> functions patch
     ∧ changed_function_count plan = len (functions patch) - len (unchanged plan)).
Proof.
  intros Hplan. pose proof (plan_lists _ _ _ Hplan) as (Hu & Hi & _).
  pose proof (plan_accepts _ _ _ Hplan) as Hiff.
  pose proof (plan_inv _ _ _ Hplan) as (Hwf & _).
  split; [done|]. intros [Hall _]%Hiff.
  assert (unchanged plan ++ interpret plan ≡ₚ decision <$> functions patch) as Hp.
  { rewrite Hu, Hi. apply filter_split; [|done]. intros f. by apply keeps_not_interprets. }
  split; [done|]. unfold changed_function_count, len. apply Permutation_length in Hp.
  rewrite length_app, length_fmap in Hp. lia.
Qed.

(** A release linked against itself needs no patch: every function is
    unchanged, none is interpreted or rejected. *)
Lemma link_self release :
  well_formed release →
  plan_bytecode_link release release = Ok (Build_LinkerPlan (decision <$> functions release) [] []).
Proof.
  intros Hwf. destruct (plan_succeeds release release Hwf Hwf) as [plan Hplan]. rewrite Hplan.
  pose proof (plan_lists _ _ _ Hplan) as (Hu & Hi & _).
  pose proof (plan_inv _ _ _ Hplan) as (_ & _ & fs & rc & pc & rf & pf & Hfs & Hrc & Hpc & Hrf & Hpf & Heq).
  assert (Forall (keeps release) (functions release)) as Hk.
  { apply list.Forall_forall. intros f Hf. apply Exists_exists. by exists f. }
  assert (reject plan = []) as Hr.
  { rewrite Heq. apply (no_rejects release release fs rc pc rf pf); [done..|]. split; [|split].
    - eapply Forall_impl; [exact Hk|]. by left.
    - intros r p Hr Hp Hid. by rewrite (build_map_unique class_id "class" (classes release) rc r p).
    - intros r p Hr Hp Hid. by rewrite (build_map_unique field_id "field" (top_level_fields release) rf r p). }
  destruct plan as [u i r]; simpl in *. subst r. f_equal. f_equal.
  - by rewrite Hu, filter_all.
  - rewrite Hi, filter_none; [done|]. eapply Forall_impl; [exact Hk|]. intros f. by apply keeps_not_interprets.
Qed.

(** ** Witnesses *)
Definition demo_function (id body : string) (source : option Value.t) : FunctionInventoryEntry := {|
  function_id := id; library_uri := "package:app/main.dart"; enclosing := ""; member_name := id;
  signature_hash := "s"; body_hash := body; source_location := None;
  bytecode_source := source; unsupported_reasons := []; |}.
Definition demo_release : KernelInventory := {|
  ki_schema_version := 1; functions := [demo_function "f" "1" None; demo_function "g" "1" None];
  classes := [{| class_id := "C"; shape_hash := "h" |}]; top_level_fields := []; |}.
Definition demo_patched : KernelInventory := {|
  ki_schema_version := 1;
  functions := [demo_function "f" "2" (Some Value.Null); demo_function "g" "1" None];
  classes := [{| class_id := "C"; shape_hash := "h" |}]; top_level_fields := []; |}.
Definition demo_plan : LinkerPlan :=
  Build_LinkerPlan [Build_FunctionDecision "g" None] [Build_FunctionDecision "f" None] [].

Lemma demo_release_well_formed : well_formed demo_release.
Proof.
  split_and!; [done|by repeat constructor|..]; apply (bool_decide_unpack _); vm_compute; exact I.
Qed.

Lemma link_without_rejects_witness :
  plan_bytecode_link demo_release demo_patched = Ok demo_plan
  ∧ shapes_agree demo_release demo_patched
  ∧ changed_function_count demo_plan = 1.
Proof.
  assert (plan_bytecode_link demo_release demo_patched = Ok demo_plan) as H by (vm_compute; reflexivity).
  split; [exact H|]. destruct (link_without_rejects _ _ _ H) as [Hiff Hrest].
  assert (has_rejects demo_plan = false) as Hr by reflexivity.
  split; [exact (proj2 (proj1 Hiff Hr))|]. exact (proj2 (Hrest Hr)).
Defined.
Lemma link_self_witness :
  plan_bytecode_link demo_release demo_release
  = Ok (Build_LinkerPlan [Build_FunctionDecision "f" None; Build_FunctionDecision "g" None] [] []).
Proof. exact (link_self demo_release demo_release_well_formed). Defined.
