(* ===== verification/BuildInfo.v ===== *)
(** * Build descriptions

    Models [crates/fcb_core/src/build_info.rs]: the description of a release
    build, its validation and [compare_for_patch], the gate a patch build passes. *)
From S2P Require Import Prelude Text.
Local Open Scope N_scope.

Definition BUILD_INFO_SCHEMA_VERSION : N := 3.

(** ** Data *)
Record BuildInfo := {
  bi_schema_version : N; bi_backend : string; bi_platform : string; bi_arch : string;
  target_platform : string; build_mode : string; flavor : option string;
  flutter_tool_rev : string; engine_fork_rev : string; dart_sdk_rev : string;
  pubspec_lock_hash : string; asset_hash : string; native_hash : string; plugin_hash : string;
  obfuscation : bool; split_debug_info : option string;
  dart_defines : gmap string string; ignored_dart_define_keys : gset string;
}.
Module MismatchSeverity.
Inductive t := HardFail | Warning.
End MismatchSeverity.
Record BuildInfoMismatch := {
  mm_field : string; release_value : string; patch_value : string; severity : MismatchSeverity.t;
}.
Record BuildInfoComparison := {
  hard_failures : list BuildInfoMismatch; warnings : list BuildInfoMismatch;
}.

(** [Option<String>::unwrap_or_default]. *)
Definition or_empty (o : option string) : string := default ""%string o.

Definition comparison_is_ok (self : BuildInfoComparison) : bool :=
  bool_decide (hard_failures self = []).
Definition ensure_ok (self : BuildInfoComparison) : result unit :=
  if comparison_is_ok self then Ok tt
  else err ("release was built with different config: " +:+ join ", " (mm_field <$> hard_failures self)).

(** ** Validation *)
Definition check_present (entry : string * string) : result unit :=
  if is_blank entry.2 then err ("build_info missing " +:+ entry.1) else Ok tt.
Definition required_fields (self : BuildInfo) : list (string * string) := [
  ("backend"%string, bi_backend self); ("platform"%string, bi_platform self);
  ("arch"%string, bi_arch self); ("target_platform"%string, target_platform self);
  ("build_mode"%string, build_mode self); ("flutter_tool_rev"%string, flutter_tool_rev self);
  ("engine_fork_rev"%string, engine_fork_rev self); ("dart_sdk_rev"%string, dart_sdk_rev self)].
Definition validate_build_info (self : BuildInfo) : result unit :=
  if negb (bi_schema_version self =? BUILD_INFO_SCHEMA_VERSION)
  then err ("unsupported build_info schema_version " +:+ dec (bi_schema_version self)
            +:+ ", expected " +:+ dec BUILD_INFO_SCHEMA_VERSION)
  else for_each check_present (required_fields self).

(** ** Comparison *)
Definition compared_fields (self patch : BuildInfo) : list (string * string * string) := [
  ("schema_version"%string, dec (bi_schema_version self), dec (bi_schema_version patch));
  ("backend"%string, bi_backend self, bi_backend patch);
  ("platform"%string, bi_platform self, bi_platform patch);
  ("arch"%string, bi_arch self, bi_arch patch);
  ("target_platform"%string, target_platform self, target_platform patch);
  ("build_mode"%string, build_mode self, build_mode patch);
  ("flavor"%string, or_empty (flavor self), or_empty (flavor patch));
  ("flutter_tool_rev"%string, flutter_tool_rev self, flutter_tool_rev patch);
  ("engine_fork_rev"%string, engine_fork_rev self, engine_fork_rev patch);
  ("dart_sdk_rev"%string, dart_sdk_rev self, dart_sdk_rev patch);
  ("pubspec_lock_hash"%string, pubspec_lock_hash self, pubspec_lock_hash patch);
  ("asset_hash"%string, asset_hash self, asset_hash patch);
  ("native_hash"%string, native_hash self, native_hash patch);
  ("plugin_hash"%string, plugin_hash self, plugin_hash patch);
  ("obfuscation"%string, bool_to_string (obfuscation self), bool_to_string (obfuscation patch));
  ("split_debug_info"%string, or_empty (split_debug_info self), or_empty (split_debug_info patch))].

(** One iteration of each loop: the mismatch it pushes. *)
Definition compare_field (entry : string * string * string) : option BuildInfoMismatch :=
  let '(field, release, patch) := entry in
  if negb (String.eqb release patch)
  then Some (Build_BuildInfoMismatch field release patch MismatchSeverity.HardFail) else None.
Definition compare_define (self patch : BuildInfo) (ignored : gset string) (key : string) :
    option BuildInfoMismatch :=
  if bool_decide (key ∈ ignored) then None
  else
    let release := or_empty (dart_defines self !! key) in
    let patch := or_empty (dart_defines patch !! key) in
    if negb (String.eqb release patch)
    then Some (Build_BuildInfoMismatch ("dart_define." +:+ key) release patch MismatchSeverity.Warning)
    else None.
Definition compare_for_patch (self patch : BuildInfo) : BuildInfoComparison :=
  let ignored := ignored_dart_define_keys self ∪ ignored_dart_define_keys patch in
  let keys := dom (dart_defines self) ∪ dom (dart_defines patch) in
  {| hard_failures := omap compare_field (compared_fields self patch);
     warnings := omap (compare_define self patch ignored) (btree_iter keys) |}.

(** ** Specification *)
(** The builds agree on everything a patch cannot change; an absent flavor or
    split_debug_info counts as an empty one. *)
Definition same_build (r p : BuildInfo) : Prop :=
  bi_schema_version r = bi_schema_version p ∧ bi_backend r = bi_backend p
  ∧ bi_platform r = bi_platform p ∧ bi_arch r = bi_arch p ∧ target_platform r = target_platform p
  ∧ build_mode r = build_mode p ∧ or_empty (flavor r) = or_empty (flavor p)
  ∧ flutter_tool_rev r = flutter_tool_rev p ∧ engine_fork_rev r = engine_fork_rev p
  ∧ dart_sdk_rev r = dart_sdk_rev p ∧ pubspec_lock_hash r = pubspec_lock_hash p
  ∧ asset_hash r = asset_hash p ∧ native_hash r = native_hash p ∧ plugin_hash r = plugin_hash p
  ∧ obfuscation r = obfuscation p ∧ or_empty (split_debug_info r) = or_empty (split_debug_info p).

Lemma bool_to_string_inj a b : bool_to_string a = bool_to_string b ↔ a = b.
Proof. split; [|by intros ->]. by destruct a, b. Qed.
Lemma dec_inj m n : dec m = dec n ↔ m = n.
Proof. split; [|by intros ->]. apply pretty_N_inj. Qed.

Lemma omap_nil {A B} (f : A → option B) l : omap f l = [] ↔ Forall (λ a, f a = None) l.
Proof.
  induction l as [|a l IH]; simpl; [by split; [constructor|]|]. rewrite list.Forall_cons, <- IH.
  by destruct (f a); naive_solver.
Qed.
Lemma compare_field_none field r p : compare_field (field, r, p) = None ↔ r = p.
Proof. unfold compare_field. by destruct (String.eqb_spec r p). Qed.

Lemma no_hard_failures self patch :
  omap compare_field (compared_fields self patch) = [] ↔ same_build self patch.
Proof.
  rewrite omap_nil. unfold compared_fields. rewrite !list.Forall_cons, list.Forall_nil.
  rewrite !compare_field_none, dec_inj, bool_to_string_inj. unfold same_build. tauto.
Qed.

Lemma omap_map_sorted {A} (f : string → option A) (key : A → string) (l : list string) :
  (∀ k a, f k = Some a → key a = k) →
  StronglySorted str_le l → NoDup l →
  StronglySorted str_le (key <$> omap f l) ∧ NoDup (key <$> omap f l).
Proof.
  intros Hf Hs Hn. assert (∀ k, k ∈ (key <$> omap f l) → k ∈ l) as Hin.
  { intros k (a & -> & Ha)%list_elem_of_fmap. apply list_elem_of_omap in Ha as (k & Hk & Hfk).
    by rewrite (Hf _ _ Hfk). }
  induction Hs as [|k l Hs IH Hall]; [by repeat constructor|].
  apply NoDup_cons in Hn as [Hnk Hn].
  assert (∀ k, k ∈ (key <$> omap f l) → k ∈ l) as Hin'.
  { intros k' (a & -> & Ha)%list_elem_of_fmap. apply list_elem_of_omap in Ha as (k1 & Hk & Hfk).
    by rewrite (Hf _ _ Hfk). }
  destruct (IH Hn Hin') as [H1 H2]. simpl. destruct (f k) as [a|] eqn:E; [|done].
  rewrite fmap_cons, (Hf _ _ E). split.
  - constructor; [done|]. apply list.Forall_forall. intros k' Hk'. rewrite list.Forall_forall in Hall. auto.
  - apply NoDup_cons. split; [|done]. auto.
Qed.

(** The name of a dart define in a warning. *)
Definition warning_key (m : BuildInfoMismatch) : string := sdrop 12 (mm_field m).
Lemma elem_of_warnings self patch m :
  m ∈ warnings (compare_for_patch self patch) ↔
    ∃ key, key ∉ ignored_dart_define_keys self ∪ ignored_dart_define_keys patch
      ∧ m = Build_BuildInfoMismatch ("dart_define." +:+ key) (or_empty (dart_defines self !! key))
              (or_empty (dart_defines patch !! key)) MismatchSeverity.Warning
      ∧ or_empty (dart_defines self !! key) ≠ or_empty (dart_defines patch !! key).
Proof.
  simpl. rewrite list_elem_of_omap. setoid_rewrite elem_of_btree_iter. unfold compare_define. split.
  - intros (key & Hk & Hm). exists key. case_bool_decide; [done|]. split; [done|].
    destruct (String.eqb_spec (or_empty (dart_defines self !! key)) (or_empty (dart_defines patch !! key)));
      naive_solver.
  - intros (key & Hn & -> & Hne). exists key. split.
    + rewrite elem_of_union, !elem_of_dom.
      destruct (dart_defines self !! key); [by left; eexists|].
      destruct (dart_defines patch !! key); [by right; eexists|done].
    + rewrite bool_decide_false by done.
      by destruct (String.eqb_spec (or_empty (dart_defines self !! key)) (or_empty (dart_defines patch !! key))).
Qed.
Lemma define_key self patch ignored key m :
  compare_define self patch ignored key = Some m → warning_key m = key.
Proof. unfold compare_define. repeat case_match; intros; simplify_eq/=. done. Qed.

(** ** Properties *)
(** A build description is valid exactly when it has schema version 3 and
    none of the eight required texts is blank; validation never panics. *)
Lemma build_info_validates info :
  no_panic (validate_build_info info)
  ∧ (validate_build_info info = Ok tt ↔
       bi_schema_version info = 3
       ∧ Forall (λ v, is_blank v = false)
           [bi_backend info; bi_platform info; bi_arch info; target_platform info; build_mode info;
            flutter_tool_rev info; engine_fork_rev info; dart_sdk_rev info]).
Proof.
  unfold validate_build_info. split.
  - case_match; [done|]. apply for_each_no_panic. apply list.Forall_forall. intros [f v] _.
    unfold check_present. by case_match.
  - change BUILD_INFO_SCHEMA_VERSION with 3. destruct (N.eqb_spec (bi_schema_version info) 3); simpl negb;
      cbv iota; [|naive_solver].
    rewrite for_each_ok. unfold required_fields. rewrite !list.Forall_cons, !list.Forall_nil.
    unfold check_present. cbn [fst snd].
    assert (∀ f v, (if is_blank v then err ("build_info missing " +:+ f) else Ok tt) = Ok tt ↔ is_blank v = false)
      as Hb by (intros f v; by destruct (is_blank v)).
    rewrite !Hb. tauto.
Qed.

(** C36: a patch build passes the gate exactly when it agrees with the release on
    everything but dart defines, in either direction; each hard failure names a
    field with the two different values; and the warnings are exactly the dart
    defines neither side ignores whose values differ (an absent one counts as
    empty), one per key in the order of the keys. *)
Theorem build_gate release patch :
  let c := compare_for_patch release patch in
  (ensure_ok c = Ok tt ↔ same_build release patch)
  ∧ comparison_is_ok c = comparison_is_ok (compare_for_patch patch release)
  ∧ Forall (λ m, release_value m ≠ patch_value m
                ∧ (mm_field m, release_value m, patch_value m) ∈ compared_fields release patch)
      (hard_failures c)
  ∧ (∀ m, m ∈ warnings c ↔
       ∃ key, key ∉ ignored_dart_define_keys release ∪ ignored_dart_define_keys patch
         ∧ m = Build_BuildInfoMismatch ("dart_define." +:+ key) (or_empty (dart_defines release !! key))
                 (or_empty (dart_defines patch !! key)) MismatchSeverity.Warning
         ∧ or_empty (dart_defines release !! key) ≠ or_empty (dart_defines patch !! key))
  ∧ StronglySorted str_le (warning_key <$> warnings c) ∧ NoDup (warning_key <$> warnings c).
Proof.
  cbv zeta. split; [|split; [|split; [|split]]].
  - unfold ensure_ok, comparison_is_ok. case_bool_decide as Hd;
      cbn [hard_failures compare_for_patch] in Hd; rewrite no_hard_failures in Hd; by split.
  - unfold comparison_is_ok. apply bool_decide_ext. cbn [hard_failures compare_for_patch]. rewrite !no_hard_failures.
    unfold same_build. split; intros H; repeat (let H1 := fresh in destruct H as [H1 H]; split; [by symmetry|]); by symmetry.
  - apply list.Forall_forall. intros m ([[f r] p] & Hin & Hm)%list_elem_of_omap.
    unfold compare_field in Hm. destruct (String.eqb_spec r p); simplify_eq/=. done.
  - apply elem_of_warnings.
  - apply omap_map_sorted; [apply define_key|apply btree_iter_sorted|apply btree_iter_NoDup].
Qed.
