(* ===== verification/Config.v ===== *)
(** * Configuration files

    Models [crates/fcb_core/src/config.rs]: the local [fcb.yaml] context with
    its validation and file access, and the app configuration of the server.
    [serde_yaml] is an interface. *)
From S2P Require Import Prelude Text External Manifest World.
Local Open Scope N_scope.

(** ** Data *)
Record LocalPlatformBuildConfig := {
  abis : list string; sdk : option string; local_engine : option string;
  local_engine_host : option string; local_engine_src_path : option string;
}.
Record LocalBuildConfig := {
  lb_project : option string; lb_flutter : option string; lb_target : option string;
  lb_build_mode : option string; lb_flavor : option string;
  lb_dart_defines : gmap string string; lb_ignored_dart_define_keys : gset string;
  lb_platforms : gmap string LocalPlatformBuildConfig;
}.
Record LocalAppContext := {
  app : string; server : string; key_file : string; build : LocalBuildConfig;
}.
Record RemotePlatformEntry := {
  re_platform : string; enabled : bool; re_backend : string; abi : list string;
}.
Record RemoteAppConfig := {
  ra_id : string; ra_org_id : option string; ra_name : string; ra_channel : string;
  ra_public_key : string; platforms : list RemotePlatformEntry;
}.

(** ** Validation *)
(** [matches!(s, "a" | "b" | ...)]. *)
Definition one_of (alternatives : list string) (s : string) : bool :=
  existsb (String.eqb s) alternatives.

Definition validate_platform (entry : string * LocalPlatformBuildConfig) : result unit :=
  if String.eqb entry.1 "ios" then
    match sdk entry.2 with
    | Some sdk =>
      if negb (one_of ["iphoneos"; "iphonesimulator"] sdk)
      then err ("unsupported build platform ios sdk " +:+ sdk) else Ok tt
    | None => Ok tt
    end
  else Ok tt.
Definition validate_local_build (self : LocalBuildConfig) : result unit :=
  _ ← match lb_build_mode self with
      | Some build_mode =>
        if negb (one_of ["debug"; "profile"; "release"] build_mode)
        then err ("unsupported build.build_mode " +:+ build_mode) else Ok tt
      | None => Ok tt
      end;
  for_each validate_platform (btree_entries (lb_platforms self)).
Definition validate_context (self : LocalAppContext) : result unit :=
  if is_blank (app self) then err "fcb.yaml missing app"
  else if is_blank (server self) then err "fcb.yaml missing server"
  else if is_blank (key_file self) then err "fcb.yaml missing key_file"
  else _ ← validate_local_build (build self); Ok tt.

(** ** Files *)
(** [serde_yaml::to_string] and [serde_yaml::from_str] at one type. *)
Class SerdeYaml (A : Type) := {
  yaml_to_string : A → res string string;
  yaml_from_str : string → res string A;
}.
#[global] Hint Mode SerdeYaml ! : typeclass_instances.
Class SerdeYamlLaws (A : Type) `{SerdeYaml A} : Prop := {
  yaml_roundtrip (a : A) s : yaml_to_string a = Ok s → yaml_from_str s = Ok a;
  yaml_utf8 (a : A) s : yaml_to_string a = Ok s → utf8_valid (str_bytes s) = true;
}.

Section Files.
Context `{SerdeYaml LocalAppContext}.

Definition read_yaml (p : path) : IO LocalAppContext :=
  source ← fs_read_to_string p;
  context ← io_lift (map_err Yaml (yaml_from_str source));
  _ ← io_lift (validate_context context);
  mret context.
Definition write_yaml (self : LocalAppContext) (p : path) : IO unit :=
  _ ← match parent p with Some d => fs_create_dir_all d | None => mret tt end;
  text ← io_lift (map_err Yaml (yaml_to_string self));
  fs_write p (str_bytes text).
End Files.

(** ** The server's app configuration *)
Definition remote_platform (self : RemoteAppConfig) (name : string) : option RemotePlatformEntry :=
  List.find (λ entry, String.eqb (re_platform entry) name) (platforms self).
Definition enabled_platforms (self : RemoteAppConfig) : list RemotePlatformEntry :=
  List.filter enabled (platforms self).

(** ** Specification *)
Definition valid_platform (name : string) (c : LocalPlatformBuildConfig) : Prop :=
  name = "ios"%string → ∀ s, sdk c = Some s → s = "iphoneos"%string ∨ s = "iphonesimulator"%string.
Definition valid_context (c : LocalAppContext) : Prop :=
  is_blank (app c) = false ∧ is_blank (server c) = false ∧ is_blank (key_file c) = false
  ∧ (∀ m, lb_build_mode (build c) = Some m → m ∈ ["debug"; "profile"; "release"]%string)
  ∧ map_Forall valid_platform (lb_platforms (build c)).

Lemma one_of_spec l s : one_of l s = true ↔ s ∈ l.
Proof.
  unfold one_of. rewrite existsb_exists. setoid_rewrite <- list_elem_of_In.
  setoid_rewrite String.eqb_eq. naive_solver.
Qed.
Lemma validate_platform_ok name c : validate_platform (name, c) = Ok tt ↔ valid_platform name c.
Proof.
  unfold validate_platform, valid_platform. cbn [fst snd].
  destruct (String.eqb_spec name "ios"); [|by split; [intros _ ?|]].
  destruct (sdk c) as [s|]; [|by split; [intros _ _ ?|]].
  destruct (one_of _ s) eqn:E; cbn [negb].
  - apply one_of_spec in E. split; [|done]. intros _ _ ? [= <-]. set_solver.
  - split; [done|]. intros Hs. assert (s ∈ ["iphoneos"; "iphonesimulator"]%string) as Hin.
    { destruct (Hs e s eq_refl) as [-> | ->]; set_solver. }
    apply one_of_spec in Hin. congruence.
Qed.
Lemma validate_build_ok b :
  validate_local_build b = Ok tt ↔
    (∀ m, lb_build_mode b = Some m → m ∈ ["debug"; "profile"; "release"]%string)
    ∧ map_Forall valid_platform (lb_platforms b).
Proof.
  unfold validate_local_build. rewrite bind_ok.
  assert (for_each validate_platform (btree_entries (lb_platforms b)) = Ok tt
          ↔ map_Forall valid_platform (lb_platforms b)) as Hp.
  { rewrite for_each_ok, list.Forall_forall. split.
    - intros Hall k c Hk%elem_of_btree_entries. by apply validate_platform_ok, Hall.
    - intros Hall [k c] Hk%elem_of_btree_entries. by apply validate_platform_ok, Hall. }
  rewrite <- Hp. destruct (lb_build_mode b) as [m|].
  - destruct (one_of _ m) eqn:E; cbn [negb].
    + apply one_of_spec in E. split; [intros (_ & _ & ?)|intros [_ ?]; by exists tt].
      split; [|done]. by intros ? [= <-].
    + split; [by intros (? & ? & _)|]. intros [Hm _]. specialize (Hm m eq_refl).
      apply one_of_spec in Hm. congruence.
  - split; [intros (_ & _ & ?); split; [intros ? ?; discriminate|done]|intros [_ ?]; by exists tt].
Qed.
Lemma validate_context_ok c : validate_context c = Ok tt ↔ valid_context c.
Proof.
  unfold validate_context, valid_context.
  destruct (is_blank (app c)); [by split; [|intros [? _]]|].
  destruct (is_blank (server c)); [by split; [|intros (_ & ? & _)]|].
  destruct (is_blank (key_file c)); [by split; [|intros (_ & _ & ? & _)]|].
  rewrite bind_ok, <- validate_build_ok.
  destruct (validate_local_build (build c)) as [[]|?|?]; [|naive_solver..].
  split; [done|]. by exists tt.
Qed.

(** ** Properties *)
(** A context is accepted exactly when app, server and key_file are not
    blank, a build mode is debug, profile or release and an iOS SDK is
    iphoneos or iphonesimulator; validation never panics. *)
Lemma context_validates c :
  no_panic (validate_context c) ∧ (validate_context c = Ok tt ↔ valid_context c).
Proof.
  split; [|apply validate_context_ok]. unfold validate_context.
  repeat case_match; try done. apply bind_no_panic; [|done]. unfold validate_local_build.
  apply bind_no_panic; [by repeat case_match|]. intros _ _. apply for_each_no_panic.
  apply list.Forall_forall. intros [k p] _. unfold validate_platform. by repeat case_match.
Qed.

(** A context written to a file is the one read back, provided it is valid;
    an invalid one is written but refused when read. *)
Lemma context_roundtrip `{SerdeYamlLaws LocalAppContext} c p w w1 r w2 :
  write_yaml c p w = (Ok tt, w1) → read_yaml p w1 = (r, w2) → w_faults w1 = [] →
  (r = Ok c ↔ valid_context c) ∧ (r = (_ ← validate_context c; Ok c)).
Proof.
  intros Hw Hr Hf. unfold write_yaml in Hw. apply io_bind_ok in Hw as ([] & wa & _ & Hw).
  apply io_bind_ok in Hw as (text & wb & [Ht ->]%io_lift_ok & Hw). apply map_err_ok in Ht.
  unfold fs_write in Hw. apply io_bind_ok in Hw as ([] & wc & Hc%fs_create_ok & Ha%fs_append_ok).
  rewrite Hc, lookup_insert_eq in Ha. simpl in Ha.
  assert (r = (_ ← validate_context c; Ok c)) as ->.
  { unfold read_yaml, fs_read_to_string, fs_read, io_call in Hr. unfold mbind, io_bind in Hr.
    rewrite Hf, Ha, lookup_insert_eq in Hr.
    rewrite (proj2 (from_utf8_ok _ text)) in Hr by (split; [by eapply yaml_utf8|done]).
    simpl in Hr. rewrite (yaml_roundtrip _ _ Ht) in Hr. simpl in Hr.
    by destruct (validate_context c) as [[]| |]; injection Hr as <- <-. }
  split; [|done]. rewrite <- validate_context_ok.
  destruct (validate_context c) as [[]| |]; simpl; naive_solver.
Qed.

(** [platform] finds the first entry with the name, and [enabled_platforms]
    keeps exactly the enabled entries in order. *)
Lemma platforms_lookup cfg :
  (∀ name e, remote_platform cfg name = Some e ↔
     ∃ before after, platforms cfg = before ++ e :: after ∧ re_platform e = name
       ∧ Forall (λ e', re_platform e' ≠ name) before)
  ∧ (∀ name, remote_platform cfg name = None ↔ Forall (λ e, re_platform e ≠ name) (platforms cfg))
  ∧ sublist (enabled_platforms cfg) (platforms cfg)
  ∧ ∀ e, e ∈ enabled_platforms cfg ↔ e ∈ platforms cfg ∧ enabled e = true.
Proof.
  unfold remote_platform, enabled_platforms. generalize (platforms cfg) as l. intros l. split_and!.
  - intros name e. induction l as [|a l IH]; simpl.
    { split; [done|]. by intros ([] & ? & ? & _). }
    destruct (String.eqb_spec (re_platform a) name) as [Ha|Ha].
    + split; [intros [= <-]; by exists [], l|]. intros ([|b before] & after & [= -> ->] & He & Hall); [done|].
      apply list.Forall_cons in Hall as [? _]. done.
    + rewrite IH. split.
      * intros (before & after & -> & He & Hall). exists (a :: before), after. by split_and!; [..|constructor].
      * intros ([|b before] & after & [= -> ->] & He & Hall); [done|]. apply list.Forall_cons in Hall as [_ Hall].
        by exists before, after.
  - intros name. induction l as [|a l IH]; simpl; [by split; [constructor|]|].
    rewrite list.Forall_cons. destruct (String.eqb_spec (re_platform a) name); [naive_solver|].
    rewrite IH. naive_solver.
  - induction l as [|a l IH]; simpl; [constructor|]. by destruct (enabled a); constructor.
  - intros e. rewrite !list_elem_of_In. apply filter_In.
Qed.

(** ** Witness *)
#[global] Instance platform_config_eq_dec : EqDecision LocalPlatformBuildConfig.
Proof. solve_decision. Defined.
#[global] Instance build_config_eq_dec : EqDecision LocalBuildConfig.
Proof. solve_decision. Defined.
#[global] Instance context_eq_dec : EqDecision LocalAppContext.
Proof. solve_decision. Defined.
Definition demo_build : LocalBuildConfig := Build_LocalBuildConfig None None None (Some "release"%string) None ∅ ∅ ∅.
Definition demo_context : LocalAppContext := Build_LocalAppContext "a" "s" "k" demo_build.
(** A printer and parser of this context. *)
Definition demo_yaml : SerdeYaml LocalAppContext := {|
  yaml_to_string c := if decide (c = demo_context) then Ok "app: a"%string else Err "unsupported"%string;
  yaml_from_str s := if String.eqb s "app: a" then Ok demo_context else Err "unsupported"%string;
|}.
Lemma demo_yaml_laws : @SerdeYamlLaws LocalAppContext demo_yaml.
Proof.
  split; intros c s; simpl; destruct (decide (c = demo_context)); intros; simplify_eq; done.
Qed.
Definition demo_config_world : World := mk_world ∅ [] [] [] 1 0.
Lemma context_roundtrip_witness :
  (read_yaml (H:=demo_yaml) ["fcb.yaml"%string]
    (write_yaml (H:=demo_yaml) demo_context ["fcb.yaml"%string] demo_config_world).2).1 = Ok demo_context.
Proof.
  destruct (write_yaml (H:=demo_yaml) demo_context ["fcb.yaml"%string] demo_config_world) as [r w1] eqn:Hw.
  assert (r = Ok tt ∧ w_faults w1 = []) as [-> Hf]
    by (split; [change r with (r, w1).1|change w1 with (r, w1).2]; rewrite <- Hw; vm_compute; reflexivity).
  destruct (read_yaml (H:=demo_yaml) ["fcb.yaml"%string] w1) as [r2 w2] eqn:Hr.
  cbn [snd]. rewrite Hr. exact (proj2 (@context_roundtrip demo_yaml demo_yaml_laws _ _ _ _ _ _ Hw Hr Hf)).
Defined.
