(* ===== verification/Flights.v ===== *)
(** * Update checks: questions, answers and the flights between them

    The data of an update check, of [crates/fcb_core/src/server_api.rs] and
    [updater/src/lib.rs], and the contents of the static [CHECK_FLIGHTS], which is
    part of the process in [Net]. *)
From S2P Require Import Prelude Text.
Local Open Scope N_scope.

(** ** Data *)
Record PatchCheck := {
  pc_patch_number : N; manifest_url : string; payload_url : string;
  manifest_hash : string; payload_hash : string;
}.
Record CheckResponse := { patch_available : bool; patch : option PatchCheck }.
(** The key of [CHECK_FLIGHTS]. *)
Record CheckRequest := {
  cq_server_url : string; cq_org_id : option string; cq_app_id : string;
  cq_release_version : string; cq_platform : string; cq_arch : string; cq_channel : string;
  cq_current_patch_number : N; cq_client_id : string;
}.
#[global] Instance check_request_eq_dec : EqDecision CheckRequest.
Proof. solve_decision. Defined.
#[global] Instance check_request_countable : Countable CheckRequest.
Proof.
  refine (inj_countable
    (λ q, [encode (cq_server_url q); encode (cq_org_id q); encode (cq_app_id q);
           encode (cq_release_version q); encode (cq_platform q); encode (cq_arch q);
           encode (cq_channel q); encode (cq_current_patch_number q); encode (cq_client_id q)])
    (λ l, match l with
     | [s; o; a; r; p; c; h; n; i] =>
       s ← decode s; o ← decode o; a ← decode a; r ← decode r; p ← decode p; c ← decode c;
       h ← decode h; n ← decode n; i ← decode i; Some (Build_CheckRequest s o a r p c h n i)
     | _ => None end) _).
  intros x. cbv beta iota. rewrite !decode_encode. by destruct x.
Defined.

(** ** Flights *)
(** [std::result::Result<CheckResponse, String>]. *)
Abbreviation outcome := (string + CheckResponse)%type.
(** [CHECK_FLIGHTS] as one caller finds it: for each flight the result its waiters
    will find in the slot, which another thread leads and has filled or is about
    to, or [None] when its leader has unwound and nobody ever fills it. *)
Abbreviation check_flights := (gmap CheckRequest (option outcome)).
