(* ===== verification/Net.v ===== *)
(** * The network and the running process

    Extends the machine of [World] with what the HTTP client and the runtime
    see: the server, the requests sent, the time slept and the cancel flag other
    threads may set.  [ureq] is the interface [Net]: the reply to a request may
    depend on all earlier ones, so a statement about every [Net] covers servers
    that fail, recover or change their mind. *)
From S2P Require Import Prelude Text External Manifest World Flights.
Local Open Scope N_scope.

(** ** Requests and replies *)
Record Request := {
  rq_method : string; rq_url : string; rq_headers : list (string * string);
  rq_query : list (string * string); rq_body : option Value.t;
}.
(** A body as the results of the successive [Read::read] calls on it; once they
    are used up, [read] answers 0. *)
Abbreviation reader := (list (string + list byte)).
Record Response := { rs_status : N; rs_body : reader }.

(** [request.call()] after the requests of the log; [inl] is a transport error. *)
Class Net := serve : list Request → Request → string + Response.
(** [body_mut().read_to_string()], and [into_body().read_json()] at one type. *)
Class BodyText := body_to_string : reader → res string string.
Class BodyJson (A : Type) := body_json : reader → res string A.
#[global] Hint Mode BodyJson ! : typeclass_instances.

(** ** State *)
(** [m_interference] says what other threads store into [CANCEL_PENDING] just
    before each of this thread's loads of it; [m_flights] is [CHECK_FLIGHTS]. *)
Record Machine := mk_machine {
  m_world : World;
  m_log : list Request;
  m_sleeps : list N;
  m_cancel : bool;
  m_interference : list (option bool);
  m_flights : check_flights;
}.
Definition Act (A : Type) : Type := Machine → result A * Machine.
#[global] Instance act_ret : MRet Act := λ A a m, (Ok a, m).
#[global] Instance act_bind : MBind Act := λ A B f x m,
  match x m with
  | (Ok a, m') => f a m'
  | (Err e, m') => (Err e, m')
  | (Panic s, m') => (Panic s, m')
  end.
Definition act_lift {A} (r : result A) : Act A := λ m, (r, m).
Definition act_err {A} (message : string) : Act A := act_lift (err message).
(** [let _ = x;] and [x.ok()]: an error is dropped, a panic is not. *)
Definition act_ok {A} (x : Act A) : Act (option A) := λ m,
  match x m with
  | (Ok a, m') => (Ok (Some a), m')
  | (Err _, m') => (Ok None, m')
  | (Panic s, m') => (Panic s, m')
  end.
(** [match x { Ok(a) => .., Err(e) => .. }]. *)
Definition act_try {A} (x : Act A) : Act (error + A) := λ m,
  match x m with
  | (Ok a, m') => (Ok (inr a), m')
  | (Err e, m') => (Ok (inl e), m')
  | (Panic s, m') => (Panic s, m')
  end.
Definition with_world (m : Machine) (w : World) : Machine :=
  mk_machine w (m_log m) (m_sleeps m) (m_cancel m) (m_interference m) (m_flights m).
(** File system, clock and process calls. *)
Definition sys {A} (x : IO A) : Act A := λ m,
  let '(r, w) := x (m_world m) in (r, with_world m w).

Definition call `{Net} (rq : Request) : Act (string + Response) := λ m,
  (Ok (serve (m_log m) rq),
   mk_machine (m_world m) (m_log m ++ [rq]) (m_sleeps m) (m_cancel m) (m_interference m) (m_flights m)).
(** [thread::sleep] of a time in microseconds. *)
Definition sleep (micros : N) : Act unit := λ m,
  (Ok tt, mk_machine (m_world m) (m_log m) (m_sleeps m ++ [micros]) (m_cancel m) (m_interference m) (m_flights m)).
(** [CANCEL_PENDING.load] and [.store]. *)
Definition cancel_load : Act bool := λ m,
  let '(b, rest) := match m_interference m with
    | [] => (m_cancel m, [])
    | o :: rest => (default (m_cancel m) o, rest) end in
  (Ok b, mk_machine (m_world m) (m_log m) (m_sleeps m) b rest (m_flights m)).
Definition cancel_store (b : bool) : Act unit := λ m,
  (Ok tt, mk_machine (m_world m) (m_log m) (m_sleeps m) b (m_interference m) (m_flights m)).
(** The contents of [CHECK_FLIGHTS]. *)
Definition with_flights (m : Machine) (flights : check_flights) : Machine :=
  mk_machine (m_world m) (m_log m) (m_sleeps m) (m_cancel m) (m_interference m) flights.
(** [for x in xs { ...?; }]. *)
Fixpoint act_for_each {A} (f : A → Act unit) (l : list A) : Act unit :=
  match l with
  | [] => mret tt
  | a :: l => _ ← f a; act_for_each f l
  end.

(** ** Facts *)
Lemma act_bind_inv {A B} (x : Act A) (f : A → Act B) m r m' :
  (x ≫= f) m = (r, m') →
  (∃ a m1, x m = (Ok a, m1) ∧ f a m1 = (r, m'))
  ∨ (∃ e, x m = (Err e, m') ∧ r = Err e) ∨ (∃ s, x m = (Panic s, m') ∧ r = Panic s).
Proof.
  unfold mbind, act_bind. destruct (x m) as [[a|e|s] m1]; intros Hx; [left; eauto|..];
    right; [left|right]; injection Hx as <- <-; eauto.
Qed.
Lemma act_bind_ok {A B} (x : Act A) (f : A → Act B) m b m' :
  (x ≫= f) m = (Ok b, m') ↔ ∃ a m1, x m = (Ok a, m1) ∧ f a m1 = (Ok b, m').
Proof.
  unfold mbind, act_bind. split.
  - destruct (x m) as [[a|e|s] m1]; [eauto|discriminate..].
  - by intros (a & m1 & -> & ->).
Qed.
Lemma act_bind_run {A B} (x : Act A) (f : A → Act B) m a m1 :
  x m = (Ok a, m1) → (x ≫= f) m = f a m1.
Proof. unfold mbind, act_bind. by intros ->. Qed.
Lemma act_lift_ok {A} (r : result A) m a m' : act_lift r m = (Ok a, m') ↔ r = Ok a ∧ m' = m.
Proof. unfold act_lift. naive_solver. Qed.
Lemma sys_inv {A} (x : IO A) m r m' :
  sys x m = (r, m') → ∃ w', x (m_world m) = (r, w') ∧ m' = with_world m w'.
Proof. unfold sys. destruct (x (m_world m)) as [r0 w0]. intros [= <- <-]. eauto. Qed.

(** *** The requests a computation adds to the log *)
Definition act_sends {A} (P : Request → Prop) (x : Act A) : Prop :=
  ∀ m, ∃ sent, m_log (x m).2 = m_log m ++ sent ∧ Forall P sent.
Section Sends.
Context (P : Request → Prop).
Lemma sends_same m m' : m_log m' = m_log m → ∃ sent, m_log m' = m_log m ++ sent ∧ Forall P sent.
Proof. intros ->. exists []. by rewrite app_nil_r. Qed.
Lemma act_sends_ret {A} (a : A) : act_sends P (mret a).
Proof. intros m. by apply sends_same. Qed.
Lemma act_sends_lift {A} (r : result A) : act_sends P (act_lift r).
Proof. intros m. by apply sends_same. Qed.
Lemma act_sends_err {A} msg : act_sends P (act_err (A:=A) msg).
Proof. apply act_sends_lift. Qed.
Lemma act_sends_bind {A B} (x : Act A) (f : A → Act B) :
  act_sends P x → (∀ a, act_sends P (f a)) → act_sends P (x ≫= f).
Proof.
  intros Hx Hf m. unfold mbind, act_bind. destruct (Hx m) as (l1 & E1 & H1).
  destruct (x m) as [[a|e|s] m1]; [|by exists l1..]. destruct (Hf a m1) as (l2 & E2 & H2).
  exists (l1 ++ l2). split; [|by apply Forall_app]. rewrite E2. cbn [snd] in E1. by rewrite E1, app_assoc.
Qed.
Lemma act_sends_ok {A} (x : Act A) : act_sends P x → act_sends P (act_ok x).
Proof. intros Hx m. unfold act_ok. specialize (Hx m). by destruct (x m) as [[] ?]. Qed.
Lemma act_sends_sys {A} (x : IO A) : act_sends P (sys x).
Proof. intros m. unfold sys. destruct (x (m_world m)). by apply sends_same. Qed.
Lemma act_sends_call `{Net} rq : P rq → act_sends P (call rq).
Proof. intros Hrq m. exists [rq]. by repeat constructor. Qed.
Lemma act_sends_sleep n : act_sends P (sleep n).
Proof. intros m. by apply sends_same. Qed.
Lemma act_sends_load : act_sends P cancel_load.
Proof. intros m. unfold cancel_load. destruct (m_interference m); by apply sends_same. Qed.
Lemma act_sends_store b : act_sends P (cancel_store b).
Proof. intros m. by apply sends_same. Qed.
Lemma act_sends_run {A} (x : Act A) m r m' : act_sends P x → x m = (r, m') →
  ∃ sent, m_log m' = m_log m ++ sent ∧ Forall P sent.
Proof. intros Hx E. specialize (Hx m). by rewrite E in Hx. Qed.
End Sends.
Lemma act_sends_weaken {A} (P Q : Request → Prop) (x : Act A) :
  (∀ rq, P rq → Q rq) → act_sends P x → act_sends Q x.
Proof. intros HPQ Hx m. destruct (Hx m) as (sent & E & H). exists sent. split; [done|]. by eapply Forall_impl. Qed.
(** Whatever is sent, requests are only added. *)
Abbreviation act_logs := (act_sends (λ _, True)).
Lemma act_logs_run {A} (x : Act A) m r m' : act_logs x → x m = (r, m') → m_log m `prefix_of` m_log m'.
Proof. intros Hx E. destruct (act_sends_run _ _ _ _ _ Hx E) as (sent & -> & _). by exists sent. Qed.
#[export] Hint Resolve act_sends_ret act_sends_err act_sends_lift act_sends_ok act_sends_sys act_sends_call
  act_sends_sleep act_sends_load act_sends_store : fcb.
Ltac act_sends_tac :=
  repeat first
    [ progress auto with fcb
    | apply act_sends_bind; [|intros ?]
    | match goal with |- act_sends _ (match ?x with _ => _ end) => destruct x end ].

(** *** Computations that never panic *)
Definition act_no_panic {A} (x : Act A) : Prop := ∀ m, no_panic (x m).1.
Lemma act_no_panic_ret {A} (a : A) : act_no_panic (mret a).
Proof. by intros m. Qed.
Lemma act_no_panic_lift {A} (r : result A) : no_panic r → act_no_panic (act_lift r).
Proof. by intros ? m. Qed.
Lemma act_no_panic_err {A} msg : act_no_panic (act_err (A:=A) msg).
Proof. by intros m. Qed.
Lemma act_no_panic_bind {A B} (x : Act A) (f : A → Act B) :
  act_no_panic x → (∀ a, act_no_panic (f a)) → act_no_panic (x ≫= f).
Proof.
  intros Hx Hf m. unfold mbind, act_bind. specialize (Hx m).
  destruct (x m) as [[a|e|s] m']; [apply Hf|intros t; discriminate|by destruct (Hx s)].
Qed.
Lemma act_no_panic_ok {A} (x : Act A) : act_no_panic x → act_no_panic (act_ok x).
Proof. intros Hx m. unfold act_ok. specialize (Hx m). destruct (x m) as [[|?|s] ?]; [by intros ?..|by destruct (Hx s)]. Qed.
Lemma act_no_panic_try {A} (x : Act A) : act_no_panic x → act_no_panic (act_try x).
Proof. intros Hx m. unfold act_try. specialize (Hx m). destruct (x m) as [[|?|s] ?]; [by intros ?..|by destruct (Hx s)]. Qed.
Lemma act_no_panic_sys {A} (x : IO A) : io_no_panic x → act_no_panic (sys x).
Proof. intros Hx m. unfold sys. specialize (Hx (m_world m)). by destruct (x (m_world m)). Qed.
Lemma act_no_panic_call `{Net} rq : act_no_panic (call rq).
Proof. by intros m. Qed.
Lemma act_no_panic_sleep n : act_no_panic (sleep n).
Proof. by intros m. Qed.
Lemma act_no_panic_load : act_no_panic cancel_load.
Proof. intros m. unfold cancel_load. by destruct (m_interference m). Qed.
Lemma act_no_panic_store b : act_no_panic (cancel_store b).
Proof. by intros m. Qed.
#[export] Hint Resolve act_no_panic_ret act_no_panic_err act_no_panic_lift act_no_panic_ok act_no_panic_try
  act_no_panic_sys act_no_panic_call act_no_panic_sleep act_no_panic_load act_no_panic_store : fcb.
Ltac act_no_panic_tac :=
  repeat first
    [ apply act_no_panic_bind; [|intros ?]
    | progress auto with fcb
    | apply act_no_panic_sys; no_panic_tac
    | match goal with |- act_no_panic (match ?x with _ => _ end) => destruct x end ].
