(* ===== verification/ServerApi.v ===== *)
(** * The server API client

    Models [crates/fcb_core/src/server_api.rs]: the requests of [Client], its
    retry loops, the resumable download and the bounded body reader, over the
    server and process of [Net]. *)
From S2P Require Import Prelude Text External Manifest Config World Flights Net.
Local Open Scope N_scope.

(** [RETRY_DELAYS], in microseconds. *)
Definition RETRY_DELAYS : list N := [50000; 200000; 800000; 3200000].
Definition MAX_BODY_BYTES : N := 64 * 1024 * 1024.
Definition BUFFER_BYTES : N := 16 * 1024.

(** ** Data *)
Record CreateAppRequest := {
  ca_id : string; ca_name : string; ca_channel : string; ca_public_key : string;
  ca_platforms : list RemotePlatformEntry;
}.
Record CreatePatchRequest := { cp_manifest : PatchManifest; payload_b64 : string }.
Record PromotePatchRequest := {
  pp_app_id : string; pp_release_version : string; pp_platform : string; pp_arch : string;
  pp_patch_number : N; pp_channel : string; pp_rollout_percentage : N;
}.
Record CheckRequest := {
  cr_org_id : option string; cr_app_id : string; cr_release_version : string;
  cr_platform : string; cr_arch : string; cr_channel : string;
  current_patch_number : N; cr_client_id : string;
}.
Record EventRequest := {
  ev_org_id : option string; ev_app_id : string; ev_release_version : string;
  ev_platform : string; ev_arch : string; ev_patch_number : option N;
  event_type : string; client_id_hash : option string; ev_payload : Value.t;
}.
Record Client := { base_url : string; token : option string }.

(** [s.trim_end_matches('/')]. *)
Fixpoint trim_end_slashes (s : string) : string :=
  match s with
  | ""%string => ""%string
  | String a s' =>
    match trim_end_slashes s' with
    | ""%string => if decide (a = slash) then ""%string else String a ""
    | t => String a t
    end
  end.
Definition client_new (url : string) : Client :=
  {| base_url := trim_end_slashes url; token := None |}.
Definition with_token (self : Client) (t : string) : Client :=
  if negb (is_blank t) then {| base_url := base_url self; token := Some t |} else self.

(** [u8::is_ascii_alphanumeric] and the unreserved punctuation. *)
Definition unreserved (b : byte) : bool :=
  in_range 48 57 b || in_range 65 90 b || in_range 97 122 b
  || bool_decide (b = x2d) || bool_decide (b = x2e) || bool_decide (b = x5f) || bool_decide (b = x7e).
Definition path_segment_encode (value : string) : string :=
  foldr (λ byte out,
    (if unreserved byte then String (Ascii.ascii_of_byte byte) "" else "%" +:+ hex2 true byte) +:+ out)
    ""%string (str_bytes value).

(** ** Retrying *)
Definition can_retry (attempt : N) : bool := attempt <? len RETRY_DELAYS.
Definition should_retry_status (status : N) : bool := 500 <=? status.
(** [StatusCode::is_success]. *)
Definition is_success (status : N) : bool := (200 <=? status) && (status <? 300).

Definition u128_max : N := 2 ^ 128 - 1.
(** Microseconds; [seed] is the clock in nanoseconds. *)
Definition retry_delay (attempt : N) : IO N :=
  base ← io_lift (index RETRY_DELAYS attempt);
  let jitter := base / 4 in
  let span := saturating_add u128_max (N.min u128_max (jitter * 2)) 1 in
  seed ← now_nanos;
  let offset := seed mod span in
  mret (saturating_add u128_max (saturating_sub base jitter) offset mod 2 ^ 64).
Definition sleep_before_retry (attempt : N) : Act unit :=
  delay ← sys (retry_delay attempt); sleep delay.

(** [0..=RETRY_DELAYS.len()]. *)
Definition attempts : list N := [0; 1; 2; 3; 4].

Section Client.
Context `{Net, BodyText}.

(** [Err(err(format!("server returned HTTP {code}: {body}")))]. *)
Definition http_failure {A} (resp : Response) : result A :=
  err ("server returned HTTP " +:+ dec (rs_status resp) +:+ ": "
       +:+ match body_to_string (rs_body resp) with Ok body => body | _ => ""%string end).

(** The loop of [check], [post_json] and [get_json], which differ in the request
    and in what they do with a successful reply. *)
Fixpoint retry_loop {A} (rq : Request) (on_success : Response → result A)
    (l : list N) (last_error : option string) : Act A :=
  match l with
  | [] => e ← act_lift (expect "retry loop should retain last error" last_error);
          act_lift (Err (Http e))
  | attempt :: l =>
    response ← call rq;
    match response with
    | inr resp =>
      if is_success (rs_status resp) then act_lift (on_success resp)
      else if should_retry_status (rs_status resp) && can_retry attempt then
        _ ← sleep_before_retry attempt;
        retry_loop rq on_success l last_error
      else act_lift (http_failure resp)
    | inl e =>
      if can_retry attempt then
        _ ← sleep_before_retry attempt;
        retry_loop rq on_success l (Some e)
      else act_lift (Err (Http e))
    end
  end.

Definition authorization (self : Client) : list (string * string) :=
  match token self with
  | Some t => [("Authorization"%string, "Bearer " +:+ t)]
  | None => []
  end.
Definition read_json_body {A} `{BodyJson A} (resp : Response) : result A :=
  map_err Http (body_json (rs_body resp)).

Definition post_json {A} `{ToValue A} (self : Client) (path : string) (value : A) : Act unit :=
  json ← act_lift (map_err Json (to_value value));
  let rq := {| rq_method := "POST"; rq_url := base_url self +:+ path;
               rq_headers := authorization self; rq_query := []; rq_body := Some json |} in
  retry_loop rq (λ _, Ok tt) attempts None.
Definition get_json {A} `{BodyJson A} (self : Client) (path : string) : Act A :=
  let rq := {| rq_method := "GET"; rq_url := base_url self +:+ path;
               rq_headers := authorization self; rq_query := []; rq_body := None |} in
  retry_loop rq read_json_body attempts None.

(** ** The calls of the API *)
Definition create_app `{ToValue CreateAppRequest} (self : Client) (request : CreateAppRequest) : Act unit :=
  post_json self "/v1/apps" request.
Definition get_app `{BodyJson RemoteAppConfig} (self : Client) (app_id : string) : Act RemoteAppConfig :=
  get_json self ("/v1/apps/" +:+ path_segment_encode app_id).
(** One attempt only. *)
Definition resolve_app `{BodyJson RemoteAppConfig} (self : Client) (selector : string) : Act RemoteAppConfig :=
  response ← call {| rq_method := "GET"; rq_url := base_url self +:+ "/v1/apps/resolve";
                     rq_headers := authorization self; rq_query := [("app"%string, selector)];
                     rq_body := None |};
  match response with
  | inr resp => if is_success (rs_status resp) then act_lift (read_json_body resp)
                else act_lift (http_failure resp)
  | inl e => act_lift (Err (Http e))
  end.
Definition create_release `{ToValue ReleaseManifest} (self : Client) (manifest : ReleaseManifest) : Act unit :=
  post_json self "/v1/releases" manifest.
Definition create_patch `{ToValue CreatePatchRequest, Base64} (self : Client)
    (manifest : PatchManifest) (payload : list byte) : Act unit :=
  post_json self "/v1/patches" {| cp_manifest := manifest; payload_b64 := b64_encode payload |}.
Definition promote_patch `{ToValue PromotePatchRequest} (self : Client) (request : PromotePatchRequest) : Act unit :=
  post_json self "/v1/patches/promote" request.
Definition rollback_patch `{ToValue PromotePatchRequest} (self : Client) (request : PromotePatchRequest) : Act unit :=
  post_json self "/v1/patches/rollback" request.
Definition post_event `{ToValue EventRequest} (self : Client) (request : EventRequest) : Act unit :=
  post_json self "/v1/events" request.

Definition check_query (request : CheckRequest) : list (string * string) :=
  [("app_id"%string, cr_app_id request); ("release_version"%string, cr_release_version request);
   ("platform"%string, cr_platform request); ("arch"%string, cr_arch request);
   ("channel"%string, cr_channel request);
   ("current_patch_number"%string, dec (current_patch_number request));
   ("client_id"%string, cr_client_id request)]
  ++ match cr_org_id request with
     | Some org_id => if negb (is_blank org_id) then [("org_id"%string, org_id)] else []
     | None => []
     end.
(** [check] sends no [Authorization] header. *)
Definition check `{BodyJson CheckResponse} (self : Client) (request : CheckRequest) : Act CheckResponse :=
  let rq := {| rq_method := "GET"; rq_url := base_url self +:+ "/v1/patches/check";
               rq_headers := []; rq_query := check_query request; rq_body := None |} in
  retry_loop rq read_json_body attempts None.

(** ** Downloads *)
(** The results of [reader.read]; a reader that claims more bytes than the
    buffer holds makes [&buffer[..n]] panic. *)
Fixpoint read_body_with_cancel (should_cancel : Act bool) (out : list byte) (r : reader) : Act (list byte) :=
  c ← should_cancel;
  if (c : bool) then act_err "operation cancelled" else
  match r with
  | [] => mret out
  | inl e :: _ => act_lift (Err (Io e))
  | inr chunk :: r =>
    if bool_decide (chunk = []) then mret out
    else if MAX_BODY_BYTES <? saturating_add usize_max (len out) (len chunk) then
      act_err "response body exceeds 64 MiB limit"
    else if BUFFER_BYTES <? len chunk then act_lift (Panic "range end index out of range")
    else read_body_with_cancel should_cancel (out ++ chunk) r
  end.

Definition range_request (url : string) (offset : N) : Request := {|
  rq_method := "GET"; rq_url := url;
  rq_headers := if 0 <? offset then [("Range"%string, "bytes=" +:+ dec offset +:+ "-")] else [];
  rq_query := []; rq_body := None |}.

Fixpoint download_loop (should_cancel : Act bool) (url : string) (l : list N)
    (effective_offset : N) (last_error : option string) : Act (list byte * bool) :=
  match l with
  | [] => e ← act_lift (expect "retry loop should retain last error" last_error);
          act_lift (Err (Http e))
  | attempt :: l =>
    c ← should_cancel;
    if (c : bool) then act_err "operation cancelled" else
    response ← call (range_request url effective_offset);
    match response with
    | inr resp =>
      if (rs_status resp =? 416) && (0 <? effective_offset) then
        download_loop should_cancel url l 0 last_error
      else if rs_status resp =? 206 then
        bytes ← read_body_with_cancel should_cancel [] (rs_body resp); mret (bytes, true)
      else if is_success (rs_status resp) then
        bytes ← read_body_with_cancel should_cancel [] (rs_body resp); mret (bytes, false)
      else if should_retry_status (rs_status resp) && can_retry attempt then
        _ ← sleep_before_retry attempt;
        download_loop should_cancel url l effective_offset last_error
      else act_lift (http_failure resp)
    | inl e =>
      if can_retry attempt then
        _ ← sleep_before_retry attempt;
        download_loop should_cancel url l effective_offset (Some e)
      else act_lift (Err (Http e))
    end
  end.

(** [Path::new(url)], relative to the current directory. *)
Context (current_dir : path).
Definition is_http (url : string) : bool := starts_with "http://" url || starts_with "https://" url.
Definition download_bytes_from_with_cancel (url : string) (offset : N) (should_cancel : Act bool) :
    Act (list byte * bool) :=
  if is_http url then download_loop should_cancel url attempts offset None
  else
    c ← should_cancel;
    if (c : bool) then act_err "operation cancelled"
    else bytes ← sys (fs_read (join_rel current_dir url)); mret (bytes, false).
Definition download_bytes_from (url : string) (offset : N) : Act (list byte * bool) :=
  download_bytes_from_with_cancel url offset (mret false).
Definition download_bytes (url : string) : Act (list byte) :=
  '(bytes, _) ← download_bytes_from url 0; mret bytes.
End Client.

(** ** What is sent *)
Lemma act_sends_retry_delay P a : act_sends P (sleep_before_retry a).
Proof. unfold sleep_before_retry. act_sends_tac. Qed.
Lemma act_sends_retry_loop `{Net, BodyText} {A} rq (os : Response → result A) l last :
  act_sends (λ rq', rq' = rq) (retry_loop rq os l last).
Proof.
  revert last. induction l as [|a l IH]; intros last; cbn [retry_loop];
    pose proof (act_sends_retry_delay (λ rq', rq' = rq)); act_sends_tac.
Qed.

(** ** Sleeping *)
(** A delay within a quarter of the one the table gives for the attempt. *)
Definition jittered (attempt delay : N) : Prop :=
  ∃ base, get RETRY_DELAYS attempt = Some base ∧ base - base / 4 ≤ delay ≤ base + base / 4.
(** Two machines that differ at most in the log, the time slept and the clock. *)
Definition quiet (m m' : Machine) : Prop :=
  w_fs (m_world m') = w_fs (m_world m) ∧ w_faults (m_world m') = w_faults (m_world m)
  ∧ w_stats (m_world m') = w_stats (m_world m) ∧ w_pid (m_world m') = w_pid (m_world m)
  ∧ w_counter (m_world m') = w_counter (m_world m)
  ∧ m_cancel m' = m_cancel m ∧ m_interference m' = m_interference m ∧ m_flights m' = m_flights m.
#[global] Instance quiet_preorder : PreOrder quiet.
Proof. split; [by intros ?; split_and!|]. unfold quiet. intros ??? H1 H2. destruct_and!. split_and!; congruence. Qed.

Lemma sleep_spec attempt m :
  can_retry attempt = true →
  ∃ d m', sleep_before_retry attempt m = (Ok tt, m') ∧ jittered attempt d
    ∧ m_log m' = m_log m ∧ m_sleeps m' = m_sleeps m ++ [d] ∧ quiet m m'.
Proof.
  unfold can_retry. intros Ha%N.ltb_lt. destruct (get_some RETRY_DELAYS attempt Ha) as [base Hb].
  assert (base ≤ 3200000) as Hbound.
  { assert (Forall (λ b, b ≤ 3200000) RETRY_DELAYS) as Hall by (repeat constructor; lia).
    rewrite list.Forall_forall in Hall. apply Hall. unfold get in Hb. by eapply list_elem_of_lookup_2. }
  unfold sleep_before_retry, retry_delay, sleep, sys, index. rewrite Hb.
  unfold mbind, act_bind, io_bind, io_lift, now_nanos, expect. cbn [m_world].
  set (seed := match w_clock (m_world m) with [] => _ | _ => _ end). destruct seed as [z clock].
  cbn [mret io_ret]. do 2 eexists. split; [reflexivity|]. split; [|split; [done|split; [done|by split_and!]]].
  exists base. split; [done|].
  pose proof (N.Div0.div_le_upper_bound base 4 base ltac:(lia)).
  assert (saturating_add u128_max (N.min u128_max (base / 4 * 2)) 1 = base / 4 * 2 + 1) as ->.
  { unfold saturating_add. change u128_max with 340282366920938463463374607431768211455. lia. }
  pose proof (N.mod_lt (Z.to_N z) (base / 4 * 2 + 1) ltac:(lia)).
  generalize dependent (Z.to_N z mod (base / 4 * 2 + 1)). intros offset Ho.
  generalize dependent (base / 4). intros quarter Hq Ho.
  unfold saturating_add, saturating_sub. rewrite N.min_r
    by (change u128_max with 340282366920938463463374607431768211455; lia).
  rewrite N.mod_small by (change (2 ^ 64) with 18446744073709551616; lia). lia.
Qed.

(** ** Retrying *)
(** A reply the loops retry on. *)
Definition transient (response : string + Response) : bool :=
  match response with inl _ => true | inr resp => should_retry_status (rs_status resp) end.

Fixpoint nums (a : N) (n : nat) : list N :=
  match n with O => [] | S n => a :: nums (a + 1) n end.

Section Retry.
Context `{Net, BodyText}.

(** What a loop makes of the last reply. *)
Definition conclude {A} (on_success : Response → result A) (response : string + Response) : result A :=
  match response with
  | inl e => Err (Http e)
  | inr resp => if is_success (rs_status resp) then on_success resp else http_failure resp
  end.
(** The reply to the [i]th sending of a request. *)
Definition reply (m : Machine) (rq : Request) (i : nat) : string + Response :=
  serve (m_log m ++ replicate i rq) rq.

(** The run of a retry loop: [k] transient replies, a last one that is not
    transient or is the fifth, one jittered delay between two calls. *)
Definition retried {A} (rq : Request) (on_success : Response → result A) (a : N) (n : nat)
    (m : Machine) (run : result A * Machine) : Prop :=
  ∃ k ds, (k ≤ n)%nat
    ∧ (∀ i, (i < k)%nat → transient (reply m rq i) = true)
    ∧ (k = n ∨ transient (reply m rq k) = false)
    ∧ run.1 = conclude on_success (reply m rq k)
    ∧ m_log run.2 = m_log m ++ replicate (S k) rq
    ∧ m_sleeps run.2 = m_sleeps m ++ ds ∧ Forall2 jittered (nums a k) ds
    ∧ quiet m run.2.

Lemma is_success_not_retried s : is_success s = true → should_retry_status s = false.
Proof. unfold is_success, should_retry_status. rewrite andb_true_iff, N.ltb_lt, N.leb_gt. lia. Qed.

Lemma retried_stop {A} rq (os : Response → result A) a n m :
  n = O ∨ transient (reply m rq 0) = false →
  retried rq os a n m (conclude os (reply m rq 0),
    mk_machine (m_world m) (m_log m ++ [rq]) (m_sleeps m) (m_cancel m) (m_interference m) (m_flights m)).
Proof.
  intros Hn. exists O, []. split; [lia|]. split; [lia|]. split; [destruct Hn; auto|].
  split; [done|]. split; [done|]. split; [by rewrite app_nil_r|]. by split; [constructor|].
Qed.
Lemma retried_step {A} rq (os : Response → result A) a n m m1 m2 d run :
  transient (reply m rq 0) = true →
  m1 = mk_machine (m_world m) (m_log m ++ [rq]) (m_sleeps m) (m_cancel m) (m_interference m) (m_flights m) →
  jittered a d → m_log m2 = m_log m1 → m_sleeps m2 = m_sleeps m1 ++ [d] → quiet m1 m2 →
  retried rq os (a + 1) n m2 run → retried rq os a (S n) m run.
Proof.
  intros Ht -> Hd Hlog Hsl Hq (k & ds & Hk & Htr & Hlast & Hres & Hl & Hs & Hj & Hq').
  assert (∀ i, reply m2 rq i = reply m rq (S i)) as Hreply.
  { intros i. unfold reply. rewrite Hlog. simpl. by rewrite <- app_assoc. }
  exists (S k), (d :: ds). split; [lia|]. split.
  { intros [|i] Hi; [done|]. rewrite <- Hreply. apply Htr. lia. }
  rewrite <- Hreply. split; [naive_solver lia|]. split; [done|].
  rewrite Hl, Hlog, Hs, Hsl. simpl. rewrite <- !app_assoc. split; [done|]. split; [done|].
  split; [by constructor|]. by etrans.
Qed.

Lemma retry_loop_retried {A} rq (os : Response → result A) n a last m :
  a + N.of_nat n = 4 → retried rq os a n m (retry_loop rq os (nums a (S n)) last m).
Proof.
  revert a last m. induction n as [|n IH]; intros a last m Ha;
    change (nums a (S ?n)) with (a :: nums (a + 1) n); cbn [retry_loop];
    set (m1 := mk_machine (m_world m) (m_log m ++ [rq]) (m_sleeps m) (m_cancel m) (m_interference m) (m_flights m)).
  all: rewrite (act_bind_run (call rq) _ m (reply m rq 0) m1) by (unfold reply; simpl; by rewrite app_nil_r).
  - assert (can_retry a = false) as Hc by (unfold can_retry; apply N.ltb_ge; unfold len; simpl; lia).
    pose proof (retried_stop rq os a 0 m (or_introl eq_refl)) as Hstop. fold m1 in Hstop.
    rewrite Hc. destruct (reply m rq 0) as [e|resp] eqn:Hr; [done|]. simpl in Hstop.
    rewrite andb_false_r. by destruct (is_success (rs_status resp)).
  - assert (can_retry a = true) as Hc by (unfold can_retry; apply N.ltb_lt; unfold len; simpl; lia).
    destruct (sleep_spec a m1 Hc) as (d & m2 & Hrun & Hj & Hl & Hs & Hq).
    assert (∀ last, transient (reply m rq 0) = true →
      retried rq os a (S n) m ((_ ← sleep_before_retry a; retry_loop rq os (nums (a + 1) (S n)) last) m1))
      as Hstep.
    { intros last' Ht. rewrite (act_bind_run _ _ _ _ _ Hrun).
      eapply retried_step; [done|reflexivity|done..|]. apply IH. lia. }
    pose proof (retried_stop rq os a (S n) m) as Hstop. fold m1 in Hstop.
    rewrite Hc. destruct (reply m rq 0) as [e|resp] eqn:Hr; [by apply Hstep|].
    rewrite andb_true_r. simpl in Hstop, Hstep. destruct (is_success (rs_status resp)) eqn:Hsuc.
    { apply Hstop. right. by apply is_success_not_retried. }
    destruct (should_retry_status (rs_status resp)); [by apply Hstep|]. apply Hstop. by right.
Qed.
End Retry.

(** ** Reading a body *)
(** What the results of [read] amount to: the bytes up to the end, or the error
    that came first. *)
Fixpoint body_bytes (r : reader) : string + list byte :=
  match r with
  | [] => inr []
  | inl e :: _ => inl e
  | inr [] :: _ => inr []
  | inr chunk :: r => match body_bytes r with inl e => inl e | inr bs => inr (chunk ++ bs) end
  end.
(** [Read]: never more bytes than the buffer holds. *)
Definition reader_ok (r : reader) : Prop :=
  Forall (λ x, match x with inr chunk => len chunk ≤ BUFFER_BYTES | inl _ => True end) r.

Lemma read_body_ok r out bs m :
  reader_ok r → body_bytes r = inr bs → len out + len bs ≤ MAX_BODY_BYTES →
  read_body_with_cancel (mret false) out r m = (Ok (out ++ bs), m).
Proof.
  revert out bs. induction r as [|[e|chunk] r IH]; intros out bs Hok Hb Hl; simpl in Hb.
  - injection Hb as <-. by rewrite app_nil_r.
  - done.
  - apply list.Forall_cons in Hok as [Hc Hok]. cbn [read_body_with_cancel].
    rewrite (act_bind_run _ _ m false m) by done. case_bool_decide as Hn.
    { subst chunk. injection Hb as <-. by rewrite app_nil_r. }
    destruct (body_bytes r) as [e|rest] eqn:Hr; [by destruct chunk|].
    assert (bs = chunk ++ rest) as -> by (destruct chunk; naive_solver).
    rewrite len_app in Hl. unfold MAX_BODY_BYTES, BUFFER_BYTES, saturating_add, usize_max, u64_max in *.
    rewrite N.min_r by lia. rewrite (proj2 (N.ltb_ge _ _)) by lia. rewrite (proj2 (N.ltb_ge _ _)) by lia.
    rewrite IH with (bs := rest); [by rewrite app_assoc|done..|]. rewrite len_app. lia.
Qed.

(** What the reader returns is what the body holds, within the limit. *)
Lemma read_body_result cancel r out bs m m' :
  read_body_with_cancel cancel out r m = (Ok bs, m') →
  len out ≤ MAX_BODY_BYTES →
  ∃ rest, bs = out ++ rest ∧ body_bytes r = inr rest ∧ len bs ≤ MAX_BODY_BYTES.
Proof.
  revert out m. induction r as [|[e|chunk] r IH]; intros out m; cbn [read_body_with_cancel];
    intros (c & m1 & Hc & Hr)%act_bind_ok Hl; destruct c; try done.
  - injection Hr as <- <-. exists []. by rewrite app_nil_r.
  - case_bool_decide as Hn.
    { injection Hr as <- <-. exists []. subst chunk. by rewrite app_nil_r. }
    destruct (N.ltb_spec MAX_BODY_BYTES (saturating_add usize_max (len out) (len chunk))) as [|Hm]; [done|].
    destruct (BUFFER_BYTES <? len chunk); [done|].
    apply IH in Hr as (rest & -> & Hb & Hlen).
    + exists (chunk ++ rest). rewrite <- app_assoc in *. split_and!; [done| |done].
      simpl. rewrite Hb. by destruct chunk.
    + unfold MAX_BODY_BYTES, saturating_add, usize_max, u64_max in *. rewrite len_app. lia.
Qed.
Lemma read_body_no_panic cancel r out :
  act_no_panic cancel → reader_ok r → act_no_panic (read_body_with_cancel cancel out r).
Proof.
  intros Hc. revert out. induction r as [|[e|chunk] r IH]; intros out Hok; cbn [read_body_with_cancel];
    (apply act_no_panic_bind; [done|]; intros c; destruct c; [apply act_no_panic_err|]).
  - apply act_no_panic_ret.
  - apply act_no_panic_lift. done.
  - apply list.Forall_cons in Hok as [Hb Hok]. case_bool_decide; [apply act_no_panic_ret|].
    case_match; [apply act_no_panic_err|].
    rewrite (proj2 (N.ltb_ge _ _)) by done. by apply IH.
Qed.

(** ** Downloads *)
Section Downloads.
Context `{Net, BodyText}.

Definition logged (m : Machine) (rq : Request) : Machine :=
  mk_machine (m_world m) (m_log m ++ [rq]) (m_sleeps m) (m_cancel m) (m_interference m) (m_flights m).
Lemma call_run rq m : call rq m = (Ok (reply m rq 0), logged m rq).
Proof. unfold reply, call, logged. simpl. by rewrite app_nil_r. Qed.
(** After a retry, the replies to the same request are the next ones. *)
Lemma reply_shift m m1 rq i : m_log m1 = m_log m ++ [rq] → reply m1 rq i = reply m rq (S i).
Proof. intros Hl. unfold reply. rewrite Hl. simpl. by rewrite <- app_assoc. Qed.

(** One round of the loop without a cancel request. *)
Lemma download_round url a l offset last m :
  download_loop (mret false) url (a :: l) offset last m =
    match reply m (range_request url offset) 0 with
    | inr resp =>
      if (rs_status resp =? 416) && (0 <? offset) then
        download_loop (mret false) url l 0 last
      else if rs_status resp =? 206 then
        bytes ← read_body_with_cancel (mret false) [] (rs_body resp); mret (bytes, true)
      else if is_success (rs_status resp) then
        bytes ← read_body_with_cancel (mret false) [] (rs_body resp); mret (bytes, false)
      else if should_retry_status (rs_status resp) && can_retry a then
        _ ← sleep_before_retry a; download_loop (mret false) url l offset last
      else act_lift (http_failure resp)
    | inl e =>
      if can_retry a then
        _ ← sleep_before_retry a; download_loop (mret false) url l offset (Some e)
      else act_lift (Err (Http e))
    end (logged m (range_request url offset)).
Proof.
  cbn [download_loop]. rewrite (act_bind_run _ _ m false m) by done. cbv iota.
  rewrite (act_bind_run _ _ _ _ _ (call_run _ m)).
  by destruct (reply m (range_request url offset) 0).
Qed.
Lemma after_sleep {A} a (x : Act A) m :
  can_retry a = true → ∃ m1, (_ ← sleep_before_retry a; x) m = x m1 ∧ m_log m1 = m_log m ∧ quiet m m1.
Proof.
  intros Ha. destruct (sleep_spec a m Ha) as (d & m1 & Hrun & _ & Hl & _ & Hq).
  exists m1. by rewrite (act_bind_run _ _ _ _ _ Hrun).
Qed.
Lemma after_sleep_inv {A} a (x : Act A) m r m' :
  (_ ← sleep_before_retry a; x) m = (r, m') → can_retry a = true →
  ∃ m1, x m1 = (r, m') ∧ m_log m1 = m_log m.
Proof. intros Hrun Ha. destruct (after_sleep a x m Ha) as (m1 & E & Hl & _). exists m1. by rewrite <- E. Qed.

Lemma can_retry_last a : a = 4 → can_retry a = false.
Proof. by intros ->. Qed.
Lemma can_retry_more a : a < 4 → can_retry a = true.
Proof. intros Ha. unfold can_retry. apply N.ltb_lt. exact Ha. Qed.

(** *** A server that serves a file *)
(** A reply that is right for the content: the whole of it, the requested rest,
    or 416 past its end; its body may break off with an error. *)
Definition body_of (resp : Response) (bs : list byte) : Prop :=
  reader_ok (rs_body resp) ∧ (body_bytes (rs_body resp) = inr bs ∨ ∃ e, body_bytes (rs_body resp) = inl e).
Definition good_reply (content : list byte) (offset : N) (resp : Response) : Prop :=
  (rs_status resp = 200 ∧ body_of resp content)
  ∨ (rs_status resp = 206 ∧ 0 < offset < len content ∧ body_of resp (drop (N.to_nat offset) content))
  ∨ (rs_status resp = 416 ∧ 0 < offset ∧ len content ≤ offset).
(** Every reply is right or is one the client retries on. *)
Definition flaky_file_server (url : string) (content : list byte) : Prop :=
  ∀ log offset, transient (serve log (range_request url offset)) = true
    ∨ ∃ resp, serve log (range_request url offset) = inr resp ∧ good_reply content offset resp.
(** No failures, and ranges are honoured. *)
Definition file_server (url : string) (content : list byte) : Prop :=
  ∀ log offset, ∃ resp, serve log (range_request url offset) = inr resp
    ∧ reader_ok (rs_body resp)
    ∧ if decide (offset = 0) then rs_status resp = 200 ∧ body_bytes (rs_body resp) = inr content
      else if decide (offset < len content)
      then rs_status resp = 206 ∧ body_bytes (rs_body resp) = inr (drop (N.to_nat offset) content)
      else rs_status resp = 416.

(** The bytes with the flag complete a file whose first [offset] bytes are there. *)
Definition completes (content : list byte) (offset : N) (v : list byte * bool) : Prop :=
  if v.2 then 0 < offset < len content ∧ v.1 = drop (N.to_nat offset) content else v.1 = content.

Lemma read_body_of resp bs v m m' cancel :
  body_of resp bs → read_body_with_cancel cancel [] (rs_body resp) m = (Ok v, m') → v = bs.
Proof.
  intros [_ Hb] (rest & -> & Hrest & _)%read_body_result; [|done]. simpl. destruct Hb as [Hb|[e Hb]]; congruence.
Qed.
Lemma transient_status resp : transient (inr resp) = true → 500 ≤ rs_status resp.
Proof. simpl. unfold should_retry_status. by rewrite N.leb_le. Qed.
Lemma transient_not_416 resp : transient (inr resp) = true →
  (rs_status resp =? 416) = false ∧ (rs_status resp =? 206) = false ∧ is_success (rs_status resp) = false.
Proof.
  intros Ht%transient_status. unfold is_success. rewrite !N.eqb_neq, andb_false_iff, N.ltb_ge. lia.
Qed.

Lemma call_inv rq m r m' : call rq m = (Ok r, m') → r = serve (m_log m) rq.
Proof. by intros [= <- _]. Qed.
Lemma download_loop_completes cancel url content l offset0 offset last m v m' :
  flaky_file_server url content → offset = offset0 ∨ offset = 0 →
  download_loop cancel url l offset last m = (Ok v, m') → completes content offset0 v.
Proof.
  intros Hserver Ho. revert offset Ho last m. induction l as [|a l IH]; intros offset Ho last m Hrun;
    cbn [download_loop] in Hrun.
  { apply act_bind_ok in Hrun as (e & m1 & _ & Hrun). done. }
  apply act_bind_ok in Hrun as (c & m1 & _ & Hrun). destruct c; [done|].
  apply act_bind_ok in Hrun as (resp0 & m2 & ->%call_inv & Hrun).
  destruct (Hserver (m_log m1) offset) as [Ht|(resp & Hr & Hgood)].
  - destruct (serve (m_log m1) (range_request url offset)) as [e|resp].
    + destruct (can_retry a) eqn:Hc; [|done].
      apply after_sleep_inv in Hrun as (m3 & Hrun & _); [|done]. by eapply IH.
    + destruct (transient_not_416 _ Ht) as (E1 & E2 & E3). rewrite E1, E2, E3 in Hrun.
      simpl in Hrun. destruct (should_retry_status (rs_status resp) && can_retry a) eqn:Hc; [|done].
      apply andb_true_iff in Hc as [_ Hc].
      apply after_sleep_inv in Hrun as (m3 & Hrun & _); [|done]. by eapply IH.
  - rewrite Hr in Hrun. destruct Hgood as [(Hs & Hb)|[(Hs & Hoff & Hb)|(Hs & Hpos & Hle)]]; rewrite Hs in Hrun.
    + change (200 =? 416) with false in Hrun. change (200 =? 206) with false in Hrun.
      change (is_success 200) with true in Hrun. cbn [andb] in Hrun. cbv iota in Hrun.
      apply act_bind_ok in Hrun as (bs & m3 & Hread & [= <- <-]). by eapply read_body_of.
    + change (206 =? 416) with false in Hrun. change (206 =? 206) with true in Hrun.
      cbn [andb] in Hrun. cbv iota in Hrun.
      apply act_bind_ok in Hrun as (bs & m3 & Hread & [= <- <-]). split; [destruct Ho as [->| ->]; lia|].
      destruct Ho as [->| ->]; [|lia]. by eapply read_body_of.
    + change (416 =? 416) with true in Hrun. rewrite (proj2 (N.ltb_lt _ _)) in Hrun by done.
      cbn [andb] in Hrun. eapply IH; [by right|done].
Qed.

Lemma file_server_flaky url content : file_server url content → flaky_file_server url content.
Proof.
  intros Hs log offset. right. destruct (Hs log offset) as (resp & Hr & Hok & Hcase). exists resp. split; [done|].
  destruct (decide (offset = 0)); [left; destruct Hcase; split; [done|]; split; [done|by left]|].
  destruct (decide (offset < len content)).
  - right. left. destruct Hcase. split; [done|]. split; [lia|]. split; [done|by left].
  - right. right. split; [done|lia].
Qed.

Lemma download_whole url content a l last m :
  file_server url content → len content ≤ MAX_BODY_BYTES →
  download_loop (mret false) url (a :: l) 0 last m = (Ok (content, false), logged m (range_request url 0)).
Proof.
  intros Hs Hlen. rewrite download_round. unfold reply. rewrite app_nil_r.
  destruct (Hs (m_log m) 0) as (resp & -> & Hok & Hst & Hb).
  rewrite Hst. cbn [N.eqb Pos.eqb andb is_success]. change (is_success 200) with true. cbv iota.
  by rewrite (act_bind_run _ _ _ _ _ (read_body_ok _ [] content _ Hok Hb Hlen)).
Qed.
Lemma download_file url content offset m :
  file_server url content → len content ≤ MAX_BODY_BYTES →
  ∃ m', download_loop (mret false) url attempts offset None m
        = (Ok (if decide (0 < offset < len content) then (drop (N.to_nat offset) content, true)
               else (content, false)), m')
    ∧ len (m_log m') ≤ len (m_log m) + 2 ∧ m_sleeps m' = m_sleeps m ∧ quiet m m'.
Proof.
  intros Hs Hlen. destruct (decide (offset = 0)) as [->|Hne].
  { exists (logged m (range_request url 0)). unfold attempts. rewrite (download_whole url content) by done.
    rewrite decide_False by lia. simpl. rewrite len_app. change (len [_]) with 1. split_and!; [done|lia|done..]. }
  unfold attempts. rewrite download_round. unfold reply. rewrite app_nil_r.
  destruct (Hs (m_log m) offset) as (resp & -> & Hok & Hcase). rewrite decide_False in Hcase by done.
  destruct (decide (offset < len content)) as [Hlt|Hge].
  - destruct Hcase as [Hst Hb]. rewrite Hst. change (206 =? 416) with false.
    change (206 =? 206) with true. cbn [andb]. cbv iota.
    assert (len (drop (N.to_nat offset) content) ≤ MAX_BODY_BYTES) as Hlen'.
    { unfold len in *. rewrite length_drop. lia. }
    rewrite (act_bind_run _ _ _ _ _ (read_body_ok _ [] _ _ Hok Hb Hlen')).
    exists (logged m (range_request url offset)). rewrite decide_True by lia. simpl. rewrite len_app.
    change (len [_]) with 1. split_and!; [done|lia|done..].
  - rewrite Hcase. change (416 =? 416) with true. rewrite (proj2 (N.ltb_lt 0 offset)) by lia. cbn [andb]. cbv iota.
    rewrite (download_whole url content) by done. rewrite decide_False by lia.
    eexists. split; [done|]. simpl. rewrite !len_app. change (len [_]) with 1. split_and!; [lia|done..].
Qed.

(** *** A server that recovers *)
(** Within [n] requests the server gives what completes the file: failures worth
    a retry may come first, and a range past the end starts the file over. *)
Inductive served (url : string) (content : list byte) : nat → list Request → N → Prop :=
| served_whole n log offset resp :
    serve log (range_request url offset) = inr resp → rs_status resp = 200 →
    reader_ok (rs_body resp) → body_bytes (rs_body resp) = inr content → served url content (S n) log offset
| served_rest n log offset resp :
    serve log (range_request url offset) = inr resp → rs_status resp = 206 → 0 < offset < len content →
    reader_ok (rs_body resp) → body_bytes (rs_body resp) = inr (drop (N.to_nat offset) content) →
    served url content (S n) log offset
| served_restart n log offset resp :
    serve log (range_request url offset) = inr resp → rs_status resp = 416 → 0 < offset →
    served url content n (log ++ [range_request url offset]) 0 → served url content (S n) log offset
| served_retry n log offset :
    transient (serve log (range_request url offset)) = true →
    served url content n (log ++ [range_request url offset]) offset → served url content (S n) log offset.

Lemma served_positive url content n log offset : served url content n log offset → ∃ n', n = S n'.
Proof. destruct 1; eauto. Qed.
Lemma completes_restart content offset v : completes content 0 v → completes content offset v.
Proof. unfold completes. destruct v.2; [lia|done]. Qed.
Lemma download_served url content n a offset last m :
  served url content n (m_log m) offset → len content ≤ MAX_BODY_BYTES → a + N.of_nat n = 5 →
  ∃ v m', download_loop (mret false) url (nums a n) offset last m = (Ok v, m')
    ∧ completes content offset v ∧ quiet m m'.
Proof.
  intros Hs Hlen. remember (m_log m) as log eqn:Hlog. revert a last m Hlog.
  induction Hs as [n log offset resp Hr Hst Hok Hb|n log offset resp Hr Hst Ho Hok Hb
    |n log offset resp Hr Hst Ho Hs IH|n log offset Ht Hs IH]; intros a last m -> Ha;
    change (nums a (S n)) with (a :: nums (a + 1) n); rewrite download_round; unfold reply; rewrite app_nil_r;
    [rewrite Hr, Hst..|].
  - change (200 =? 416) with false. change (200 =? 206) with false. change (is_success 200) with true.
    cbn [andb]. cbv iota. rewrite (act_bind_run _ _ _ _ _ (read_body_ok _ [] content _ Hok Hb Hlen)).
    by eexists _, _.
  - change (206 =? 416) with false. change (206 =? 206) with true. cbn [andb]. cbv iota.
    assert (len (drop (N.to_nat offset) content) ≤ MAX_BODY_BYTES) as Hlen'
      by (unfold len in *; rewrite length_drop; lia).
    rewrite (act_bind_run _ _ _ _ _ (read_body_ok _ [] _ _ Hok Hb Hlen')). by eexists _, _.
  - change (416 =? 416) with true. rewrite (proj2 (N.ltb_lt 0 offset)) by lia. cbn [andb]. cbv iota.
    destruct (IH (a + 1) last (logged m (range_request url offset)) eq_refl ltac:(lia)) as (v & m' & -> & Hc & Hq).
    exists v, m'. split; [done|]. split; [by apply completes_restart|done].
  - destruct (served_positive _ _ _ _ _ Hs) as [n' ->].
    assert (can_retry a = true) as Hcan by (apply can_retry_more; lia).
    assert (∀ last, ∃ v m', (_ ← sleep_before_retry a; download_loop (mret false) url (nums (a + 1) (S n')) offset last)
      (logged m (range_request url offset)) = (Ok v, m') ∧ completes content offset v ∧ quiet m m') as Hnext.
    { intros last'. destruct (after_sleep a (download_loop (mret false) url (nums (a + 1) (S n')) offset last')
        (logged m (range_request url offset)) Hcan) as (m1 & -> & Hl & Hq).
      destruct (IH (a + 1) last' m1 (eq_sym Hl) ltac:(lia)) as (v & m' & -> & Hc & Hq').
      exists v, m'. split; [done|]. split; [done|]. by etrans. }
    destruct (serve (m_log m) (range_request url offset)) as [e|resp]; [rewrite Hcan; apply Hnext|].
    destruct (transient_not_416 _ Ht) as (-> & -> & ->). simpl in Ht. rewrite Ht, Hcan. apply Hnext.
Qed.
Lemma file_server_served url content log offset : file_server url content → served url content 5 log offset.
Proof.
  intros Hs. destruct (Hs log offset) as (resp & Hr & Hok & Hcase).
  destruct (decide (offset = 0)); [destruct Hcase; by eapply served_whole|].
  destruct (decide (offset < len content)); [destruct Hcase; eapply served_rest; eauto; lia|].
  eapply served_restart; [done..|lia|].
  destruct (Hs (log ++ [range_request url offset]) 0) as (resp' & Hr' & Hok' & Hst & Hb). by eapply served_whole.
Qed.

(** *** The loop that forgets its error *)
Definition readers_ok : Prop := ∀ log rq resp, serve log rq = inr resp → reader_ok (rs_body resp).
Definition loop_panics (url : string) (n : nat) (offset : N) (last : option string) (m : Machine) : Prop :=
  last = None ∧ 0 < offset
  ∧ (∀ i, (i < n)%nat → ∃ resp, reply m (range_request url offset) i = inr resp
                             ∧ transient (inr resp) = true)
  ∧ ∃ resp, reply m (range_request url offset) n = inr resp ∧ rs_status resp = 416.

Lemma finish_no_panic (b : bool) r (m : Machine) :
  reader_ok r →
  no_panic ((read_body_with_cancel (mret false) [] r ≫= λ bytes, mret (M:=Act) (bytes, b)) m).1.
Proof.
  intros Hr. apply act_no_panic_bind; [by apply read_body_no_panic; [apply act_no_panic_ret|]|].
  intros. apply act_no_panic_ret.
Qed.
Definition run_panics {A} (run : result A * Machine) : Prop := ∃ s, run.1 = Panic s.
Lemma run_no_panic {A} (run : result A * Machine) : no_panic run.1 → ¬ run_panics run.
Proof. intros Hn [s Hs]. by apply (Hn s). Qed.

(** Once the offset is 0, or an error is remembered, the loop cannot run dry. *)
Lemma download_no_panic url a n offset last m :
  readers_ok → a + N.of_nat n = 4 → offset = 0 ∨ is_Some last →
  ¬ run_panics (download_loop (mret false) url (nums a (S n)) offset last m).
Proof.
  intros Hok. revert a offset last m. induction n as [|n IH]; intros a offset last m Ha Hcase;
    change (nums a (S ?n)) with (a :: nums (a + 1) n); rewrite download_round;
    destruct (reply m (range_request url offset) 0) as [e|resp] eqn:Hr.
  - rewrite (can_retry_last a) by lia. by apply run_no_panic.
  - destruct ((rs_status resp =? 416) && (0 <? offset)) eqn:E.
    { cbn [nums download_loop]. apply andb_true_iff in E as [_ E%N.ltb_lt].
      destruct Hcase as [->|[e ->]]; [lia|]. by apply run_no_panic. }
    case_match; [apply run_no_panic, finish_no_panic; by eapply Hok|].
    case_match; [apply run_no_panic, finish_no_panic; by eapply Hok|].
    rewrite (can_retry_last a) by lia.
    rewrite andb_false_r. by apply run_no_panic.
  - assert (can_retry a = true) as Hc by (apply can_retry_more; lia).
    rewrite Hc. destruct (after_sleep a (download_loop (mret false) url (nums (a + 1) (S n)) offset (Some e))
      (logged m (range_request url offset)) Hc) as (m1 & -> & _). apply IH; [lia|right; by eexists].
  - assert (can_retry a = true) as Hc by (apply can_retry_more; lia).
    case_match; [apply IH; [lia|by left]|].
    case_match; [apply run_no_panic, finish_no_panic; by eapply Hok|].
    case_match; [apply run_no_panic, finish_no_panic; by eapply Hok|].
    rewrite Hc, andb_true_r. case_match; [|by apply run_no_panic].
    destruct (after_sleep a (download_loop (mret false) url (nums (a + 1) (S n)) offset last)
      (logged m (range_request url offset)) Hc) as (m1 & -> & _). apply IH; [lia|done].
Qed.

Lemma download_panics url a n offset m :
  readers_ok → a + N.of_nat n = 4 →
  run_panics (download_loop (mret false) url (nums a (S n)) offset None m)
  ↔ loop_panics url n offset None m.
Proof.
  intros Hok. revert a m. induction n as [|n IH]; intros a m Ha;
    change (nums a (S ?n)) with (a :: nums (a + 1) n); rewrite download_round; unfold loop_panics;
    destruct (reply m (range_request url offset) 0) as [e|resp] eqn:Hr.
  - rewrite (can_retry_last a) by lia.
    split; [by intros [s Hs]|]. intros (_ & _ & _ & resp & Hresp & _). congruence.
  - destruct ((rs_status resp =? 416) && (0 <? offset)) eqn:E.
    + apply andb_true_iff in E as [E1%N.eqb_eq E2%N.ltb_lt]. split; [|intros _; by eexists].
      intros _. split_and!; [done..|lia|by exists resp].
    + apply andb_false_iff in E. split.
      * intros Hp. exfalso. revert Hp.
        case_match; [apply run_no_panic, finish_no_panic; by eapply Hok|].
        case_match; [apply run_no_panic, finish_no_panic; by eapply Hok|].
        rewrite (can_retry_last a) by lia.
        rewrite andb_false_r. by apply run_no_panic.
      * intros (_ & Hpos & _ & resp' & Hr' & Hs). simplify_eq.
        rewrite N.eqb_neq, N.ltb_ge in E. destruct E; [done|lia].
  - assert (can_retry a = true) as Hc by (apply can_retry_more; lia).
    rewrite Hc. destruct (after_sleep a (download_loop (mret false) url (nums (a + 1) (S n)) offset (Some e))
      (logged m (range_request url offset)) Hc) as (m1 & -> & _). split.
    + intros Hp. exfalso. revert Hp. apply download_no_panic; [done|lia|right; by eexists].
    + intros (_ & _ & Hall & _). destruct (Hall O) as (resp & Hresp & _); [lia|congruence].
  - assert (can_retry a = true) as Hc by (apply can_retry_more; lia).
    destruct (transient (inr resp)) eqn:Ht.
    + destruct (transient_not_416 _ Ht) as (E1 & E2 & E3). rewrite E1, E2, E3. simpl in Ht. rewrite Hc, Ht.
      cbn [andb]. cbv iota.
      destruct (after_sleep a (download_loop (mret false) url (nums (a + 1) (S n)) offset None)
        (logged m (range_request url offset)) Hc) as (m1 & -> & Hl & _).
      rewrite IH by lia. unfold loop_panics. setoid_rewrite (reply_shift m m1 _ _ Hl). split.
      * intros (? & ? & Hall & Hlast). split_and!; [done..| |done]. intros [|i] Hi; [by exists resp|].
        apply Hall. lia.
      * intros (? & ? & Hall & Hlast). split_and!; [done..| |done]. intros i Hi. apply Hall. lia.
    + split.
      * intros Hp. exfalso. revert Hp.
        case_match; [apply download_no_panic; [done|lia|by left]|].
        case_match; [apply run_no_panic, finish_no_panic; by eapply Hok|].
        case_match; [apply run_no_panic, finish_no_panic; by eapply Hok|].
        simpl in Ht. rewrite Ht. by apply run_no_panic.
      * intros (_ & _ & Hall & _). destruct (Hall O) as (resp' & Hresp & Ht'); [lia|]. congruence.
Qed.
End Downloads.

(** ** Path segments *)
(** Decodes [%XY]; the inverse of [path_segment_encode]. *)
Definition upper_hex_value (c : Ascii.ascii) : option N :=
  let n := Ascii.N_of_ascii c in
  if (48 <=? n) && (n <=? 57) then Some (n - 48)
  else if (65 <=? n) && (n <=? 70) then Some (n - 55) else None.
Fixpoint path_segment_decode (s : string) : option (list byte) :=
  match s with
  | ""%string => Some []
  | String c rest =>
    if decide (Ascii.byte_of_ascii c = x25) then
      match rest with
      | String a (String b s) =>
        x ← upper_hex_value a; y ← upper_hex_value b; bs ← path_segment_decode s;
        Some (byte_of_N (x * 16 + y) :: bs)
      | _ => None
      end
    else bs ← path_segment_decode rest; Some (Ascii.byte_of_ascii c :: bs)
  end.
Definition segment_char (b : byte) : bool := unreserved b || bool_decide (b = x25).

Definition encode_byte (byte : byte) : string :=
  if unreserved byte then String (Ascii.ascii_of_byte byte) "" else "%" +:+ hex2 true byte.
Lemma decode_byte b s :
  path_segment_decode (encode_byte b +:+ s) = (cons b) <$> path_segment_decode s.
Proof.
  assert (unreserved b = true →
    Ascii.byte_of_ascii (Ascii.ascii_of_byte b) = b ∧ bool_decide (b = x25) = false) as Hu by by destruct b.
  assert (let n := Byte.to_N b in upper_hex_value (hex_digit true (n / 16)) = Some (n / 16)
    ∧ upper_hex_value (hex_digit true (n mod 16)) = Some (n mod 16)
    ∧ byte_of_N (n / 16 * 16 + n mod 16) = b) as (H1 & H2 & H3) by by destruct b.
  unfold encode_byte. destruct (unreserved b).
  - destruct Hu as [E Hn]; [done|]. apply bool_decide_eq_false in Hn.
    change (String (Ascii.ascii_of_byte b) "" +:+ s) with (String (Ascii.ascii_of_byte b) s).
    cbn [path_segment_decode]. rewrite E, decide_False by done. by destruct (path_segment_decode s).
  - change (("%" +:+ hex2 true b) +:+ s)
      with (String (Ascii.ascii_of_byte x25) (String (hex_digit true (Byte.to_N b / 16))
             (String (hex_digit true (Byte.to_N b mod 16)) s))).
    cbn [path_segment_decode]. rewrite decide_True, H1, H2 by done. cbn [mbind option_bind].
    rewrite H3. by destruct (path_segment_decode s).
Qed.
Lemma encode_byte_chars b : Forall (λ c, segment_char c = true) (str_bytes (encode_byte b)).
Proof. destruct b; repeat constructor. Qed.
Lemma path_segment_roundtrip value :
  path_segment_decode (path_segment_encode value) = Some (str_bytes value)
  ∧ Forall (λ c, segment_char c = true) (str_bytes (path_segment_encode value)).
Proof.
  unfold path_segment_encode. induction (str_bytes value) as [|b bs [IH1 IH2]]; [by split; [|constructor]|].
  cbn [foldr]. change (if unreserved b then _ else _) with (encode_byte b).
  rewrite decode_byte, IH1. split; [done|]. rewrite str_bytes_app.
  apply Forall_app_2; [apply encode_byte_chars|done].
Qed.

(** ** Properties *)
(** C37: [check], [get_json] and [post_json] send the same request at most five
    times; they go on exactly while the replies are transport errors or server
    errors, wait a delay within a quarter of the table's between two calls, touch
    no file, and return what the last reply gives (a request that cannot be
    serialised is never sent).  In particular [expect] on the remembered error
    is never reached. *)
Theorem client_retries `{Net, BodyText} (self : Client) m :
  (∀ (J : BodyJson CheckResponse) request,
     retried {| rq_method := "GET"; rq_url := base_url self +:+ "/v1/patches/check"; rq_headers := [];
                rq_query := check_query request; rq_body := None |}
       read_json_body 0 4 m (check self request m))
  ∧ (∀ A (J : BodyJson A) p,
     retried {| rq_method := "GET"; rq_url := base_url self +:+ p; rq_headers := authorization self;
                rq_query := []; rq_body := None |}
       (read_json_body (A:=A)) 0 4 m (get_json self p m))
  ∧ (∀ A (V : ToValue A) p (a : A) json, to_value a = Ok json →
     retried {| rq_method := "POST"; rq_url := base_url self +:+ p; rq_headers := authorization self;
                rq_query := []; rq_body := Some json |}
       (λ _, Ok tt) 0 4 m (post_json self p a m))
  ∧ (∀ A (V : ToValue A) p (a : A) e, to_value a = Err e → post_json self p a m = (Err (Json e), m)).
Proof.
  split; [|split; [|split]].
  - intros. by apply (retry_loop_retried _ _ 4 0).
  - intros. by apply (retry_loop_retried _ _ 4 0).
  - intros A V p a json Hv. unfold post_json. rewrite Hv. cbn [map_err].
    rewrite (act_bind_run _ _ m json m) by done. by apply (retry_loop_retried _ _ 4 0).
  - intros A V p a e Hv. unfold post_json. by rewrite Hv.
Qed.

(** C38: against a server whose replies are right for a file or failures worth a
    retry, whatever the download returns completes a partial file of [offset]
    bytes; it does return, for a file within the 64 MiB limit, when the server
    gives a complete reply within five requests; and against a server that does
    not fail it returns the rest of the file, or the whole file when nothing
    usable was left to resume, after at most two requests. *)
Theorem download_resumes `{Net, BodyText} dir url content offset m :
  is_http url = true →
  (flaky_file_server url content → ∀ cancel v m',
     download_bytes_from_with_cancel dir url offset cancel m = (Ok v, m') → completes content offset v)
  ∧ (served url content 5 (m_log m) offset → len content ≤ MAX_BODY_BYTES → ∃ v m',
     download_bytes_from_with_cancel dir url offset (mret false) m = (Ok v, m')
     ∧ completes content offset v ∧ quiet m m')
  ∧ (file_server url content → len content ≤ MAX_BODY_BYTES → ∃ m',
     download_bytes_from_with_cancel dir url offset (mret false) m
       = (Ok (if decide (0 < offset < len content) then (drop (N.to_nat offset) content, true)
              else (content, false)), m')
     ∧ len (m_log m') ≤ len (m_log m) + 2 ∧ m_sleeps m' = m_sleeps m ∧ quiet m m').
Proof.
  intros Hurl. unfold download_bytes_from_with_cancel. rewrite Hurl. split; [|split].
  - intros Hs cancel v m' Hrun. eapply download_loop_completes; [done|by left|done].
  - intros Hs Hlen. by apply (download_served url content 5 0).
  - intros Hs Hlen. by apply download_file.
Qed.

(** A resumed download panics instead of returning an error exactly when the
    first four replies are server errors and the fifth is 416; started at
    offset 0 it never panics. *)
Lemma download_forgets_error `{Net, BodyText} dir url offset m :
  is_http url = true → readers_ok →
  (∃ s m', download_bytes_from_with_cancel dir url offset (mret false) m = (Panic s, m')) ↔
    0 < offset
    ∧ (∀ i, (i < 4)%nat → ∃ resp, reply m (range_request url offset) i = inr resp
                               ∧ should_retry_status (rs_status resp) = true)
    ∧ ∃ resp, reply m (range_request url offset) 4 = inr resp ∧ rs_status resp = 416.
Proof.
  intros Hurl Hok. unfold download_bytes_from_with_cancel. rewrite Hurl.
  pose proof (download_panics url 0 4 offset m Hok eq_refl) as Hp. unfold run_panics, loop_panics in Hp.
  change (nums 0 5) with attempts in Hp.
  destruct (download_loop (mret false) url attempts offset None m) as [r m'] eqn:E. simpl in Hp. split.
  - intros (s & m1 & [= -> ->]). destruct Hp as [Hp _]. destruct Hp as (_ & ? & ? & ?); [by eexists|]. done.
  - intros (? & ? & ?). destruct (proj2 Hp) as [s ->]; [done|]. by exists s, m'.
Qed.

(** An encoded path segment decodes to the bytes it was made from and consists
    of unreserved characters and percent signs only, so it can neither end the
    path nor add a segment. *)
Lemma path_segment_safe value :
  path_segment_decode (path_segment_encode value) = Some (str_bytes value)
  ∧ Forall (λ c, segment_char c = true) (str_bytes (path_segment_encode value))
  ∧ segment_char x2f = false ∧ segment_char x3f = false ∧ segment_char x23 = false.
Proof. destruct (path_segment_roundtrip value). by split_and!. Qed.

(** ** Witnesses *)
Definition demo_body_text : BodyText := λ r,
  match body_bytes r with inr bs => from_utf8 bs | inl e => Err e end.
Definition demo_url : string := "http://h/f".
Definition demo_content : list byte := [x01; x02].
(** Serves two bytes: all of them, the second one, or 416. *)
Definition demo_file_net : Net := λ _ rq,
  match rq_headers rq with
  | [(_, range)] =>
    if String.eqb range "bytes=1-" then inr {| rs_status := 206; rs_body := [inr [x02]] |}
    else inr {| rs_status := 416; rs_body := [] |}
  | _ => inr {| rs_status := 200; rs_body := [inr [x01]; inr [x02]] |}
  end.
(** Four server errors, then 416. *)
Definition demo_failing_net : Net := λ log _,
  inr {| rs_status := if len log <? 4 then 503 else 416; rs_body := [] |}.
Definition demo_machine : Machine := mk_machine (mk_world ∅ [] [] [] 1 0) [] [] false [] ∅.

Lemma string_app_inj_r s t u : s +:+ u = t +:+ u → s = t.
Proof.
  intros E%(f_equal str_bytes). rewrite !str_bytes_app in E. apply app_inv_tail in E.
  by rewrite <- (str_of_str_bytes s), <- (str_of_str_bytes t), E.
Qed.
Lemma demo_file_server : @file_server demo_file_net demo_url demo_content.
Proof.
  intros log offset. unfold serve, demo_file_net, range_request. cbn [rq_headers].
  destruct (decide (offset = 0)) as [->|Hne].
  { eexists. split; [reflexivity|]. split; [|done]. repeat constructor; done. }
  rewrite (proj2 (N.ltb_lt 0 offset)) by lia.
  destruct (String.eqb_spec ("bytes=" +:+ dec offset +:+ "-") "bytes=1-") as [E|E].
  - assert (offset = 1) as ->.
    { injection E as E. change (dec offset +:+ "-" = dec 1 +:+ "-") in E. apply string_app_inj_r in E.
      by apply pretty_N_inj in E. }
    eexists. split; [reflexivity|]. split; [|done]. repeat constructor; done.
  - eexists. split; [reflexivity|]. split; [constructor|].
    rewrite decide_False; [done|]. change (len demo_content) with 2. intros Hlt.
    assert (offset = 1) as -> by lia. by apply E.
Qed.

Lemma download_resumes_witness :
  ∃ m', @download_bytes_from_with_cancel demo_file_net demo_body_text [] demo_url 1 (mret false) demo_machine
        = (Ok ([x02], true), m').
Proof.
  destruct (proj2 (proj2 (@download_resumes demo_file_net demo_body_text [] demo_url demo_content 1 demo_machine eq_refl))
    demo_file_server ltac:(done)) as (m' & H & _).
  exists m'. exact H.
Defined.
Lemma download_forgets_error_witness :
  ∃ s m', @download_bytes_from_with_cancel demo_failing_net demo_body_text [] demo_url 1 (mret false) demo_machine
          = (Panic s, m').
Proof.
  apply (@download_forgets_error demo_failing_net demo_body_text [] demo_url 1 demo_machine).
  - reflexivity.
  - intros log rq resp [= <-]. constructor.
  - split; [lia|]. split; [|by eexists].
    intros i Hi. do 4 (destruct i as [|i]; [by eexists|]). lia.
Defined.
