(* ===== verification/Runtime.v ===== *)
(** * The updater's C interface

    Models [updater/src/lib.rs]: the process-wide [Runtime], its configuration
    file, the resumable download with its hash checks, the events posted to the
    server, and every [fcb_*] function the Flutter plugin and the engine call.

    One call runs at a time here, as [RUNTIME]'s mutex has it.  An update check
    may find a flight of another thread, or one that a panic left, in
    [CHECK_FLIGHTS] and wait for its result, for ever if there will be none; the
    threads that check at the same time are in [SingleFlight].  A pointer is [None]
    when null; what a function writes through an out pointer is part of its result. *)
From Stdlib Require Import Floats.SpecFloat.
From S2P Require Import Prelude Text Floats External Bytecode Crypto Manifest Diff World State Flights Net ServerApi.
Local Open Scope N_scope.

(** ** C strings *)
(** The bytes before the NUL. *)
Abbreviation cstr := (option (list byte)).
Definition read_cstr (ptr : cstr) : res string string :=
  match ptr with None => Ok ""%string | Some bs => from_utf8 bs end.
(** [CString::new(s).unwrap_or_else(..)]: a text with a NUL is replaced. *)
Definition cstring_or (fallback s : string) : string :=
  if bool_decide (x00 ∈ str_bytes s) then fallback else s.

(** ** Data *)
Record FcbInitParams := {
  pa_app_id : cstr; pa_channel : cstr; pa_release_version : cstr; pa_platform : cstr;
  pa_arch : cstr; pa_cache_dir : cstr; pa_public_key_pem : cstr; pa_check_on_startup : Z;
}.
Record FcbLaunchPatch := {
  has_patch : Z; lp_patch_number : Z; lp_backend : option string; lp_artifact_path : option string;
  lp_bytecode_path : option string; lp_manifest_path : option string;
}.
(** [PathBuf]s are kept as the texts they were made from. *)
Record Runtime := mk_runtime {
  rt_app_id : string; rt_channel : string; rt_release_version : string; rt_platform : string;
  rt_arch : string; rt_cache_dir : string; rt_public_key_b64 : string; rt_server_url : string;
  rt_org_id : option string; rt_client_id : string; rt_baseline_artifact_path : option string;
  rt_last_check : option CheckResponse; rt_last_error : string; rt_strings : list string;
}.
Record InterpretFailureLocation := { bytecode_offset : option N; source_location : option string }.
Record InterpreterStatsSnapshot := { interpreted : N; aot : N }.

Definition runtime_new : Runtime := mk_runtime
  "" "stable" "" "android" "arm64-v8a" ".fcb/cache" "" "" None "default" None None "" [].

(** Field assignments. *)
Definition set_app_id v r := mk_runtime v (rt_channel r) (rt_release_version r) (rt_platform r) (rt_arch r) (rt_cache_dir r) (rt_public_key_b64 r) (rt_server_url r) (rt_org_id r) (rt_client_id r) (rt_baseline_artifact_path r) (rt_last_check r) (rt_last_error r) (rt_strings r).
Definition set_channel v r := mk_runtime (rt_app_id r) v (rt_release_version r) (rt_platform r) (rt_arch r) (rt_cache_dir r) (rt_public_key_b64 r) (rt_server_url r) (rt_org_id r) (rt_client_id r) (rt_baseline_artifact_path r) (rt_last_check r) (rt_last_error r) (rt_strings r).
Definition set_release_version v r := mk_runtime (rt_app_id r) (rt_channel r) v (rt_platform r) (rt_arch r) (rt_cache_dir r) (rt_public_key_b64 r) (rt_server_url r) (rt_org_id r) (rt_client_id r) (rt_baseline_artifact_path r) (rt_last_check r) (rt_last_error r) (rt_strings r).
Definition set_platform v r := mk_runtime (rt_app_id r) (rt_channel r) (rt_release_version r) v (rt_arch r) (rt_cache_dir r) (rt_public_key_b64 r) (rt_server_url r) (rt_org_id r) (rt_client_id r) (rt_baseline_artifact_path r) (rt_last_check r) (rt_last_error r) (rt_strings r).
Definition set_arch v r := mk_runtime (rt_app_id r) (rt_channel r) (rt_release_version r) (rt_platform r) v (rt_cache_dir r) (rt_public_key_b64 r) (rt_server_url r) (rt_org_id r) (rt_client_id r) (rt_baseline_artifact_path r) (rt_last_check r) (rt_last_error r) (rt_strings r).
Definition set_cache_dir v r := mk_runtime (rt_app_id r) (rt_channel r) (rt_release_version r) (rt_platform r) (rt_arch r) v (rt_public_key_b64 r) (rt_server_url r) (rt_org_id r) (rt_client_id r) (rt_baseline_artifact_path r) (rt_last_check r) (rt_last_error r) (rt_strings r).
Definition set_public_key v r := mk_runtime (rt_app_id r) (rt_channel r) (rt_release_version r) (rt_platform r) (rt_arch r) (rt_cache_dir r) v (rt_server_url r) (rt_org_id r) (rt_client_id r) (rt_baseline_artifact_path r) (rt_last_check r) (rt_last_error r) (rt_strings r).
Definition set_server_url v r := mk_runtime (rt_app_id r) (rt_channel r) (rt_release_version r) (rt_platform r) (rt_arch r) (rt_cache_dir r) (rt_public_key_b64 r) v (rt_org_id r) (rt_client_id r) (rt_baseline_artifact_path r) (rt_last_check r) (rt_last_error r) (rt_strings r).
Definition set_org_id v r := mk_runtime (rt_app_id r) (rt_channel r) (rt_release_version r) (rt_platform r) (rt_arch r) (rt_cache_dir r) (rt_public_key_b64 r) (rt_server_url r) v (rt_client_id r) (rt_baseline_artifact_path r) (rt_last_check r) (rt_last_error r) (rt_strings r).
Definition set_client_id v r := mk_runtime (rt_app_id r) (rt_channel r) (rt_release_version r) (rt_platform r) (rt_arch r) (rt_cache_dir r) (rt_public_key_b64 r) (rt_server_url r) (rt_org_id r) v (rt_baseline_artifact_path r) (rt_last_check r) (rt_last_error r) (rt_strings r).
Definition set_baseline v r := mk_runtime (rt_app_id r) (rt_channel r) (rt_release_version r) (rt_platform r) (rt_arch r) (rt_cache_dir r) (rt_public_key_b64 r) (rt_server_url r) (rt_org_id r) (rt_client_id r) v (rt_last_check r) (rt_last_error r) (rt_strings r).
Definition set_last_check v r := mk_runtime (rt_app_id r) (rt_channel r) (rt_release_version r) (rt_platform r) (rt_arch r) (rt_cache_dir r) (rt_public_key_b64 r) (rt_server_url r) (rt_org_id r) (rt_client_id r) (rt_baseline_artifact_path r) v (rt_last_error r) (rt_strings r).
Definition set_last_error v r := mk_runtime (rt_app_id r) (rt_channel r) (rt_release_version r) (rt_platform r) (rt_arch r) (rt_cache_dir r) (rt_public_key_b64 r) (rt_server_url r) (rt_org_id r) (rt_client_id r) (rt_baseline_artifact_path r) (rt_last_check r) v (rt_strings r).
Definition set_strings v r := mk_runtime (rt_app_id r) (rt_channel r) (rt_release_version r) (rt_platform r) (rt_arch r) (rt_cache_dir r) (rt_public_key_b64 r) (rt_server_url r) (rt_org_id r) (rt_client_id r) (rt_baseline_artifact_path r) (rt_last_check r) (rt_last_error r) v.

(** ** The process *)
(** The statics of the library and the machine below; [p_delivered] are the
    texts passed to the callback of [fcb_drain_rollback_events]. *)
Record Process := mk_process {
  p_runtime : Runtime; p_machine : Machine; p_interpreted : N; p_aot : N; p_delivered : list string;
}.
Definition Ffi (A : Type) : Type := Process → result A * Process.
#[global] Instance ffi_ret : MRet Ffi := λ A a p, (Ok a, p).
#[global] Instance ffi_bind : MBind Ffi := λ A B f x p,
  match x p with
  | (Ok a, p') => f a p'
  | (Err e, p') => (Err e, p')
  | (Panic s, p') => (Panic s, p')
  end.
Definition ffi_lift {A} (r : result A) : Ffi A := λ p, (r, p).
Definition get_runtime : Ffi Runtime := λ p, (Ok (p_runtime p), p).
Definition modify (f : Runtime → Runtime) : Ffi unit := λ p,
  (Ok tt, mk_process (f (p_runtime p)) (p_machine p) (p_interpreted p) (p_aot p) (p_delivered p)).
Definition act {A} (x : Act A) : Ffi A := λ p,
  let '(r, m) := x (p_machine p) in
  (r, mk_process (p_runtime p) m (p_interpreted p) (p_aot p) (p_delivered p)).
Definition ffi_try {A} (x : Ffi A) : Ffi (error + A) := λ p,
  match x p with
  | (Ok a, p') => (Ok (inr a), p')
  | (Err e, p') => (Ok (inl e), p')
  | (Panic s, p') => (Panic s, p')
  end.
(** [let _ = x;]. *)
Definition ffi_ignore {A} (x : Ffi A) : Ffi unit := r ← ffi_try x; mret tt.
Definition deliver (s : string) : Ffi unit := λ p,
  (Ok tt, mk_process (p_runtime p) (p_machine p) (p_interpreted p) (p_aot p) (p_delivered p ++ [s])).

(** [Runtime::set_error] and [Runtime::keep]; a kept text stands for the pointer
    to it. *)
Definition with_error (message : string) (r : Runtime) : Runtime :=
  set_last_error (cstring_or "invalid error" message) r.
Definition set_error (message : string) : Ffi Z :=
  _ ← modify (with_error message); mret (-1)%Z.
Definition keep (value : string) : Ffi string :=
  let c := cstring_or "" value in
  _ ← modify (λ r, set_strings (rt_strings r ++ [c]) r); mret c.

(** [ffi_guard], and the same [catch_unwind] written out in
    [fcb_check_for_update_blocking]: a panic becomes the default and an error. *)
Definition ffi_guard {A} (dflt : A) (f : Ffi A) : Ffi A := λ p,
  match f p with
  | (Panic _, p') =>
    (Ok dflt, mk_process (with_error "panic across FFI boundary" (p_runtime p')) (p_machine p')
                (p_interpreted p') (p_aot p') (p_delivered p'))
  | other => other
  end.

(** ** Numbers *)
(** [s.parse::<uN>()]: an optional [+], then digits. *)
Definition digit_value (c : Ascii.ascii) : option N :=
  let n := Ascii.N_of_ascii c in if (48 <=? n) && (n <=? 57) then Some (n - 48) else None.
Fixpoint parse_digits (acc : N) (s : string) : option N :=
  match s with
  | ""%string => Some acc
  | String c s => d ← digit_value c; parse_digits (acc * 10 + d) s
  end.
Definition parse_unsigned (max : N) (s : string) : option N :=
  let s := match strip_prefix "+" s with Some s' => s' | None => s end in
  if is_empty s then None else n ← parse_digits 0 s; try_from max n.

(** [stats.total()] and [stats.ratio()], in binary64. *)
Definition stats_total (self : InterpreterStatsSnapshot) : N :=
  saturating_add u64_max (interpreted self) (aot self).
Definition stats_ratio (self : InterpreterStatsSnapshot) : spec_float :=
  let total := stats_total self in
  if total =? 0 then S754_zero false
  else f64_div (u64_to_f64 (interpreted self)) (u64_to_f64 total).

(** ** Failure locations *)
Fixpoint count_digits (s : string) : nat :=
  match s with
  | String c s => match digit_value c with Some _ => S (count_digits s) | None => O end
  | ""%string => O
  end.
Definition parse_interpret_failure_location (error : string) : InterpretFailureLocation :=
  match find " at bytecode offset " error with
  | None => Build_InterpretFailureLocation None None
  | Some offset_start =>
    let offset_digits := sdrop (offset_start + String.length " at bytecode offset ") error in
    let digit_len := count_digits offset_digits in
    let offset := if (0 <? digit_len)%nat then parse_unsigned u32_max (stake digit_len offset_digits)
                  else None in
    match find " (" (sdrop offset_start error) with
    | None => Build_InterpretFailureLocation offset None
    | Some open_paren =>
      let suffix_start := (offset_start + open_paren + 2)%nat in
      match find ")" (sdrop suffix_start error) with
      | None => Build_InterpretFailureLocation offset None
      | Some close_paren =>
        let suffix := stake close_paren (sdrop suffix_start error) in
        match strip_suffix " FCB patch" suffix with
        | Some source => Build_InterpretFailureLocation offset (if is_empty source then None else Some source)
        | None => Build_InterpretFailureLocation offset None
        end
      end
    end
  end.
Definition source_location_payload_value (location : option string) : Value.t :=
  match location with Some value => Value.String value | None => Value.Null end.

(** ** Public keys *)
Fixpoint windows3 {A} (l : list A) : list (list A) :=
  match l with
  | a :: (b :: c :: _) as rest => [a; b; c] :: windows3 rest
  | _ => []
  end.
(** [iter().rposition(p)]. *)
Fixpoint rposition {A} (p : A → bool) (l : list A) : option N :=
  match l with
  | [] => None
  | a :: l =>
    match rposition p l with
    | Some i => Some (i + 1)
    | None => if p a then Some 0 else None
    end
  end.
Definition KEY_ERROR : string := "public_key_pem must contain a 32-byte Ed25519 public key".

Section Keys.
Context `{Base64}.
Definition public_key_der_to_raw_b64 (der : list byte) : res string string :=
  if len der =? 32 then Ok (b64_encode der)
  else
    match rposition (λ w, bool_decide (w = [x03; x21; x00])) (windows3 der) with
    | Some pos =>
      let start := pos + 3 in
      if start + 32 <=? len der then Ok (b64_encode (slice der start (start + 32)))
      else Err KEY_ERROR
    | None => Err KEY_ERROR
    end.
Definition normalize_public_key_b64 (value : string) : res string string :=
  if contains "-----BEGIN" value then
    let body := foldr String.append ""%string
      (trim <$> List.filter (λ line, negb (starts_with "-----" line)) (lines value)) in
    der ← map_err (λ e, "invalid public_key_pem: " +:+ e) (b64_decode body);
    public_key_der_to_raw_b64 der
  else
    raw ← map_err (λ e, "invalid public_key_pem: " +:+ e) (b64_decode (trim value));
    public_key_der_to_raw_b64 raw.
End Keys.

(** ** More file calls *)
(** [OpenOptions::new().write(true).open(p)] and [.append(true)]: the file must
    exist. *)
Definition fs_open (p : path) : IO unit := io_call (λ f fs,
  match f with
  | Some f => (inl (fault_error f), fs)
  | None =>
    match fs !! p with
    | Some (File _) => (inr tt, fs)
    | Some Dir => (inl "Is a directory"%string, fs)
    | None => (inl "No such file or directory"%string, fs)
    end
  end).
(** [file.set_len(n)] of the open file [p]. *)
Definition fs_set_len (p : path) (n : N) : IO unit := io_call (λ f fs,
  match f with
  | Some f => (inl (fault_error f), fs)
  | None =>
    let old := match fs !! p with Some (File bs) => bs | _ => [] end in
    (inr tt, <[p := File (take (N.to_nat n) old ++ replicate (N.to_nat n - length old) x00)]> fs)
  end).
(** [write_file]. *)
Definition write_file (p : path) (bytes : list byte) : IO unit :=
  _ ← match parent p with Some d => fs_create_dir_all d | None => mret tt end;
  _ ← fs_create p;
  _ ← fs_append p bytes;
  fs_sync.

(** [config.get(key).and_then(|v| v.as_str())]. *)
Definition get_str (config : Value.t) (key : string) : option string :=
  match config with
  | Value.Object fields => match map_get key fields with Some (Value.String s) => Some s | _ => None end
  | _ => None
  end.

Definition ensure_hash `{Hash} (label : string) (bytes : list byte) (expected : string) : result unit :=
  let actual := sha256_hex bytes in
  if negb (String.eqb actual expected)
  then err (label +:+ " sha256 mismatch: expected " +:+ expected +:+ ", got " +:+ actual)
  else Ok tt.
Definition ensure_not_cancelled : Act unit :=
  c ← cancel_load; if (c : bool) then act_err "operation cancelled" else mret tt.
Definition ensure_configured (r : Runtime) : result unit :=
  if is_empty (rt_server_url r) then err "server_url is not configured"
  else if is_empty (rt_app_id r) then err "app_id is empty"
  else if is_empty (rt_release_version r) then err "release_version is empty"
  else Ok tt.
(** The guard of the event posting functions. *)
Definition unconfigured (r : Runtime) : bool :=
  is_empty (rt_server_url r) || is_empty (rt_app_id r) || is_empty (rt_release_version r).

(** [x.map_err(|e| e.to_string())] followed by [.map_err(err)]. *)
Definition as_message {A} (x : Act A) : Act A := λ m,
  let '(r, m') := x m in (map_err (λ e, Message (error_to_string e)) r, m').

Section Runtime.
Context `{Hash, Base64, Ed25519, BsdiffZstd}.
Context `{Serde Value.t, ToValue PatchManifest, Serde PatchManifest, Serde SimpleBinaryDiff}.
Context `{Serde BytecodeModule, Serde State, Serde CrashRollbackEvent, Serde (list CrashRollbackEvent)}.
Context `{ToValue CrashRollbackEvent, ToValue EventRequest, JsonF64}.
Context `{Net, BodyText, BodyJson CheckResponse}.
(** The cargo feature, and the directory relative paths start from. *)
Variable snapshot_replace : bool.
Variable current_dir : path.

Definition resolve (p : string) : path := join_rel current_dir p.
(** [Updater::new(runtime.cache_dir.clone())]. *)
Definition cache (r : Runtime) : path := resolve (rt_cache_dir r).
(** ** The configuration file *)
Definition runtime_config_path (r : Runtime) : path := join1 (cache r) "runtime_config.json".
Definition runtime_config (r : Runtime) : Value.t := json_object [
  ("app_id"%string, Value.String (rt_app_id r)); ("channel"%string, Value.String (rt_channel r));
  ("release_version"%string, Value.String (rt_release_version r));
  ("platform"%string, Value.String (rt_platform r)); ("arch"%string, Value.String (rt_arch r));
  ("server_url"%string, Value.String (rt_server_url r)); ("org_id"%string, json_opt_string (rt_org_id r));
  ("client_id"%string, Value.String (rt_client_id r))].
Definition persist_runtime_config (r : Runtime) : IO unit :=
  bytes ← io_lift (map_err Message (to_vec_pretty (runtime_config r)));
  write_file (runtime_config_path r) bytes.

(** [if condition { if let Some(value) = config.get(key) { if accept { field = value } } }]. *)
Definition hydrate_field (key : string) (wanted : bool) (accept : string → bool)
    (assign : string → Runtime → Runtime) (config : Value.t) (r : Runtime) : Runtime :=
  if wanted then
    match get_str config key with
    | Some value => if accept value then assign value r else r
    | None => r
    end
  else r.
Definition hydrate (config : Value.t) (r : Runtime) : Runtime :=
  let nonempty s := negb (is_empty s) in
  let r := hydrate_field "app_id" (is_empty (rt_app_id r)) (λ _, true) set_app_id config r in
  let r := hydrate_field "release_version" (is_empty (rt_release_version r)) (λ _, true)
             set_release_version config r in
  let r := hydrate_field "server_url" (is_empty (rt_server_url r)) (λ _, true) set_server_url config r in
  let r := hydrate_field "channel" true nonempty set_channel config r in
  let r := hydrate_field "platform" true nonempty set_platform config r in
  let r := hydrate_field "arch" true nonempty set_arch config r in
  let r := hydrate_field "org_id" (bool_decide (rt_org_id r = None)) (λ v, negb (is_blank v))
             (λ v, set_org_id (Some v)) config r in
  hydrate_field "client_id" (String.eqb (rt_client_id r) "default") nonempty set_client_id config r.
(** [hydrate_runtime_config]; on an error the runtime is unchanged. *)
Definition hydrate_runtime_config (r : Runtime) : IO Runtime :=
  let p := runtime_config_path r in
  e ← fs_exists p;
  if negb e then mret r
  else
    bytes ← fs_read p;
    config ← io_lift (map_err Message (from_slice (A:=Value.t) bytes));
    mret (hydrate config r).

(** ** Events *)
Definition client_hash (r : Runtime) : string :=
  sha256_hex (str_bytes (rt_client_id r +:+ rt_app_id r)).
Definition event_request (r : Runtime) (patch_number : option N) (event_type : string)
    (payload : Value.t) : EventRequest := {|
  ev_org_id := rt_org_id r; ev_app_id := rt_app_id r; ev_release_version := rt_release_version r;
  ev_platform := rt_platform r; ev_arch := rt_arch r; ServerApi.ev_patch_number := patch_number;
  ServerApi.event_type := event_type; client_id_hash := Some (client_hash r); ev_payload := payload |}.
Definition stats_fields (stats : InterpreterStatsSnapshot) : list (string * Value.t) := [
  ("interpreted_function_calls"%string, Value.Number (dec (interpreted stats)));
  ("aot_function_calls"%string, Value.Number (dec (aot stats)));
  ("interpreter_ratio"%string, json_f64 (stats_ratio stats))].

Definition flush_rollback_events (r : Runtime) : Act unit :=
  if unconfigured r then mret tt
  else
    events ← sys (rollback_events (cache r));
    if bool_decide (events = []) then mret tt
    else
      let client := client_new (rt_server_url r) in
      _ ← act_for_each (λ event,
            payload ← act_lift (map_err Json (to_value event));
            post_event client (event_request r (Some (State.ev_patch_number event))
              (State.event_type event) payload)) events;
      sys (clear_rollback_events (cache r)).

Definition post_launch_success_event (r : Runtime) (stats : InterpreterStatsSnapshot) : Act unit :=
  if unconfigured r then mret tt
  else
    state ← sys (load_state (cache r));
    let lkg := last_known_good_patch_number state in
    post_event (client_new (rt_server_url r)) (event_request r lkg "launch_success" (json_object
      ([("event_type"%string, Value.String "launch_success"); ("patch_number"%string, json_opt_u32 lkg)]
       ++ stats_fields stats))).
Definition post_install_event (r : Runtime) (stats : InterpreterStatsSnapshot) (patch_number : N) : Act unit :=
  if unconfigured r then mret tt
  else
    post_event (client_new (rt_server_url r)) (event_request r (Some patch_number) "install" (json_object
      ([("event_type"%string, Value.String "install");
        ("patch_number"%string, Value.Number (dec patch_number))] ++ stats_fields stats))).
Definition post_launch_failure_event (r : Runtime) (stats : InterpreterStatsSnapshot)
    (patch_number : N) (reason : string) : Act unit :=
  if unconfigured r then mret tt
  else
    post_event (client_new (rt_server_url r)) (event_request r (Some patch_number) "launch_failure"
      (json_object
        ([("event_type"%string, Value.String "launch_failure");
          ("patch_number"%string, Value.Number (dec patch_number));
          ("reason"%string, Value.String reason); ("error_message"%string, Value.String reason)]
         ++ stats_fields stats))).
Definition post_interpret_failure_event (r : Runtime) (stats : InterpreterStatsSnapshot)
    (patch_number : N) (function_id error : string) : Act unit :=
  if unconfigured r then mret tt
  else
    let location := parse_interpret_failure_location error in
    post_event (client_new (rt_server_url r)) (event_request r (Some patch_number) "crash_rollback"
      (json_object
        ([("event_type"%string, Value.String "crash_rollback"); ("reason"%string, Value.String "interpret_failure");
          ("patch_number"%string, Value.Number (dec patch_number));
          ("function_id"%string, Value.String function_id); ("error_message"%string, Value.String error);
          ("bytecode_offset"%string, json_opt_u32 (bytecode_offset location));
          ("source_location"%string, source_location_payload_value (source_location location))]
         ++ stats_fields stats))).

(** ** Downloading *)
Definition resume_offset (part_path progress_path : path) : IO N :=
  part_len ← fs_file_len part_path;
  progress ← io_ok (fs_read_to_string progress_path);
  let progress_len := value ← progress; parse_unsigned u64_max (trim value) in
  let offset := match progress_len with Some progress => N.min progress part_len | None => part_len end in
  _ ← (if offset <? part_len then _ ← fs_open part_path; fs_set_len part_path offset else mret tt);
  mret offset.

Definition download_resumable_payload (url : string) (out : path) (file_name : string) :
    Act (path * path) :=
  let final_path := join1 out file_name in
  let part_path := join1 out (file_name +:+ ".part") in
  let progress_path := join1 out ".progress" in
  offset ← sys (resume_offset part_path progress_path);
  '(bytes, append) ← download_bytes_from_with_cancel current_dir url offset cancel_load;
  _ ← ensure_not_cancelled;
  _ ← sys (if append && (0 <? offset) then
             _ ← fs_open part_path; _ ← fs_append part_path bytes; fs_sync
           else write_file part_path bytes);
  written ← sys (fs_file_len part_path);
  _ ← sys (write_file progress_path (str_bytes (dec written)));
  mret (part_path, final_path).

Definition download_dir (r : Runtime) (patch : PatchCheck) : path :=
  join_rel (join_rel (join1 (join_rel (join1 (cache r) "downloads") (rt_release_version r))
    (dec (pc_patch_number patch))) (rt_platform r)) (rt_arch r).

Definition download_patch_files (r : Runtime) (patch : PatchCheck) : Act (path * path) :=
  let out := download_dir r patch in
  _ ← sys (fs_create_dir_all out);
  _ ← ensure_not_cancelled;
  manifest_bytes ← download_bytes current_dir (manifest_url patch);
  _ ← ensure_not_cancelled;
  _ ← act_lift (ensure_hash "manifest" manifest_bytes (manifest_hash patch));
  let manifest_path := join1 out "patch_manifest.json" in
  _ ← sys (write_file manifest_path manifest_bytes);
  '(payload_part_path, payload_path) ← download_resumable_payload (payload_url patch) out "payload.bin";
  payload_bytes ← sys (fs_read payload_part_path);
  _ ← ensure_not_cancelled;
  _ ← act_lift (ensure_hash "payload" payload_bytes (payload_hash patch));
  _ ← sys (fs_rename payload_part_path payload_path);
  _ ← act_ok (sys (fs_remove_file (join1 out ".progress")));
  mret (manifest_path, payload_path).

(** ** Checking and installing *)
Definition check_request_from_runtime (r : Runtime) : Act Flights.CheckRequest :=
  _ ← act_lift (ensure_configured r);
  state ← sys (load_state (cache r));
  mret {| cq_server_url := rt_server_url r; cq_org_id := rt_org_id r; cq_app_id := rt_app_id r;
          cq_release_version := rt_release_version r; cq_platform := rt_platform r;
          cq_arch := rt_arch r; cq_channel := rt_channel r;
          cq_current_patch_number := State.current_patch_number state;
          cq_client_id := rt_client_id r |}.
Definition perform_check_request (request : Flights.CheckRequest) : Act CheckResponse :=
  ServerApi.check (client_new (cq_server_url request)) {|
    cr_org_id := cq_org_id request; cr_app_id := cq_app_id request;
    cr_release_version := cq_release_version request; cr_platform := cq_platform request;
    cr_arch := cq_arch request; cr_channel := cq_channel request;
    ServerApi.current_patch_number := cq_current_patch_number request;
    cr_client_id := cq_client_id request |}.
(** The result slot of a flight that is under way: its waiters get what the leader
    puts there, and wait for ever ([None]) when nobody does. *)
Definition wait_for (slot : option outcome) : Act (option CheckResponse) :=
  match slot with
  | Some (inr response) => mret (Some response)
  | Some (inl e) => act_err e
  | None => mret None
  end.
(** [check_for_update_singleflight]; [None] when the call never returns.  A panic
    of the request leaves the flight in the map, without a result. *)
Definition check_singleflight (request : Flights.CheckRequest) : Act (option CheckResponse) := λ m,
  match m_flights m !! request with
  | Some slot => wait_for slot m
  | None =>
    let '(result, m) := as_message (perform_check_request request)
                          (with_flights m (<[request := None]> (m_flights m))) in
    match result with
    | Ok response => (Ok (Some response), with_flights m (delete request (m_flights m)))
    | Err e => (Err e, with_flights m (delete request (m_flights m)))
    | Panic s => (Panic s, m)
    end
  end.
Definition check_for_update (r : Runtime) : Act (option CheckResponse) :=
  _ ← cancel_store false;
  request ← check_request_from_runtime r;
  check_singleflight request.

(** [None] when the update check never returns. *)
Definition download_and_install (r : Runtime) (stats : InterpreterStatsSnapshot) : Act (option bool) :=
  _ ← act_lift (ensure_configured r);
  _ ← ensure_not_cancelled;
  if is_empty (rt_public_key_b64 r) then act_err "public_key is not configured" else
  response ← match rt_last_check r with
    | Some response => mret (Some response)
    | None => check_for_update r
    end;
  match response with
  | None => mret None
  | Some response =>
    match patch response with
    | None =>
      if patch_available response
      then act_err "server response marked patch_available but omitted patch"
      else mret (Some false)
    | Some patch =>
      '(manifest_path, payload_path) ← download_patch_files r patch;
      _ ← ensure_not_cancelled;
      _ ← sys (install_payload_with_baseline snapshot_replace (cache r) manifest_path payload_path
                 (rt_public_key_b64 r) (resolve <$> rt_baseline_artifact_path r));
      _ ← act_ok (post_install_event r stats (pc_patch_number patch));
      mret (Some true)
    end
  end.

(** ** The exported functions *)
Definition interpreter_stats_snapshot : Ffi InterpreterStatsSnapshot := λ p,
  (Ok {| interpreted := p_interpreted p; aot := p_aot p |}, p).
(** [match x { Ok(a) => ok(a), Err(e) => runtime.set_error(e.to_string()) }]. *)
Definition or_set_error {A} (x : Act A) (ok : A → Ffi Z) : Ffi Z :=
  r ← ffi_try (act x);
  match r with inr a => ok a | inl e => set_error (error_to_string e) end.
(** The same where [x] may never return, and so the whole call ([None]). *)
Definition or_set_error_waiting {A} (x : Act (option A)) (ok : A → Ffi Z) : Ffi (option Z) :=
  r ← ffi_try (act x);
  match r with
  | inr (Some a) => z ← ok a; mret (Some z)
  | inr None => mret None
  | inl e => z ← set_error (error_to_string e); mret (Some z)
  end.

(** One [match read_cstr(..)] of [fcb_init]. *)
Definition init_field (ptr : cstr) (assign : string → res string (Runtime → Runtime)) (k : Ffi Z) : Ffi Z :=
  match read_cstr ptr with
  | Ok value =>
    if is_empty value then k
    else
      match assign value with
      | Ok f => _ ← modify f; k
      | Err e => set_error e
      | Panic s => ffi_lift (Panic s)
      end
  | Err e => set_error e
  | Panic s => ffi_lift (Panic s)
  end.
(** [let _ = persist_runtime_config(runtime);]. *)
Definition persist : Ffi unit :=
  r ← get_runtime; ffi_ignore (act (sys (persist_runtime_config r))).
Definition fcb_init (params : option FcbInitParams) : Ffi Z := ffi_guard (-1)%Z
  match params with
  | None => set_error "params is null"
  | Some params =>
    _ ← modify (set_last_check None);
    init_field (pa_cache_dir params) (λ v, Ok (set_cache_dir v))
      (init_field (pa_app_id params) (λ v, Ok (set_app_id v))
        (init_field (pa_channel params) (λ v, Ok (set_channel v))
          (init_field (pa_release_version params) (λ v, Ok (set_release_version v))
            (init_field (pa_platform params) (λ v, Ok (set_platform v))
              (init_field (pa_arch params) (λ v, Ok (set_arch v))
                (init_field (pa_public_key_pem params)
                  (λ v, set_public_key <$> normalize_public_key_b64 v)
                  (_ ← persist; mret 0%Z)))))))
  end.

(** The setters: [None] when the text is refused. *)
Definition fcb_setter (ptr : cstr) (assign : string → option (Runtime → Runtime)) (empty : string)
    (saved : bool) : Ffi Z := ffi_guard (-1)%Z
  match read_cstr ptr with
  | Ok value =>
    match assign value with
    | Some f =>
      _ ← modify f;
      _ ← modify (set_last_check None);
      _ ← (if saved then persist else mret tt);
      mret 0%Z
    | None => set_error empty
    end
  | Err e => set_error e
  | Panic s => ffi_lift (Panic s)
  end.
Definition fcb_set_server_url (server_url : cstr) : Ffi Z :=
  fcb_setter server_url (λ v, if is_empty v then None else Some (set_server_url v))
    "server_url is empty" true.
Definition fcb_set_org_id (org_id : cstr) : Ffi Z :=
  fcb_setter org_id (λ v, Some (set_org_id (if is_blank v then None else Some v))) "" true.
Definition fcb_set_client_id (client_id : cstr) : Ffi Z :=
  fcb_setter client_id (λ v, if is_empty v then None else Some (set_client_id v))
    "client_id is empty" true.
Definition fcb_set_baseline_artifact_path (p : cstr) : Ffi Z :=
  fcb_setter p (λ v, Some (set_baseline (if is_empty v then None else Some v))) "" false.

(** [x.map(|path| runtime.keep(path)).unwrap_or(null())]. *)
Definition keep_opt (o : option string) : Ffi (option string) :=
  match o with Some s => c ← keep s; mret (Some c) | None => mret None end.
Definition fcb_get_launch_patch (out_is_null : bool) : Ffi (Z * option FcbLaunchPatch) :=
  ffi_guard ((-1)%Z, None)
    (if out_is_null then z ← set_error "out_patch is null"; mret (z, None)
     else
       r ← get_runtime;
       launched ← ffi_try (act (sys (launch_patch (cache r))));
       match launched with
       | inr (Some patch) =>
         _ ← ffi_ignore (act (flush_rollback_events r));
         if c_int_max <? ip_patch_number patch then
           z ← set_error "patch number exceeds c_int range"; mret (z, None)
         else
           let artifact := join_text (rt_cache_dir r) <$> artifact_path patch in
           let bytecode := if bool_decide (artifact = None)
                           then Some (join_text (rt_cache_dir r) (payload_path patch)) else None in
           b ← keep (ip_backend patch);
           a ← keep_opt artifact;
           c ← keep_opt bytecode;
           m ← keep (join_text (rt_cache_dir r) (manifest_path patch));
           mret (0%Z, Some {| has_patch := 1; lp_patch_number := Z.of_N (ip_patch_number patch);
                              lp_backend := Some b; lp_artifact_path := a; lp_bytecode_path := c;
                              lp_manifest_path := Some m |})
       | inr None =>
         _ ← ffi_ignore (act (flush_rollback_events r));
         mret (0%Z, Some {| has_patch := 0; lp_patch_number := 0; lp_backend := None;
                            lp_artifact_path := None; lp_bytecode_path := None;
                            lp_manifest_path := None |})
       | inl e => z ← set_error (error_to_string e); mret (z, None)
       end).

Definition fcb_check_for_update_blocking : Ffi (option Z) := ffi_guard (Some (-1)%Z)
  (_ ← act (cancel_store false);
   r ← get_runtime;
   request ← ffi_try (act (check_request_from_runtime r));
   match request with
   | inl e => z ← set_error (error_to_string e); mret (Some z)
   | inr request =>
     or_set_error_waiting (check_singleflight request) (λ response,
       _ ← modify (set_last_check (Some response));
       mret (if patch_available response then 1 else 0)%Z)
   end).
Definition fcb_download_and_install_blocking : Ffi (option Z) :=
  _ ← act (cancel_store false);
  ffi_guard (Some (-1)%Z)
    (r ← get_runtime;
     stats ← interpreter_stats_snapshot;
     or_set_error_waiting (download_and_install r stats) (λ installed : bool,
       mret (if installed then 1 else 0)%Z)).
Definition fcb_cancel_pending_operations : Ffi Z := _ ← act (cancel_store true); mret 0%Z.
Definition fcb_is_new_patch_ready_to_install : Ffi Z := ffi_guard (-1)%Z
  (r ← get_runtime;
   or_set_error (sys (ready_patch (cache r))) (λ ready,
     mret (if bool_decide (is_Some ready) then 1 else 0)%Z)).
Definition fcb_last_check_patch_number : Ffi Z := ffi_guard (-1)%Z
  (r ← get_runtime;
   match rt_last_check r ≫= patch with
   | None => mret 0%Z
   | Some patch =>
     if c_int_max <? pc_patch_number patch
     then set_error "last check patch_number exceeds c_int range"
     else mret (Z.of_N (pc_patch_number patch))
   end).
Definition fcb_mark_launch_success : Ffi Z := ffi_guard (-1)%Z
  (r ← get_runtime;
   or_set_error (sys (mark_success (cache r))) (λ _,
     stats ← interpreter_stats_snapshot;
     _ ← ffi_ignore (act (post_launch_success_event r stats));
     mret 0%Z)).

(** [read_cstr(p).unwrap_or_else(|_| "unknown".to_string())]. *)
Definition read_or_unknown (ptr : cstr) : string :=
  match read_cstr ptr with Ok s => s | _ => "unknown"%string end.
(** [let _ = hydrate_runtime_config(runtime);]. *)
Definition hydrate_ignored : Ffi unit :=
  r ← get_runtime;
  h ← ffi_try (act (sys (hydrate_runtime_config r)));
  match h with inr r' => modify (λ _, r') | inl _ => mret tt end.
Definition fcb_mark_launch_failure (patch_number : Z) (reason : cstr) : Ffi Z := ffi_guard (-1)%Z
  (if (patch_number <? 0)%Z then set_error "patch_number must be non-negative"
   else
     let reason := read_or_unknown reason in
     r ← get_runtime;
     or_set_error (sys (mark_failure (cache r) (Z.to_N patch_number) reason)) (λ _,
       _ ← hydrate_ignored;
       r ← get_runtime;
       stats ← interpreter_stats_snapshot;
       _ ← ffi_ignore (act (post_launch_failure_event r stats (Z.to_N patch_number) reason));
       mret 0%Z)).
Definition fcb_report_interpret_failure (patch_number : Z) (function_id error : cstr) : Ffi Z :=
  ffi_guard (-1)%Z
  (if (patch_number <? 0)%Z then set_error "patch_number must be non-negative"
   else
     let function_id := read_or_unknown function_id in
     let error := read_or_unknown error in
     let reason := "interpret_failure:" +:+ function_id +:+ ":" +:+ error in
     r ← get_runtime;
     or_set_error (sys (mark_failure (cache r) (Z.to_N patch_number) reason)) (λ _,
       _ ← hydrate_ignored;
       r ← get_runtime;
       stats ← interpreter_stats_snapshot;
       _ ← ffi_ignore (act (post_interpret_failure_event r stats (Z.to_N patch_number) function_id error));
       mret 0%Z)).

(** The loop of [fcb_drain_rollback_events]: [false] after an early return. *)
Fixpoint drain_loop (cb : bool) (events : list CrashRollbackEvent) : Ffi bool :=
  match events with
  | [] => mret true
  | event :: events =>
    if cb then
      match to_vec event with
      | Ok json => _ ← deliver (cstring_or "{}" (str_of_bytes json)); drain_loop cb events
      | Err e => _ ← set_error e; mret false
      | Panic s => ffi_lift (Panic s)
      end
    else drain_loop cb events
  end.
Definition fcb_drain_rollback_events (cb : bool) : Ffi Z := ffi_guard (-1)%Z
  (r ← get_runtime;
   or_set_error (sys (rollback_events (cache r))) (λ events,
     delivered ← drain_loop cb events;
     if (delivered : bool) then
       or_set_error (sys (clear_rollback_events (cache r))) (λ _,
         mret (Z.of_N (N.min (len events) c_int_max)))
     else mret (-1)%Z)).

Definition fcb_current_patch_number : Ffi Z := ffi_guard (-1)%Z
  (r ← get_runtime;
   or_set_error (sys (load_state (cache r))) (λ state,
     if State.current_patch_number state <=? c_int_max then mret (Z.of_N (State.current_patch_number state))
     else set_error "current_patch_number exceeds c_int range")).
Definition active_patch_number (state : State) : N :=
  match last_launch state with
  | Some launch => ll_patch_number launch
  | None => default (State.current_patch_number state) (pending_patch_number state)
  end.
Definition fcb_active_patch_number : Ffi Z := ffi_guard (-1)%Z
  (r ← get_runtime;
   or_set_error (sys (load_state (cache r))) (λ state,
     let active := active_patch_number state in
     if active <=? c_int_max then mret (Z.of_N active)
     else set_error "active patch_number exceeds c_int range")).
Definition fcb_last_known_good_patch_number : Ffi Z := ffi_guard (-1)%Z
  (r ← get_runtime;
   or_set_error (sys (load_state (cache r))) (λ state,
     match last_known_good_patch_number state with
     | Some value => if value <=? c_int_max then mret (Z.of_N value)
                     else set_error "last_known_good_patch_number exceeds c_int range"
     | None => mret 0%Z
     end)).

(** [fcb_crash_rollback_history_json]: [None] is the null pointer; a panic gives
    a text of its own and leaves the last error alone. *)
Definition fcb_crash_rollback_history_json (limit : Z) : Ffi (option string) := λ p,
  match (r ← get_runtime;
         events ← ffi_try (act (sys (rollback_events (cache r))));
         match events with
         | inl e => _ ← set_error (error_to_string e); mret None
         | inr events =>
           let events := reverse events in
           let events := if (0 <? limit)%Z then take (Z.to_nat limit) events else events in
           match to_vec events with
           | Ok json => c ← keep (str_of_bytes json); mret (Some c)
           | Err e => _ ← set_error e; mret None
           | Panic s => ffi_lift (Panic s)
           end
         end : Ffi (option string)) p with
  | (Panic _, p') => (Ok (Some "panic across FFI boundary"%string), p')
  | other => other
  end.

Definition fcb_record_interpreter_call : Ffi unit := λ p,
  (Ok tt, mk_process (p_runtime p) (p_machine p) (wrapping_add u64_max (p_interpreted p) 1) (p_aot p) (p_delivered p)).
Definition fcb_record_aot_call : Ffi unit := λ p,
  (Ok tt, mk_process (p_runtime p) (p_machine p) (p_interpreted p) (wrapping_add u64_max (p_aot p) 1) (p_delivered p)).
Definition fcb_reset_interpreter_stats : Ffi unit := λ p,
  (Ok tt, mk_process (p_runtime p) (p_machine p) 0 0 (p_delivered p)).
(** The two out pointers. *)
Definition fcb_get_interpreter_stats (interpreted_is_null aot_is_null : bool) : Ffi (Z * option N * option N) :=
  ffi_guard ((-1)%Z, None, None)
    (stats ← interpreter_stats_snapshot;
     mret (0%Z, if interpreted_is_null then None else Some (interpreted stats),
           if aot_is_null then None else Some (aot stats))).
Definition fcb_last_error : Ffi string := r ← get_runtime; mret (rt_last_error r).
End Runtime.
