(* ===== verification/RuntimeProperties.v ===== *)
(** * Properties of the updater's C interface

    The theorems about [Runtime]: what a download leaves on disk, the delivery
    of the rollback events, the recovery of the configuration, the acceptance of
    public keys, and that no exported function unwinds into its caller; the two that
    check for an update may wait for a flight that a panic left. *)
From Stdlib Require Import Floats.SpecFloat.
From S2P Require Import Prelude Text External Bytecode Crypto Manifest Diff World State StateFacts Flights Net ServerApi Runtime.
Local Open Scope N_scope.

(** ** Which files an action touches *)
(** Only the files of [S], and no flight. *)
Definition act_touches {A} (S : path → Prop) (x : Act A) : Prop := ∀ m,
  w_stats (m_world (x m).2) `suffix_of` w_stats (m_world m) ∧ m_flights (x m).2 = m_flights m
  ∧ ∀ p, ¬ S p → w_fs (m_world (x m).2) !! p = w_fs (m_world m) !! p.

Section Touches.
Implicit Types S : path → Prop.

Lemma act_touches_ret {A} S (a : A) : act_touches S (mret a).
Proof. done. Qed.
Lemma act_touches_lift {A} S (r : result A) : act_touches S (act_lift r).
Proof. done. Qed.
Lemma act_touches_err {A} S msg : act_touches S (act_err (A:=A) msg).
Proof. done. Qed.
Lemma act_touches_bind {A B} S (x : Act A) (f : A → Act B) :
  act_touches S x → (∀ a, act_touches S (f a)) → act_touches S (x ≫= f).
Proof.
  intros Hx Hf m. unfold mbind, act_bind. specialize (Hx m).
  destruct (x m) as [[a|e|s] m1]; simpl in *; [|done..]. destruct Hx as (Hs & Hm & Hp), (Hf a m1) as (Hs' & Hm' & Hp').
  split; [by etrans|]. split; [congruence|]. intros p Hn. by rewrite <- Hp, Hp'.
Qed.
Lemma act_touches_sys {A} S (x : IO A) : touches S x → act_touches S (sys x).
Proof.
  intros Hx m. unfold sys. destruct (Hx (m_world m)) as (? & _ & ?). by destruct (x (m_world m)).
Qed.
Lemma act_touches_ok {A} S (x : Act A) : act_touches S x → act_touches S (act_ok x).
Proof. intros Hx m. unfold act_ok. specialize (Hx m). by destruct (x m) as [[]]. Qed.
Lemma act_touches_call `{Net} S rq : act_touches S (call rq).
Proof. done. Qed.
Lemma act_touches_sleep S n : act_touches S (sleep n).
Proof. done. Qed.
Lemma act_touches_load S : act_touches S cancel_load.
Proof. intros m. unfold cancel_load. by destruct (m_interference m). Qed.
Lemma act_touches_store S b : act_touches S (cancel_store b).
Proof. done. Qed.
(** Reads the frame off a run. *)
Lemma act_touches_run {A} S (x : Act A) m r m' p :
  act_touches S x → x m = (r, m') → ¬ S p → w_fs (m_world m') !! p = w_fs (m_world m) !! p.
Proof. intros Hx E Hp. destruct (Hx m) as (_ & _ & H). rewrite E in H. by apply H. Qed.
Lemma act_touches_flights {A} S (x : Act A) m r m' :
  act_touches S x → x m = (r, m') → m_flights m' = m_flights m.
Proof. intros Hx E. destruct (Hx m) as (_ & H & _). by rewrite E in H. Qed.
Lemma act_touches_stats {A} S (x : Act A) m r m' :
  act_touches S x → x m = (r, m') → w_stats (m_world m) = [] → w_stats (m_world m') = [].
Proof. intros Hx E. destruct (Hx m) as [H _]. rewrite E in H. by apply stats_none. Qed.
End Touches.
#[export] Hint Resolve act_touches_ret act_touches_lift act_touches_err act_touches_sys act_touches_ok
  act_touches_call act_touches_sleep act_touches_load act_touches_store : fcb.
Ltac act_touches_tac :=
  repeat first
    [ progress auto with fcb
    | apply act_touches_bind; [|intros ?]
    | match goal with |- act_touches _ (match ?x with _ => _ end) => destruct x end ].

Section Frames.
Context `{Net, BodyText}.
Implicit Types S : path → Prop.

Lemma touches_retry_delay S a : touches S (retry_delay a).
Proof. unfold retry_delay. touches_tac. Qed.
Lemma act_touches_sleep_before S a : act_touches S (sleep_before_retry a).
Proof. unfold sleep_before_retry. pose proof (touches_retry_delay S a). act_touches_tac. Qed.
Lemma act_touches_retry_loop {A} S rq (os : Response → result A) l last :
  act_touches S (retry_loop rq os l last).
Proof.
  revert last. induction l as [|a l IH]; intros last; cbn [retry_loop];
    pose proof (act_touches_sleep_before S); act_touches_tac.
Qed.
Lemma act_touches_post_json {A} `{ToValue A} S (self : Client) (p : string) (a : A) :
  act_touches S (post_json self p a).
Proof. unfold post_json. pose proof (@act_touches_retry_loop unit S). act_touches_tac. Qed.
Lemma act_touches_read_body S cancel out r :
  act_touches S cancel → act_touches S (read_body_with_cancel cancel out r).
Proof.
  intros Hc. revert out. induction r as [|[e|c] r IH]; intros out; cbn [read_body_with_cancel]; act_touches_tac.
Qed.
Lemma act_touches_download_loop S cancel url l offset last :
  act_touches S cancel → act_touches S (download_loop cancel url l offset last).
Proof.
  intros Hc. revert offset last. induction l as [|a l IH]; intros offset last; cbn [download_loop];
    pose proof (act_touches_sleep_before S);
    pose proof (λ r, act_touches_read_body S cancel [] r Hc); act_touches_tac.
Qed.
Lemma act_touches_download S dir url offset cancel :
  act_touches S cancel → act_touches S (download_bytes_from_with_cancel dir url offset cancel).
Proof.
  intros Hc. unfold download_bytes_from_with_cancel.
  pose proof (act_touches_download_loop S cancel url attempts offset None Hc). act_touches_tac.
Qed.
Lemma act_touches_download_bytes S dir url : act_touches S (download_bytes dir url).
Proof.
  unfold download_bytes, download_bytes_from.
  pose proof (act_touches_download S dir url 0 (mret false) (act_touches_ret S false)). act_touches_tac.
Qed.

Lemma touches_open S p : touches S (fs_open p).
Proof. apply touches_call. intros [f|] fs q _; [done|]. by repeat case_match. Qed.
Lemma touches_set_len S p n : S p → touches S (fs_set_len p n).
Proof.
  intros HS. apply touches_call. intros [f|] fs q Hq; [done|]. simpl.
  by rewrite lookup_insert_ne by (intros ->; auto).
Qed.
Lemma touches_write_file S p bs :
  S p → (∀ d q, parent p = Some d → q ∈ ancestors d → S q) → touches S (write_file p bs).
Proof.
  intros HS Hd. unfold write_file.
  apply touches_bind; [|intros _; touches_tac]. destruct (parent p) eqn:E; [|apply touches_ret].
  apply touches_create_dir_all. intros q Hq. by eapply Hd.
Qed.
End Frames.

(** ** Files after a successful call *)
Lemma write_file_ok p bs w w' :
  write_file p bs w = (Ok tt, w') → w_fs w' !! p = Some (File bs).
Proof.
  unfold write_file. intros (u & w1 & _ & Hw)%io_bind_ok.
  apply io_bind_ok in Hw as ([] & w2 & Hc%fs_create_ok & Hw).
  apply io_bind_ok in Hw as ([] & w3 & Ha%fs_append_ok & Hs%fs_sync_fs).
  rewrite Hs, Ha, Hc, !lookup_insert_eq. done.
Qed.
Lemma fs_open_ok p w w' :
  fs_open p w = (Ok tt, w') → w_fs w' = w_fs w ∧ ∃ bs, w_fs w !! p = Some (File bs).
Proof.
  intros ([f|] & r0 & Hr & Hok)%io_call_inv; [by injection Hr as <- _|].
  repeat case_match; simplify_eq/=; eauto.
Qed.
Lemma fs_set_len_ok p n old w w' :
  fs_set_len p n w = (Ok tt, w') → w_fs w !! p = Some (File old) →
  w_fs w' = <[p := File (take (N.to_nat n) old ++ replicate (N.to_nat n - length old) x00)]> (w_fs w).
Proof.
  intros ([f|] & r0 & Hr & Hok)%io_call_inv Hold; [by injection Hr as <- _|].
  rewrite Hold in Hr. by injection Hr as _ <-.
Qed.
Lemma sys_ok {A} (x : IO A) m a m' :
  sys x m = (Ok a, m') → ∃ w', x (m_world m) = (Ok a, w') ∧ m' = with_world m w'.
Proof. intros (w' & ? & ?)%sys_inv. eauto. Qed.

(** ** Resuming a download *)
Section Downloads.
Context `{Hash, Net, BodyText}.
Variable current_dir : path.

Definition part_file (out : path) : path := join1 out "payload.bin.part".
Definition payload_file (out : path) : path := join1 out "payload.bin".
Definition progress_file (out : path) : path := join1 out ".progress".
Definition manifest_file (out : path) : path := join1 out "patch_manifest.json".
(** What the payload's download may touch. *)
Definition download_files (out p : path) : Prop :=
  p = part_file out ∨ p = progress_file out ∨ p ∈ ancestors out.

Lemma join1_inj d n n' : join1 d n = join1 d n' ↔ n = n'.
Proof. unfold join1. split; [|by intros ->]. by intros [= ?]%app_inv_head. Qed.
Lemma join1_not_ancestor d n : join1 d n ∉ ancestors d.
Proof.
  intros [_ Hp]%ancestors_elem. apply prefix_length in Hp. unfold join1 in Hp. rewrite length_app in Hp.
  simpl in Hp. lia.
Qed.
Lemma not_download_file out n :
  n ≠ "payload.bin.part"%string → n ≠ ".progress"%string → ¬ download_files out (join1 out n).
Proof.
  intros Hpart Hprog [E|[E|E]]; [by apply join1_inj in E..|]. by apply join1_not_ancestor in E.
Qed.

Lemma touches_write_in out n bs : download_files out (join1 out n) →
  touches (download_files out) (write_file (join1 out n) bs).
Proof.
  intros HS. apply touches_write_file; [done|]. rewrite parent_join1. intros d q [= <-] Hq. by right; right.
Qed.
Lemma touches_resume out : touches (download_files out) (resume_offset (part_file out) (progress_file out)).
Proof.
  unfold resume_offset. pose proof (touches_open (download_files out)).
  pose proof (λ n, touches_set_len (download_files out) (part_file out) n (or_introl eq_refl)). touches_tac.
Qed.
Lemma act_touches_resumable out url :
  act_touches (download_files out) (download_resumable_payload current_dir url out "payload.bin").
Proof.
  unfold download_resumable_payload. change ("payload.bin" +:+ ".part") with "payload.bin.part"%string.
  fold (part_file out) (progress_file out).
  pose proof (λ o, act_touches_download (download_files out) current_dir url o _ (act_touches_load _)).
  pose proof (act_touches_sys _ _ (touches_resume out)).
  pose proof (λ bs, touches_write_in out "payload.bin.part" bs (or_introl eq_refl)).
  pose proof (λ bs, touches_write_in out ".progress" bs (or_intror (or_introl eq_refl))).
  pose proof (λ bs, touches_append (download_files out) (part_file out) bs (or_introl eq_refl)).
  pose proof (touches_open (download_files out)).
  unfold ensure_not_cancelled. act_touches_tac.
  apply act_touches_sys. case_match; [touches_tac|auto with fcb].
Qed.

Lemma resumable_result out url m v m' :
  download_resumable_payload current_dir url out "payload.bin" m = (Ok v, m') → v = (part_file out, payload_file out).
Proof.
  unfold download_resumable_payload. intros Hd.
  apply act_bind_ok in Hd as (? & ? & _ & Hd). apply act_bind_ok in Hd as ([] & ? & _ & Hd).
  apply act_bind_ok in Hd as (? & ? & _ & Hd). apply act_bind_ok in Hd as (? & ? & _ & Hd).
  apply act_bind_ok in Hd as (? & ? & _ & Hd). apply act_bind_ok in Hd as (? & ? & _ & [= <- _]). done.
Qed.
(** The file the offset leaves: nothing to keep, or the first bytes. *)
Lemma resume_offset_ok part progress content w o w' :
  resume_offset part progress w = (Ok o, w') →
  (∀ bs, w_fs w !! part = Some (File bs) → bs `prefix_of` content) →
  o = 0 ∨ w_fs w' !! part = Some (File (take (N.to_nat o) content)).
Proof.
  unfold resume_offset. intros Hrun Hpre.
  apply io_bind_ok in Hrun as (n & w1 & Hn & Hrun).
  apply io_bind_ok in Hrun as (pr & w2 & Hpr & Hrun).
  assert (w_fs w2 = w_fs w1) as Hfs.
  { apply map_eq. intros p. pose proof (touches_ok (λ _, False) _ (touches_read_to_string _ progress) w1) as (_ & _ & Ht).
    rewrite Hpr in Ht. apply Ht. tauto. }
  apply stat_call_inv in Hn as (Hn & Hfs1 & _). rewrite Hfs1 in Hfs.
  set (offset := match _ with Some progress => N.min progress n | None => n end) in Hrun.
  assert (offset ≤ n) as Hle by (subst offset; case_match; lia).
  apply io_bind_ok in Hrun as (u & w3 & Htr & [= <- <-]).
  destruct (decide (n = 0)) as [E|Hn0]; [left; lia|]. right.
  destruct Hn as [[= ->]|[= Hn]]; [lia|].
  destruct (w_fs w !! part) as [[bs|]|] eqn:Hpart; [|lia..].
  specialize (Hpre bs eq_refl) as [rest ->]. destruct u.
  destruct (N.ltb_spec offset n).
  - apply io_bind_ok in Htr as ([] & w4 & [Ho _]%fs_open_ok & Hset).
    apply (fs_set_len_ok _ _ bs) in Hset; [|by rewrite Ho, Hfs]. rewrite Hset, lookup_insert_eq.
    unfold len in Hn. rewrite take_app_le by lia.
    replace (N.to_nat offset - length bs)%nat with 0%nat by lia. by rewrite app_nil_r.
  - injection Htr as <-. rewrite Hfs, Hpart. unfold len in Hn.
    replace (N.to_nat offset) with (length bs) by lia. by rewrite take_app_length.
Qed.

(** A step that touches none of the files of interest. *)
Lemma frame_none {A} (x : Act A) m r m' p :
  act_touches (λ _, False) x → x m = (r, m') → w_fs (m_world m') !! p = w_fs (m_world m) !! p.
Proof. intros Hx E. eapply act_touches_run; [done..|]. tauto. Qed.

Lemma resumable_ok url content out m r m' :
  (∀ o w v m2, download_bytes_from_with_cancel current_dir url o cancel_load (with_world m w) = (Ok v, m2) →
     completes content o v) →
  (∀ bs, w_fs (m_world m) !! part_file out = Some (File bs) → bs `prefix_of` content) →
  download_resumable_payload current_dir url out "payload.bin" m = (Ok r, m') →
  r = (part_file out, payload_file out)
  ∧ w_fs (m_world m') !! part_file out = Some (File content).
Proof.
  intros Hs Hpre. unfold download_resumable_payload.
  change ("payload.bin" +:+ ".part") with "payload.bin.part"%string.
  fold (part_file out) (progress_file out) (payload_file out).
  intros (o & m1 & Ho & Hrun)%act_bind_ok. apply sys_ok in Ho as (w1 & Ho & ->).
  apply (resume_offset_ok _ _ content) in Ho; [|done].
  apply act_bind_ok in Hrun as ([bytes append] & m2 & Hd & Hrun).
  assert (completes content o (bytes, append)) as Hc by by eapply Hs.
  apply (frame_none _ _ _ _ (part_file out)) in Hd;
    [|apply act_touches_download, act_touches_load].
  apply act_bind_ok in Hrun as ([] & m3 & Hn & Hrun).
  apply (frame_none _ _ _ _ (part_file out)) in Hn; [|unfold ensure_not_cancelled; act_touches_tac].
  apply act_bind_ok in Hrun as ([] & m4 & Hw & Hrun).
  assert (w_fs (m_world m4) !! part_file out = Some (File content)) as Hpart.
  { apply sys_ok in Hw as (w4 & Hw & ->). simpl in Hd, Hn |- *. unfold completes in Hc. simpl in Hc.
    destruct append; cbn [andb] in Hw.
    - destruct Hc as [Hoff ->]. rewrite (proj2 (N.ltb_lt 0 o)) in Hw by lia.
      apply io_bind_ok in Hw as ([] & w5 & [Hopen _]%fs_open_ok & Hw).
      apply io_bind_ok in Hw as ([] & w6 & Happ%fs_append_ok & Hsync%fs_sync_fs).
      destruct Ho as [?|Ho]; [lia|]. simpl in Ho.
      rewrite Hsync, Happ, lookup_insert_eq, Hopen, Hn, Hd. simpl. rewrite Ho. by rewrite take_drop.
    - subst bytes. by apply write_file_ok in Hw. }
  apply act_bind_ok in Hrun as (n & m5 & Hl & Hrun).
  apply (frame_none _ _ _ _ (part_file out)) in Hl; [|act_touches_tac].
  apply act_bind_ok in Hrun as ([] & m6 & Hp & [= <- <-]).
  apply (act_touches_run (λ p, p = progress_file out ∨ p ∈ ancestors out) _ _ _ _ (part_file out)) in Hp.
  - split; [done|]. by rewrite Hp, Hl.
  - apply act_touches_sys. apply touches_write_file; [by left|]. unfold progress_file. rewrite parent_join1.
    intros d q [= <-] Hq. by right.
  - intros [E|E]; [by apply join1_inj in E|]. by apply join1_not_ancestor in E.
Qed.


(** Against a server whose replies are right or worth a retry. *)
Lemma flaky_completes url content cancel o m v m' :
  is_http url = true → flaky_file_server url content →
  download_bytes_from_with_cancel current_dir url o cancel m = (Ok v, m') → completes content o v.
Proof.
  intros Hurl Hs. unfold download_bytes_from_with_cancel. rewrite Hurl. intros Hd.
  eapply download_loop_completes; [exact Hs|by left|exact Hd].
Qed.

(** *** An interrupted download can be resumed *)
(** What is left of the payload is its first bytes. *)
Definition partial (p : path) (content : list byte) (fs : FS) : Prop :=
  ∀ bs, fs !! p = Some (File bs) → bs `prefix_of` content.
Lemma partial_same p content fs fs' : fs' !! p = fs !! p → partial p content fs → partial p content fs'.
Proof. unfold partial. by intros ->. Qed.
Lemma partial_insert p content fs bs : bs `prefix_of` content → partial p content (<[p := File bs]> fs).
Proof. intros Hp bs' Hbs. rewrite lookup_insert_eq in Hbs. by injection Hbs as <-. Qed.
Lemma prefix_take {A} (l : list A) (n : nat) : take n l `prefix_of` l.
Proof. exists (drop n l). by rewrite take_drop. Qed.

(** Appending all or the first bytes of what is missing. *)
Lemma append_partial p content old new w r w' :
  fs_append p new w = (r, w') → w_fs w !! p = Some (File old) → old ++ new = content →
  partial p content (w_fs w').
Proof.
  intros (f & r0 & Hrun & _)%io_call_inv Hold <-. cbv beta zeta in Hrun. rewrite Hold in Hrun.
  destruct f as [f|]; injection Hrun as _ <-; apply partial_insert; [|done].
  apply prefix_app, prefix_take.
Qed.
Lemma sync_partial p content w r w' : fs_sync w = (r, w') → partial p content (w_fs w) → partial p content (w_fs w').
Proof. intros E%fs_sync_fs. by rewrite E. Qed.
Lemma write_file_partial out n content w r w' :
  write_file (join1 out n) content w = (r, w') → partial (join1 out n) content (w_fs w) →
  partial (join1 out n) content (w_fs w').
Proof.
  unfold write_file. rewrite parent_join1. intros Hrun Hp.
  assert (∀ r w', fs_create_dir_all out w = (r, w') → partial (join1 out n) content (w_fs w')) as Hmk.
  { intros r1 w1 E. eapply partial_same, Hp.
    pose proof (touches_create_dir_all (λ q, q ∈ ancestors out) out (λ q Hq, Hq) w) as (_ & _ & Ht).
    rewrite E in Ht. apply Ht, join1_not_ancestor. }
  apply io_bind_inv in Hrun as [(? & w1 & E1%Hmk & Hrun)|[(e & E1 & ->)|(msg & E1 & ->)]]; [|by eapply Hmk..].
  assert (∀ r w', fs_create (join1 out n) w1 = (r, w') → partial (join1 out n) content (w_fs w')
    ∧ (r = Ok tt → w_fs w' !! join1 out n = Some (File []))) as Hcr.
  { intros r2 w2 E. destruct r2 as [[]|e|msg].
    - apply fs_create_ok in E as ->. split; [apply partial_insert, prefix_nil|]. by rewrite lookup_insert_eq.
    - split; [|done]. assert (w_fs w2 = w_fs w1) as ->; [|done].
      apply io_call_inv in E as ([f|] & r0 & Hr & Hres); [by injection Hr as _ <-|].
      repeat case_match; by simplify_eq/=.
    - by apply io_call_inv in E as (f & [] & _ & ?). }
  apply io_bind_inv in Hrun as [([] & w2 & E2%Hcr & Hrun)|[(e & E2 & ->)|(msg & E2 & ->)]];
    [|by eapply (Hcr (Err e))|by eapply (Hcr (Panic msg))].
  destruct E2 as [_ Hempty]. specialize (Hempty eq_refl).
  apply io_bind_inv in Hrun as [([] & w3 & E3 & Hs)|[(e & E3 & ->)|(msg & E3 & ->)]].
  - eapply sync_partial; [exact Hs|]. by eapply append_partial.
  - by eapply append_partial.
  - by eapply append_partial.
Qed.
Lemma resume_offset_partial part progress content w r w' :
  resume_offset part progress w = (r, w') → partial part content (w_fs w) → partial part content (w_fs w').
Proof.
  unfold resume_offset. intros Hrun Hp.
  apply io_bind_inv in Hrun as [(n & w1 & Hn & Hrun)|[(e & [=] & _)|(msg & [=] & _)]].
  apply stat_call_inv in Hn as (Hn & Hfs & _).
  assert (∀ r w', io_ok (fs_read_to_string progress) w1 = (r, w') → w_fs w' = w_fs w) as Hread.
  { intros r1 w2 E. rewrite <- Hfs. apply map_eq. intros p.
    pose proof (touches_ok (λ _, False) _ (touches_read_to_string _ progress) w1) as (_ & _ & Ht).
    rewrite E in Ht. apply Ht. tauto. }
  apply io_bind_inv in Hrun as [(pr & w2 & E2%Hread & Hrun)|[(e & E2%Hread & _)|(msg & E2%Hread & _)]];
    [|by rewrite E2..].
  cbv zeta in Hrun.
  set (offset := match _ with Some progress => N.min progress n | None => n end) in Hrun.
  assert (∀ r w', (if offset <? n then _ ← fs_open part; fs_set_len part offset else mret tt) w2 = (r, w') →
    partial part content (w_fs w')) as Htr.
  { intros r3 w3 E. destruct (N.ltb_spec offset n) as [Hlt|]; [|by injection E as _ <-; rewrite E2].
    assert (∀ r w', fs_open part w2 = (r, w') → w_fs w' = w_fs w) as Hopen.
    { intros r4 w4 ([f|] & r0 & Hr & _)%io_call_inv; [by injection Hr as _ <-|]. rewrite <- E2.
      repeat case_match; by simplify_eq/=. }
    apply io_bind_inv in E as [([] & w4 & E4%Hopen & E)|[(e & E4%Hopen & _)|(msg & E4%Hopen & _)]]; [|by rewrite E4..].
    apply io_call_inv in E as ([f|] & r0 & Hr & _); [injection Hr as _ <-; by rewrite E4|].
    cbv beta zeta in Hr. injection Hr as _ <-. rewrite E4.
    assert (offset ≤ n) as Hle by (subst offset; case_match; lia). destruct Hn as [[= ->]|[= Hn]]; [lia|].
    destruct (w_fs w !! part) as [[bs|]|] eqn:Hpart; [|lia..].
    apply partial_insert. unfold len in Hn. replace (N.to_nat offset - length bs)%nat with 0%nat by lia.
    cbn [replicate]. rewrite app_nil_r. etrans; [apply prefix_take|by apply Hp]. }
  apply io_bind_inv in Hrun as [(u & w3 & E3%Htr & [= _ <-])|[(e & E3%Htr & _)|(msg & E3%Htr & _)]]; done.
Qed.

(** A step that leaves the part file alone, then the rest. *)
Lemma partial_frame {A B} (x : Act A) (f : A → Act B) p content m r m' :
  act_touches (λ q, q ≠ p) x → partial p content (w_fs (m_world m)) →
  (∀ a m1, x m = (Ok a, m1) → partial p content (w_fs (m_world m1)) → f a m1 = (r, m') →
     partial p content (w_fs (m_world m'))) →
  (x ≫= f) m = (r, m') → partial p content (w_fs (m_world m')).
Proof.
  intros Hx Hp Hf. assert (∀ r m', x m = (r, m') → partial p content (w_fs (m_world m'))) as Hkeep.
  { intros r1 m1 E. eapply partial_same, Hp. eapply act_touches_run; [exact Hx|exact E|]. by intros []. }
  intros [(a & m1 & E & Hrun)|[(e & E & ->)|(s & E & ->)]]%act_bind_inv; [|by eapply Hkeep..].
  eapply Hf; [exact E|by eapply Hkeep|done].
Qed.

Lemma fs_open_keeps p w r w' : fs_open p w = (r, w') → w_fs w' = w_fs w.
Proof.
  intros ([f|] & r0 & Hr & _)%io_call_inv; [by injection Hr as _ <-|]. repeat case_match; by simplify_eq/=.
Qed.
Lemma resumable_partial url content out m r m' :
  (∀ o m v m2, download_bytes_from_with_cancel current_dir url o cancel_load m = (Ok v, m2) →
     completes content o v) →
  partial (part_file out) content (w_fs (m_world m)) →
  download_resumable_payload current_dir url out "payload.bin" m = (r, m') →
  partial (part_file out) content (w_fs (m_world m')).
Proof.
  intros Hs Hp. unfold download_resumable_payload.
  change ("payload.bin" +:+ ".part") with "payload.bin.part"%string.
  fold (part_file out) (progress_file out) (payload_file out).
  intros [(o & m1 & Ho & Hrun)|[(e & Ho & ->)|(x & Ho & ->)]]%act_bind_inv;
    apply sys_inv in Ho as (w1 & Ho & ->); pose proof (resume_offset_partial _ _ content _ _ _ Ho Hp) as Hp1;
    [|done..].
  apply (resume_offset_ok _ _ content) in Ho; [|done].
  apply (act_bind_inv (download_bytes_from_with_cancel _ _ _ _)) in Hrun.
  destruct Hrun as [([bytes append] & m2 & Hd & Hrun)|[(e & Hd & ->)|(x & Hd & ->)]];
    pose proof (frame_none _ _ _ _ (part_file out) (act_touches_download _ _ _ _ _ (act_touches_load _)) Hd) as Hf2;
    pose proof (partial_same _ content _ _ Hf2 Hp1) as Hp2; [|done..].
  apply Hs in Hd. revert Hrun. apply partial_frame; [unfold ensure_not_cancelled; act_touches_tac|done|].
  intros [] m3 E3 Hp3 Hrun.
  assert (act_touches (λ _, False) ensure_not_cancelled) as Hnc by (unfold ensure_not_cancelled; act_touches_tac).
  pose proof (frame_none _ _ _ _ (part_file out) Hnc E3) as Hf3.
  assert (∀ r w', (if append && (0 <? o)
    then _ ← fs_open (part_file out); _ ← fs_append (part_file out) bytes; fs_sync
    else write_file (part_file out) bytes) (m_world m3) = (r, w') → partial (part_file out) content (w_fs w')) as Hw.
  { intros r4 w4 E. unfold completes in Hd. simpl in Hd. destruct append; cbn [andb] in E; [|subst bytes].
    - destruct Hd as [Hoff ->]. rewrite (proj2 (N.ltb_lt 0 o)) in E by lia.
      destruct Ho as [?|Ho]; [lia|]. simpl in Hf2. rewrite <- Hf2, <- Hf3 in Ho.
      apply io_bind_inv in E as [([] & w5 & E5%fs_open_keeps & E)|[(e & E5%fs_open_keeps & _)|(msg & E5%fs_open_keeps & _)]];
        [|by rewrite E5..].
      rewrite <- E5 in Ho.
      apply io_bind_inv in E as [([] & w6 & E6 & E)|[(e & E6 & _)|(msg & E6 & _)]].
      + eapply sync_partial; [exact E|]. eapply append_partial; [exact E6|exact Ho|apply take_drop].
      + eapply append_partial; [exact E6|exact Ho|apply take_drop].
      + eapply append_partial; [exact E6|exact Ho|apply take_drop].
    - by eapply write_file_partial. }
  apply act_bind_inv in Hrun as [([] & m4 & E4 & Hrun)|[(e & E4 & ->)|(x & E4 & ->)]];
    apply sys_inv in E4 as (w4 & E4%Hw & ->); [|done..].
  revert Hrun. apply partial_frame; [act_touches_tac|done|]. intros n m5 _ Hp5.
  apply partial_frame; [|done|].
  - apply act_touches_sys, (touches_weaken (λ q, q = progress_file out ∨ q ∈ ancestors out)).
    + apply touches_write_file; [by left|]. unfold progress_file. rewrite parent_join1.
      intros d q [= <-] Hq. by right.
    + intros q [->|Hq]; [by intros ?%join1_inj|]. intros ->. by apply join1_not_ancestor in Hq.
  - intros [] m6 _ Hp6 [= _ <-]. done.
Qed.

(** ** What is on disk after [download_patch_files] *)
Variable r : Runtime.
Variable patch : PatchCheck.
Let out : path := download_dir current_dir r patch.

(** The steps up to the rename, in one frame: they leave the payload alone. *)
Definition holds_file (m : Machine) (p : path) (expected : string) : Prop :=
  ∃ bs, w_fs (m_world m) !! p = Some (File bs) ∧ sha256_hex bs = expected.

Lemma ensure_hash_ok label bs expected : ensure_hash label bs expected = Ok tt ↔ sha256_hex bs = expected.
Proof. unfold ensure_hash. destruct (String.eqb_spec (sha256_hex bs) expected); naive_solver. Qed.

Lemma touches_manifest bs :
  act_touches (λ p, p = manifest_file out ∨ p ∈ ancestors out)
    (sys (write_file (manifest_file out) bs)).
Proof.
  apply act_touches_sys, touches_write_file; [by left|]. unfold manifest_file. rewrite parent_join1.
  intros d q [= <-] Hq. by right.
Qed.
Lemma touches_mkdir : act_touches (λ p, p ∈ ancestors out) (sys (fs_create_dir_all out)).
Proof. by apply act_touches_sys, touches_create_dir_all. Qed.
Lemma touches_not_cancelled S : act_touches S ensure_not_cancelled.
Proof. unfold ensure_not_cancelled. act_touches_tac. Qed.
Lemma touches_rm_progress : act_touches (λ p, p = progress_file out) (act_ok (sys (fs_remove_file (progress_file out)))).
Proof. apply act_touches_ok, act_touches_sys. by apply touches_remove_file. Qed.

Lemma payload_ne_progress : payload_file out ≠ progress_file out.
Proof. by intros E%join1_inj. Qed.
Lemma payload_free : ¬ download_files out (payload_file out).
Proof. by apply not_download_file. Qed.

(** The last steps: from the checked part file to the payload. *)
Definition finish_payload (part final : path) : Act (path * path) :=
  payload_bytes ← sys (fs_read part);
  _ ← ensure_not_cancelled;
  _ ← act_lift (ensure_hash "payload" payload_bytes (payload_hash patch));
  _ ← sys (fs_rename part final);
  _ ← act_ok (sys (fs_remove_file (progress_file out)));
  mret (manifest_file out, final).

Lemma finish_payload_runs m res m' :
  finish_payload (part_file out) (payload_file out) m = (res, m') →
  (w_fs (m_world m') !! payload_file out = w_fs (m_world m) !! payload_file out
   ∨ holds_file m' (payload_file out) (payload_hash patch))
  ∧ (∀ v, res = Ok v → v = (manifest_file out, payload_file out)
       ∧ holds_file m' (payload_file out) (payload_hash patch)
       ∧ w_fs (m_world m') !! manifest_file out = w_fs (m_world m) !! manifest_file out).
Proof.
  unfold finish_payload. intros [(bs & m1 & Hr & Hrun)|[(e & Hr & ->)|(s & Hr & ->)]]%act_bind_inv;
    apply sys_inv in Hr as (w1 & Hr & ->); pose proof Hr as [Hfs Hval]%fs_read_fs;
    try (simpl; rewrite Hfs; split; [by left|done]).
  destruct Hval as [(bs' & Hbs & [= ->])|[? ?]]; [|done].
  apply act_bind_inv in Hrun as [([] & m2 & Hn & Hrun)|[(e & Hn & ->)|(s & Hn & ->)]];
    pose proof (λ p, frame_none _ _ _ _ p (touches_not_cancelled _) Hn) as Hf; simpl in Hf;
    try (rewrite Hf, Hfs; split; [by left|done]).
  apply act_bind_inv in Hrun as [([] & m3 & [Hh ->]%act_lift_ok & Hrun)|[(e & [= _ <-] & ->)|(s & [= _ <-] & ->)]];
    try (rewrite Hf, Hfs; split; [by left|done]).
  apply ensure_hash_ok in Hh.
  apply act_bind_inv in Hrun as [([] & m4 & Hm & Hrun)|[(e & Hm & ->)|(s & Hm & ->)]];
    apply sys_inv in Hm as (w4 & Hm & ->).
  2,3: apply fs_rename_err in Hm; [|done]; simpl; rewrite Hm, Hf, Hfs; split; [by left|done].
  apply fs_rename_ok in Hm as (bs & Hbs2 & Hw4). rewrite Hf, Hfs, Hbs in Hbs2. injection Hbs2 as <-.
  assert (∀ p, p ≠ progress_file out → w_fs (m_world m') !! p = w_fs w4 !! p) as Hrest.
  { intros p Hp. apply act_bind_inv in Hrun as [(o & m5 & Ho & [= _ <-])|[(e & Ho & ->)|(s & Ho & ->)]];
      by apply (act_touches_run _ _ _ _ _ p touches_rm_progress) in Ho. }
  assert (holds_file m' (payload_file out) (payload_hash patch)) as Hhold.
  { exists bs'. rewrite Hrest by apply payload_ne_progress. by rewrite Hw4, lookup_insert_eq. }
  split; [by right|]. intros v ->. split; [|split; [done|]].
  - by apply act_bind_ok in Hrun as (o & m5 & _ & [= <- _]).
  - rewrite Hrest by (by intros E%join1_inj).
    rewrite Hw4, lookup_insert_ne, lookup_delete_ne by (by intros E%join1_inj). by rewrite Hf, Hfs.
Qed.

(** One step in front of the rest: either it fails and leaves [p] alone, or the
    rest runs from a machine with the same [p]. *)
Lemma frame_step {A B} S (x : Act A) (f : A → Act B) p m res m' :
  act_touches S x → ¬ S p → (x ≫= f) m = (res, m') →
  (∃ a m1, x m = (Ok a, m1) ∧ f a m1 = (res, m') ∧ w_fs (m_world m1) !! p = w_fs (m_world m) !! p)
  ∨ ((∀ v, res ≠ Ok v) ∧ w_fs (m_world m') !! p = w_fs (m_world m) !! p).
Proof.
  intros Hx Hp [(a & m1 & E & Hrun)|[(e & E & ->)|(s & E & ->)]]%act_bind_inv;
    pose proof (act_touches_run _ _ _ _ _ p Hx E Hp); [left; eauto|right; done..].
Qed.

(** The download, with the names of its files. *)
Lemma download_patch_files_eq :
  download_patch_files current_dir r patch =
  (_ ← sys (fs_create_dir_all out);
   _ ← ensure_not_cancelled;
   manifest_bytes ← download_bytes current_dir (manifest_url patch);
   _ ← ensure_not_cancelled;
   _ ← act_lift (ensure_hash "manifest" manifest_bytes (manifest_hash patch));
   _ ← sys (write_file (manifest_file out) manifest_bytes);
   '(a, b) ← download_resumable_payload current_dir (payload_url patch) out "payload.bin";
   finish_payload a b).
Proof. reflexivity. Qed.
Lemma download_patch_files_runs m res m' :
  download_patch_files current_dir r patch m = (res, m') →
  (w_fs (m_world m') !! payload_file out = w_fs (m_world m) !! payload_file out
   ∨ holds_file m' (payload_file out) (payload_hash patch))
  ∧ (∀ v, res = Ok v → v = (manifest_file out, payload_file out)
       ∧ holds_file m' (payload_file out) (payload_hash patch)
       ∧ holds_file m' (manifest_file out) (manifest_hash patch)).
Proof.
  rewrite download_patch_files_eq.
  set (pl := payload_file out). intros Hrun.
  assert (∀ m0, (∀ v, res ≠ Ok v) → w_fs (m_world m') !! pl = w_fs (m_world m0) !! pl →
    w_fs (m_world m0) !! pl = w_fs (m_world m) !! pl →
    (w_fs (m_world m') !! pl = w_fs (m_world m) !! pl ∨ holds_file m' pl (payload_hash patch))
    ∧ (∀ v, res = Ok v → v = (manifest_file out, pl) ∧ holds_file m' pl (payload_hash patch)
       ∧ holds_file m' (manifest_file out) (manifest_hash patch))) as Hfail.
  { intros m0 Hres E1 E2. split; [left; congruence|]. intros v Hv. by destruct (Hres v). }
  apply (frame_step _ _ _ pl _ _ _ touches_mkdir) in Hrun
    as [(a1 & m1 & _ & Hrun & E1)|[Hres E]]; [|by eapply Hfail|apply join1_not_ancestor].
  apply (frame_step _ _ _ pl _ _ _ (touches_not_cancelled (λ _, False))) in Hrun
    as [(a2 & m2 & _ & Hrun & E2)|[Hres E]]; [|by eapply Hfail|tauto].
  apply (frame_step _ _ _ pl _ _ _ (act_touches_download_bytes (λ _, False) _ _)) in Hrun
    as [(mb & m3 & _ & Hrun & E3)|[Hres E]]; [|eapply Hfail; [done..|congruence]|tauto].
  apply (frame_step _ _ _ pl _ _ _ (touches_not_cancelled (λ _, False))) in Hrun
    as [(a4 & m4 & _ & Hrun & E4)|[Hres E]]; [|eapply Hfail; [done..|congruence]|tauto].
  apply (frame_step _ _ _ pl _ _ _ (act_touches_lift (λ _, False) _)) in Hrun
    as [(a5 & m5 & [Hh ->]%act_lift_ok & Hrun & E5)|[Hres E]]; [|eapply Hfail; [done..|congruence]|tauto].
  destruct a5. apply ensure_hash_ok in Hh.
  apply (frame_step _ _ _ pl _ _ _ (touches_manifest mb)) in Hrun
    as [(a6 & m6 & Hw & Hrun & E6)|[Hres E]];
    [|eapply Hfail; [done..|congruence]|by intros [E%join1_inj|E%join1_not_ancestor]].
  assert (holds_file m6 (manifest_file out) (manifest_hash patch)) as Hman.
  { apply sys_ok in Hw as (w6 & Hw & ->). destruct a6. apply write_file_ok in Hw. by exists mb. }
  apply (act_bind_inv (download_resumable_payload current_dir (payload_url patch) out "payload.bin")) in Hrun.
  destruct Hrun as [([pp fp] & m7 & Hd & Hrun)|[(e & Hd & ->)|(s & Hd & ->)]];
    pose proof (act_touches_run _ _ _ _ _ pl (act_touches_resumable out (payload_url patch)) Hd payload_free) as E7;
    [|eapply Hfail; [done..|congruence]|eapply Hfail; [done..|congruence]].
  assert (pp = part_file out ∧ fp = pl) as [-> ->].
  { apply resumable_result in Hd. by injection Hd as -> ->. }
  apply finish_payload_runs in Hrun as [Hpl Hok]. fold pl in Hpl, Hok. split.
  - destruct Hpl as [Hpl|?]; [left; congruence|by right].
  - intros v (-> & Hhold & Hkeep)%Hok. split; [done|]. split; [done|].
    destruct Hman as (bs & Hbs & Hsha). exists bs. split; [|done]. rewrite Hkeep.
    rewrite (act_touches_run _ _ _ _ _ _ (act_touches_resumable out (payload_url patch)) Hd); [done|].
    by apply not_download_file.
Qed.
End Downloads.

(** ** Posting events *)
Section Events.
Context `{Hash, Base64, Ed25519, Net, BodyText}.
Context `{Serde CrashRollbackEvent, ToValue CrashRollbackEvent, ToValue EventRequest}.
Variable current_dir : path.

(** The request that carries an event to the server. *)
Definition event_post (r : Runtime) (event : CrashRollbackEvent) (rq : Request) : Prop :=
  ∃ payload json, to_value event = Ok payload
    ∧ to_value (event_request r (Some (State.ev_patch_number event)) (State.event_type event) payload) = Ok json
    ∧ rq = {| rq_method := "POST"; rq_url := trim_end_slashes (rt_server_url r) +:+ "/v1/events";
              rq_headers := []; rq_query := []; rq_body := Some json |}.
(** Between two logs, the requests were sent in order, each until it was accepted. *)
Fixpoint accepted (rqs : list Request) (log log' : list Request) : Prop :=
  match rqs with
  | [] => log' = log
  | rq :: rqs => ∃ k resp, (k ≤ 4)%nat
      ∧ serve (log ++ replicate k rq) rq = inr resp ∧ is_success (rs_status resp) = true
      ∧ accepted rqs (log ++ replicate (S k) rq) log'
  end.

Lemma post_event_ok r event payload m u m' :
  to_value event = Ok payload →
  post_event (client_new (rt_server_url r))
    (event_request r (Some (State.ev_patch_number event)) (State.event_type event) payload) m = (Ok u, m') →
  ∃ rq, event_post r event rq ∧ accepted [rq] (m_log m) (m_log m').
Proof.
  intros Hp Hrun. unfold post_event, post_json in Hrun.
  apply act_bind_ok in Hrun as (json & m1 & [Hj%map_err_ok ->]%act_lift_ok & Hrun).
  change attempts with (nums 0 5) in Hrun. revert Hrun.
  match goal with |- retry_loop ?q ?os _ _ _ = _ → _ =>
    destruct (retry_loop_retried q os 4 0 None m eq_refl) as (k & ds & Hk & _ & _ & Hres & Hlog & _);
    set (rq := q) in * end.
  intros Hrun. rewrite Hrun in Hres, Hlog. simpl in Hres, Hlog.
  exists rq. split; [by exists payload, json|]. simpl.
  unfold conclude, reply in Hres. destruct (serve (m_log m ++ replicate k rq) rq) as [e|resp] eqn:Hs; [done|].
  exists k, resp. split; [done|]. split; [done|]. rewrite Hlog.
  destruct (is_success (rs_status resp)) eqn:E; [done|]. by unfold http_failure in Hres.
Qed.

Lemma post_all_ok r events m u m' :
  act_for_each (λ event,
    payload ← act_lift (map_err Json (to_value event));
    post_event (client_new (rt_server_url r)) (event_request r (Some (State.ev_patch_number event))
      (State.event_type event) payload)) events m = (Ok u, m') →
  ∃ rqs, Forall2 (event_post r) events rqs ∧ accepted rqs (m_log m) (m_log m').
Proof.
  revert m. induction events as [|event events IH]; intros m; cbn [act_for_each].
  { intros [= _ <-]. exists []. by split; [constructor|]. }
  intros (u1 & m1 & Hone & Hrest)%act_bind_ok.
  apply act_bind_ok in Hone as (payload & m2 & [Hp%map_err_ok ->]%act_lift_ok & Hpost).
  apply (post_event_ok r event payload) in Hpost as (rq & Hrq & k & resp & Hk & Hs & Hsuc & Hlog); [|done].
  apply IH in Hrest as (rqs & Hall & Hacc). exists (rq :: rqs). split; [by constructor|].
  exists k, resp. split; [done|]. split; [done|]. simpl in Hlog. cbn [replicate]. by rewrite <- Hlog.
Qed.

Lemma touches_rollback_events S d : touches S (rollback_events d).
Proof. unfold rollback_events. touches_tac. Qed.
Lemma touches_posts S r events :
  act_touches S (act_for_each (λ event,
    payload ← act_lift (map_err Json (to_value event));
    post_event (client_new (rt_server_url r)) (event_request r (Some (State.ev_patch_number event))
      (State.event_type event) payload)) events).
Proof.
  induction events as [|event events IH]; cbn [act_for_each]; [auto with fcb|].
  apply act_touches_bind; [|done]. apply act_touches_bind; [auto with fcb|].
  intros payload. apply act_touches_post_json.
Qed.
Lemma remove_file_err p w x w' : fs_remove_file p w = (x, w') → x ≠ Ok tt → w_fs w' = w_fs w.
Proof.
  intros ([f|] & r0 & Hr & Hok)%io_call_inv Hne; [by injection Hr as <- <-|].
  repeat case_match; simplify_eq/=; done.
Qed.

(** C23: flushing the rollback events loses none: when it fails the files are as
    before; when it succeeds for a configured runtime, every event it read
    in the log, in order, was carried by a request the server accepted (after at most four
    refusals each) before the log was removed. *)
Theorem flush_at_least_once r m :
  let '(res, m') := flush_rollback_events current_dir r m in
  (res ≠ Ok tt → w_fs (m_world m') = w_fs (m_world m))
  ∧ (res = Ok tt → unconfigured r = false →
     ∃ events rqs m1,
       sys (rollback_events (cache current_dir r)) m = (Ok events, m1)
       ∧ Forall2 (event_post r) events rqs ∧ accepted rqs (m_log m) (m_log m')
       ∧ (events ≠ [] → w_stats (m_world m) = [] →
            w_fs (m_world m') !! rollback_events_path (cache current_dir r) = None)).
Proof.
  destruct (flush_rollback_events current_dir r m) as [res m'] eqn:Hrun. revert Hrun.
  unfold flush_rollback_events. destruct (unconfigured r) eqn:Hu.
  { intros [= <- <-]. split; [done|]. intros _ ?. discriminate. }
  intros Hrun. apply act_bind_inv in Hrun as [(events & m1 & Hev & Hrun)|Hfail].
  2: { assert (w_fs (m_world m') = w_fs (m_world m)) as Hsame.
       { apply map_eq. intros p. destruct Hfail as [(e & E & _)|(s & E & _)];
           eapply (frame_none (sys (rollback_events (cache current_dir r))));
           [apply act_touches_sys, touches_rollback_events|exact E|apply act_touches_sys, touches_rollback_events|exact E]. }
       split; [done|]. destruct Hfail as [(e & _ & ->)|(s & _ & ->)]; done. }
  assert (w_fs (m_world m1) = w_fs (m_world m) ∧ m_log m1 = m_log m) as [Hf1 Hl1].
  { split; [|by apply sys_inv in Hev as (? & _ & ->)]. apply map_eq. intros p.
    eapply (frame_none (sys (rollback_events (cache current_dir r))));
      [apply act_touches_sys, touches_rollback_events|exact Hev]. }
  case_bool_decide as Hnil.
  { injection Hrun as <- <-. split; [done|]. intros _ _. exists [], [], m1. subst events.
    split; [done|]. split; [constructor|]. by split. }
  apply act_bind_inv in Hrun as [(u & m2 & Hpost & Hrun)|Hfail].
  2: { split; [|destruct Hfail as [(e & _ & ->)|(s & _ & ->)]; done]. intros _. rewrite <- Hf1.
       apply map_eq. intros p. destruct Hfail as [(e & E & _)|(s & E & _)];
         eapply frame_none; [apply (touches_posts _ r events)|exact E|apply (touches_posts _ r events)|exact E]. }
  assert (w_fs (m_world m2) = w_fs (m_world m1)) as Hf2.
  { apply map_eq. intros p. eapply frame_none; [apply (touches_posts _ r events)|exact Hpost]. }
  assert (w_stats (m_world m) = [] → w_stats (m_world m2) = []) as Hstat.
  { intros Hst. eapply act_touches_stats; [apply (touches_posts (λ _, False) r events)|exact Hpost|].
    eapply (act_touches_stats (λ _, False) (sys (rollback_events (cache current_dir r)))); [|exact Hev|exact Hst].
    apply act_touches_sys, touches_rollback_events. }
  apply post_all_ok in Hpost as (rqs & Hall & Hacc).
  apply sys_inv in Hrun as (w3 & Hrun & ->). unfold clear_rollback_events in Hrun.
  apply io_bind_inv in Hrun as [(e & w4 & Hex & Hrun)|[(e & [=] & _)|(s & [=] & _)]].
  pose proof Hex as (_ & Hf4 & _)%stat_call_inv. destruct e.
  - split.
    + intros Hne. simpl. apply remove_file_err in Hrun; [|done]. by rewrite Hrun, Hf4, Hf2, Hf1.
    + intros -> _. exists events, rqs, m1. rewrite <- Hl1. split_and!; [done..|]. intros _ _. simpl.
      apply io_call_inv in Hrun as ([f|] & r0 & Hr & Hok); [by injection Hr as <- _|].
      repeat case_match; simplify_eq/=.
      match goal with E : _ = w_fs _ |- _ => rewrite <- E end. by rewrite lookup_delete_eq.
  - injection Hrun as <- <-. split; [done|]. intros _ _. exists events, rqs, m1. rewrite <- Hl1.
    split_and!; [done..|]. intros _ Hst%Hstat. simpl in *. unfold fs_exists in Hex. rewrite stat_call_ok in Hex by done.
    injection Hex as Hex <-.
    apply orb_false_iff in Hex as [_ Hex]. apply bool_decide_eq_false in Hex. by apply eq_None_not_Some.
Qed.
End Events.

(** ** Downloads *)
(** C21: whatever the server, the faults and the cancel requests, a download
    leaves the payload file either as it was or with bytes of the announced
    hash; when it succeeds, both files it names are there with the announced
    hashes. *)
Theorem download_verified `{Hash, Net, BodyText} current_dir r patch m :
  let out := download_dir current_dir r patch in
  let '(res, m') := download_patch_files current_dir r patch m in
  (w_fs (m_world m') !! payload_file out = w_fs (m_world m) !! payload_file out
   ∨ holds_file m' (payload_file out) (payload_hash patch))
  ∧ (∀ v, res = Ok v → v = (manifest_file out, payload_file out)
       ∧ holds_file m' (payload_file out) (payload_hash patch)
       ∧ holds_file m' (manifest_file out) (manifest_hash patch)).
Proof.
  cbv zeta. destruct (download_patch_files current_dir r patch m) as [res m'] eqn:Hrun.
  by eapply download_patch_files_runs.
Qed.

(** C22: for every server whose replies are right for a file or failures worth a
    retry, under every fault and cancel schedule and wherever the process stops,
    a download that started on the first bytes of the file leaves the first bytes
    of the file, so it can be resumed; if it succeeds it leaves the whole file.
    What the progress file says does not matter. *)
Theorem payload_resumes `{Net, BodyText} current_dir url content out m r m' :
  is_http url = true → flaky_file_server url content →
  partial (part_file out) content (w_fs (m_world m)) →
  download_resumable_payload current_dir url out "payload.bin" m = (r, m') →
  partial (part_file out) content (w_fs (m_world m'))
  ∧ ∀ v, r = Ok v → v = (part_file out, payload_file out)
      ∧ w_fs (m_world m') !! part_file out = Some (File content).
Proof.
  intros Hurl Hs Hp Hrun. split.
  - eapply resumable_partial; [|exact Hp|exact Hrun]. intros o m0 v m2. by apply flaky_completes.
  - intros v ->. eapply resumable_ok; [|exact Hp|exact Hrun]. intros o w v0 m2. by apply flaky_completes.
Qed.

(** ** Public keys *)
(** The DER header of an Ed25519 SubjectPublicKeyInfo. *)
Definition spki_prefix : list byte := [x30; x2a; x30; x05; x06; x03; x2b; x65; x70; x03; x21; x00].
Definition key_mark : list byte := [x03; x21; x00].

Lemma rposition_app {A} (p : A → bool) l1 l2 :
  rposition p (l1 ++ l2)
  = match rposition p l2 with Some i => Some (len l1 + i) | None => rposition p l1 end.
Proof.
  induction l1 as [|a l1 IH]; simpl; [by destruct (rposition p l2)|].
  rewrite IH. destruct (rposition p l2); [|done]. rewrite len_cons. f_equal. lia.
Qed.
Lemma rposition_none {A} (p : A → bool) l : rposition p l = None ↔ Forall (λ a, p a = false) l.
Proof.
  induction l as [|a l IH]; simpl; [by split; [constructor|]|]. rewrite list.Forall_cons, <- IH.
  destruct (rposition p l), (p a); naive_solver.
Qed.
Lemma spki_windows key : length key = 32%nat →
  ∃ k0 k1, windows3 (spki_prefix ++ key)
    = windows3 spki_prefix ++ [[x21; x00; k0]; [x00; k0; k1]] ++ windows3 key.
Proof. intros Hl. destruct key as [|k0 [|k1 [|k2 key]]]; try done. by exists k0, k1. Qed.

(** A raw 32-byte key is accepted as it is, and one in a SubjectPublicKeyInfo
    is found, unless the key itself contains the bytes 03 21 00: then the last
    occurrence of the mark is taken for the header and the key is refused. *)
Lemma spki_key `{Base64} (key : list byte) :
  length key = 32%nat →
  public_key_der_to_raw_b64 key = Ok (b64_encode key)
  ∧ public_key_der_to_raw_b64 (spki_prefix ++ key)
    = if bool_decide (key_mark ∈ windows3 key) then Err KEY_ERROR else Ok (b64_encode key).
Proof.
  intros Hl. assert (len key = 32) as Hlen by (unfold len; lia). split.
  - unfold public_key_der_to_raw_b64. by rewrite Hlen.
  - unfold public_key_der_to_raw_b64. rewrite len_app, Hlen. change (len spki_prefix + 32) with 44.
    change (44 =? 32) with false. cbv iota. destruct (spki_windows key Hl) as (k0 & k1 & ->).
    rewrite !rposition_app. case_bool_decide as Hin.
    + destruct (rposition _ (windows3 key)) as [i|] eqn:E.
      * change (len (windows3 spki_prefix)) with 10. change (len [_; _]) with 2.
        by rewrite (proj2 (N.leb_gt _ _)) by lia.
      * apply rposition_none in E. rewrite list.Forall_forall in E. specialize (E _ Hin).
        by rewrite bool_decide_true in E.
    + rewrite (proj2 (rposition_none _ (windows3 key))).
      * assert (rposition (λ w, bool_decide (w = [x03; x21; x00])) [[x21; x00; k0]; [x00; k0; k1]] = None) as ->.
        { apply rposition_none. repeat constructor; by apply bool_decide_eq_false. }
        change (rposition (λ w, bool_decide (w = [x03; x21; x00])) (windows3 spki_prefix)) with (Some 9).
        cbv beta iota. change (9 + 3 + 32 <=? 44) with true. cbv iota. do 2 f_equal.
        unfold slice. change (N.to_nat (9 + 3)) with 12%nat. change (N.to_nat (9 + 3 + 32 - (9 + 3))) with 32%nat.
        change (drop 12 (spki_prefix ++ key)) with key. by rewrite <- Hl, firstn_all.
      * apply list.Forall_forall. intros w Hw. apply bool_decide_eq_false. intros ->. by apply Hin.
Qed.

(** ** The configuration *)
Lemma get_config r :
  let config := runtime_config r in
  get_str config "app_id" = Some (rt_app_id r) ∧ get_str config "release_version" = Some (rt_release_version r)
  ∧ get_str config "server_url" = Some (rt_server_url r) ∧ get_str config "channel" = Some (rt_channel r)
  ∧ get_str config "platform" = Some (rt_platform r) ∧ get_str config "arch" = Some (rt_arch r)
  ∧ get_str config "org_id" = rt_org_id r ∧ get_str config "client_id" = Some (rt_client_id r).
Proof. destruct r as [? ? ? ? ? ? ? ? [o|]]; split_and!; reflexivity. Qed.
(** A conditional assignment as an unconditional one. *)
Lemma assign_if {V} (set : V → Runtime → Runtime) (get : Runtime → V) (c : bool) v r :
  (∀ r, set (get r) r = r) → (if c then set v r else r) = set (if c then v else get r) r.
Proof. intros Hs. by destruct c. Qed.
Definition or_default (v dflt : string) : string := if negb (is_empty v) then v else dflt.
Definition recovered (r r0 : Runtime) : Runtime :=
  set_client_id (or_default (rt_client_id r) "default")
    (set_org_id (option_filter (λ v, negb (is_blank v)) (rt_org_id r))
      (set_arch (or_default (rt_arch r) "arm64-v8a") (set_platform (or_default (rt_platform r) "android")
        (set_channel (or_default (rt_channel r) "stable")
          (set_server_url (rt_server_url r)
            (set_release_version (rt_release_version r) (set_app_id (rt_app_id r) r0))))))).
Lemma hydrate_steps r r1 :
  hydrate (runtime_config r) r1 =
    let r1 := if is_empty (rt_app_id r1) then set_app_id (rt_app_id r) r1 else r1 in
    let r1 := if is_empty (rt_release_version r1) then set_release_version (rt_release_version r) r1 else r1 in
    let r1 := if is_empty (rt_server_url r1) then set_server_url (rt_server_url r) r1 else r1 in
    let r1 := if negb (is_empty (rt_channel r)) then set_channel (rt_channel r) r1 else r1 in
    let r1 := if negb (is_empty (rt_platform r)) then set_platform (rt_platform r) r1 else r1 in
    let r1 := if negb (is_empty (rt_arch r)) then set_arch (rt_arch r) r1 else r1 in
    let r1 := if bool_decide (rt_org_id r1 = None) then
                match rt_org_id r with
                | Some v => if negb (is_blank v) then set_org_id (Some v) r1 else r1
                | None => r1
                end
              else r1 in
    if String.eqb (rt_client_id r1) "default"
    then if negb (is_empty (rt_client_id r)) then set_client_id (rt_client_id r) r1 else r1 else r1.
Proof.
  destruct (get_config r) as (E1 & E2 & E3 & E4 & E5 & E6 & E7 & E8).
  unfold hydrate, hydrate_field. rewrite E1, E2, E3, E4, E5, E6, E7, E8. reflexivity.
Qed.
Lemma hydrate_fresh r d :
  hydrate (runtime_config r) (set_cache_dir d runtime_new) = recovered r (set_cache_dir d runtime_new).
Proof.
  rewrite hydrate_steps. cbv zeta.
  rewrite !(assign_if set_channel rt_channel) by (by intros []).
  rewrite !(assign_if set_platform rt_platform) by (by intros []).
  rewrite !(assign_if set_arch rt_arch) by (by intros []).
  rewrite !(assign_if set_client_id rt_client_id) by (by intros []).
  destruct (rt_org_id r) as [o|] eqn:E; [rewrite !(assign_if set_org_id rt_org_id) by (by intros [])|];
    unfold recovered, or_default; rewrite E; reflexivity.
Qed.
Lemma fs_read_hit p bs w :
  w_faults w = [] → w_fs w !! p = Some (File bs) → fs_read p w = (Ok bs, w).
Proof. destruct w. unfold fs_read, io_call. simpl. intros -> ->. done. Qed.
Lemma fs_exists_hit p w : w_stats w = [] → is_Some (w_fs w !! p) → fs_exists p w = (Ok true, w).
Proof. intros Hst Hp. unfold fs_exists. by rewrite stat_call_ok, (bool_decide_true (is_Some _)), orb_true_r. Qed.

(** A process that only knows the cache directory recovers from the persisted
    file the app, release, server, channel, platform, architecture, organisation
    and client the configured process had ([recovered]: an empty value, or a blank
    organisation, keeps the default). *)
Lemma runtime_config_recovers `{Serde Value.t} (ok : Value.t → Prop) `{!SerdeLaws Value.t ok}
    current_dir r r0 w w1 :
  ok (runtime_config r) → r0 = set_cache_dir (rt_cache_dir r) runtime_new →
  persist_runtime_config current_dir r w = (Ok tt, w1) →
  w_faults w1 = [] → w_stats w1 = [] →
  hydrate_runtime_config current_dir r0 w1 = (Ok (recovered r r0), w1).
Proof.
  intros Hok -> Hp Hf Hst. unfold persist_runtime_config in Hp.
  apply io_bind_ok in Hp as (bytes & w2 & [Hb%map_err_ok ->]%io_lift_ok & Hw%write_file_ok).
  unfold hydrate_runtime_config.
  change (runtime_config_path current_dir (set_cache_dir (rt_cache_dir r) runtime_new))
    with (runtime_config_path current_dir r).
  unfold mbind, io_bind. rewrite fs_exists_hit by (by rewrite ?Hw). cbn [negb].
  rewrite (fs_read_hit _ bytes) by done. unfold io_lift. rewrite (from_to_vec_pretty _ _ Hok Hb).
  cbn [map_err]. unfold mret, io_ret. f_equal.
  by rewrite hydrate_fresh.
Qed.

(** ** The boundary *)
(** A body that handles its errors: it ends with a value or a panic. *)
Definition settled {A} (x : Ffi A) : Prop := ∀ p e, (x p).1 ≠ Err e.
(** A call that returns to its caller. *)
Definition returns {A} (x : Ffi A) : Prop := ∀ p, ∃ v p', x p = (Ok v, p').

Lemma settled_ret {A} (a : A) : settled (mret a).
Proof. by intros p e. Qed.
Lemma settled_bind {A B} (x : Ffi A) (f : A → Ffi B) :
  settled x → (∀ a, settled (f a)) → settled (x ≫= f).
Proof.
  intros Hx Hf p e. unfold mbind, ffi_bind. specialize (Hx p e).
  destruct (x p) as [[a|e'|s] p']; [apply Hf|by intros [= ->]; apply Hx|done].
Qed.
Lemma settled_try {A} (x : Ffi A) : settled (ffi_try x).
Proof. intros p e. unfold ffi_try. by destruct (x p) as [[] ?]. Qed.
Lemma settled_modify f : settled (modify f).
Proof. by intros p e. Qed.
Lemma settled_get : settled get_runtime.
Proof. by intros p e. Qed.
Lemma settled_stats : settled interpreter_stats_snapshot.
Proof. by intros p e. Qed.
Lemma settled_deliver s : settled (deliver s).
Proof. by intros p e. Qed.
Lemma settled_panic {A} s : settled (ffi_lift (A:=A) (Panic s)).
Proof. by intros p e. Qed.
Lemma settled_store b : settled (act (cancel_store b)).
Proof. by intros p e. Qed.
Lemma settled_set_error m : settled (set_error m).
Proof. by intros p e. Qed.
Lemma settled_keep s : settled (keep s).
Proof. by intros p e. Qed.
Lemma settled_or_set_error {A} (x : Act A) ok : (∀ a, settled (ok a)) → settled (or_set_error x ok).
Proof.
  intros Hok. apply settled_bind; [apply settled_try|]. intros [e|a]; [apply settled_set_error|apply Hok].
Qed.
Lemma settled_ignore {A} (x : Ffi A) : settled (ffi_ignore x).
Proof. apply settled_bind; [apply settled_try|]. intros _. apply settled_ret. Qed.
Lemma returns_guard {A} (d : A) x : settled x → returns (ffi_guard d x).
Proof.
  intros Hx p. unfold ffi_guard. specialize (Hx p). destruct (x p) as [[a|e|s] p']; eauto.
  by destruct (Hx e).
Qed.
Lemma returns_bind {A B} (x : Ffi A) (f : A → Ffi B) : returns x → (∀ a, returns (f a)) → returns (x ≫= f).
Proof. intros Hx Hf p. unfold mbind, ffi_bind. destruct (Hx p) as (a & p' & ->). apply Hf. Qed.
#[export] Hint Resolve settled_ret settled_try settled_modify settled_get settled_stats settled_deliver
  settled_panic settled_store settled_set_error settled_keep settled_ignore : fcb.
Ltac settled_tac :=
  repeat first
    [ progress auto with fcb
    | apply settled_or_set_error; intros ?
    | apply settled_bind; [|intros ?]
    | match goal with |- settled (match ?x with _ => _ end) => destruct x end ].

Lemma settled_init_field ptr assign k : settled k → settled (init_field ptr assign k).
Proof. intros Hk. unfold init_field. settled_tac. Qed.
Lemma settled_drain `{Serde CrashRollbackEvent} cb events : settled (drain_loop cb events).
Proof. induction events as [|e events IH]; cbn [drain_loop]; settled_tac. Qed.

Section Boundary.
Context `{Hash, Base64, Ed25519, BsdiffZstd}.
Context `{Serde Value.t, ToValue PatchManifest, Serde PatchManifest, Serde SimpleBinaryDiff}.
Context `{Serde BytecodeModule, Serde State, Serde CrashRollbackEvent, Serde (list CrashRollbackEvent)}.
Context `{ToValue CrashRollbackEvent, ToValue EventRequest, JsonF64}.
Context `{Net, BodyText, BodyJson CheckResponse}.
Variable snapshot_replace : bool.
Variable current_dir : path.

Lemma settled_persist : settled (persist current_dir).
Proof. unfold persist. settled_tac. Qed.
Lemma settled_hydrate_ignored : settled (hydrate_ignored current_dir).
Proof. unfold hydrate_ignored. settled_tac. Qed.
Lemma settled_keep_opt o : settled (keep_opt o).
Proof. unfold keep_opt. settled_tac. Qed.

Lemma returns_setter ptr assign empty saved : returns (fcb_setter current_dir ptr assign empty saved).
Proof. apply returns_guard. pose proof settled_persist. settled_tac. Qed.
Lemma returns_init params : returns (fcb_init current_dir params).
Proof.
  apply returns_guard. pose proof settled_persist. destruct params as [params|]; [|auto with fcb].
  apply settled_bind; [auto with fcb|]. intros _. repeat apply settled_init_field. settled_tac.
Qed.
Lemma returns_launch out : returns (fcb_get_launch_patch current_dir out).
Proof. apply returns_guard. pose proof settled_keep_opt. settled_tac. Qed.
Lemma returns_history limit : returns (fcb_crash_rollback_history_json current_dir limit).
Proof.
  intros p. unfold fcb_crash_rollback_history_json.
  match goal with |- context [match ?x p with _ => _ end] =>
    assert (settled x) as Hs; [settled_tac|specialize (Hs p); destruct (x p) as [[a|e|s] p']] end; eauto.
  by destruct (Hs e).
Qed.

Lemma ffi_bind_run {A B} (x : Ffi A) (f : A → Ffi B) p a p1 : x p = (Ok a, p1) → (x ≫= f) p = f a p1.
Proof. unfold mbind, ffi_bind. by intros ->. Qed.
Lemma ffi_bind_ok {A B} (x : Ffi A) (f : A → Ffi B) p b p' :
  (x ≫= f) p = (Ok b, p') → ∃ a p1, x p = (Ok a, p1) ∧ f a p1 = (Ok b, p').
Proof. unfold mbind, ffi_bind. destruct (x p) as [[a|e|s] p1]; [eauto|discriminate..]. Qed.

(** *** Waiting for another check *)
Lemma sys_flights {A} (x : IO A) m : m_flights (sys x m).2 = m_flights m.
Proof. unfold sys. by destruct (x (m_world m)). Qed.
(** The question of a device that runs the patch [n]. *)
Definition device_question (r : Runtime) (n : N) : Flights.CheckRequest := {|
  cq_server_url := rt_server_url r; cq_org_id := rt_org_id r; cq_app_id := rt_app_id r;
  cq_release_version := rt_release_version r; cq_platform := rt_platform r; cq_arch := rt_arch r;
  cq_channel := rt_channel r; cq_current_patch_number := n; cq_client_id := rt_client_id r |}.
(** A flight for the question of this process has lost its leader. *)
Definition stranded (p : Process) : Prop :=
  ∃ n, m_flights (p_machine p) !! device_question (p_runtime p) n = Some None.
(** No flight has. *)
Definition no_stranded (m : Machine) : Prop := ∀ request, m_flights m !! request ≠ Some None.

Lemma check_request_ok r m request m' :
  check_request_from_runtime current_dir r m = (Ok request, m') → ∃ n, request = device_question r n.
Proof.
  unfold check_request_from_runtime. intros ([] & m1 & _ & Hr)%act_bind_ok.
  apply act_bind_ok in Hr as (s & m2 & _ & [= <- _]). by eexists.
Qed.
Lemma touches_load cache_dir : touches (λ _, True) (load_state cache_dir).
Proof.
  assert (∀ e, touches (λ _, True) (append_rollback_event cache_dir e))
    by (intros; eapply touches_weaken; [apply touches_append_event|done]).
  assert (touches (λ _, True) (backup_corrupt_state (state_path cache_dir))).
  { apply touches_bind; [apply touches_unique_suffix|intros sfx]. by apply touches_rename. }
  unfold load_state. pose proof (touches_now_string (λ _, True)). touches_hints.
Qed.
Lemma act_touches_question r : act_touches (λ _, True) (check_request_from_runtime current_dir r).
Proof.
  unfold check_request_from_runtime. apply act_touches_bind; [auto with fcb|intros _].
  apply act_touches_bind; [|auto with fcb]. apply act_touches_sys.
  apply touches_load.
Qed.
(** Only a flight without a leader is waited for in vain. *)
Lemma check_waits request m m' :
  check_singleflight request m = (Ok None, m') → m_flights m !! request = Some None.
Proof.
  unfold check_singleflight. destruct (m_flights m !! request) as [[[e|response]|]|]; [done..|].
  by destruct (as_message _ _) as [[response|e|s] m1].
Qed.
Lemma act_touches_perform S request : act_touches S (as_message (perform_check_request request)).
Proof.
  assert (act_touches S (perform_check_request request)) as Hp by apply act_touches_retry_loop.
  intros m. unfold as_message. specialize (Hp m). by destruct (perform_check_request request m).
Qed.
(** An update check adds no such flight unless its request panics. *)
Lemma check_keeps_leaders request m :
  act_no_panic (as_message (perform_check_request request)) →
  no_stranded m → no_stranded (check_singleflight request m).2.
Proof.
  intros Hnp Hm. unfold check_singleflight. destruct (m_flights m !! request) as [[[e|response]|]|] eqn:Hf; [done..|].
  destruct (as_message _ _) as [result m1] eqn:E.
  pose proof (act_touches_flights (λ _, True) _ _ _ _ (act_touches_perform _ request) E) as Hfl. cbn in Hfl.
  assert (no_stranded (with_flights m1 (delete request (m_flights m1)))) as Hdone.
  { intros q. cbn. rewrite Hfl. rewrite delete_insert_id by done. apply Hm. }
  destruct result as [response|e|s]; [done..|]. specialize (Hnp (with_flights m (<[request:=None]> (m_flights m)))).
  rewrite E in Hnp. by destruct (Hnp s).
Qed.
(** *** Panics and flights *)
(** After a panic of its request, a check of the same question never returns. *)
Lemma panicked_check_strands request m s m' :
  check_singleflight request m = (Panic s, m') →
  ∀ m2, m_flights m2 = m_flights m' → check_singleflight request m2 = (Ok None, m2).
Proof.
  unfold check_singleflight. destruct (m_flights m !! request) as [[[e|response]|]|] eqn:Hf; [done..|].
  destruct (as_message _ _) as [result m1] eqn:E. destruct result; [done..|]. intros [= <- <-] m2 Hm2.
  apply (act_touches_flights (λ _, True)) in E; [|apply act_touches_perform].
  rewrite Hm2, E. cbn. by rewrite lookup_insert_eq.
Qed.
Definition keeps_leaders {A} (x : Act A) : Prop := ∀ m, no_stranded m → no_stranded (x m).2.
Lemma keeps_leaders_touches {A} S (x : Act A) : act_touches S x → keeps_leaders x.
Proof. intros Hx m Hm. destruct (Hx m) as (_ & Hf & _). intros request. rewrite Hf. apply Hm. Qed.
Lemma keeps_leaders_bind {A B} (x : Act A) (f : A → Act B) :
  keeps_leaders x → (∀ a, keeps_leaders (f a)) → keeps_leaders (x ≫= f).
Proof.
  intros Hx Hf m Hm. unfold mbind, act_bind. specialize (Hx m Hm). destruct (x m) as [[a|e|s] m1]; [by apply Hf|done..].
Qed.
Lemma act_touches_post S r stats n : act_touches S (post_install_event r stats n).
Proof. unfold post_install_event. destruct (unconfigured r); [auto with fcb|apply act_touches_post_json]. Qed.
Lemma act_touches_files S r (p : PatchCheck) :
  (∀ q, S q) → act_touches S (Runtime.download_patch_files current_dir r p).
Proof.
  intros HS. assert (∀ q, touches S (fs_create_dir_all q)) by (intros; by apply touches_create_dir_all).
  assert (∀ q bs, touches S (write_file q bs)) by (intros; by apply touches_write_file).
  unfold Runtime.download_patch_files. cbv zeta. pose proof (touches_not_cancelled S).
  pose proof (act_touches_download_bytes S current_dir).
  assert (∀ url out, act_touches S (download_resumable_payload current_dir url out "payload.bin")).
  { intros url out m. destruct (act_touches_resumable current_dir out url m) as (? & ? & _).
    split; [done|]. split; [done|]. intros q Hq. by destruct Hq. }
  act_touches_tac.
Qed.

Section Quiet.
Hypothesis replies_parse : ∀ body, no_panic (body_json (A:=CheckResponse) body).
Lemma perform_no_panic request : act_no_panic (as_message (perform_check_request request)).
Proof.
  intros m. unfold as_message, perform_check_request, ServerApi.check. cbv zeta.
  match goal with |- context [ServerApi.retry_loop ?rq ?os _ _ _] =>
    destruct (retry_loop_retried rq os 4 0 None m eq_refl) as (k & ds & _ & _ & _ & Hr & _) end.
  change (nums 0 5) with attempts in Hr.
  match type of Hr with (?run).1 = _ => destruct run as [result m'] eqn:E end. cbn [fst] in Hr.
  cbn [fst]. rewrite Hr. unfold conclude. destruct (reply _ _ _) as [e|resp]; [done|].
  destruct (is_success _); [|done]. unfold read_json_body. specialize (replies_parse (rs_body resp)).
  by destruct (body_json _) as [a|e|s]; [..|destruct (replies_parse s)].
Qed.
Lemma attempt_keeps_leaders r stats : keeps_leaders (download_and_install snapshot_replace current_dir r stats).
Proof.
  assert (∀ A (x : Act A), act_touches (λ _, True) x → keeps_leaders x) as Ht by (intros; by eapply keeps_leaders_touches).
  unfold download_and_install. apply keeps_leaders_bind; [auto with fcb|intros _].
  apply keeps_leaders_bind; [apply Ht, touches_not_cancelled|intros _].
  destruct (is_empty _); [auto with fcb|]. apply keeps_leaders_bind.
  { destruct (rt_last_check r); [auto with fcb|]. unfold check_for_update.
    apply keeps_leaders_bind; [auto with fcb|intros _].
    apply keeps_leaders_bind; [apply Ht, act_touches_question|intros request m].
    apply check_keeps_leaders, perform_no_panic. }
  intros [response|]; [|auto with fcb]. destruct (patch response); [|destruct (patch_available _); auto with fcb].
  apply keeps_leaders_bind; [by apply Ht, act_touches_files|intros [mp pp]].
  apply keeps_leaders_bind; [apply Ht, touches_not_cancelled|intros _].
  apply keeps_leaders_bind; [|intros _; apply keeps_leaders_bind; [|auto with fcb]].
  - intros m Hm request. rewrite sys_flights. apply Hm.
  - apply Ht, act_touches_ok, act_touches_post.
Qed.
(** The same of an exported function. *)
Definition ffi_keeps_leaders {A} (x : Ffi A) : Prop :=
  ∀ p, no_stranded (p_machine p) → no_stranded (p_machine (x p).2).
Lemma ffi_leaders_bind {A B} (x : Ffi A) (f : A → Ffi B) :
  ffi_keeps_leaders x → (∀ a, ffi_keeps_leaders (f a)) → ffi_keeps_leaders (x ≫= f).
Proof.
  intros Hx Hf p Hp. unfold mbind, ffi_bind. specialize (Hx p Hp). destruct (x p) as [[a|e|s] p1]; [by apply Hf|done..].
Qed.
Lemma ffi_leaders_try {A} (x : Act A) : keeps_leaders x → ffi_keeps_leaders (ffi_try (act x)).
Proof.
  intros Hx p Hp. unfold ffi_try, act. specialize (Hx _ Hp). by destruct (x (p_machine p)) as [[] ?].
Qed.
Lemma ffi_leaders_guard {A} (d : A) x : ffi_keeps_leaders x → ffi_keeps_leaders (ffi_guard d x).
Proof. intros Hx p Hp. unfold ffi_guard. specialize (Hx p Hp). by destruct (x p) as [[] ?]. Qed.
Lemma ffi_leaders_error msg : ffi_keeps_leaders (set_error msg).
Proof. by intros p Hp. Qed.
Lemma ffi_leaders_waiting {A} (x : Act (option A)) ok :
  keeps_leaders x → (∀ a, ffi_keeps_leaders (ok a)) → ffi_keeps_leaders (or_set_error_waiting x ok).
Proof.
  intros Hx Hok. apply ffi_leaders_bind; [by apply ffi_leaders_try|].
  intros [e|[a|]]; [|apply ffi_leaders_bind; [apply Hok|by intros z p]|by intros p].
  by intros p Hp.
Qed.
Lemma check_leaves_leaders : ffi_keeps_leaders (fcb_check_for_update_blocking current_dir).
Proof.
  apply ffi_leaders_guard, ffi_leaders_bind; [by intros p Hp|intros _].
  apply ffi_leaders_bind; [by intros p Hp|intros r]. apply ffi_leaders_bind.
  { apply ffi_leaders_try, (keeps_leaders_touches _ _ (act_touches_question r)). }
  intros [e|request]; [by intros p Hp|]. apply ffi_leaders_waiting; [|by intros response p Hp].
  intros m. apply check_keeps_leaders, perform_no_panic.
Qed.
Lemma download_leaves_leaders : ffi_keeps_leaders (fcb_download_and_install_blocking snapshot_replace current_dir).
Proof.
  apply ffi_leaders_bind; [by intros p Hp|intros _]. apply ffi_leaders_guard.
  apply ffi_leaders_bind; [by intros p Hp|intros r]. apply ffi_leaders_bind; [by intros p Hp|intros stats].
  apply ffi_leaders_waiting; [apply attempt_keeps_leaders|by intros b p Hp].
Qed.
End Quiet.

(** *** When a call waits *)
Lemma attempt_waits r stats m m' :
  download_and_install snapshot_replace current_dir r stats m = (Ok None, m') →
  ∃ n, m_flights m !! device_question r n = Some None.
Proof.
  unfold download_and_install. intros ([] & m1 & [_ ->]%act_lift_ok & Hr)%act_bind_ok.
  apply act_bind_ok in Hr as ([] & m2 & E2 & Hr).
  apply (act_touches_flights (λ _, False)) in E2; [|apply touches_not_cancelled].
  destruct (is_empty _); [by apply act_lift_ok in Hr as [[=] _]|].
  apply act_bind_ok in Hr as (response & m3 & E3 & Hr). destruct response as [response|].
  - destruct (patch response) as [p|].
    + apply act_bind_ok in Hr as ([mp pp] & m4 & _ & Hr). apply act_bind_ok in Hr as ([] & m5 & _ & Hr).
      apply act_bind_ok in Hr as ([] & m6 & _ & Hr). by apply act_bind_ok in Hr as (o & m7 & _ & [=]).
    + destruct (patch_available response); [by apply act_lift_ok in Hr as [[=] _]|by injection Hr].
  - destruct (rt_last_check r); [done|]. unfold check_for_update in E3.
    apply act_bind_ok in E3 as ([] & m4 & [= <-] & E3). apply act_bind_ok in E3 as (question & m5 & E5 & E3).
    pose proof (act_touches_flights _ _ _ _ _ (act_touches_question r) E5) as Hf.
    apply check_request_ok in E5 as [n ->]. apply check_waits in E3. exists n. rewrite Hf in E3. cbn in E3. by rewrite E2 in E3.
Qed.

(** A call that returns to its caller, unless it waits for ever. *)
Definition returns_or_waits (x : Ffi (option Z)) : Prop :=
  ∀ p, ∃ v p', x p = (Ok v, p') ∧ (v = None → stranded p).
Lemma guard_or_waits x :
  settled x → (∀ p p', x p = (Ok None, p') → stranded p) → returns_or_waits (ffi_guard (Some (-1)%Z) x).
Proof.
  intros Hs Hw p. unfold ffi_guard. specialize (Hs p). specialize (Hw p).
  destruct (x p) as [[v|e|s] p']; [|by destruct (Hs e)|by exists (Some (-1)%Z); eexists].
  exists v, p'. split; [done|]. intros ->. by eapply Hw.
Qed.
Lemma settled_waiting {A} (x : Act (option A)) ok : (∀ a, settled (ok a)) → settled (or_set_error_waiting x ok).
Proof. intros Hok. unfold or_set_error_waiting. settled_tac. Qed.
Lemma waiting_none {A} (x : Act (option A)) ok p p' :
  or_set_error_waiting x ok p = (Ok None, p') → ∃ m', x (p_machine p) = (Ok None, m').
Proof.
  unfold or_set_error_waiting, ffi_try, act, mbind, ffi_bind.
  destruct (x (p_machine p)) as [[[a|]|e|s] m']; [|by exists m'| |done].
  - by destruct (ok a _) as [[]].
  - by unfold set_error, mbind, ffi_bind, modify.
Qed.
Lemma check_or_waits : returns_or_waits (fcb_check_for_update_blocking current_dir).
Proof.
  apply guard_or_waits.
  { pose proof (@settled_waiting CheckResponse). settled_tac. }
  intros p p' Hr. erewrite ffi_bind_run in Hr by reflexivity. erewrite ffi_bind_run in Hr by reflexivity.
  cbn [p_runtime p_machine] in Hr.
  apply ffi_bind_ok in Hr as (asked & p1 & Ha & Hr). unfold ffi_try, act in Ha. cbn [p_machine] in Ha.
  match type of Ha with context [check_request_from_runtime _ _ ?m] =>
    destruct (check_request_from_runtime _ _ m) as [[request|e|s] m2] eqn:E end; [| |done]; injection Ha as <- <-.
  - apply waiting_none in Hr as [m3 Hw]. cbn [p_machine] in Hw. apply check_waits in Hw.
    rewrite (act_touches_flights _ _ _ _ _ (act_touches_question _) E) in Hw.
    apply check_request_ok in E as [n ->]. by exists n.
  - by apply ffi_bind_ok in Hr as (z & p1 & _ & [=]).
Qed.
Lemma download_or_waits : returns_or_waits (fcb_download_and_install_blocking snapshot_replace current_dir).
Proof.
  unfold fcb_download_and_install_blocking. intros p. erewrite ffi_bind_run by reflexivity.
  match goal with |- context [ffi_guard _ ?x ?p1] => destruct (guard_or_waits x) with (p := p1) as (v & p' & E & Hv) end.
  - pose proof (@settled_waiting bool). settled_tac.
  - intros p1 p' Hr. erewrite ffi_bind_run in Hr by reflexivity. erewrite ffi_bind_run in Hr by reflexivity.
    apply waiting_none in Hr as [m' Hw]. apply attempt_waits in Hw as [n Hn]. by exists n.
  - exists v, p'. split; [exact E|]. exact Hv.
Qed.

End Boundary.

(** ** Witnesses *)
Definition demo_out : path := ["d"]%string.
Definition demo_partial : Machine := mk_machine (mk_world {[ demo_out := Dir;
  part_file demo_out := File [x01] ]} [] [] [] 1 0) [] [] false [] ∅.
Definition demo_resumed : result (path * path) * Machine :=
  @download_resumable_payload demo_file_net demo_body_text [] demo_url demo_out "payload.bin" demo_partial.
Lemma payload_resumes_witness :
  w_fs (m_world demo_resumed.2) !! part_file demo_out = Some (File demo_content).
Proof.
  destruct demo_resumed as [r m'] eqn:E.
  assert (r = Ok (part_file demo_out, payload_file demo_out)) as ->.
  { change r with (r, m').1. rewrite <- E. vm_compute. reflexivity. }
  refine (proj2 (proj2 (@payload_resumes demo_file_net demo_body_text [] demo_url demo_content demo_out demo_partial
    _ m' eq_refl (@file_server_flaky demo_file_net demo_url demo_content demo_file_server) _ E) _ eq_refl)).
  intros bs Hbs. vm_compute in Hbs. injection Hbs as <-. by exists [x02].
Defined.

Definition demo_runtime : Runtime :=
  set_app_id "app" (set_release_version "1" (set_server_url "http://h" (set_cache_dir "/c" runtime_new))).
(** Prints and parses the configuration of [demo_runtime]. *)
Definition demo_config_serde : Serde Value.t := {|
  to_vec _ := Ok [x63]; to_vec_pretty _ := Ok [x63];
  from_slice bs := if decide (bs = [x63]) then Ok (runtime_config demo_runtime) else Err "expected value"%string;
|}.
Lemma demo_config_laws : @SerdeLaws Value.t demo_config_serde (λ v, v = runtime_config demo_runtime).
Proof. split; simpl; intros; simplify_eq; eauto. by case_decide. Qed.
Definition demo_persisted : result unit * World :=
  @persist_runtime_config demo_config_serde [] demo_runtime (mk_world ∅ [] [] [] 1 0).
Lemma runtime_config_recovers_witness :
  (@hydrate_runtime_config demo_config_serde [] (set_cache_dir "/c" runtime_new) demo_persisted.2).1
  = Ok demo_runtime.
Proof.
  destruct demo_persisted as [res w1] eqn:E.
  assert (res = Ok tt) as -> by (change res with (res, w1).1; rewrite <- E; vm_compute; reflexivity).
  assert (w_faults w1 = []) as Hf by (change w1 with ((Ok tt : result unit), w1).2; rewrite <- E; vm_compute; reflexivity).
  assert (w_stats w1 = []) as Hs by (change w1 with ((Ok tt : result unit), w1).2; rewrite <- E; vm_compute; reflexivity).
  cbn [snd]. rewrite (@runtime_config_recovers demo_config_serde _ demo_config_laws [] demo_runtime
    (set_cache_dir "/c" runtime_new) _ w1 eq_refl eq_refl E Hf Hs). reflexivity.
Defined.
