(* ===== verification/Delivery.v ===== *)
(** * From the server to a running patch

    The runtime's check, download and installation joined with the updater: on a
    device where nothing fails and nobody cancels, and against a server that
    serves a patch's files, [download_and_install] ends with the patch installed,
    also when an earlier download was broken off. *)
From S2P Require Import Prelude Text External Bytecode BytecodeCheck BytecodeFacts Crypto Manifest Diff World State StateFacts StateProperties StateProgress Flights Net ServerApi Runtime RuntimeProperties.
Local Open Scope N_scope.

(** ** Nobody cancels *)
Definition idle (m : Machine) : Prop := m_cancel m = false ∧ m_interference m = [].
Lemma load_idle m : idle m → cancel_load m = (Ok false, m).
Proof. destruct m as [w l s c i fl]. by intros [[= ->] [= ->]]. Qed.
Lemma not_cancelled_idle m : idle m → ensure_not_cancelled m = (Ok tt, m).
Proof. intros Hm. unfold ensure_not_cancelled. by rewrite (act_bind_run _ _ _ _ _ (load_idle m Hm)). Qed.

Section Idle.
Context `{Net, BodyText}.

(** A download that looks at the flag is then one that does not. *)
Lemma read_body_idle out r m :
  idle m → read_body_with_cancel cancel_load out r m = read_body_with_cancel (mret false) out r m.
Proof.
  intros Hm. revert out.
  induction r as [|[e|chunk] r IH]; intros out; cbn [read_body_with_cancel];
    rewrite (act_bind_run _ _ _ _ _ (load_idle m Hm)), (act_bind_run (mret false) _ m false m) by done; try done.
  cbv iota. repeat (case_match; [done|]). apply IH.
Qed.
Lemma finish_idle (b : bool) r m :
  idle m →
  (read_body_with_cancel cancel_load [] r ≫= λ bytes, mret (M:=Act) (bytes, b)) m
  = (read_body_with_cancel (mret false) [] r ≫= λ bytes, mret (M:=Act) (bytes, b)) m.
Proof. intros Hm. unfold mbind, act_bind. by rewrite read_body_idle. Qed.
Lemma sleep_idle {A} a (x y : Act A) m :
  idle m → can_retry a = true → (∀ m, idle m → x m = y m) →
  (_ ← sleep_before_retry a; x) m = (_ ← sleep_before_retry a; y) m.
Proof.
  intros Hm Ha Hxy. destruct (sleep_spec a m Ha) as (d & m1 & Hrun & _ & _ & _ & Hq).
  rewrite !(act_bind_run _ _ _ _ _ Hrun). apply Hxy. destruct Hm as [Hc Hi].
  destruct Hq as (_ & _ & _ & _ & _ & Hqc & Hqi & _). split; congruence.
Qed.
Lemma download_loop_idle url l offset last m :
  idle m → download_loop cancel_load url l offset last m = download_loop (mret false) url l offset last m.
Proof.
  revert offset last m. induction l as [|a l IH]; intros offset last m Hm; [done|]. cbn [download_loop].
  rewrite (act_bind_run _ _ _ _ _ (load_idle m Hm)), (act_bind_run (mret false) _ m false m) by done. cbv iota.
  rewrite !(act_bind_run _ _ _ _ _ (call_run _ m)).
  assert (idle (logged m (range_request url offset))) as Hm1 by done.
  destruct (reply m (range_request url offset) 0) as [e|resp].
  - destruct (can_retry a) eqn:Ha; [|done]. apply sleep_idle; auto.
  - case_match; [by apply IH|]. case_match; [by apply finish_idle|]. case_match; [by apply finish_idle|].
    destruct (should_retry_status (rs_status resp) && can_retry a) eqn:E; [|done].
    apply andb_true_iff in E as [_ Ha]. apply sleep_idle; auto.
Qed.

(** A file from a server that recovers in time. *)
Lemma download_from_idle dir url content offset m :
  is_http url = true → served url content 5 (m_log m) offset → len content ≤ MAX_BODY_BYTES → idle m →
  ∃ v m', download_bytes_from_with_cancel dir url offset cancel_load m = (Ok v, m')
    ∧ completes content offset v ∧ quiet m m'.
Proof.
  intros Hurl Hs Hlen Hm. unfold download_bytes_from_with_cancel. rewrite Hurl, download_loop_idle by done.
  by apply (download_served url content 5 0).
Qed.
Lemma download_bytes_file dir url content m :
  is_http url = true → served url content 5 (m_log m) 0 → len content ≤ MAX_BODY_BYTES →
  ∃ m', download_bytes dir url m = (Ok content, m') ∧ quiet m m'.
Proof.
  intros Hurl Hs Hlen. unfold download_bytes, download_bytes_from, download_bytes_from_with_cancel. rewrite Hurl.
  destruct (download_served url content 5 0 0 None m Hs Hlen eq_refl) as ([bytes append] & m' & E & Hc & Hq).
  change (nums 0 5) with attempts in E. rewrite (act_bind_run _ _ _ _ _ E). exists m'. split; [|done].
  unfold completes in Hc. simpl in Hc. destruct append; [lia|]. by subst bytes.
Qed.

(** From the log [log0] on, every download of the file ends within five requests. *)
Definition recovers (log0 : list Request) (url : string) (content : list byte) : Prop :=
  ∀ log offset, log0 `prefix_of` log → served url content 5 log offset.
Lemma recovers_later log0 log1 url content :
  log0 `prefix_of` log1 → recovers log0 url content → recovers log1 url content.
Proof. intros Hp Hr log offset Hlog. apply Hr. by etrans. Qed.

(** What a download sends. *)
Lemma act_sends_read_body P cancel out r : act_sends P cancel → act_sends P (read_body_with_cancel cancel out r).
Proof.
  intros Hc. revert out. induction r as [|[e|c] r IH]; intros out; cbn [read_body_with_cancel]; act_sends_tac.
Qed.
Lemma act_sends_download_loop P cancel url l offset last :
  (∀ offset, P (range_request url offset)) → act_sends P cancel → act_sends P (download_loop cancel url l offset last).
Proof.
  intros HP Hc. revert offset last. induction l as [|a l IH]; intros offset last; cbn [download_loop];
    pose proof (act_sends_retry_delay P); pose proof (λ r, act_sends_read_body P cancel [] r Hc);
    pose proof (λ offset, act_sends_call P _ (HP offset)); act_sends_tac.
Qed.
Lemma act_sends_download P dir url offset cancel :
  (∀ offset, P (range_request url offset)) → act_sends P cancel →
  act_sends P (download_bytes_from_with_cancel dir url offset cancel).
Proof.
  intros HP Hc. unfold download_bytes_from_with_cancel.
  pose proof (λ l last, act_sends_download_loop P cancel url l offset last HP Hc). act_sends_tac.
Qed.
Lemma act_sends_download_bytes P dir url :
  (∀ offset, P (range_request url offset)) → act_sends P (download_bytes dir url).
Proof.
  intros HP. unfold download_bytes, download_bytes_from.
  pose proof (act_sends_download P dir url 0 (mret false) HP (act_sends_ret _ false)). act_sends_tac.
Qed.
Lemma act_logs_download_bytes dir url : act_logs (download_bytes dir url).
Proof. by apply act_sends_download_bytes. Qed.
End Idle.

(** ** Runs that do not fail *)
Definition calm (m : Machine) : Prop := calm_world (m_world m) ∧ idle m.
Abbreviation files m := (w_fs (m_world m)).
Lemma quiet_calm m m' : quiet m m' → calm m → calm m' ∧ files m' = files m.
Proof.
  intros (Hfs & Hf & Hst & _ & _ & Hc & Hi & _) [[Hf' Hst'] [Hc' Hi']].
  split; [|done]. by repeat split; congruence.
Qed.
Lemma sys_run {A} (x : IO A) m a w' : x (m_world m) = (Ok a, w') → sys x m = (Ok a, with_world m w').
Proof. unfold sys. by intros ->. Qed.
Lemma with_world_calm m w : calm m → calm_world w → calm (with_world m w).
Proof. by intros [_ Hi]. Qed.

(** ** The download directory *)
Implicit Types (out p : path) (w : World) (fs : FS).
(** What a download does to the files: directories on the way to [out], and
    files in it. *)
Definition step_in (out : path) (fs fs' : FS) : Prop := ∀ q,
  fs' !! q = fs !! q ∨ (q ∈ ancestors out ∧ fs' !! q = Some Dir) ∨ (∃ n, q = join1 out n ∧ fs' !! q ≠ Some Dir).
#[global] Instance step_in_preorder out : PreOrder (step_in out).
Proof.
  split; [by left|]. intros fs1 fs2 fs3 H12 H23 q.
  destruct (H23 q) as [->|[?|?]]; [apply H12|by right; left|by right; right].
Qed.
(** Nothing is in its way. *)
Definition clear (out : path) (fs : FS) : Prop :=
  (∀ q bs, q ∈ ancestors out → fs !! q ≠ Some (File bs)) ∧ ∀ n, fs !! join1 out n ≠ Some Dir.
Lemma clear_step out fs fs' : clear out fs → step_in out fs fs' → clear out fs'.
Proof.
  intros [Hd Hf] Hs. split.
  - intros q bs Hq. destruct (Hs q) as [->|[[_ ->]|(n & -> & _)]]; [by apply Hd|done|].
    by apply join1_not_ancestor in Hq.
  - intros n. destruct (Hs (join1 out n)) as [->|[[Hq _]|(_ & _ & Hn)]]; [apply Hf| |done].
    by apply join1_not_ancestor in Hq.
Qed.
Lemma is_dir_step out fs fs' : step_in out fs fs' → is_dir fs out = true → is_dir fs' out = true.
Proof.
  unfold is_dir. rewrite !orb_true_iff, !bool_decide_eq_true. intros Hs [?|Hd]; [by left|]. right.
  destruct (Hs out) as [->|[[_ ?]|(n & E & _)]]; [done..|].
  apply (f_equal length) in E. unfold join1 in E. rewrite length_app in E. simpl in E. lia.
Qed.
Lemma clear_not_dir out fs n : clear out fs → is_dir fs (join1 out n) = false.
Proof.
  intros [_ Hf]. unfold is_dir. rewrite orb_false_iff, !bool_decide_eq_false. split; [|apply Hf].
  unfold join1. by destruct out.
Qed.
Lemma step_in_insert out fs n bs : step_in out fs (<[join1 out n := File bs]> fs).
Proof.
  intros q. destruct (decide (q = join1 out n)) as [->|]; [|left; by rewrite lookup_insert_ne].
  right. right. exists n. by rewrite lookup_insert_eq.
Qed.
Lemma step_in_delete out fs n : step_in out fs (delete (join1 out n) fs).
Proof.
  intros q. destruct (decide (q = join1 out n)) as [->|]; [|left; by rewrite lookup_delete_ne].
  right. right. exists n. by rewrite lookup_delete_eq.
Qed.

(** Where a run inside the download directory ends. *)
Definition inside (out : path) (w w' : World) : Prop := calm_world w' ∧ step_in out (w_fs w) (w_fs w').
Lemma inside_trans out w1 w2 w3 : inside out w1 w2 → inside out w2 w3 → inside out w1 w3.
Proof. intros [_ Hs1] [? Hs2]. split; [done|]. by etrans. Qed.

(** A call without a fault whose effect is known. *)
Lemma call_inside {A} (out : path) (run : option fault → FS → (string + A) * FS) a w fs :
  calm_world w → run None (w_fs w) = (inr a, fs) → step_in out (w_fs w) fs →
  ∃ w', io_call run w = (Ok a, w') ∧ inside out w w' ∧ w_fs w' = fs.
Proof.
  intros Hw Hr Hs. destruct (io_call_calm run w a fs Hw Hr) as (w' & E & Hw' & Hfs).
  exists w'. split; [done|]. split; [|done]. split; [done|]. by rewrite Hfs.
Qed.
Lemma mkdir_inside out w :
  calm_world w → clear out (w_fs w) →
  ∃ w', fs_create_dir_all out w = (Ok tt, w') ∧ inside out w w' ∧ is_dir (w_fs w') out = true.
Proof.
  intros Hw [Hd _]. destruct (create_dir_all_calm out w Hw Hd) as (w' & E & Hw' & Hfs).
  exists w'. split; [done|]. split.
  - split; [done|]. intros q. rewrite Hfs. destruct (decide _); [right; by left|by left].
  - unfold is_dir. rewrite Hfs. destruct (decide (out = [])) as [->|Hne]; [done|].
    rewrite decide_True by by apply ancestors_elem. by rewrite (bool_decide_eq_true_2 (Some Dir = Some Dir)), orb_true_r.
Qed.
Lemma append_inside out n bs w :
  calm_world w →
  ∃ w', fs_append (join1 out n) bs w = (Ok tt, w') ∧ inside out w w'.
Proof.
  intros Hw. unfold fs_append.
  match goal with |- context [io_call ?run w] => edestruct (call_inside out run tt w) as (w' & E & Hi & _) end;
    [done|reflexivity|apply step_in_insert|eauto].
Qed.
Lemma sync_inside out w : calm_world w → ∃ w', fs_sync w = (Ok tt, w') ∧ inside out w w'.
Proof.
  intros Hw. unfold fs_sync.
  match goal with |- context [io_call ?run w] => edestruct (call_inside out run tt w) as (w' & E & Hi & _) end;
    [done|reflexivity|done|eauto].
Qed.
Lemma open_inside out p bs w :
  calm_world w → w_fs w !! p = Some (File bs) → ∃ w', fs_open p w = (Ok tt, w') ∧ inside out w w'.
Proof.
  intros Hw Hp. unfold fs_open.
  match goal with |- context [io_call ?run w] => edestruct (call_inside out run tt w (w_fs w)) as (w' & E & Hi & _) end;
    [done|by rewrite Hp|done|eauto].
Qed.
Lemma set_len_inside out name n w :
  calm_world w → ∃ w', fs_set_len (join1 out name) n w = (Ok tt, w') ∧ inside out w w'.
Proof.
  intros Hw. unfold fs_set_len.
  match goal with |- context [io_call ?run w] => edestruct (call_inside out run tt w) as (w' & E & Hi & _) end;
    [done|reflexivity|apply step_in_insert|eauto].
Qed.
Lemma write_inside out n bs w :
  calm_world w → clear out (w_fs w) → ∃ w', write_file (join1 out n) bs w = (Ok tt, w') ∧ inside out w w'.
Proof.
  intros Hw Hc. unfold write_file. rewrite parent_join1.
  destruct (mkdir_inside out w Hw Hc) as (w1 & E1 & [Hw1 Hs1] & Hdir). rewrite (io_bind_run _ _ _ _ _ E1).
  pose proof (clear_step _ _ _ Hc Hs1) as Hc1.
  assert (∃ w2, fs_create (join1 out n) w1 = (Ok tt, w2) ∧ inside out w1 w2) as (w2 & E2 & [Hw2 Hs2]).
  { unfold fs_create.
    match goal with |- context [io_call ?run w1] =>
      edestruct (call_inside out run tt w1 (<[join1 out n := File []]> (w_fs w1))) as (w2 & E & Hi & _) end;
      [done| |apply step_in_insert|eauto].
    cbn beta iota. unfold parent_is_dir. by rewrite parent_join1, Hdir, (clear_not_dir _ _ _ Hc1). }
  rewrite (io_bind_run _ _ _ _ _ E2).
  destruct (append_inside out n bs w2 Hw2) as (w3 & E3 & [Hw3 Hs3]). rewrite (io_bind_run _ _ _ _ _ E3).
  destruct (sync_inside out w3 Hw3) as (w4 & E4 & Hi4). exists w4. split; [done|].
  eapply inside_trans; [|exact Hi4]. split; [done|]. by etrans; [|etrans].
Qed.
Lemma rename_inside out n n' bs w :
  calm_world w → clear out (w_fs w) → is_dir (w_fs w) out = true → n ≠ n' →
  w_fs w !! join1 out n = Some (File bs) →
  ∃ w', fs_rename (join1 out n) (join1 out n') w = (Ok tt, w') ∧ inside out w w'.
Proof.
  intros Hw Hc Hd Hne Hp. unfold fs_rename.
  match goal with |- context [io_call ?run w] => edestruct (call_inside out run tt w) as (w' & E & Hi & _) end;
    [done| | |eauto].
  - rewrite Hp. unfold parent_is_dir. by rewrite parent_join1, Hd, (clear_not_dir _ _ _ Hc).
  - etrans; [apply (step_in_delete out _ n)|apply step_in_insert].
Qed.
(** [let _ = fs::remove_file(..)]. *)
Lemma remove_inside out n w :
  calm_world w → ∃ r w', fs_remove_file (join1 out n) w = (r, w') ∧ no_panic r ∧ inside out w w'.
Proof.
  intros [Hf Hst]. unfold fs_remove_file, io_call. rewrite Hf.
  destruct (w_fs w !! join1 out n) as [[bs|]|]; cbn; eexists _, _; (split; [reflexivity|split; [by intros ?|]]);
    (split; [done|]); [apply step_in_delete|done..].
Qed.
(** [fs::read_to_string(..).ok()]. *)
Lemma read_text_inside out p w :
  calm_world w → ∃ o w', io_ok (fs_read_to_string p) w = (Ok o, w') ∧ inside out w w' ∧ w_fs w' = w_fs w.
Proof.
  intros [Hf Hst]. unfold io_ok, fs_read_to_string, mbind, io_bind, fs_read, io_call, io_lift. rewrite Hf.
  destruct (w_fs w !! p) as [[bs|]|]; [|by do 2 eexists..].
  cbn. destruct (from_utf8 bs) as [s|e|s] eqn:E; cbn; [by do 2 eexists..|].
  by destruct (from_utf8_no_panic bs s).
Qed.

(** ** The downloads return *)
Lemma resume_offset_calm out w :
  calm_world w → clear out (w_fs w) →
  ∃ o w', resume_offset (part_file out) (progress_file out) w = (Ok o, w') ∧ inside out w w'.
Proof.
  intros Hw Hc. unfold resume_offset.
  unfold fs_file_len. rewrite stat_call_bind by apply Hw.
  destruct (read_text_inside out (progress_file out) w Hw) as (o & w1 & E1 & [Hw1 Hs1] & Hfs).
  rewrite (io_bind_run _ _ _ _ _ E1). cbv zeta.
  set (offset := match _ with Some progress => N.min progress _ | None => _ end).
  match goal with |- context [(?x : IO unit) ≫= _] =>
    assert (∃ w2, x w1 = (Ok tt, w2) ∧ inside out w1 w2) as (w2 & E2 & [Hw2 Hs2]) end.
  { case_match eqn:Hlt; [|by exists w1]. apply N.ltb_lt in Hlt.
    destruct (w_fs w !! part_file out) as [[bs|]|] eqn:Hpart; [|lia..].
    rewrite <- Hfs in Hpart. destruct (open_inside out _ _ w1 Hw1 Hpart) as (w2 & E2 & Hi2).
    rewrite (io_bind_run _ _ _ _ _ E2). destruct (set_len_inside out "payload.bin.part" offset w2 (proj1 Hi2))
      as (w3 & E3 & Hi3). exists w3. split; [done|]. by eapply inside_trans. }
  exists offset, w2. split; [by rewrite (io_bind_run _ _ _ _ _ E2)|]. split; [done|]. by etrans.
Qed.

Section Downloads.
Context `{Hash, Net, BodyText}.
Variable current_dir : path.

(** A run of a machine that ends as [inside] says. *)
Definition moved (out : path) (m m' : Machine) : Prop := calm m' ∧ step_in out (files m) (files m').
Lemma moved_trans out m1 m2 m3 : moved out m1 m2 → moved out m2 m3 → moved out m1 m3.
Proof. intros [_ Hs1] [? Hs2]. split; [done|]. by etrans. Qed.
Lemma moved_sys {A} out (x : IO A) a m :
  calm m → (∃ w', x (m_world m) = (Ok a, w') ∧ inside out (m_world m) w') →
  ∃ m', sys x m = (Ok a, m') ∧ moved out m m'.
Proof.
  intros Hm (w' & E & Hw' & Hs). exists (with_world m w'). split; [by apply sys_run|].
  split; [by apply with_world_calm|done].
Qed.
Lemma moved_quiet out m m' : calm m → quiet m m' → moved out m m'.
Proof. intros Hm Hq. destruct (quiet_calm _ _ Hq Hm) as [Hm' Hfs]. split; [done|]. by rewrite Hfs. Qed.
Lemma moved_clear out m m' : clear out (files m) → moved out m m' → clear out (files m').
Proof. intros Hc [_ Hs]. by eapply clear_step. Qed.

Lemma write_moved out n bs m :
  calm m → clear out (files m) → ∃ m', sys (write_file (join1 out n) bs) m = (Ok tt, m') ∧ moved out m m'.
Proof. intros Hm Hc. apply moved_sys; [done|]. by apply write_inside; [apply Hm|]. Qed.

Lemma resumable_runs url content out m :
  is_http url = true → recovers (m_log m) url content → len content ≤ MAX_BODY_BYTES →
  calm m → clear out (files m) → partial (part_file out) content (files m) →
  ∃ m', download_resumable_payload current_dir url out "payload.bin" m
        = (Ok (part_file out, payload_file out), m')
    ∧ moved out m m' ∧ files m' !! part_file out = Some (File content).
Proof.
  intros Hurl Hs Hlen Hm Hc Hpre.
  assert (∃ res m', download_resumable_payload current_dir url out "payload.bin" m = (Ok res, m') ∧ moved out m m')
    as (res & m' & E & Hmv).
  { unfold download_resumable_payload. change ("payload.bin" +:+ ".part") with "payload.bin.part"%string.
    fold (part_file out) (progress_file out) (payload_file out).
    destruct (resume_offset_calm out _ (proj1 Hm) Hc) as (o & w1 & Eo & Hi1).
    destruct (moved_sys out _ o m Hm (ex_intro _ w1 (conj Eo Hi1))) as (m1 & E1 & Hmv1).
    rewrite (act_bind_run _ _ _ _ _ E1). pose proof E1 as (w1' & Eo' & ->)%sys_ok.
    apply (resume_offset_ok _ _ content) in Eo'; [|done].
    destruct (download_from_idle current_dir url content o (with_world m w1') Hurl (Hs _ _ (reflexivity _)) Hlen
      (proj2 (proj1 Hmv1))) as ([bytes append] & m2 & E2 & Hcomp & Hq).
    pose proof (moved_quiet out _ _ (proj1 Hmv1) Hq) as Hmv2. destruct (quiet_calm _ _ Hq (proj1 Hmv1)) as [Hm2 Hfs2].
    rewrite (act_bind_run _ _ _ _ _ E2). cbv iota beta.
    rewrite (act_bind_run _ _ _ _ _ (not_cancelled_idle _ (proj2 Hm2))).
    pose proof (moved_trans _ _ _ _ Hmv1 Hmv2) as Hmv12. pose proof (moved_clear _ _ _ Hc Hmv12) as Hc2.
    match goal with |- context [sys ?x ≫= _] =>
      assert (∃ w3, x (m_world m2) = (Ok tt, w3) ∧ inside out (m_world m2) w3) as Hx end.
    { destruct (append && (0 <? o)) eqn:Eb; [|by apply (write_inside out "payload.bin.part"); [apply Hm2|]].
      apply andb_true_iff in Eb as [-> Eb%N.ltb_lt]. destruct Eo' as [->|Hpart]; [lia|].
      change (w_fs w1') with (files (with_world m w1')) in Hpart. rewrite <- Hfs2 in Hpart.
      destruct (open_inside out _ _ _ (proj1 Hm2) Hpart) as (w3 & E3 & Hi3). rewrite (io_bind_run _ _ _ _ _ E3).
      destruct (append_inside out "payload.bin.part" bytes w3 (proj1 Hi3)) as (w4 & E4 & Hi4).
      rewrite (io_bind_run _ _ _ _ _ E4). destruct (sync_inside out w4 (proj1 Hi4)) as (w5 & E5 & Hi5).
      exists w5. split; [done|]. eapply inside_trans; [exact Hi3|]. by eapply inside_trans. }
    destruct (moved_sys out _ tt m2 Hm2 Hx) as (m3 & E3 & Hmv3). rewrite (act_bind_run _ _ _ _ _ E3).
    pose proof (moved_trans _ _ _ _ Hmv12 Hmv3) as Hmv13.
    rewrite (act_bind_run (sys (fs_file_len (part_file out))) _ m3
      (match files m3 !! part_file out with Some (File bs) => len bs | _ => 0 end) m3).
    2:{ unfold sys, fs_file_len. rewrite stat_call_ok by apply Hmv13. by destruct m3. }
    match goal with |- context [write_file (progress_file out) ?bs] =>
      destruct (write_moved out ".progress" bs m3 (proj1 Hmv3)) as (m4 & E4 & Hmv4) end;
      [by apply (moved_clear _ m)|].
    rewrite (act_bind_run _ _ _ _ _ E4). do 2 eexists. split; [reflexivity|]. by eapply moved_trans. }
  destruct (resumable_ok current_dir url content out m res m') as [-> Hpart]; [|done|done|by eauto].
  intros o w v m2 Hd. destruct (download_from_idle current_dir url content o (with_world m w) Hurl
    (Hs _ _ (reflexivity _)) Hlen (proj2 Hm)) as (v' & m2' & E' & Hcomp & _).
  rewrite Hd in E'. by injection E' as -> _.
Qed.

Variable r : Runtime.
Variable patch : PatchCheck.
Let out : path := download_dir current_dir r patch.

(** From [log0] on, the server has the files of the patch and recovers in time. *)
Definition serves_patch (log0 : list Request) (mb content : list byte) : Prop :=
  is_http (manifest_url patch) = true ∧ is_http (payload_url patch) = true
  ∧ recovers log0 (manifest_url patch) mb ∧ recovers log0 (payload_url patch) content
  ∧ len mb ≤ MAX_BODY_BYTES ∧ len content ≤ MAX_BODY_BYTES
  ∧ sha256_hex mb = manifest_hash patch ∧ sha256_hex content = payload_hash patch.

Lemma serves_later log0 log1 mb content :
  log0 `prefix_of` log1 → serves_patch log0 mb content → serves_patch log1 mb content.
Proof.
  intros Hp (? & ? & Hm & Hc & Hrest). do 2 (split; [done|]).
  split; [by eapply recovers_later|]. split; [by eapply recovers_later|done].
Qed.

Lemma finish_payload_run content m :
  calm m → clear out (files m) → is_dir (files m) out = true →
  files m !! part_file out = Some (File content) → sha256_hex content = payload_hash patch →
  ∃ m', finish_payload current_dir r patch (part_file out) (payload_file out) m
        = (Ok (manifest_file out, payload_file out), m')
    ∧ moved out m m' ∧ files m' !! payload_file out = Some (File content)
    ∧ files m' !! manifest_file out = files m !! manifest_file out.
Proof.
  intros Hm Hc Hd Hpart Hsha. unfold finish_payload. fold out.
  destruct (read_calm _ _ _ (proj1 Hm) Hpart) as (w1 & E1 & Hw1 & Hf1).
  rewrite (act_bind_run _ _ _ _ _ (sys_run _ _ _ _ E1)). pose proof (with_world_calm m w1 Hm Hw1) as Hm1.
  rewrite (act_bind_run _ _ _ _ _ (not_cancelled_idle _ (proj2 Hm1))).
  rewrite (act_bind_run (act_lift _) _ _ tt (with_world m w1)).
  2:{ unfold act_lift. f_equal. by apply ensure_hash_ok. }
  rewrite <- Hf1 in Hpart, Hc, Hd.
  destruct (rename_inside out "payload.bin.part" "payload.bin" content w1 Hw1 Hc Hd ltac:(done) Hpart)
    as (w2 & E2 & Hw2 & Hs2).
  assert (w_fs w2 = <[payload_file out := File content]> (delete (part_file out) (w_fs w1))) as Hf2.
  { destruct (fs_rename_ok _ _ _ _ E2) as (bs & Hbs & ->). unfold part_file in *. rewrite Hpart in Hbs. by injection Hbs as <-. }
  rewrite (act_bind_run _ _ _ _ _ (sys_run _ (with_world m w1) _ _ E2)).
  destruct (remove_inside out ".progress" w2 Hw2) as (x & w3 & E3 & Hx & Hw3 & Hs3).
  set (m3 := with_world m w3).
  assert (∃ o, act_ok (sys (fs_remove_file (progress_file out))) (with_world (with_world m w1) w2) = (Ok o, m3)) as [o Eo].
  { unfold act_ok, sys. cbn [m_world with_world]. unfold progress_file. rewrite E3.
    destruct x as [a|e|s]; [by eexists..|]. by destruct (Hx s). }
  assert (∀ q, q ≠ progress_file out → w_fs w3 !! q = w_fs w2 !! q) as Hf3.
  { intros q Hq. by apply (touches_at (λ p, p = progress_file out) _ _ _ _ _ (touches_remove_file _ _ eq_refl) E3). }
  exists m3. rewrite (act_bind_run _ _ _ _ _ Eo). split; [reflexivity|]. split; [|split].
  - split; [by apply with_world_calm|]. cbn [m3 m_world with_world]. rewrite <- Hf1. by etrans.
  - cbn [m3 m_world with_world]. rewrite Hf3 by (by intros ?%join1_inj). by rewrite Hf2, lookup_insert_eq.
  - cbn [m3 m_world with_world]. rewrite Hf3 by (by intros ?%join1_inj).
    rewrite Hf2, lookup_insert_ne, lookup_delete_ne by (by intros ?%join1_inj). by rewrite Hf1.
Qed.

(** Both files arrive, whatever part of the payload was there before. *)
Lemma download_patch_files_run mb content m :
  serves_patch (m_log m) mb content → calm m → clear out (files m) →
  partial (part_file out) content (files m) →
  ∃ m', download_patch_files current_dir r patch m = (Ok (manifest_file out, payload_file out), m')
    ∧ moved out m m' ∧ files m' !! manifest_file out = Some (File mb)
    ∧ files m' !! payload_file out = Some (File content).
Proof.
  intros (Hmu & Hpu & Hms & Hps & Hml & Hpl & Hmh & Hph) Hm Hc Hpre.
  rewrite download_patch_files_eq. fold out.
  destruct (mkdir_inside out _ (proj1 Hm) Hc) as (w1 & E1 & Hi1 & Hd1).
  set (m1 := with_world m w1). assert (moved out m m1) as Hmv1 by (split; [by apply with_world_calm; [|apply Hi1]|apply Hi1]).
  rewrite (act_bind_run _ _ _ _ m1 (sys_run _ _ _ _ E1)).
  rewrite (act_bind_run _ _ _ _ _ (not_cancelled_idle m1 (proj2 (proj1 Hmv1)))).
  destruct (download_bytes_file current_dir _ mb m1 Hmu (Hms _ _ (reflexivity _)) Hml) as (m2 & E2 & Hq).
  pose proof (moved_quiet out _ _ (proj1 Hmv1) Hq) as Hmv2. rewrite (act_bind_run _ _ _ _ _ E2).
  rewrite (act_bind_run _ _ _ _ _ (not_cancelled_idle m2 (proj2 (proj1 Hmv2)))).
  rewrite (act_bind_run (act_lift _) _ _ tt m2).
  2:{ unfold act_lift. f_equal. by apply ensure_hash_ok. }
  pose proof (moved_trans _ _ _ _ Hmv1 Hmv2) as Hmv12.
  destruct (write_moved out "patch_manifest.json" mb m2 (proj1 Hmv2)) as (m3 & E3 & Hmv3);
    [by apply (moved_clear _ m)|].
  fold (manifest_file out) in E3. rewrite (act_bind_run _ _ _ _ _ E3). pose proof (moved_trans _ _ _ _ Hmv12 Hmv3) as Hmv13.
  assert (files m3 !! manifest_file out = Some (File mb)) as Hman.
  { apply sys_ok in E3 as (w3 & E3 & ->). by apply write_file_ok in E3. }
  assert (files m3 !! part_file out = files m !! part_file out) as Hpart.
  { transitivity (files m2 !! part_file out).
    - eapply act_touches_run; [apply touches_manifest|exact E3|].
      fold out. intros [E%join1_inj|E%join1_not_ancestor]; done.
    - rewrite (proj2 (quiet_calm _ _ Hq (proj1 Hmv1))).
      eapply act_touches_run; [apply (touches_mkdir current_dir r patch)|by apply sys_run|apply join1_not_ancestor]. }
  assert (m_log m `prefix_of` m_log m3) as Hlog.
  { transitivity (m_log m2); [|by eapply act_logs_run, E3; auto with fcb].
    apply (act_logs_run _ _ _ _ (act_logs_download_bytes _ _) E2). }
  destruct (resumable_runs _ content out m3 Hpu (recovers_later _ _ _ _ Hlog Hps) Hpl (proj1 Hmv3)) as (m4 & E4 & Hmv4 & Hcont);
    [by apply (moved_clear _ m)|by apply (partial_same _ _ (files m))|].
  rewrite (act_bind_run _ _ _ _ _ E4). cbv iota beta. pose proof (moved_trans _ _ _ _ Hmv13 Hmv4) as Hmv14.
  destruct (finish_payload_run content m4 (proj1 Hmv4)) as (m5 & E5 & Hmv5 & Hpay & Hkeep);
    [by apply (moved_clear _ m)| |done|done|].
  { eapply is_dir_step, Hd1. eapply (moved_trans out m1 m2 m4); [done|]. by eapply moved_trans. }
  exists m5. split; [done|]. split; [by eapply moved_trans|]. split; [|done]. rewrite Hkeep.
  rewrite (act_touches_run _ _ _ _ _ _ (act_touches_resumable current_dir out (payload_url patch)) E4); [done|].
  by apply not_download_file.
Qed.
End Downloads.

(** ** Requests outside the download *)
Section Requests.
Context `{Net, BodyText}.

(** Telling the server never stops the caller. *)
Lemma post_runs {A} `{ToValue A} (self : Client) (url_path : string) (a : A) m :
  no_panic (to_value a) → ∃ o m', act_ok (post_json self url_path a) m = (Ok o, m') ∧ quiet m m'.
Proof.
  intros Hnp. unfold act_ok, post_json. destruct (to_value a) as [json|e|e]; cbn [map_err].
  - rewrite (act_bind_run _ _ m json m) by done. cbv zeta.
    set (rq := {| rq_method := _; rq_url := _; rq_headers := _; rq_query := _; rq_body := _ |}).
    destruct (retry_loop_retried rq (λ _, Ok tt) 4 0 None m eq_refl) as (k & ds & _ & _ & _ & Hres & _ & _ & _ & Hq).
    change (nums 0 5) with attempts in Hres, Hq.
    destruct (retry_loop rq _ attempts None m) as [res m']. cbn [fst snd] in Hres, Hq. subst res.
    unfold conclude. destruct (reply m rq k) as [e|resp]; [by do 2 eexists|].
    destruct (is_success (rs_status resp)); by do 2 eexists.
  - by do 2 eexists.
  - by destruct (Hnp e).
Qed.
(** A request that is answered after at most four failures worth a retry. *)
Definition replied (log : list Request) (rq : Request) (resp : Response) : Prop :=
  ∃ k, (k ≤ 4)%nat ∧ (∀ i, (i < k)%nat → transient (serve (log ++ replicate i rq) rq) = true)
    ∧ serve (log ++ replicate k rq) rq = inr resp ∧ is_success (rs_status resp) = true.
Lemma retry_replied {A} rq (os : Response → result A) resp m :
  replied (m_log m) rq resp → ∃ m', retry_loop rq os attempts None m = (os resp, m') ∧ quiet m m'.
Proof.
  intros (k & Hk & Htr & Hr & Hsuc).
  destruct (retry_loop_retried rq os 4 0 None m eq_refl) as (k' & ds & Hk' & Htr' & Hlast & Hres & _ & _ & _ & Hq).
  change (nums 0 5) with attempts in Hres, Hq. destruct (retry_loop rq os attempts None m) as [res m'].
  assert (transient (reply m rq k) = false) as Hnt.
  { unfold reply. rewrite Hr. simpl. by apply is_success_not_retried. }
  assert (k' = k) as ->.
  { destruct (decide (k < k')%nat) as [Hlt|]; [by rewrite (Htr' _ Hlt) in Hnt|].
    destruct (decide (k' < k)%nat) as [Hlt|]; [|lia]. destruct Hlast as [->|Hf]; [lia|].
    pose proof (Htr _ Hlt) as Ht. unfold reply in Hf. by rewrite Ht in Hf. }
  cbn [fst snd] in Hres, Hq. exists m'. split; [|done]. subst res. unfold reply, conclude. by rewrite Hr, Hsuc.
Qed.
Lemma act_logs_retry_loop {A} rq (os : Response → result A) l last : act_logs (retry_loop rq os l last).
Proof. eapply act_sends_weaken; [|apply act_sends_retry_loop]. done. Qed.
End Requests.

Section Delivery.
Context `{Hash, Base64, Ed25519, BsdiffZstd}.
Context `{Serde Value.t, ToValue PatchManifest, Serde PatchManifest, Serde SimpleBinaryDiff}.
Context `{Serde BytecodeModule, Serde State, Serde CrashRollbackEvent, Serde (list CrashRollbackEvent)}.
Context `{ToValue CrashRollbackEvent, ToValue EventRequest, JsonF64}.
Context `{Net, BodyText, BodyJson CheckResponse}.
Context `{!SerdeLaws State (λ _, True)}.
(** serde_json's [to_value] returns. *)
Hypothesis event_no_panic : ∀ e : EventRequest, no_panic (to_value e).
Variable snapshot_replace : bool.
Variable current_dir : path.

(** ** The downloads and the updater's files *)
(** The download directory lies below [downloads] in the cache directory. *)
Definition apart (cache_dir out : path) : Prop := join1 cache_dir "downloads" `prefix_of` out.
Lemma apart_places cache_dir out q :
  apart cache_dir out → (q ∈ ancestors out → ¬ file_place cache_dir q)
    ∧ ∀ n, q = join1 out n → ¬ dir_place cache_dir q ∧ q ≠ state_path cache_dir.
Proof.
  intros [rest ->]. unfold join1. split.
  - intros [_ Hq]%ancestors_elem Hf. rewrite <- app_assoc in Hq. cbn [app] in Hq.
    destruct Hf as [->|[[t ->]|(n & f & ->)]]; unfold state_path, patch_path, patches_dir, join1 in Hq;
      rewrite <- ?app_assoc in Hq; by apply prefix_app_inv, prefix_cons_inv_1 in Hq.
  - intros n ->. rewrite <- !app_assoc. cbn [Datatypes.app]. split.
    + intros [k [_ Hq]%ancestors_elem]. unfold patches_dir, join1 in Hq. rewrite <- app_assoc in Hq.
      by apply prefix_app_inv, prefix_cons_inv_1 in Hq.
    + unfold state_path, join1. by intros [= ?]%app_inv_head.
Qed.
Lemma tidy_step cache_dir out fs fs' :
  apart cache_dir out → tidy cache_dir fs → step_in out fs fs' → tidy cache_dir fs'.
Proof.
  intros Ha [Hd Hf] Hs. split.
  - intros q bs Hq. destruct (Hs q) as [->|[[_ ->]|(n & E & _)]]; [by apply Hd|done|].
    by destruct (proj2 (apart_places _ _ q Ha) n E).
  - intros q Hq. destruct (Hs q) as [->|[[Hin _]|(_ & _ & ?)]]; [by apply Hf| |done].
    by destruct (proj1 (apart_places _ _ q Ha) Hin).
Qed.
Lemma state_path_step cache_dir out fs fs' :
  apart cache_dir out → step_in out fs fs' → fs' !! state_path cache_dir = fs !! state_path cache_dir.
Proof.
  intros Ha Hs. destruct (Hs (state_path cache_dir)) as [?|[[Hin _]|(n & E & _)]]; [done| |].
  - destruct (proj1 (apart_places _ _ _ Ha) Hin). by left.
  - by destruct (proj2 (apart_places _ _ _ Ha) n E).
Qed.
(** Downloads leave the baseline and the installed artifacts alone. *)
Lemma content_step cache_dir out fs fs' q :
  apart cache_dir out → clear out fs → step_in out fs fs' → kept_place cache_dir q → content fs' q = content fs q.
Proof.
  intros [rest ->] [Hc _] Hs Hq. unfold content. destruct (Hs q) as [->|[[Hin ->]|(n & -> & _)]]; [done| |].
  - destruct (fs !! q) as [[bs|]|] eqn:Eq; [|done..]. by destruct (Hc q bs Hin).
  - exfalso. unfold join1 in Hq. destruct Hq as [[n' E]|Hq].
    + unfold patch_path, patches_dir, join1 in E. rewrite <- !app_assoc in E. by apply app_inv_head in E.
    + apply Hq. rewrite <- !app_assoc. by apply prefix_app_r.
Qed.

(** ** The device *)
(** Nothing fails, nobody cancels, and the files are where the updater puts them. *)
Record at_rest (cache_dir : path) (m : Machine) (s : State) : Prop := {
  rest_ready : ready cache_dir (m_world m);
  rest_idle : idle m;
  rest_holds : holds cache_dir (m_world m) s;
}.
Lemma at_rest_calm cd m s : at_rest cd m s → calm m.
Proof. intros [[? _] ? _]. by split. Qed.
Lemma at_rest_quiet cd m m' s : at_rest cd m s → quiet m m' → at_rest cd m' s ∧ files m' = files m.
Proof.
  intros Hr Hq. destruct (quiet_calm _ _ Hq (at_rest_calm _ _ _ Hr)) as [[Hw Hi] Hfs].
  destruct Hr as [Hr _ [_ Hh]]. split; [|done]. split; [by eapply ready_same|done|].
  split; [apply Hw|]. by rewrite Hfs.
Qed.
Lemma at_rest_moved cd out m m' s : apart cd out → at_rest cd m s → moved out m m' → at_rest cd m' s.
Proof.
  intros Ha [[_ Ht] _ [_ Hh]] [[Hw Hi] Hs]. split; [split; [done|by eapply tidy_step]|done|].
  split; [apply Hw|]. rewrite <- Hh. apply disk_state_ext. by eapply state_path_step.
Qed.
Lemma load_at_rest cd m s : at_rest cd m s →
  ∃ m', sys (load_state cd) m = (Ok s, m') ∧ at_rest cd m' s ∧ files m' = files m.
Proof.
  intros [Hr Hi Hh]. destruct (load_ready cd _ _ Hr Hh) as (w' & E & Hr' & Hh').
  destruct (load_ok cd _ _ _ _ Hh E) as (_ & _ & Hfs).
  exists (with_world m w'). split; [by apply sys_run|]. by split.
Qed.

(** ** What the server offers *)
Definition update_request (r : Runtime) (s : State) : ServerApi.CheckRequest := {|
  cr_org_id := rt_org_id r; cr_app_id := rt_app_id r; cr_release_version := rt_release_version r;
  cr_platform := rt_platform r; cr_arch := rt_arch r; cr_channel := rt_channel r;
  ServerApi.current_patch_number := State.current_patch_number s; cr_client_id := rt_client_id r |}.
(** The answer the runtime acts on: the last check's, or the server's from now on,
    when no other thread is checking the same and no panic left a flight. *)
Definition answers (m : Machine) (r : Runtime) (s : State) (response : CheckResponse) : Prop :=
  match rt_last_check r with
  | Some last => last = response
  | None => m_flights m !! device_question r (State.current_patch_number s) = None
      ∧ ∀ log, m_log m `prefix_of` log → ∃ resp,
      replied log {| rq_method := "GET"; rq_url := base_url (client_new (rt_server_url r)) +:+ "/v1/patches/check";
                   rq_headers := []; rq_query := check_query (update_request r s); rq_body := None |} resp
      ∧ body_json (rs_body resp) = Ok response
  end.
Lemma last_check_runs r s response m :
  let cd := cache current_dir r in
  at_rest cd m s → ensure_configured r = Ok tt → answers m r s response →
  ∃ m', (match rt_last_check r with Some x => mret (Some x) | None => check_for_update current_dir r end : Act _) m
        = (Ok (Some response), m') ∧ at_rest cd m' s ∧ files m' = files m ∧ m_log m `prefix_of` m_log m'.
Proof.
  intros cd Hm Hconf. unfold answers. destruct (rt_last_check r) as [last|]; [intros ->; by exists m|].
  intros [Hfree Hans]. unfold check_for_update.
  rewrite (act_bind_run (cancel_store false) _ m tt m).
  2:{ destruct Hm as [_ [Hc _] _], m. cbn in Hc. by subst. }
  destruct (load_at_rest cd m s Hm) as (m1 & E1 & Hm1 & Hfs).
  unfold check_request_from_runtime. rewrite Hconf. fold cd.
  erewrite (act_bind_run _ _ m).
  2:{ rewrite (act_bind_run (act_lift (Ok tt)) _ m tt m) by done. rewrite (act_bind_run _ _ _ _ _ E1). reflexivity. }
  pose proof (act_logs_run _ _ _ _ (act_sends_sys _ _) E1) as Hlog1.
  fold (device_question r (State.current_patch_number s)). set (question := device_question r _) in *.
  assert (m_flights m1 !! question = None) as Hf1 by (apply sys_ok in E1 as (w1 & _ & ->); exact Hfree).
  unfold check_singleflight. rewrite Hf1. set (m1' := with_flights m1 _).
  unfold as_message, perform_check_request, ServerApi.check. cbv zeta. cbn [cq_server_url].
  destruct (Hans (m_log m1') Hlog1) as (resp & Hresp & Hbody).
  destruct (retry_replied _ (read_json_body (A:=CheckResponse)) resp m1' Hresp) as (m2 & E2 & Hq).
  pose proof (act_logs_run _ _ _ _ (act_logs_retry_loop _ _ _ _) E2) as Hlog2.
  match goal with |- context [retry_loop ?rq ?os ?l ?o ?m0] => replace (retry_loop rq os l o m0) with
    (read_json_body (A:=CheckResponse) resp, m2) by (symmetry; exact E2) end.
  unfold read_json_body. rewrite Hbody. cbn [map_err].
  assert (at_rest cd m1' s) as Hm1' by by destruct Hm1.
  destruct (at_rest_quiet cd m1' m2 s Hm1' Hq) as [Hm2 Hfs2].
  eexists. split; [reflexivity|]. split; [by destruct Hm2|].
  split; [cbn; by rewrite Hfs2|cbn; by etrans].
Qed.

(** A patch made for this device's key: signed, with a payload that passes. *)
Definition good_patch (key : string) (mb content : list byte) (mm : PatchManifest) : Prop :=
  from_slice mb = Ok mm ∧ installable snapshot_replace key mm content.
(** The artifact the device makes of a payload, from what it has stored. *)
Definition device_makes (r : Runtime) (s : State) (mm : PatchManifest) (content : list byte)
    (artifact : option (list byte)) (m : Machine) : Prop :=
  makes_artifact snapshot_replace (cache current_dir r) (files m) (installed s)
    (resolve current_dir <$> rt_baseline_artifact_path r) mm content artifact.

Lemma post_install_runs r stats n m :
  ∃ o m', act_ok (post_install_event r stats n) m = (Ok o, m') ∧ quiet m m'.
Proof.
  unfold post_install_event. destruct (unconfigured r); [by exists (Some tt), m|].
  by apply post_runs.
Qed.

Lemma download_and_install_runs r stats s response (p : PatchCheck) mb content mm artifact m :
  let cd := cache current_dir r in let out := download_dir current_dir r p in
  at_rest cd m s → clear out (files m) → apart cd out →
  ensure_configured r = Ok tt → is_empty (rt_public_key_b64 r) = false →
  answers m r s response → patch response = Some p → serves_patch p (m_log m) mb content →
  good_patch (rt_public_key_b64 r) mb content mm → device_makes r s mm content artifact m →
  partial (part_file out) content (files m) →
  ∃ now m', download_and_install snapshot_replace current_dir r stats m = (Ok (Some true), m')
    ∧ at_rest cd m' (install_next s mm (artifact_file (patch_number mm) artifact) now)
    ∧ files m' !! patch_path cd (patch_number mm) "payload.bin" = Some (File content)
    ∧ ∀ art, artifact = Some art → files m' !! patch_path cd (patch_number mm) "libapp.so" = Some (File art).
Proof.
  intros cd out Hm Hc Ha Hconf Hkey Hans Hpatch Hserves (Hmm & Hver & Hsha & Hcon) Hart Hpre.
  unfold download_and_install. rewrite Hconf, (act_bind_run (act_lift (Ok tt)) _ m tt m) by done.
  rewrite (act_bind_run _ _ _ _ _ (not_cancelled_idle m (rest_idle _ _ _ Hm))). rewrite Hkey.
  destruct (last_check_runs r s response m Hm Hconf Hans) as (m1 & E1 & Hm1 & Hfs1 & Hlog1).
  rewrite (act_bind_run _ _ _ _ _ E1). rewrite Hpatch. unfold device_makes in Hart. rewrite <- Hfs1 in Hc, Hpre, Hart.
  destruct (download_patch_files_run current_dir r p mb content m1 (serves_later _ _ _ _ _ Hlog1 Hserves) (at_rest_calm _ _ _ Hm1) Hc Hpre)
    as (m2 & E2 & Hmv & Hman & Hpay).
  rewrite (act_bind_run _ _ _ _ _ E2). cbv iota beta. pose proof (at_rest_moved _ _ _ _ _ Ha Hm1 Hmv) as Hm2.
  rewrite (act_bind_run _ _ _ _ _ (not_cancelled_idle m2 (rest_idle _ _ _ Hm2))). fold cd.
  destruct (install_ready snapshot_replace cd (m_world m2) s (manifest_file out) (payload_file out)
    (rt_public_key_b64 r) (resolve current_dir <$> rt_baseline_artifact_path r) mm content
    artifact (rest_ready _ _ _ Hm2) (rest_holds _ _ _ Hm2)) as (now & w3 & E3 & Hr3 & Hh3 & Hp3 & Ha3).
  { by split; [exists mb|]. }
  { eapply makes_artifact_ext; [|exact Hart]. intros q Hq. destruct Hmv as [_ Hmv].
    by eapply content_step. }
  rewrite (act_bind_run _ _ _ _ _ (sys_run _ _ _ _ E3)).
  assert (at_rest cd (with_world m2 w3) (install_next s mm (artifact_file (patch_number mm) artifact) now)) as Hm3.
  { split; [done|apply (rest_idle _ _ _ Hm2)|done]. }
  destruct (post_install_runs r stats (pc_patch_number p) (with_world m2 w3)) as (o & m4 & E4 & Hq).
  rewrite (act_bind_run _ _ _ _ _ E4). destruct (at_rest_quiet _ _ _ _ Hm3 Hq) as [Hm4 Hfs4].
  exists now, m4. split; [done|]. split; [done|]. rewrite !Hfs4. by split.
Qed.
(** The attempt ends with the patch installed from the server's file, with the
    artifact made of it; the next launch returns it, and when that launch is
    confirmed it is the current and the last known good patch. *)
Definition takes_effect (r : Runtime) (stats : InterpreterStatsSnapshot) (mm : PatchManifest)
    (content : list byte) (artifact : option (list byte)) (m : Machine) : Prop :=
  let cd := cache current_dir r in
  ∃ m1 w2 w3 launched s3,
    download_and_install snapshot_replace current_dir r stats m = (Ok (Some true), m1)
    ∧ files m1 !! patch_path cd (patch_number mm) "payload.bin" = Some (File content)
    ∧ (∀ art, artifact = Some art → files m1 !! patch_path cd (patch_number mm) "libapp.so" = Some (File art))
    ∧ launch_patch cd (m_world m1) = (Ok (Some launched), w2) ∧ ip_patch_number launched = patch_number mm
    ∧ mark_success cd w2 = (Ok tt, w3) ∧ holds cd w3 s3
    ∧ State.current_patch_number s3 = patch_number mm
    ∧ last_known_good_patch_number s3 = Some (patch_number mm).
(** A device at rest that is offered the patch [p] by a server that serves it,
    with at most the first bytes of the payload already there. *)
Definition offered (r : Runtime) (s : State) (p : PatchCheck) (mb content : list byte) (m : Machine) : Prop :=
  let cd := cache current_dir r in let out := download_dir current_dir r p in
  at_rest cd m s ∧ clear out (files m) ∧ apart cd out ∧ partial (part_file out) content (files m)
  ∧ ensure_configured r = Ok tt ∧ is_empty (rt_public_key_b64 r) = false
  ∧ (∃ response, answers m r s response ∧ patch response = Some p) ∧ serves_patch p (m_log m) mb content.
Lemma update_takes_effect r stats s (p : PatchCheck) mb content mm artifact m :
  offered r s p mb content m → good_patch (rt_public_key_b64 r) mb content mm →
  device_makes r s mm content artifact m → patch_number mm ∉ bad_patches s →
  takes_effect r stats mm content artifact m.
Proof.
  intros (Hm & Hc & Ha & Hpre & Hconf & Hkey & (response & Hans & Hpatch) & Hserves) Hgood Hart Hbad.
  destruct (download_and_install_runs r stats s response p mb content mm artifact m Hm Hc Ha Hconf Hkey Hans Hpatch
    Hserves Hgood Hart Hpre) as (now & m1 & E1 & [Hr1 _ Hh1] & Hpay & Hlib).
  destruct (installed_takes_effect (cache current_dir r) (m_world m1) s mm _ now Hr1 Hh1 Hbad)
    as (w2 & w3 & launched & s3 & E2 & Hn & E3 & _ & Hh3 & Hcur & Hlkg).
  by exists m1, w2, w3, launched, s3.
Qed.
End Delivery.
