(* ===== verification/Resilience.v ===== *)
(** * Failures do not wedge a device

    What every operation of the device preserves under all faults, crashes and
    cancellations: directories stay where directories belong and files where files
    belong, [state.json] follows the abstract machine, and what is left of a
    download can be resumed.  So a patch that could not be fetched or installed
    takes effect at the first attempt that nothing disturbs. *)
From S2P Require Import Prelude Text External Bytecode BytecodeCheck BytecodeFacts Crypto Manifest Diff World State StateFacts StateProperties StateProgress Flights Net ServerApi Runtime RuntimeProperties Delivery.
Local Open Scope N_scope.

(** ** Relations between worlds that computations respect *)
Definition io_worlds {A} (R : World → World → Prop) (x : IO A) : Prop := ∀ w, R w (x w).2.
Definition act_worlds {A} (R : World → World → Prop) (x : Act A) : Prop :=
  ∀ m, R (m_world m) (m_world (x m).2).

Section Worlds.
Context (R : World → World → Prop) `{!PreOrder R}.

Lemma io_worlds_ret {A} (a : A) : io_worlds R (mret a).
Proof. by intros w. Qed.
Lemma io_worlds_lift {A} (r : result A) : io_worlds R (io_lift r).
Proof. by intros w. Qed.
Lemma io_worlds_err {A} msg : io_worlds R (io_err (A:=A) msg).
Proof. by intros w. Qed.
Lemma io_worlds_bind {A B} (x : IO A) (f : A → IO B) :
  io_worlds R x → (∀ a, io_worlds R (f a)) → io_worlds R (x ≫= f).
Proof.
  intros Hx Hf w. unfold mbind, io_bind. specialize (Hx w).
  destruct (x w) as [[a|e|s] w1]; [|done..]. etrans; [exact Hx|apply Hf].
Qed.
Lemma io_worlds_ok {A} (x : IO A) : io_worlds R x → io_worlds R (io_ok x).
Proof. intros Hx w. unfold io_ok. specialize (Hx w). by destruct (x w) as [[] ?]. Qed.

Lemma act_worlds_ret {A} (a : A) : act_worlds R (mret a).
Proof. by intros m. Qed.
Lemma act_worlds_lift {A} (r : result A) : act_worlds R (act_lift r).
Proof. by intros m. Qed.
Lemma act_worlds_err {A} msg : act_worlds R (act_err (A:=A) msg).
Proof. by intros m. Qed.
Lemma act_worlds_bind {A B} (x : Act A) (f : A → Act B) :
  act_worlds R x → (∀ a, act_worlds R (f a)) → act_worlds R (x ≫= f).
Proof.
  intros Hx Hf m. unfold mbind, act_bind. specialize (Hx m).
  destruct (x m) as [[a|e|s] m1]; [|done..]. etrans; [exact Hx|apply Hf].
Qed.
Lemma act_worlds_bind_post {A B} (P : A → Prop) (x : Act A) (f : A → Act B) :
  act_worlds R x → (∀ m a m', x m = (Ok a, m') → P a) → (∀ a, P a → act_worlds R (f a)) → act_worlds R (x ≫= f).
Proof.
  intros Hx HP Hf m. unfold mbind, act_bind. specialize (Hx m).
  destruct (x m) as [[a|e|s] m1] eqn:E; [|done..]. etrans; [exact Hx|by eapply Hf, HP].
Qed.
Lemma act_worlds_ok {A} (x : Act A) : act_worlds R x → act_worlds R (act_ok x).
Proof. intros Hx m. unfold act_ok. specialize (Hx m). by destruct (x m) as [[] ?]. Qed.
Lemma act_worlds_sys {A} (x : IO A) : io_worlds R x → act_worlds R (sys x).
Proof. intros Hx m. unfold sys. specialize (Hx (m_world m)). by destruct (x (m_world m)). Qed.
Lemma act_worlds_call `{Net} rq : act_worlds R (call rq).
Proof. by intros m. Qed.
Lemma act_worlds_sleep n : act_worlds R (sleep n).
Proof. by intros m. Qed.
Lemma act_worlds_load : act_worlds R cancel_load.
Proof. intros m. unfold cancel_load. by destruct (m_interference m). Qed.
Lemma act_worlds_store b : act_worlds R (cancel_store b).
Proof. by intros m. Qed.
End Worlds.
Lemma io_worlds_weaken {A} (R S : World → World → Prop) (x : IO A) :
  (∀ w w', R w w' → S w w') → io_worlds R x → io_worlds S x.
Proof. intros HRS Hx w. apply HRS, Hx. Qed.
Lemma act_worlds_weaken {A} (R S : World → World → Prop) (x : Act A) :
  (∀ w w', R w w' → S w w') → act_worlds R x → act_worlds S x.
Proof. intros HRS Hx m. apply HRS, Hx. Qed.
#[export] Hint Resolve io_worlds_ret io_worlds_lift io_worlds_err io_worlds_ok act_worlds_ret act_worlds_lift
  act_worlds_err act_worlds_ok act_worlds_sys act_worlds_call act_worlds_sleep act_worlds_load act_worlds_store : fcb.
Ltac worlds_tac :=
  repeat first
    [ progress auto with fcb typeclass_instances
    | apply io_worlds_bind; [apply _| |intros ?]
    | apply act_worlds_bind; [apply _| |intros ?]
    | match goal with
      | |- io_worlds _ (match ?x with _ => _ end) => destruct x
      | |- act_worlds _ (match ?x with _ => _ end) => destruct x
      end ].

(** ** Directories stay directories, files stay files *)
Section Shape.
Implicit Types D F X : path → Prop.

(** What changed: directories appear at [D], files are written at [F], entries go
    from [X]. *)
Definition shape D F X (w w' : World) : Prop :=
  w_stats w' `suffix_of` w_stats w ∧ ∀ q,
    w_fs w' !! q = w_fs w !! q ∨ (X q ∧ w_fs w' !! q = None)
    ∨ (D q ∧ w_fs w' !! q = Some Dir) ∨ (F q ∧ ∃ bs, w_fs w' !! q = Some (File bs)).
#[global] Instance shape_preorder D F X : PreOrder (shape D F X).
Proof.
  split; [by intros w; split; [|left]|]. intros w1 w2 w3 [E12 H12] [E23 H23]. split; [by etrans|]. intros q.
  destruct (H23 q) as [->|H]; [apply H12|by right].
Qed.
Lemma shape_weaken D F X D' F' X' w w' :
  (∀ q, D q → D' q) → (∀ q, F q → F' q) → (∀ q, X q → X' q) → shape D F X w w' → shape D' F' X' w w'.
Proof. intros HD HF HX [E H]. split; [done|]. intros q. destruct (H q) as [?|[[??]|[[??]|[??]]]]; auto 6. Qed.

(** A file system without files at [D] or directories at [F]. *)
Definition layout D F (fs : FS) : Prop :=
  (∀ q bs, D q → fs !! q ≠ Some (File bs)) ∧ ∀ q, F q → fs !! q ≠ Some Dir.
Lemma shape_layout D F X w w' :
  (∀ q, D q → ¬ F q) → shape D F X w w' → layout D F (w_fs w) → layout D F (w_fs w').
Proof.
  intros Hdf [_ H] [HD HF]. split.
  - intros q bs Hq. destruct (H q) as [->|[[_ ->]|[[_ ->]|[Hf _]]]]; [by apply HD|done|done|by destruct (Hdf q)].
  - intros q Hq. destruct (H q) as [->|[[_ ->]|[[Hd _]|[_ [bs ->]]]]]; [by apply HF|done|by destruct (Hdf q)|done].
Qed.

(** A call whose effect has the shape under every fault. *)
Lemma io_call_shape {A} D F X (run : option fault → FS → (string + A) * FS) :
  (∀ f fs q, (run f fs).2 !! q = fs !! q ∨ (X q ∧ (run f fs).2 !! q = None)
    ∨ (D q ∧ (run f fs).2 !! q = Some Dir) ∨ (F q ∧ ∃ bs, (run f fs).2 !! q = Some (File bs))) →
  io_worlds (shape D F X) (io_call run).
Proof.
  intros Hrun w. unfold io_call. destruct (w_faults w) as [|f l];
    [specialize (Hrun None (w_fs w))|specialize (Hrun f (w_fs w))];
    destruct (run _ _) as [r fs]; (split; [reflexivity|done]).
Qed.
Lemma io_still_shape {A} D F X (x : IO A) : touches (λ _, False) x → io_worlds (shape D F X) x.
Proof. intros Hx w. destruct (Hx w) as (Hs & _ & Hf). split; [done|]. left. apply Hf. tauto. Qed.

Lemma insert_shape F (fs : FS) p bs q :
  F p → (<[p := File bs]> fs : FS) !! q = fs !! q ∨ (F q ∧ ∃ bs', (<[p := File bs]> fs : FS) !! q = Some (File bs')).
Proof.
  intros Hp. destruct (decide (q = p)) as [->|Hq]; [right|left; by rewrite lookup_insert_ne].
  split; [done|]. exists bs. by rewrite lookup_insert_eq.
Qed.
Lemma make_dirs_shape ps fs q :
  (make_dirs ps fs).2 !! q = fs !! q ∨ (q ∈ ps ∧ (make_dirs ps fs).2 !! q = Some Dir).
Proof.
  revert fs. induction ps as [|p ps IH]; intros fs; [by left|]. simpl.
  destruct (fs !! p) as [[bs|]|] eqn:E; [by left|..].
  - destruct (IH fs) as [?|[??]]; [by left|right; split; [by right|done]].
  - destruct (IH (<[p := Dir]> fs)) as [->|[??]]; [|right; split; [by right|done]].
    destruct (decide (q = p)) as [->|]; [|left; by rewrite lookup_insert_ne].
    right. split; [by left|]. by rewrite lookup_insert_eq.
Qed.
Lemma mkdir_shape D F X p : (∀ q, q ∈ ancestors p → D q) → io_worlds (shape D F X) (fs_create_dir_all p).
Proof.
  intros HD. apply io_call_shape. intros f fs q.
  assert (∀ ps, (∀ q, q ∈ ps → D q) → (make_dirs ps fs).2 !! q = fs !! q ∨ (X q ∧ (make_dirs ps fs).2 !! q = None)
    ∨ (D q ∧ (make_dirs ps fs).2 !! q = Some Dir) ∨ (F q ∧ ∃ bs, (make_dirs ps fs).2 !! q = Some (File bs))) as Hps.
  { intros ps Hps. destruct (make_dirs_shape ps fs q) as [?|[??]]; [by left|right; right; left; auto]. }
  destruct f as [f|]; [|by apply Hps]. apply Hps. intros x Hx. apply HD.
  apply list_elem_of_lookup in Hx as [i Hi]. apply lookup_take_Some in Hi as [Hi _]. by eapply list_elem_of_lookup_2.
Qed.
Lemma create_shape D F X p : F p → io_worlds (shape D F X) (fs_create p).
Proof.
  intros HF. apply io_call_shape. intros [f|] fs q; [by left|].
  destruct (negb _); [by left|]. destruct (is_dir fs p); [by left|]. cbn [snd].
  destruct (insert_shape F fs p [] q HF); auto.
Qed.
Lemma append_shape D F X p bs : F p → io_worlds (shape D F X) (fs_append p bs).
Proof.
  intros HF. apply io_call_shape. intros [f|] fs q; cbv zeta; cbn [snd];
    match goal with |- context [<[p := File ?b]> fs] => destruct (insert_shape F fs p b q HF) end; auto.
Qed.
Lemma set_len_shape D F X p n : F p → io_worlds (shape D F X) (fs_set_len p n).
Proof.
  intros HF. apply io_call_shape. intros [f|] fs q; [by left|]. cbv zeta. cbn [snd].
  match goal with |- context [<[p := File ?b]> fs] => destruct (insert_shape F fs p b q HF) end; auto.
Qed.
Lemma delete_shape (fs : FS) p q : (delete p fs : FS) !! q = fs !! q ∨ (q = p ∧ (delete p fs : FS) !! q = None).
Proof.
  destruct (decide (q = p)) as [->|]; [right; split; [done|]; by rewrite lookup_delete_eq|left; by rewrite lookup_delete_ne].
Qed.
Lemma rename_shape D F X p q : F q → X p → io_worlds (shape D F X) (fs_rename p q).
Proof.
  intros HF HX. apply io_call_shape. intros [f|] fs x; [by left|].
  destruct (fs !! p) as [[bs|]|]; [|by left..]. destruct (negb _); [by left|]. destruct (is_dir fs q); [by left|].
  cbn [snd]. destruct (insert_shape F (delete p fs) q bs x HF) as [->|?]; [|auto].
  destruct (delete_shape fs p x) as [?|[-> ?]]; auto.
Qed.
Lemma remove_file_shape D F X p : X p → io_worlds (shape D F X) (fs_remove_file p).
Proof.
  intros HX. apply io_call_shape. intros [f|] fs x; [by left|]. destruct (fs !! p) as [[bs|]|]; [|by left..].
  cbn [snd]. destruct (delete_shape fs p x) as [?|[-> ?]]; auto.
Qed.
Lemma filter_shape (P : path → Prop) `{∀ x, Decision (P x)} (fs : FS) q :
  filter (λ kn, ¬ P kn.1) fs !! q = fs !! q ∨ (P q ∧ filter (λ kn, ¬ P kn.1) fs !! q = None).
Proof.
  destruct (decide (P q)) as [Hq|Hq]; [right|left].
  - split; [done|]. apply map_lookup_filter_None. right. by intros node _ [].
  - apply filter_keep. done.
Qed.
Lemma remove_dir_shape D F X p : (∀ q, under p q → X q) → io_worlds (shape D F X) (fs_remove_dir_all p).
Proof.
  intros HX. apply io_call_shape. intros [f|] fs x; cbn [snd].
  - destruct (filter_shape (λ q, under p q ∧ q ∈ fault_removed f) fs x) as [?|[[??] ?]]; auto.
  - destruct (fs !! p) as [[bs|]|]; cbn [snd]; [by left| |by left].
    destruct (filter_shape (λ q, under p q) fs x) as [?|[? ?]]; auto.
Qed.
End Shape.
#[export] Hint Resolve remove_file_shape remove_dir_shape : fcb.
#[export] Hint Extern 1 (io_worlds (shape _ _ _) _) =>
  solve [apply io_still_shape; auto with fcb] : fcb.

(** ** The updater *)
Section Updater.
Context `{Hash, Base64, Ed25519, BsdiffZstd}.
Context `{Serde Value.t, ToValue PatchManifest, Serde PatchManifest, Serde SimpleBinaryDiff}.
Context `{Serde BytecodeModule, Serde State, Serde CrashRollbackEvent}.
Variable snapshot_replace : bool.
Variable cache_dir : path.

(** Where the updater writes files: in the cache directory and in those of patches. *)
Definition updater_file (q : path) : Prop :=
  (∃ t, q = join1 cache_dir t ∧ t ≠ "patches"%string ∧ t ≠ "downloads"%string)
  ∨ ∃ n f, q = patch_path cache_dir n f.
Abbreviation updater_shape := (shape (dir_place cache_dir) updater_file (λ _, True)).

Lemma cache_dirs q : q ∈ ancestors cache_dir → dir_place cache_dir q.
Proof.
  intros [Hne Hq]%ancestors_elem. exists 0. apply ancestors_elem. split; [done|].
  unfold patches_dir, join1. rewrite <- app_assoc. by apply prefix_app_r.
Qed.
Lemma in_cache_file t : t ≠ "patches"%string → t ≠ "downloads"%string → updater_file (join1 cache_dir t).
Proof. left. by exists t. Qed.
Lemma temp_name_file (q : path) name pid sfx :
  q = join1 cache_dir name ∨ (∃ n, q = patch_path cache_dir n name) → updater_file (temp_path q pid sfx).
Proof.
  unfold temp_path, with_file_name, patch_path, join1.
  intros [->|[n ->]]; rewrite removelast_last; [left|right]; eexists; [split; [reflexivity|done]|].
  by eexists.
Qed.
Lemma shape_write q name bs :
  updater_file q → q = join1 cache_dir name ∨ (∃ n, q = patch_path cache_dir n name) →
  io_worlds updater_shape (atomic_write_bytes q bs).
Proof.
  intros Hq Hname. unfold atomic_write_bytes.
  apply io_worlds_bind; [apply _| |intros _].
  { assert (∃ d, parent q = Some d ∧ ∀ x, x ∈ ancestors d → dir_place cache_dir x) as (d & -> & Hd).
    { destruct Hname as [->|[n ->]]; unfold patch_path; rewrite parent_join1; eexists; (split; [done|]).
      - apply cache_dirs.
      - intros x Hx. by exists n. }
    by apply mkdir_shape. }
  apply io_worlds_bind; [apply _|auto with fcb|intros pid].
  apply io_worlds_bind; [apply _|apply io_still_shape, touches_unique_suffix|intros sfx]. cbv zeta.
  pose proof (temp_name_file _ _ pid sfx Hname) as Htmp.
  apply io_worlds_bind; [apply _|by apply create_shape|intros _].
  apply io_worlds_bind; [apply _|by apply append_shape|intros _].
  apply io_worlds_bind; [apply _|auto with fcb|intros _]. by apply rename_shape.
Qed.
Lemma shape_write_state s : io_worlds updater_shape (save_state cache_dir s).
Proof.
  unfold save_state, atomic_write_json. apply io_worlds_bind; [apply _|auto with fcb typeclass_instances|intros bs].
  apply (shape_write _ "state.json"); [by apply in_cache_file|by left].
Qed.
Lemma shape_write_patch n f bs : io_worlds updater_shape (atomic_write_bytes (patch_path cache_dir n f) bs).
Proof. apply (shape_write _ f); right; eauto. Qed.
Lemma shape_now : io_worlds updater_shape now_string.
Proof. apply io_still_shape, touches_now_string. Qed.
Lemma shape_append_event e : io_worlds updater_shape (append_rollback_event cache_dir e).
Proof.
  unfold append_rollback_event. apply io_worlds_bind; [apply _|by apply mkdir_shape, cache_dirs|intros _].
  apply io_worlds_bind; [apply _|auto with fcb|intros b].
  apply io_worlds_bind; [apply _|apply io_still_shape; destruct b; touches_tac|intros old].
  apply io_worlds_bind; [apply _|auto with fcb typeclass_instances|intros line].
  apply (shape_write _ ROLLBACK_EVENTS_FILE); [by apply in_cache_file|by left].
Qed.
Lemma shape_backup : io_worlds updater_shape (backup_corrupt_state (state_path cache_dir)).
Proof.
  unfold backup_corrupt_state. apply io_worlds_bind; [apply _|apply io_still_shape, touches_unique_suffix|intros sfx].
  apply rename_shape; [|done]. unfold with_file_name, state_path, join1. rewrite removelast_last. by apply in_cache_file.
Qed.
Lemma shape_load : io_worlds updater_shape (load_state cache_dir).
Proof. pose proof shape_backup. pose proof shape_append_event. pose proof shape_now. unfold load_state. worlds_tac. Qed.
#[local] Hint Resolve shape_load shape_write_state shape_write_patch shape_now shape_append_event : fcb.
Lemma shape_evict fuel s : io_worlds updater_shape (evict cache_dir fuel s).
Proof. revert s. induction fuel as [|fuel IH]; intros s; simpl; worlds_tac. Qed.
#[local] Hint Resolve shape_evict : fcb.
Lemma shape_install mp pp key baseline :
  io_worlds updater_shape (install_payload_with_baseline snapshot_replace cache_dir mp pp key baseline).
Proof.
  assert (∀ n, io_worlds updater_shape (fs_create_dir_all (patches_dir cache_dir n))) as Hmk.
  { intros n. apply mkdir_shape. intros q Hq. by exists n. }
  assert (∀ m bs l b, io_worlds updater_shape (snapshot_replace_chained_diff cache_dir m bs l b)) as Hdiff.
  { intros m bs l b. apply io_still_shape, touches_chained_diff. }
  assert (∀ n f bs, io_worlds updater_shape (atomic_write_bytes (join1 (patches_dir cache_dir n) f) bs)) as Hw
    by apply shape_write_patch.
  unfold install_payload_with_baseline, read_json. worlds_tac.
Qed.
Lemma shape_launch : io_worlds updater_shape (launch_patch cache_dir).
Proof. unfold launch_patch. worlds_tac. Qed.
Lemma shape_action a w : updater_shape w (run_action snapshot_replace cache_dir a w).
Proof.
  destruct a; simpl.
  - apply shape_install.
  - apply shape_launch.
  - assert (io_worlds updater_shape (ready_patch cache_dir)) as Hr by (unfold ready_patch; worlds_tac). apply Hr.
  - assert (io_worlds updater_shape (mark_success cache_dir)) as Hr by (unfold mark_success; worlds_tac). apply Hr.
  - assert (io_worlds updater_shape (mark_failure cache_dir n why)) as Hr by (unfold mark_failure; worlds_tac). apply Hr.
  - assert (io_worlds updater_shape (rollback_events cache_dir)) as Hr
      by (apply io_still_shape; unfold rollback_events; touches_tac). apply Hr.
  - assert (io_worlds updater_shape (clear_rollback_events cache_dir)) as Hr
      by (unfold clear_rollback_events; worlds_tac). apply Hr.
Qed.
End Updater.

(** ** Network calls leave the files alone *)
Definition still (w w' : World) : Prop := w_stats w' `suffix_of` w_stats w ∧ w_fs w' = w_fs w.
#[global] Instance still_preorder : PreOrder still.
Proof. split; [done|]. intros w1 w2 w3 [] []. split; [by etrans|congruence]. Qed.
Lemma io_still {A} (x : IO A) : touches (λ _, False) x → io_worlds still x.
Proof. intros Hx w. destruct (Hx w) as (Hs & _ & Hf). split; [done|]. apply map_eq. intros q. apply Hf. tauto. Qed.
#[export] Hint Extern 1 (io_worlds still _) => solve [apply io_still; auto with fcb] : fcb.

Section Network.
Context `{Net, BodyText}.

Lemma still_sleep a : act_worlds still (sleep_before_retry a).
Proof.
  unfold sleep_before_retry. assert (io_worlds still (retry_delay a)) by apply io_still, touches_retry_delay.
  worlds_tac.
Qed.
#[local] Hint Resolve still_sleep : fcb.
Lemma still_retry_loop {A} rq (os : Response → result A) l last : act_worlds still (retry_loop rq os l last).
Proof. revert last. induction l as [|a l IH]; intros last; cbn [retry_loop]; worlds_tac. Qed.
Lemma still_post {A} `{ToValue A} (self : Client) (url_path : string) (a : A) :
  act_worlds still (post_json self url_path a).
Proof. unfold post_json. pose proof (@still_retry_loop unit). worlds_tac. Qed.
Lemma still_read_body cancel out r : act_worlds still cancel → act_worlds still (read_body_with_cancel cancel out r).
Proof. intros Hc. revert out. induction r as [|[e|c] r IH]; intros out; cbn [read_body_with_cancel]; worlds_tac. Qed.
Lemma still_download_loop cancel url l offset last :
  act_worlds still cancel → act_worlds still (download_loop cancel url l offset last).
Proof.
  intros Hc. pose proof (λ out r, still_read_body cancel out r Hc). revert offset last.
  induction l as [|a l IH]; intros offset last; cbn [download_loop]; worlds_tac.
Qed.
Lemma still_download dir url offset cancel :
  act_worlds still cancel → act_worlds still (download_bytes_from_with_cancel dir url offset cancel).
Proof.
  intros Hc. pose proof (λ l last, still_download_loop cancel url l offset last Hc).
  unfold download_bytes_from_with_cancel. worlds_tac.
Qed.
Lemma still_not_cancelled : act_worlds still ensure_not_cancelled.
Proof. unfold ensure_not_cancelled. worlds_tac. Qed.
Lemma still_download_bytes dir url : act_worlds still (download_bytes dir url).
Proof.
  pose proof (still_download dir url 0 (mret false) (act_worlds_ret still false)).
  unfold download_bytes, download_bytes_from. worlds_tac.
Qed.
End Network.

(** ** The download directory *)
Definition download_shape (out : path) : World → World → Prop :=
  shape (λ q, q ∈ ancestors out) (λ q, ∃ n, q = join1 out n) (λ q, ∃ n, q = join1 out n).
Lemma still_shape D F X w w' : still w w' → shape D F X w w'.
Proof. intros [Hs Hf]. split; [done|]. left. by rewrite Hf. Qed.
Lemma still_act_shape {A} D F X (x : Act A) : act_worlds still x → act_worlds (shape D F X) x.
Proof. apply act_worlds_weaken, still_shape. Qed.
Lemma shape_write_in out n bs : io_worlds (download_shape out) (write_file (join1 out n) bs).
Proof.
  unfold write_file. rewrite parent_join1.
  apply io_worlds_bind; [apply _|by apply mkdir_shape|intros _].
  apply io_worlds_bind; [apply _|apply create_shape; by exists n|intros _].
  apply io_worlds_bind; [apply _|apply append_shape; by exists n|intros _]. apply io_still_shape. auto with fcb.
Qed.

Section Downloads.
Context `{Hash, Net, BodyText}.
Variable current_dir : path.

Lemma shape_open D F X p : io_worlds (shape D F X) (fs_open p).
Proof. apply io_still_shape, touches_open. Qed.
Lemma shape_resume out : io_worlds (download_shape out) (resume_offset (part_file out) (progress_file out)).
Proof.
  pose proof (shape_open (λ q, q ∈ ancestors out) (λ q, ∃ n, q = join1 out n) (λ q, ∃ n, q = join1 out n)) as Ho.
  assert (∀ n, io_worlds (download_shape out) (fs_set_len (part_file out) n)) as Hs
    by (intros n; apply set_len_shape; by eexists).
  unfold resume_offset, download_shape in *. worlds_tac.
Qed.
Lemma shape_resumable out url :
  act_worlds (download_shape out) (download_resumable_payload current_dir url out "payload.bin").
Proof.
  pose proof (shape_resume out) as Hr. pose proof (shape_write_in out) as Hw.
  assert (∀ url o, act_worlds (download_shape out) (download_bytes_from_with_cancel current_dir url o cancel_load)) as Hd
    by (intros; apply still_act_shape, still_download, act_worlds_load, _).
  assert (act_worlds (download_shape out) ensure_not_cancelled) as Hn by apply still_act_shape, still_not_cancelled.
  assert (∀ bs, io_worlds (download_shape out) (fs_append (part_file out) bs)) as Ha
    by (intros bs; apply append_shape; by eexists).
  pose proof (shape_open (λ q, q ∈ ancestors out) (λ q, ∃ n, q = join1 out n) (λ q, ∃ n, q = join1 out n)) as Ho.
  unfold download_resumable_payload. change ("payload.bin" +:+ ".part") with "payload.bin.part"%string.
  fold (part_file out) (progress_file out) (payload_file out).
  assert (∀ bs, io_worlds (download_shape out) (write_file (part_file out) bs)) as Hw1 by apply Hw.
  assert (∀ bs, io_worlds (download_shape out) (write_file (progress_file out) bs)) as Hw2 by apply Hw.
  unfold download_shape in *. worlds_tac.
  all: apply act_worlds_sys; worlds_tac.
Qed.
Variable r : Runtime.
Variable patch : PatchCheck.
Let out : path := download_dir current_dir r patch.
Lemma shape_download : act_worlds (download_shape out) (download_patch_files current_dir r patch).
Proof.
  pose proof (shape_write_in out) as Hw. pose proof (shape_resumable out) as Hr.
  assert (∀ url, act_worlds (download_shape out) (download_bytes current_dir url)) as Hd
    by (intros; apply still_act_shape, still_download_bytes).
  assert (act_worlds (download_shape out) ensure_not_cancelled) as Hn by apply still_act_shape, still_not_cancelled.
  assert (io_worlds (download_shape out) (fs_create_dir_all out)) as Hm by by apply mkdir_shape.
  unfold download_patch_files. fold out. cbv zeta. fold (manifest_file out) (progress_file out).
  assert (∀ bs, io_worlds (download_shape out) (write_file (manifest_file out) bs)) as Hw1 by apply Hw.
  unfold download_shape in *.
  do 4 (apply act_worlds_bind; [apply _|by auto with fcb typeclass_instances|intros ?]).
  apply act_worlds_bind; [apply _|apply act_worlds_lift; apply _|intros ?].
  apply act_worlds_bind; [apply _|by auto with fcb typeclass_instances|intros ?].
  apply (act_worlds_bind_post _ (λ v, v = (part_file out, payload_file out))); [apply Hr| |intros ? ->].
  { intros m v m'. apply resumable_result. }
  assert (io_worlds (download_shape out) (fs_remove_file (progress_file out))) as Hrm
    by (apply remove_file_shape; by eexists).
  assert (io_worlds (download_shape out)
    (fs_rename (part_file out) (payload_file out))) as Hre by (apply rename_shape; by eexists).
  unfold download_shape in *. worlds_tac.
Qed.
End Downloads.

(** ** A session: attempts, other operations, restarts *)
Section Session.
Context `{Hash, Base64, Ed25519, BsdiffZstd}.
Context `{Serde Value.t, ToValue PatchManifest, Serde PatchManifest, Serde SimpleBinaryDiff}.
Context `{Serde BytecodeModule, Serde State, Serde CrashRollbackEvent}.
Context `{ToValue EventRequest, JsonF64}.
Context `{Net, BodyText, BodyJson CheckResponse}.
Context `{!SerdeLaws State (λ _, True)}.
Variable snapshot_replace : bool.
Variable current_dir : path.
Variable cache_dir : path.
Variable out : path.
Hypothesis downloads_apart : apart cache_dir out.

Definition device_dir (q : path) : Prop := dir_place cache_dir q ∨ q ∈ ancestors out.
Definition device_file (q : path) : Prop := updater_file cache_dir q ∨ ∃ n, q = join1 out n.
Lemma device_places q : device_dir q → ¬ device_file q.
Proof.
  intros [Hd|Hd] [Hf|Hf].
  - destruct Hf as [(t & -> & Hp & _)|(n & f & ->)].
    + destruct Hd as [n [_ Hd]%ancestors_elem]. unfold patches_dir, join1 in Hd. rewrite <- app_assoc in Hd.
      by apply prefix_app_inv, prefix_cons_inv_1 in Hd.
    + apply (dir_not_file cache_dir _ Hd). right. right. eauto.
  - destruct Hf as [n E]. by destruct (proj2 (apart_places _ _ q downloads_apart) n E).
  - destruct Hf as [(t & -> & _ & Ht)|(n & f & ->)].
    + destruct downloads_apart as [rest ->]. apply ancestors_elem in Hd as [_ Hd]. unfold join1 in Hd.
      rewrite <- app_assoc in Hd. by apply prefix_app_inv, prefix_cons_inv_1 in Hd.
    + apply (proj1 (apart_places _ _ _ downloads_apart) Hd). right. right. eauto.
  - destruct Hf as [n ->]. by apply join1_not_ancestor in Hd.
Qed.
Lemma layout_tidy fs : layout device_dir device_file fs → tidy cache_dir fs.
Proof.
  intros [Hd Hf]. split; [intros q bs Hq; apply Hd; by left|]. intros q Hq. apply Hf. left.
  destruct Hq as [->|[[t ->]|(n & f & ->)]]; [by apply in_cache_file..|right; eauto].
Qed.
Lemma layout_clear fs : layout device_dir device_file fs → clear out fs.
Proof. intros [Hd Hf]. split; [intros q bs Hq; apply Hd; by right|]. intros n. apply Hf. right. by eexists. Qed.

(** [state.json] follows the abstract machine. *)
Definition follows (w w' : World) : Prop := ∀ s, holds cache_dir w s → ∃ s', holds cache_dir w' s' ∧ rtc state_step s s'.
#[export] Instance follows_preorder : PreOrder follows.
Proof.
  split; [by intros w s Hs; exists s|]. intros w1 w2 w3 Hw12 Hw23 s Hs.
  destruct (Hw12 s Hs) as (s2 & Hs2 & R2). destruct (Hw23 s2 Hs2) as (s3 & Hs3 & R3). exists s3. split; [done|]. by etrans.
Qed.
Lemma still_follows w w' : still w w' → follows w w'.
Proof. intros [Hs Hf] s [Hs0 Hd]. exists s. split; [|done]. split; [by eapply stats_none|]. by rewrite Hf. Qed.
Lemma download_follows w w' : download_shape out w w' → follows w w'.
Proof.
  intros [Hs Hf] s [Hs0 Hd]. exists s. split; [|done]. split; [by eapply stats_none|]. rewrite <- Hd. apply disk_state_ext.
  destruct (Hf (state_path cache_dir)) as [?|[[[n E] _]|[[Hin _]|[[n E] _]]]]; [done|..].
  - by destruct (proj2 (apart_places _ _ _ downloads_apart) n E).
  - destruct (proj1 (apart_places _ _ _ downloads_apart) Hin). by left.
  - by destruct (proj2 (apart_places _ _ _ downloads_apart) n E).
Qed.
Lemma action_follows a w : follows w (run_action snapshot_replace cache_dir a w).
Proof.
  intros s Hs. destruct (device_step_simulated _ _ _ _ s (step_action snapshot_replace cache_dir a w) Hs)
    as (s' & Hs' & [->|Hstep]); [by exists s|]. exists s'. split; [done|]. by apply rtc_once.
Qed.
Lemma load_follows w : follows w (load_state cache_dir w).2.
Proof.
  intros s Hs. destruct (implements_run cache_dir s _ _ w (implements_load cache_dir s) Hs)
    as [?|(a & s' & [-> _] & ?)]; by exists s.
Qed.

(** What one operation does to the device: the abstract machine is followed, the
    layout is kept, and so are the first bytes of the payload. *)
Variable content : list byte.
Definition device_rel (w w' : World) : Prop :=
  follows w w' ∧ shape device_dir device_file (λ _, True) w w'
  ∧ (partial (part_file out) content (w_fs w) → partial (part_file out) content (w_fs w')).
#[export] Instance device_rel_preorder : PreOrder device_rel.
Proof.
  split; [by intros w; split_and!|]. intros w1 w2 w3 (F1 & S1 & P1) (F2 & S2 & P2).
  split_and!; [by etrans|by etrans|auto].
Qed.
Lemma still_device w w' : still w w' → device_rel w w'.
Proof.
  intros Hs. split_and!; [by apply still_follows|by apply still_shape|]. intros Hp. destruct Hs as [_ Hf].
  by rewrite Hf.
Qed.
Lemma part_not_updater : ¬ updater_file cache_dir (part_file out).
Proof.
  pose proof downloads_apart as [rest Hout]. intros [(t & E & _)|(n & f & E)].
  - apply (f_equal length) in E. rewrite Hout in E. unfold part_file, join1 in E. rewrite !length_app in E. simpl in E. lia.
  - destruct (proj2 (apart_places _ _ (part_file out) downloads_apart) "payload.bin.part"%string eq_refl) as [Hd _].
    unfold part_file, patch_path, patches_dir, join1 in E. rewrite Hout in E. unfold join1 in E.
    rewrite <- !app_assoc in E. by apply app_inv_head in E.
Qed.
Lemma updater_device w w' :
  follows w w' → shape (dir_place cache_dir) (updater_file cache_dir) (λ _, True) w w' → device_rel w w'.
Proof.
  intros Hf Hs. split_and!; [done| |].
  - eapply shape_weaken, Hs; [by left|by left|done].
  - intros Hp bs Hbs. destruct Hs as [_ Hs]. destruct (Hs (part_file out)) as [E|[[_ E]|[[_ E]|[Hu _]]]];
      [rewrite E in Hbs; by apply Hp|congruence..|by destruct (part_not_updater Hu)].
Qed.
Lemma action_device a w : device_rel w (run_action snapshot_replace cache_dir a w).
Proof. apply updater_device; [apply action_follows|apply shape_action]. Qed.
Lemma install_device mp pp key baseline :
  io_worlds device_rel (install_payload_with_baseline snapshot_replace cache_dir mp pp key baseline).
Proof. intros w. apply (action_device (StateFacts.Install mp pp key baseline)). Qed.

(** *** One download *)
Lemma download_device {A} (x : Act A) :
  act_worlds (download_shape out) x →
  (∀ m, partial (part_file out) content (files m) → partial (part_file out) content (files (x m).2)) →
  act_worlds device_rel x.
Proof.
  intros Hs Hp m. split_and!; [apply download_follows, Hs| |apply Hp].
  eapply shape_weaken, Hs; [by right|by right|done].
Qed.
Variable r : Runtime.
Variable p : PatchCheck.
Hypothesis same_out : download_dir current_dir r p = out.
Hypothesis same_cache : cache current_dir r = cache_dir.
Hypothesis payload_http : is_http (payload_url p) = true.
Hypothesis payload_flaky : flaky_file_server (payload_url p) content.

Lemma still_part {A} (x : Act A) : act_worlds still x → act_worlds device_rel x.
Proof. apply act_worlds_weaken, still_device. Qed.
Lemma frame_part {A} S (x : Act A) m :
  act_touches S x → ¬ S (part_file out) → partial (part_file out) content (files m) →
  partial (part_file out) content (files (x m).2).
Proof. intros Hx HS. apply partial_same. by apply Hx. Qed.
Lemma write_part n bs :
  n ≠ "payload.bin.part"%string → act_worlds device_rel (sys (write_file (join1 out n) bs)).
Proof.
  intros Hn. apply download_device; [apply act_worlds_sys, shape_write_in|]. intros m.
  apply (frame_part (λ q, q = join1 out n ∨ q ∈ ancestors out)).
  - apply act_touches_sys, touches_write_file; [by left|]. rewrite parent_join1. intros d q [= <-] Hq. by right.
  - intros [E|E]; [apply join1_inj in E; by subst n|by apply join1_not_ancestor in E].
Qed.
Lemma download_files_device : act_worlds device_rel (download_patch_files current_dir r p).
Proof.
  assert (∀ url, act_worlds device_rel (download_bytes current_dir url)) as Hd
    by (intros; apply still_part, still_download_bytes).
  assert (act_worlds device_rel ensure_not_cancelled) as Hn by apply still_part, still_not_cancelled.
  unfold download_patch_files. rewrite same_out. cbv zeta.
  apply act_worlds_bind; [apply _| |intros _].
  { apply download_device; [by apply act_worlds_sys, mkdir_shape|]. intros m.
    apply (frame_part (λ q, q ∈ ancestors out)); [by apply act_touches_sys, touches_create_dir_all|apply join1_not_ancestor]. }
  apply act_worlds_bind; [apply _|done|intros _]. apply act_worlds_bind; [apply _|done|intros mb].
  apply act_worlds_bind; [apply _|done|intros _].
  apply act_worlds_bind; [apply _|apply act_worlds_lift, _|intros _].
  apply act_worlds_bind; [apply _|by apply write_part|intros _].
  apply (act_worlds_bind_post _ (λ v, v = (part_file out, payload_file out))); [| |intros ? ->].
  { apply download_device; [apply shape_resumable|]. intros m Hp.
    eapply resumable_partial, surjective_pairing; [|exact Hp]. intros o m0 v m2. by apply flaky_completes. }
  { intros m v m'. apply resumable_result. }
  apply act_worlds_bind; [apply _| |intros bs].
  { apply act_worlds_sys. eapply io_worlds_weaken; [apply still_device|]. auto with fcb. }
  apply act_worlds_bind; [apply _|done|intros _].
  apply act_worlds_bind; [apply _|apply act_worlds_lift, _|intros _].
  apply act_worlds_bind; [apply _| |intros _].
  { apply download_device; [apply act_worlds_sys, rename_shape; by eexists|]. intros m Hp.
    unfold sys. destruct (fs_rename _ _ (m_world m)) as [res w'] eqn:E. cbn [snd m_world with_world].
    destruct res as [[]|e|msg]; [|apply fs_rename_err in E; [by rewrite E|done]..].
    apply fs_rename_ok in E as (bs' & _ & ->). eapply partial_same with (fs := delete (part_file out) (files m)).
    - by rewrite lookup_insert_ne by (by intros E%join1_inj).
    - intros x. by rewrite lookup_delete_eq. }
  apply act_worlds_bind; [apply _| |intros _; apply act_worlds_ret, _].
  apply download_device; [apply act_worlds_ok, act_worlds_sys, remove_file_shape; by eexists|]. intros m.
  apply (frame_part (λ q, q = progress_file out)); [by apply act_touches_ok, act_touches_sys, touches_remove_file|].
  by intros E%join1_inj.
Qed.

(** *** One attempt *)
Lemma attempt_device stats response :
  rt_last_check r = Some response → patch response = Some p →
  act_worlds device_rel (download_and_install snapshot_replace current_dir r stats).
Proof.
  intros Hlast Hp. pose proof download_files_device as Hd.
  assert (act_worlds device_rel ensure_not_cancelled) as Hn by apply still_part, still_not_cancelled.
  unfold download_and_install. rewrite Hlast, same_cache.
  apply act_worlds_bind; [apply _|apply act_worlds_lift, _|intros _].
  apply act_worlds_bind; [apply _|done|intros _].
  destruct (is_empty _); [apply act_worlds_err, _|].
  apply act_worlds_bind_post with (P := λ a, a = Some response); [apply _|apply act_worlds_ret, _|by intros ??? [= <- _]|].
  intros ? ->. rewrite Hp.
  apply act_worlds_bind; [apply _|done|intros [mp pp]].
  apply act_worlds_bind; [apply _|done|intros _].
  apply act_worlds_bind; [apply _|apply act_worlds_sys, install_device|intros _].
  apply act_worlds_bind; [apply _| |intros _; apply act_worlds_ret, _].
  apply act_worlds_ok, still_part. unfold post_install_event. destruct (unconfigured r); [apply act_worlds_ret, _|].
  apply still_post.
Qed.
End Session.

(** ** What happens between the attempts *)
Section Resilience.
Context `{Hash, Base64, Ed25519, BsdiffZstd}.
Context `{Serde Value.t, ToValue PatchManifest, Serde PatchManifest, Serde SimpleBinaryDiff}.
Context `{Serde BytecodeModule, Serde State, Serde CrashRollbackEvent}.
Context `{ToValue EventRequest, JsonF64}.
Context `{Net, BodyText, BodyJson CheckResponse}.
Context `{!SerdeLaws State (λ _, True)}.
Hypothesis event_no_panic : ∀ e : EventRequest, no_panic (to_value e).
Variable snapshot_replace : bool.
Variable current_dir : path.

(** An attempt to get the patch [p], under the faults, cancellations and replies
    its machine has in store; another operation of the updater; a restart of the
    process, which may bring other faults, another clock and other requests. *)
Inductive session_step (cache_dir out : path) (p : PatchCheck) (m : Machine) : Machine → Prop :=
| session_attempt r stats response :
    rt_last_check r = Some response → patch response = Some p → cache current_dir r = cache_dir →
    download_dir current_dir r p = out →
    session_step cache_dir out p m (download_and_install snapshot_replace current_dir r stats m).2
| session_action a :
    session_step cache_dir out p m (with_world m (run_action snapshot_replace cache_dir a (m_world m)))
| session_restart m' :
    files m' = files m → w_stats (m_world m') `suffix_of` w_stats (m_world m) → session_step cache_dir out p m m'.

Lemma session_device cache_dir out (p : PatchCheck) content m m' :
  apart cache_dir out → is_http (payload_url p) = true → flaky_file_server (payload_url p) content →
  rtc (session_step cache_dir out p) m m' → device_rel cache_dir out content (m_world m) (m_world m').
Proof.
  intros Ha Hurl Hs. induction 1 as [m|m m1 m2 Hstep _ IH]; [done|]. etrans; [|exact IH]. clear IH.
  destruct Hstep as [r stats response Hlast Hp Hc Ho|a|m' Hf Hst].
  - by apply (attempt_device snapshot_replace current_dir cache_dir out Ha content r p Ho Hc Hurl Hs stats response).
  - by apply action_device.
  - by apply still_device.
Qed.

End Resilience.

(** ** Witness *)
(** A server of files that understands [Range: bytes=n-]. *)
Definition demo_offset (content : list byte) (range : string) : option N :=
  List.find (λ n, String.eqb range ("bytes=" +:+ dec n +:+ "-")) (ServerApi.nums 0 (length content)).
Definition demo_serve_file (content : list byte) (rq : Request) : Response :=
  match rq_headers rq with
  | [(_, range)] =>
    match demo_offset content range with
    | Some n => {| rs_status := 206; rs_body := [inr (drop (N.to_nat n) content)] |}
    | None => {| rs_status := 416; rs_body := [] |}
    end
  | _ => {| rs_status := 200; rs_body := [inr content] |}
  end.
Lemma range_text_inj (n n' : N) : "bytes=" +:+ dec n +:+ "-" = "bytes=" +:+ dec n' +:+ "-" → n = n'.
Proof.
  intros E. injection E as E. change (dec n +:+ "-" = dec n' +:+ "-") in E.
  apply string_app_inj_r in E. by apply pretty_N_inj in E.
Qed.
Lemma nums_elem a n x : In x (ServerApi.nums a n) ↔ a ≤ x < a + N.of_nat n.
Proof. revert a. induction n as [|n IH]; intros a; cbn [ServerApi.nums In]; [lia|]. rewrite IH. lia. Qed.
Lemma demo_offset_spec content n :
  demo_offset content ("bytes=" +:+ dec n +:+ "-") = if decide (n < len content) then Some n else None.
Proof.
  unfold demo_offset. destruct (List.find _ _) as [n'|] eqn:E.
  - apply find_some in E as [Hin%nums_elem E]. apply String.eqb_eq, range_text_inj in E as <-.
    by rewrite decide_True by (unfold len; lia).
  - destruct (decide (n < len content)) as [Hlt|]; [|done].
    pose proof (find_none _ _ E n) as Hn. cbn beta in Hn. rewrite String.eqb_refl in Hn.
    discriminate Hn. apply nums_elem. unfold len in Hlt. lia.
Qed.
(** It answers every other request with 503. *)
Section Alternating.
Variable net : Net.
Variable url : string.
Variable content : list byte.
Hypothesis content_small : len content ≤ BUFFER_BYTES.
Hypothesis alternates : ∀ log offset, @serve net log (range_request url offset) =
  inr (if N.even (len log) then {| rs_status := 503; rs_body := [] |}
       else demo_serve_file content (range_request url offset)).
Lemma one_chunk bs : body_bytes [inr bs] = inr bs.
Proof. destruct bs; cbn; by rewrite ?app_nil_r. Qed.
Lemma rest_small (n : nat) : reader_ok [inr (drop n content)].
Proof. constructor; [|constructor]. unfold len in *. rewrite length_drop. lia. Qed.
(** What it says when it does not fail. *)
Lemma demo_reply log offset : N.even (len log) = false →
  @serve net log (range_request url offset) = inr (
    if decide (offset = 0) then {| rs_status := 200; rs_body := [inr content] |}
    else if decide (offset < len content) then {| rs_status := 206; rs_body := [inr (drop (N.to_nat offset) content)] |}
    else {| rs_status := 416; rs_body := [] |}).
Proof.
  intros Hl. rewrite alternates, Hl. unfold demo_serve_file, range_request. cbn [rq_headers].
  destruct (decide (offset = 0)) as [->|Hne]; [done|]. rewrite (proj2 (N.ltb_lt 0 offset)) by lia.
  rewrite demo_offset_spec. by destruct (decide _).
Qed.
Lemma even_later (log : list Request) rq : N.even (len (log ++ [rq])) = negb (N.even (len log)).
Proof. rewrite len_app. change (len [rq]) with 1. by rewrite N.add_1_r, N.even_succ, <- N.negb_even. Qed.
Lemma demo_recovers log0 : @recovers net log0 url content.
Proof.
  assert (∀ n log, N.even (len log) = false → @served net url content (S n) log 0) as Hwhole.
  { intros n log Hl. eapply served_whole; [by rewrite demo_reply, decide_True|done| |apply one_chunk].
    apply (rest_small 0). }
  assert (∀ n log offset, N.even (len log) = false → @served net url content (S (S (S n))) log offset) as Hodd.
  { intros n log offset Hl. destruct (decide (offset = 0)) as [->|Hne]; [by apply Hwhole|].
    pose proof (demo_reply log offset Hl) as Hr. rewrite decide_False in Hr by done.
    destruct (decide (offset < len content)).
    - eapply served_rest; [exact Hr|done|lia|apply rest_small|apply one_chunk].
    - eapply served_restart; [exact Hr|done|lia|]. apply served_retry; [by rewrite alternates, even_later, Hl|].
      apply Hwhole. by rewrite !even_later, Hl. }
  intros log offset _. destruct (N.even (len log)) eqn:Hl.
  - apply served_retry; [by rewrite alternates, Hl|]. apply (Hodd 1%nat). by rewrite even_later, Hl.
  - by apply (Hodd 2%nat).
Qed.
Lemma demo_flaky : @flaky_file_server net url content.
Proof.
  intros log offset. destruct (N.even (len log)) eqn:Hl; [left; by rewrite alternates, Hl|right].
  rewrite demo_reply by done. eexists. split; [reflexivity|].
  destruct (decide (offset = 0)) as [->|]; [|destruct (decide (offset < len content))].
  - left. split; [done|]. split; [apply (rest_small 0)|left; apply one_chunk].
  - right. left. split; [done|]. split; [lia|]. split; [apply rest_small|left; apply one_chunk].
  - right. right. split; [done|]. lia.
Qed.
End Alternating.

Section Demo.
#[local] Existing Instances demo_hash demo_base64 demo_ed25519 demo_bsdiff demo_value_serde demo_to_value.
#[local] Existing Instances demo_manifest_serde demo_diff_serde demo_state_serde demo_event_serde demo_module_serde demo_state_laws.
Definition demo_manifest_bytes : list byte := [x6d].
Definition demo_patch_check : PatchCheck := {|
  pc_patch_number := 7; manifest_url := "http://h/m"; payload_url := "http://h/p";
  manifest_hash := sha256_hex demo_manifest_bytes; payload_hash := sha256_hex demo_bytes |}.
Definition demo_update : CheckResponse := {| patch_available := true; patch := Some demo_patch_check |}.
#[local] Instance demo_update_net : Net := λ log rq,
  inr (if N.even (len log) then {| rs_status := 503; rs_body := [] |}
       else if String.eqb (rq_url rq) "http://h/m" then demo_serve_file demo_manifest_bytes rq
       else if String.eqb (rq_url rq) "http://h/p" then demo_serve_file demo_bytes rq
       else {| rs_status := 200; rs_body := [] |}).
#[local] Instance demo_update_json : BodyJson CheckResponse := λ _, Ok demo_update.
#[local] Instance demo_event_value : ToValue EventRequest := λ _, Ok Value.Null.
#[local] Instance demo_json_number : JsonF64 := λ _, Value.Null.
#[local] Existing Instance ServerApi.demo_body_text.
Definition demo_device : Runtime := set_public_key demo_public_key demo_runtime.
Definition demo_download_dir : path := ["c"; "downloads"; "1"; "7"; "android"; "arm64-v8a"]%string.
(** An attempt that breaks off five bytes into the payload, and a restart. *)
Definition demo_first_try : Machine := mk_machine
  (with_faults (demo_world ∅) (replicate 8 None ++ [Some {| fault_error := "No space left on device";
     fault_progress := 5; fault_removed := ∅ |}])) [] [] false [] ∅.
Definition demo_checked : Runtime := set_last_check (Some demo_update) demo_device.
Definition demo_stats : InterpreterStatsSnapshot := {| interpreted := 0; aot := 0 |}.
Definition demo_broken_off : Machine := (download_and_install true [] demo_checked demo_stats demo_first_try).2.
Definition restart (m : Machine) : Machine := mk_machine (with_faults (m_world m) []) (m_log m) [] false [] ∅.
Lemma restart_step cache_dir out (p : PatchCheck) m : session_step true [] cache_dir out p m (restart m).
Proof. by apply session_restart. Qed.
Definition demo_restarted : Machine := restart demo_broken_off.
Lemma demo_partial_left :
  files demo_restarted !! part_file demo_download_dir = Some (File (take 5 demo_bytes))
  ∧ files demo_restarted !! state_path ["c"]%string = None ∧ w_stats (m_world demo_restarted) = [].
Proof. vm_compute. done. Qed.
Lemma demo_answers m s : m_flights m = ∅ → answers m demo_device s demo_update.
Proof.
  intros Hf. split; [by rewrite Hf|]. intros log _. exists {| rs_status := 200; rs_body := [] |}. split; [|done].
  exists (if N.even (len log) then 1%nat else 0%nat). unfold serve, demo_update_net. cbn [rq_url].
  destruct (N.even (len log)) eqn:Hl.
  - split; [lia|]. split.
    + intros [|i] Hi; [|lia]. cbn [replicate]. by rewrite app_nil_r, Hl.
    + cbn [replicate]. by rewrite even_later, Hl.
  - split; [lia|]. split; [intros i Hi; lia|]. cbn [replicate]. by rewrite app_nil_r, Hl.
Qed.
Lemma demo_served log0 : serves_patch demo_patch_check log0 demo_manifest_bytes demo_bytes.
Proof.
  split; [reflexivity|]. split; [reflexivity|]. split; [by apply demo_recovers|]. split; [by apply demo_recovers|].
  by repeat split.
Qed.
Lemma demo_good_patch : good_patch true demo_public_key demo_manifest_bytes demo_bytes demo_install_manifest.
Proof. split; [reflexivity|]. repeat split; vm_compute; reflexivity. Qed.
End Demo.
