(* ===== verification/RollbackFacts.v ===== *)
(** * A crash is rolled back and reported

    A patch whose launches are never confirmed is given up by the second launch
    after it: it is marked bad, an event goes to the log, and the next flush
    delivers the log to a server that answers. *)
From S2P Require Import Prelude Text External Bytecode BytecodeCheck BytecodeFacts Crypto Manifest Diff World State StateFacts StateProperties StateProgress Flights Net ServerApi Runtime RuntimeProperties Delivery Resilience.
Local Open Scope N_scope.

Section Rollback.
Context `{Hash, Base64, Ed25519, BsdiffZstd}.
Context `{Serde Value.t, ToValue PatchManifest, Serde PatchManifest, Serde SimpleBinaryDiff}.
Context `{Serde BytecodeModule, Serde State, Serde CrashRollbackEvent}.
Context `{!SerdeLaws State (λ _, True), !SerdeLaws CrashRollbackEvent (λ _, True), !SerdeLine CrashRollbackEvent}.
Variable cache_dir : path.
Abbreviation events_path := (rollback_events_path cache_dir).

(** ** The event log in the layout of the cache directory *)
Lemma events_not_dir_place : ¬ dir_place cache_dir events_path.
Proof.
  intros [n [_ Hq]%ancestors_elem]. unfold rollback_events_path, patches_dir, join1 in Hq.
  rewrite <- app_assoc in Hq. by apply prefix_app_inv, prefix_cons_inv_1 in Hq.
Qed.
Lemma cache_dir_place q : q ∈ ancestors cache_dir → dir_place cache_dir q.
Proof.
  intros [Hne Hq]%ancestors_elem. exists 0. apply ancestors_elem. split; [done|].
  unfold patches_dir, join1. rewrite <- app_assoc. by apply prefix_app_r.
Qed.
Lemma tidy_events fs fs' :
  tidy cache_dir fs →
  (∀ q, fs' !! q = fs !! q ∨ fs' !! q = None ∨ (dir_place cache_dir q ∧ fs' !! q = Some Dir)
        ∨ (q = events_path ∧ ∃ bs, fs' !! q = Some (File bs))) →
  tidy cache_dir fs'.
Proof.
  intros [Hd Hf] Hch. split.
  - intros q bs Hq. destruct (Hch q) as [->|[->|[[_ ->]|[-> _]]]]; [by apply Hd|done|done|].
    by destruct events_not_dir_place.
  - intros q Hq. destruct (Hch q) as [->|[->|[[Hdp _]|[_ [bs ->]]]]]; [by apply Hf|done| |done].
    by destruct (dir_not_file cache_dir q Hdp).
Qed.
(** The log survives writes to [state.json]. *)
Lemma events_off_state : ¬ write_zone (state_path cache_dir) events_path.
Proof.
  unfold rollback_events_path, state_path, join1. intros [E|[(pid & sfx & E)|Hq]].
  - by apply app_inj_tail in E as [_ ?].
  - unfold temp_path, with_file_name in E. rewrite removelast_last in E. by apply app_inj_tail in E as [_ ?].
  - apply ancestors_length in Hq. rewrite removelast_last, length_app in Hq. simpl in Hq. lia.
Qed.
Lemma save_keeps_log s w r w' evs :
  save_state cache_dir s w = (r, w') → log_holds cache_dir w evs → log_holds cache_dir w' evs.
Proof.
  intros E. assert (touches (write_zone (state_path cache_dir)) (save_state cache_dir s)) as Ht.
  { unfold save_state, atomic_write_json. apply touches_bind; [apply touches_lift|intros]. apply touches_atomic_write. }
  apply log_holds_keep; [by eapply touches_stat|]. eapply touches_at; [exact Ht|exact E|apply events_off_state].
Qed.
Lemma same_files_log w w' evs :
  w_stats w' `suffix_of` w_stats w → w_fs w' = w_fs w → log_holds cache_dir w evs → log_holds cache_dir w' evs.
Proof. intros Hs Hf. apply log_holds_keep; [done|by rewrite Hf]. Qed.

(** ** Reading and appending return *)
Lemma log_exists w : calm_world w →
  fs_exists events_path w = (Ok (bool_decide (is_Some (w_fs w !! events_path))), w).
Proof.
  intros [_ Hst]. unfold fs_exists. by rewrite stat_call_ok, (bool_decide_eq_false_2 (events_path = [])) by (done || apply events_path_ne).
Qed.
Lemma read_log_calm w evs bs : calm_world w → log_holds cache_dir w evs → w_fs w !! events_path = Some (File bs) →
  ∃ text w', fs_read_to_string events_path w = (Ok text, w') ∧ calm_world w' ∧ w_fs w' = w_fs w
    ∧ Forall2 event_line evs (nonblank_lines text).
Proof.
  intros Hw [_ Hlog] Hf. rewrite Hf in Hlog. destruct Hlog as (ls & Hls & ->).
  destruct (unlines_read _ _ Hls) as [Hu Hn].
  destruct (read_calm events_path _ w Hw Hf) as (w1 & E1 & Hw1 & Hf1).
  exists (unlines ls), w1. unfold fs_read_to_string. rewrite (io_bind_run _ _ _ _ _ E1).
  split; [unfold io_lift; by rewrite Hu|]. split; [done|]. split; [done|]. by rewrite Hn.
Qed.
Lemma log_write_runs bs w : ready cache_dir w → w_fs w !! events_path ≠ Some Dir →
  ∃ w', atomic_write_bytes events_path bs w = (Ok tt, w') ∧ ready cache_dir w'.
Proof.
  intros [Hw Ht] Hlog.
  destruct (atomic_write_calm events_path bs w Hw (events_path_ne _)) as (w' & E & Hw' & Hch); [|done| |].
  - unfold rollback_events_path, join1. rewrite removelast_last. intros q bs' Hq. by apply Ht, cache_dir_place.
  - intros pid sfx. apply Ht. right. left. unfold temp_path, with_file_name, rollback_events_path, join1.
    rewrite removelast_last. by eexists.
  - exists w'. split; [done|]. split; [done|]. eapply tidy_events; [exact Ht|]. intros q.
    destruct (Hch q) as [Hq|[[-> Hq]|[[Hq E']|(pid & sfx & _ & Hq)]]]; [by left| | |by right; left].
    + right. right. right. eauto.
    + right. right. left. split; [|done]. apply cache_dir_place.
      unfold rollback_events_path, join1 in Hq. by rewrite removelast_last in Hq.
Qed.
Lemma append_event_runs w evs e : ready cache_dir w → log_holds cache_dir w evs →
  ∃ w', append_rollback_event cache_dir e w = (Ok tt, w') ∧ ready cache_dir w'
    ∧ log_holds cache_dir w' (recent (evs ++ [e])).
Proof.
  intros [Hw Ht] Hlog.
  assert (∃ w', append_rollback_event cache_dir e w = (Ok tt, w') ∧ ready cache_dir w') as (w' & E & Hr).
  2:{ exists w'. split; [done|]. split; [done|].
      by destruct (append_event_spec cache_dir _ _ _ _ _ Hlog E) as [[_ ?]|[[? [=]] _]]. }
  destruct (create_dir_all_calm cache_dir w Hw) as (w1 & E1 & Hw1 & Hf1).
  { intros q bs Hq. apply Ht. by apply cache_dir_place. }
  assert (tidy cache_dir (w_fs w1)) as Ht1.
  { eapply tidy_events; [exact Ht|]. intros q. rewrite Hf1. destruct (decide _) as [Hin|]; [|by left].
    right. right. left. split; [by apply cache_dir_place|done]. }
  assert (log_holds cache_dir w1 evs) as Hlog1.
  { apply (log_holds_keep cache_dir w); [by rewrite (proj2 Hw1); apply suffix_nil| |done].
    rewrite Hf1, decide_False; [done|]. by intros Hin%(cache_dir_off_events cache_dir). }
  assert (∃ old w2, (e ← fs_exists events_path;
      if (e : bool) then content ← fs_read_to_string events_path; mret (nonblank_lines content) else mret []) w1
      = (Ok old, w2) ∧ calm_world w2 ∧ w_fs w2 = w_fs w1) as (old & w2 & E2 & Hw2 & Hf2).
  { rewrite (io_bind_run _ _ _ _ _ (log_exists w1 Hw1)). destruct (w_fs w1 !! events_path) as [node|] eqn:Ef.
    - rewrite bool_decide_eq_true_2 by done. destruct node as [bs|]; [|by destruct Hlog1 as [_ Hl]; rewrite Ef in Hl].
      destruct (read_log_calm _ _ _ Hw1 Hlog1 Ef) as (text & w2 & E2 & Hw2 & Hf2 & _).
      rewrite (io_bind_run _ _ _ _ _ E2). by eexists _, w2.
    - rewrite bool_decide_eq_false_2 by (by intros [? ?]). by eexists _, w1. }
  destruct (to_vec_total (A:=CrashRollbackEvent) e I) as [line Hline].
  assert (log_not_dir : w_fs w2 !! events_path ≠ Some Dir).
  { rewrite Hf2. destruct Hlog1 as [_ Hl]. intros Ef. by rewrite Ef in Hl. }
  rewrite <- Hf2 in Ht1.
  destruct (log_write_runs (str_bytes (join (String newline "") (drop (length (old ++ [str_of_bytes line]) - MAX_ROLLBACK_EVENTS)
     (old ++ [str_of_bytes line]))) ++ [x0a]) w2 (conj Hw2 Ht1) log_not_dir) as (w3 & E3 & Hr3).
  exists w3. split; [|done]. unfold append_rollback_event.
  rewrite (io_bind_run _ _ _ _ _ E1), io_bind_assoc.
  rewrite (io_bind_run _ _ _ _ _ E2). by rewrite (io_bind_run _ _ w2 line w2) by (unfold io_lift; by rewrite Hline).
Qed.

(** ** A launch *)
(** The patch the next launch gives up, and the event it writes. *)
Definition gives_up (s : State) : option N :=
  n ← pending_launch s; if MAX_BOOT_ATTEMPTS <=? saturating_incr (boot_attempts s) then Some n else None.
Definition crash_event (s : State) (n : N) (now : string) : CrashRollbackEvent := {|
  State.event_type := "crash_rollback"; State.ev_patch_number := n;
  ev_boot_attempts := saturating_incr (boot_attempts s);
  ev_last_known_good := last_known_good_patch_number s; timestamp := now; reason := None |}.
(** The log after the launch. *)
Definition logged (s : State) (now : string) (evs : list CrashRollbackEvent) : list CrashRollbackEvent :=
  match gives_up s with Some n => recent (evs ++ [crash_event s n now]) | None => evs end.

(** On a ready world with the log [evs], the computation returns and [Q] holds of
    its result and of the log it leaves. *)
Definition logs {A} (x : IO A) (evs : list CrashRollbackEvent) (Q : A → list CrashRollbackEvent → Prop) : Prop :=
  ∀ w, ready cache_dir w → log_holds cache_dir w evs →
  ∃ a w' evs', x w = (Ok a, w') ∧ ready cache_dir w' ∧ log_holds cache_dir w' evs' ∧ Q a evs'.
Lemma logs_bind {A B} (x : IO A) (f : A → IO B) evs Q1 Q :
  logs x evs Q1 → (∀ a evs1, Q1 a evs1 → logs (f a) evs1 Q) → logs (x ≫= f) evs Q.
Proof.
  intros Hx Hf w Hr Hl. destruct (Hx w Hr Hl) as (a & w1 & evs1 & E & Hr1 & Hl1 & HQ).
  rewrite (io_bind_run _ _ _ _ _ E). by eapply Hf.
Qed.
Lemma logs_ret {A} (a : A) evs (Q : A → list CrashRollbackEvent → Prop) : Q a evs → logs (mret a) evs Q.
Proof. intros HQ w Hr Hl. by exists a, w, evs. Qed.
Lemma logs_now evs : logs now_string evs (λ _ evs', evs' = evs).
Proof.
  intros w Hr Hl. destruct (now_calm w (proj1 Hr)) as (now & w' & E & Hw' & Hf). exists now, w', evs. split; [done|].
  split; [by eapply ready_same|]. split; [|done]. eapply same_files_log, Hl; [|done].
  by rewrite (proj2 Hw'), (proj2 (proj1 Hr)).
Qed.
Lemma logs_save s evs : logs (save_state cache_dir s) evs (λ _ evs', evs' = evs).
Proof.
  intros w Hr Hl. destruct (save_ready cache_dir w s Hr) as (w' & E & Hr'). exists tt, w', evs.
  split; [done|]. split; [done|]. split; [|done]. by eapply save_keeps_log.
Qed.
Lemma logs_append e evs : logs (append_rollback_event cache_dir e) evs (λ _ evs', evs' = recent (evs ++ [e])).
Proof. intros w Hr Hl. destruct (append_event_runs w evs e Hr Hl) as (w' & ? & ? & ?). by eexists tt, w', _. Qed.
Lemma logs_save_if (b : bool) s evs : logs (if b then save_state cache_dir s else mret tt) evs (λ _ evs', evs' = evs).
Proof. destruct b; [apply logs_save|by apply logs_ret]. Qed.

Lemma launch_runs w s evs : ready cache_dir w → holds cache_dir w s → log_holds cache_dir w evs →
  ∃ p w' now' s' now, launch_patch cache_dir w = (Ok p, w') ∧ ready cache_dir w'
    ∧ launch_next s now' = (s', p) ∧ holds cache_dir w' s' ∧ log_holds cache_dir w' (logged s now evs).
Proof.
  intros Hr Hh Hl.
  assert (∃ p w' evs', launch_patch cache_dir w = (Ok p, w') ∧ ready cache_dir w' ∧ log_holds cache_dir w' evs'
    ∧ ∃ now, evs' = logged s now evs) as (p & w' & ? & E & Hr' & Hl' & now & ->).
  2:{ destruct (launch_holds cache_dir _ _ _ _ Hh E) as (now' & s' & Hn & Hh'). by exists p, w', now', s', now. }
  destruct (load_ready cache_dir w s Hr Hh) as (w1 & E1 & Hr1 & Hh1).
  destruct (load_ok cache_dir _ _ _ _ Hh E1) as (_ & _ & Hf1).
  assert (log_holds cache_dir w1 evs) as Hl1.
  { eapply same_files_log, Hl; [|done]. by rewrite (proj2 (proj1 Hr1)), (proj2 (proj1 Hr)). }
  unfold launch_patch. rewrite (io_bind_run _ _ _ _ _ E1). clear E1 Hh1 Hf1. revert w1 Hr1 Hl1.
  set (R evs' := ∃ now, evs' = logged s now evs).
  match goal with |- ∀ w1 _ _, ∃ p w' evs', ?x w1 = _ ∧ _ => change (logs x evs (λ _ evs', R evs')) end.
  assert (gives_up s = None → R evs) as Hnone by (unfold R, logged; intros ->; by exists ""%string).
  assert (∀ n now, gives_up s = Some n → R (recent (evs ++ [crash_event s n now]))) as Hsome
    by (unfold R, logged; intros n now ->; by exists now).
  unfold gives_up, pending_launch in Hnone, Hsome.
  eapply (logs_bind _ _ _ (λ _ evs', R evs')).
  - destruct (last_launch s) as [l|]; [|by apply logs_ret, Hnone].
    destruct (String.eqb (status l) "pending_success"); [|by apply logs_ret, Hnone].
    cbn [mbind option_bind] in Hnone, Hsome.
    eapply (logs_bind _ _ _ (λ _ evs', R evs')); [|intros a ? Hnow; by apply logs_ret].
    destruct (_ <=? _); [|by apply logs_ret, Hnone].
    eapply logs_bind; [apply logs_now|]. intros now ? ->.
    eapply logs_bind; [apply logs_append|]. intros [] ? ->. by apply logs_ret, Hsome.
  - intros [s1 ch] evs1 Hnow. destruct (select_launch_patch_number s1) as [n|].
    + eapply (logs_bind _ _ _ (λ _ evs', evs' = evs1)).
      { case_bool_decide; [|by apply logs_ret]. eapply logs_bind; [apply logs_now|]. intros now ? ->. by apply logs_ret. }
      intros [s2 ch2] ? ->. eapply logs_bind; [apply logs_save_if|]. intros [] ? ->. by apply logs_ret.
    + eapply logs_bind; [apply logs_save_if|]. intros [] ? ->. by apply logs_ret.
Qed.

(** ** Three launches *)
(** What is left to launch without [n]. *)
Definition fallback (s : State) (n : N) : option N :=
  List.find (λ g, negb (g =? n) && launchable s g)
    ((if 0 <? State.current_patch_number s then [State.current_patch_number s] else [])
     ++ option_list (last_known_good_patch_number s)).
Lemma launchable_recover s n g :
  gives_up s = Some n → launchable (launch_recover s) g = negb (g =? n) && launchable s g.
Proof.
  unfold gives_up, launch_recover. destruct (pending_launch s) as [n'|]; [|done]. cbn [mbind option_bind].
  destruct (_ <=? _); [|done]. intros [= ->]. destruct (mark_patch_bad_spec s n) as (Hb & _ & _ & _ & _ & Hi & _).
  unfold launchable. cbn [bad_patches installed set_last_launch]. rewrite Hi, andb_assoc. f_equal.
  destruct (N.eqb_spec g n) as [->|Hne]; cbn [negb andb].
  - rewrite bool_decide_eq_true_2; [done|]. apply Hb. by left.
  - f_equal. apply bool_decide_ext. rewrite Hb. naive_solver.
Qed.
Lemma find_ext {A} (f g : A → bool) l : (∀ a, f a = g a) → List.find f l = List.find g l.
Proof. intros Hfg. induction l as [|a l IH]; [done|]. simpl. by rewrite Hfg, IH. Qed.
Lemma gives_up_selects s n :
  gives_up s = Some n → pending_patch_number s = Some n →
  select_launch_patch_number (launch_recover s) = fallback s n.
Proof.
  intros Hg Hp. unfold select_launch_patch_number, fallback.
  rewrite (find_ext _ _ _ (λ g, launchable_recover s n g Hg)). unfold launch_candidates.
  revert Hg. unfold gives_up, launch_recover. destruct (pending_launch s) as [n'|]; [|done]. cbn [mbind option_bind].
  destruct (_ <=? _); [|done]. intros [= ->].
  destruct (mark_patch_bad_spec s n) as (_ & Ep & Eg & Ec & _).
  cbn [State.current_patch_number pending_patch_number last_known_good_patch_number set_last_launch].
  rewrite Ep, Eg, Ec, Hp, (bool_decide_eq_true_2 (Some n = Some n)) by done. cbn [option_list Datatypes.app].
  set (ok g := negb (g =? n) && launchable s g).
  assert (ok n = false) as Hn by (unfold ok; by rewrite N.eqb_refl).
  destruct (N.eqb_spec (State.current_patch_number s) n) as [->|]; destruct (last_known_good_patch_number s) as [g|].
  - cbn [option_filter]. destruct (N.eqb_spec g n) as [->|Hgn]; cbn [negb default].
    + rewrite bool_decide_eq_true_2 by done. change (0 <? 0) with false. destruct (0 <? n); simpl; by rewrite ?Hn.
    + rewrite bool_decide_eq_false_2 by congruence.
      simpl. destruct (0 <? n), (0 <? g); simpl; rewrite ?Hn; destruct (ok g) eqn:Ek; by rewrite ?Hn, ?Ek.
  - change (0 <? 0) with false. destruct (0 <? n); simpl; by rewrite ?Hn.
  - destruct (decide (g = n)) as [->|]; [|by rewrite bool_decide_eq_false_2 by congruence].
    rewrite bool_decide_eq_true_2 by done.
    destruct (0 <? _); simpl; by rewrite ?Hn.
  - done.
Qed.

(** A launch of a pending patch that is not given up returns it, and only counts. *)
Lemma launch_counts s n now :
  gives_up s = None → pending_patch_number s = Some n → n ∉ bad_patches s → n ∈ installed_numbers s →
  ∃ p, launch_next s now = (start_launch (launch_recover s) n now, Some p) ∧ ip_patch_number p = n
    ∧ let s' := start_launch (launch_recover s) n now in
      boot_attempts s' = saturating_incr (boot_attempts s) ∧ pending_launch s' = Some n
      ∧ pending_patch_number s' = Some n ∧ bad_patches s' = bad_patches s ∧ installed s' = installed s
      ∧ State.current_patch_number s' = State.current_patch_number s
      ∧ last_known_good_patch_number s' = last_known_good_patch_number s.
Proof.
  intros Hg Hp Hb Hin.
  assert (∀ {A} (f : State → A), (∀ l, f (set_last_launch s l) = f s) → f (launch_recover s) = f s) as Hsame.
  { intros A f Hf. revert Hg. unfold gives_up, launch_recover. destruct (pending_launch s); [|done].
    cbn [mbind option_bind]. by destruct (_ <=? _). }
  assert (select_launch_patch_number (launch_recover s) = Some n) as Hsel.
  { rewrite (Hsame _ select_launch_patch_number) by done.
    unfold select_launch_patch_number, launch_candidates. rewrite Hp. simpl.
    assert (launchable s n = true) as ->; [|done].
    unfold launchable. rewrite bool_decide_eq_false_2 by done. cbn [negb andb].
    apply existsb_exists. apply list_elem_of_fmap in Hin as (p & -> & Hin). exists p.
    split; [by apply list_elem_of_In|]. apply N.eqb_refl. }
  destruct (select_is_installed _ _ Hsel) as (_ & p & Hf & Hn & _). exists p.
  unfold launch_next. rewrite Hsel, Hf. split; [done|]. split; [done|].
  destruct (start_launch_spec (launch_recover s) n now) as (_ & -> & ->). cbn.
  by rewrite !(Hsame _ _) by done.
Qed.

Lemma gives_up_attempts s n a :
  pending_launch s = Some n → boot_attempts s = a →
  gives_up s = if MAX_BOOT_ATTEMPTS <=? saturating_incr a then Some n else None.
Proof. unfold gives_up. by intros -> ->. Qed.
Lemma gives_up_bad s n : gives_up s = Some n → n ∈ bad_patches (launch_recover s).
Proof.
  unfold gives_up, launch_recover. destruct (pending_launch s) as [n'|]; [|done]. cbn [mbind option_bind].
  destruct (_ <=? _); [|done]. intros [= ->]. cbn [bad_patches set_last_launch]. apply mark_patch_bad_spec. by left.
Qed.
(** A new patch is launched twice; the third launch gives it up for the fallback. *)
Lemma three_launches w s evs n :
  ready cache_dir w → holds cache_dir w s → log_holds cache_dir w evs →
  pending_patch_number s = Some n → boot_attempts s = 0 → n ∉ bad_patches s → n ∈ installed_numbers s →
  ∃ p1 p2 p3 w1 w2 w3 s2 s3 now,
    launch_patch cache_dir w = (Ok (Some p1), w1) ∧ ip_patch_number p1 = n
    ∧ launch_patch cache_dir w1 = (Ok (Some p2), w2) ∧ ip_patch_number p2 = n
    ∧ launch_patch cache_dir w2 = (Ok p3, w3) ∧ ip_patch_number <$> p3 = fallback s n
    ∧ ready cache_dir w3 ∧ holds cache_dir w3 s3 ∧ n ∈ bad_patches s3
    ∧ boot_attempts s2 = 2 ∧ last_known_good_patch_number s2 = last_known_good_patch_number s
    ∧ log_holds cache_dir w3 (recent (evs ++ [crash_event s2 n now])).
Proof.
  intros Hr Hh Hl Hp Ha Hb Hin.
  assert (gives_up s = None) as Hg.
  { unfold gives_up. rewrite Ha. by destruct (pending_launch s). }
  destruct (launch_runs w s evs Hr Hh Hl) as (q1 & w1 & now1 & s1 & t1 & E1 & Hr1 & Hn1 & Hh1 & Hl1).
  destruct (launch_counts s n now1 Hg Hp Hb Hin) as (p1 & En1 & Hp1 & Ha1 & Hpl1 & Hpp1 & Hb1 & Hi1 & Hc1 & Hg1).
  rewrite Hn1 in En1. injection En1 as -> ->. rewrite Ha in Ha1. unfold logged in Hl1. rewrite Hg in Hl1.
  set (s1 := start_launch (launch_recover s) n now1) in *.
  assert (gives_up s1 = None) as Hgu1 by by rewrite (gives_up_attempts s1 n _ Hpl1 Ha1).
  rewrite <- Hb1 in Hb. unfold installed_numbers in Hin. rewrite <- Hi1 in Hin.
  destruct (launch_runs w1 s1 evs Hr1 Hh1 Hl1) as (q2 & w2 & now2 & s2 & t2 & E2 & Hr2 & Hn2 & Hh2 & Hl2).
  destruct (launch_counts s1 n now2 Hgu1 Hpp1 Hb Hin) as (p2 & En2 & Hp2 & Ha2 & Hpl2 & Hpp2 & Hb2 & Hi2 & Hc2 & Hg2).
  rewrite Hn2 in En2. injection En2 as -> ->. rewrite Ha1 in Ha2. unfold logged in Hl2. rewrite Hgu1 in Hl2.
  set (s2 := start_launch (launch_recover s1) n now2) in *.
  assert (gives_up s2 = Some n) as Hgu2 by by rewrite (gives_up_attempts s2 n _ Hpl2 Ha2).
  destruct (launch_runs w2 s2 evs Hr2 Hh2 Hl2) as (p3 & w3 & now3 & s3 & t3 & E3 & Hr3 & Hn3 & Hh3 & Hl3).
  unfold logged in Hl3. rewrite Hgu2 in Hl3.
  exists p1, p2, p3, w1, w2, w3, s2, s3, t3. do 5 (split; [done|]).
  assert (fallback s2 n = fallback s n) as Hfb.
  { unfold fallback. rewrite Hc2, Hc1, Hg2, Hg1. apply find_ext. intros g. unfold launchable. by rewrite Hb2, Hb1, Hi2, Hi1. }
  split.
  { rewrite <- Hfb, <- (gives_up_selects s2 n Hgu2 Hpp2). unfold launch_next in Hn3.
    destruct (select_launch_patch_number _) as [g|] eqn:Hsel; [|by injection Hn3 as _ <-].
    destruct (select_is_installed _ _ Hsel) as (_ & p & Hf & Hpg & _). rewrite Hf in Hn3.
    injection Hn3 as _ <-. by rewrite <- Hpg. }
  do 2 (split; [done|]). split; [|split_and!; [done|by rewrite Hg2, Hg1|done]].
  replace s3 with (launch_next s2 now3).1 by by rewrite Hn3. rewrite launch_next_bad.
  by apply gives_up_bad.
Qed.
End Rollback.

(** ** The report *)
Section Report.
Context `{Hash, Base64, Ed25519, Net, BodyText}.
Context `{Serde CrashRollbackEvent, ToValue CrashRollbackEvent, ToValue EventRequest}.
Context `{!SerdeLaws CrashRollbackEvent (λ _, True), !SerdeLine CrashRollbackEvent}.
(** serde_json's [to_value] of the two structs returns a value. *)
Hypothesis event_value : ∀ e : CrashRollbackEvent, ∃ v, to_value e = Ok v.
Hypothesis request_value : ∀ e : EventRequest, ∃ v, to_value e = Ok v.
Variable current_dir : path.

(** From [log0] on, the server takes every event after at most four failures. *)
Definition takes_events (r : Runtime) (log0 : list Request) : Prop :=
  ∀ log body, log0 `prefix_of` log → ∃ resp,
    replied log {| rq_method := "POST"; rq_url := base_url (client_new (rt_server_url r)) +:+ "/v1/events";
                   rq_headers := []; rq_query := []; rq_body := Some body |} resp.
Lemma post_all_runs r log0 events m :
  takes_events r log0 → log0 `prefix_of` m_log m →
  ∃ m', act_for_each (λ event,
    payload ← act_lift (map_err Json (to_value event));
    post_event (client_new (rt_server_url r)) (event_request r (Some (State.ev_patch_number event))
      (State.event_type event) payload)) events m = (Ok tt, m') ∧ quiet m m'.
Proof.
  intros Hs. revert m. induction events as [|e events IH]; intros m Hlog; cbn [act_for_each]; [by exists m|].
  destruct (event_value e) as [v Hv].
  destruct (request_value (event_request r (Some (State.ev_patch_number e)) (State.event_type e) v)) as [body Hbody].
  destruct (Hs (m_log m) body Hlog) as [resp Hresp].
  destruct (retry_replied _ (λ _, Ok tt) resp m Hresp) as (m1 & E1 & Hq1).
  destruct (IH m1) as (m2 & E2 & Hq2).
  { etrans; [exact Hlog|]. exact (act_logs_run _ _ _ _ (act_logs_retry_loop _ _ _ _) E1). }
  exists m2. split; [|by etrans]. rewrite (act_bind_run _ _ m tt m1); [exact E2|].
  rewrite (act_bind_run _ _ m v m) by (unfold act_lift; by rewrite Hv).
  unfold post_event, post_json. rewrite (act_bind_run _ _ m body m) by (unfold act_lift; by rewrite Hbody).
  exact E1.
Qed.
Lemma flush_runs r m events :
  calm m → log_holds (cache current_dir r) (m_world m) events → events ≠ [] → unconfigured r = false →
  takes_events r (m_log m) →
  ∃ m' rqs, flush_rollback_events current_dir r m = (Ok tt, m')
    ∧ Forall2 (event_post r) events rqs ∧ accepted rqs (m_log m) (m_log m')
    ∧ files m' !! rollback_events_path (cache current_dir r) = None.
Proof.
  intros Hm Hl Hne Hu Hs. set (cd := cache current_dir r) in *.
  assert (∃ w1, rollback_events cd (m_world m) = (Ok events, w1) ∧ calm_world w1 ∧ w_fs w1 = files m) as (w1 & E1 & Hw1 & Hf1).
  { unfold rollback_events. rewrite (io_bind_run _ _ _ _ _ (log_exists cd _ (proj1 Hm))).
    destruct (files m !! rollback_events_path cd) as [node|] eqn:Ef.
    - rewrite bool_decide_eq_true_2 by done. destruct node as [bs|]; [|by destruct Hl as [_ Hl]; rewrite Ef in Hl].
      destruct (read_log_calm cd _ _ _ (proj1 Hm) Hl Ef) as (text & w1 & E1 & Hw1 & Hf1 & Hlines).
      cbn [negb]. rewrite (io_bind_run _ _ _ _ _ E1). exists w1. split; [|done].
      unfold io_lift. by rewrite (mapM_lines _ _ Hlines).
    - rewrite bool_decide_eq_false_2 by (by intros [? ?]). destruct Hl as [_ Hl]. rewrite Ef in Hl. subst events.
      exists (m_world m). split; [done|]. split; [apply Hm|done]. }
  unfold flush_rollback_events. rewrite Hu, (act_bind_run _ _ _ _ _ (sys_run _ _ _ _ E1)).
  set (m1 := with_world m w1). assert (calm m1) as Hm1 by by apply with_world_calm.
  rewrite bool_decide_eq_false_2 by done.
  destruct (post_all_runs r (m_log m) events m1 Hs) as (m2 & E2 & Hq); [done|].
  rewrite (act_bind_run _ _ _ _ _ E2). destruct (post_all_ok _ _ _ _ _ E2) as (rqs & Hall & Hacc).
  destruct (quiet_calm _ _ Hq Hm1) as [Hm2 Hf2].
  assert (∃ w3, clear_rollback_events cd (m_world m2) = (Ok tt, w3) ∧ w_fs w3 !! rollback_events_path cd = None) as (w3 & E3 & Hf3).
  { unfold clear_rollback_events. rewrite (io_bind_run _ _ _ _ _ (log_exists cd _ (proj1 Hm2))).
    destruct (files m2 !! rollback_events_path cd) as [node|] eqn:Ef.
    - rewrite bool_decide_eq_true_2 by done.
      destruct (io_call_calm (λ f fs,
        match f with
        | Some f => (inl (fault_error f), fs)
        | None =>
          match fs !! rollback_events_path cd with
          | Some (File _) => (inr tt, delete (rollback_events_path cd) fs)
          | Some Dir => (inl "Is a directory"%string, fs)
          | None => (inl "No such file or directory"%string, fs)
          end
        end) (m_world m2) tt (delete (rollback_events_path cd) (files m2)) (proj1 Hm2)) as (w3 & E3 & _ & Hf3).
      { rewrite Ef. destruct node; [done|]. destruct Hl as [_ Hl]. rewrite Hf2 in Ef. cbn in Ef. rewrite Hf1 in Ef. by rewrite Ef in Hl. }
      exists w3. split; [exact E3|]. by rewrite Hf3, lookup_delete_eq.
    - rewrite bool_decide_eq_false_2 by (by intros [? ?]). by exists (m_world m2). }
  exists (with_world m2 w3), rqs. split; [by apply sys_run|]. by split.
Qed.

Context `{BsdiffZstd, Serde Value.t, ToValue PatchManifest, Serde PatchManifest, Serde SimpleBinaryDiff}.
Context `{Serde BytecodeModule, Serde State, !SerdeLaws State (λ _, True)}.

(** C7: a pending patch that crashes the app every time is rolled back and
    reported.  On a device where nothing else fails the first two launches return
    it and the third does not: it returns the patch the device falls back to (the
    current one if it can be launched, or else the last known good one), the patch
    is bad from then on, and the event log gains one crash event with its number,
    three boot attempts and the last known good patch.  The next flush sends the
    log, this event last, through requests the server accepts (after at most four
    failures each), and removes it. *)
Theorem crash_rolled_back_and_reported r m s evs n :
  let cd := cache current_dir r in
  at_rest cd m s → log_holds cd (m_world m) evs →
  pending_patch_number s = Some n → boot_attempts s = 0 → n ∉ bad_patches s → n ∈ installed_numbers s →
  unconfigured r = false → takes_events r (m_log m) →
  ∃ p1 p2 p3 w1 w2 w3 s3 e m4 rqs,
    launch_patch cd (m_world m) = (Ok (Some p1), w1) ∧ ip_patch_number p1 = n
    ∧ launch_patch cd w1 = (Ok (Some p2), w2) ∧ ip_patch_number p2 = n
    ∧ launch_patch cd w2 = (Ok p3, w3) ∧ ip_patch_number <$> p3 = fallback s n
    ∧ holds cd w3 s3 ∧ n ∈ bad_patches s3
    ∧ State.event_type e = "crash_rollback"%string ∧ State.ev_patch_number e = n
    ∧ ev_boot_attempts e = 3 ∧ ev_last_known_good e = last_known_good_patch_number s
    ∧ flush_rollback_events current_dir r (with_world m w3) = (Ok tt, m4)
    ∧ Forall2 (event_post r) (recent (evs ++ [e])) rqs ∧ accepted rqs (m_log m) (m_log m4)
    ∧ files m4 !! rollback_events_path cd = None.
Proof.
  intros cd [Hr Hi Hh] Hl Hp Ha Hb Hin Hu Hs.
  destruct (three_launches cd _ s evs n Hr Hh Hl Hp Ha Hb Hin) as (p1 & p2 & p3 & w1 & w2 & w3 & s2 & s3 & now &
    E1 & Hp1 & E2 & Hp2 & E3 & Hp3 & Hr3 & Hh3 & Hb3 & Ha2 & Hg2 & Hl3).
  destruct (flush_runs r (with_world m w3) _ (conj (proj1 Hr3) Hi) Hl3 (recent_snoc_ne _ _) Hu Hs)
    as (m4 & rqs & E4 & Hall & Hacc & Hf4).
  exists p1, p2, p3, w1, w2, w3, s3, (crash_event s2 n now), m4, rqs.
  repeat (split; [done|]). split; [cbn; by rewrite Ha2|]. by repeat (split; [done|]).
Qed.
End Report.

(** ** Witness *)
Section Demo.
#[local] Existing Instances demo_hash demo_base64 demo_ed25519 demo_bsdiff demo_value_serde demo_to_value.
#[local] Existing Instances demo_manifest_serde demo_diff_serde demo_state_serde demo_event_serde demo_module_serde.
#[local] Existing Instances demo_state_laws demo_event_laws demo_event_line ServerApi.demo_body_text.
(** Every other request is answered with 503. *)
#[local] Instance demo_event_net : Net := λ log rq,
  inr {| rs_status := if N.even (len log) then 503 else 200; rs_body := [] |}.
#[local] Instance demo_crash_value : ToValue CrashRollbackEvent := λ e, Ok (Value.Number (dec (State.ev_patch_number e))).
#[local] Instance demo_request_value : ToValue EventRequest := λ e, Ok (ev_payload e).
(** Patch 7 was just installed, patch 3 is the last good one. *)
Definition demo_pending : State := {|
  st_schema_version := 2; st_release_version := "1"; State.current_patch_number := 3;
  pending_patch_number := Some 7; last_known_good_patch_number := Some 3; boot_attempts := 0;
  bad_patches := [5]; last_launch := Some (launched 3); installed := [demo_patch 3; demo_patch 7] |}.
Definition demo_crashing : Machine := mk_machine
  (demo_world {[ ["c"]%string := Dir; state_path ["c"]%string := File (pos_bytes (encode demo_pending)) ]})
  [] [] false [] ∅.
Lemma demo_tidy : tidy ["c"]%string (files demo_crashing).
Proof.
  assert (∀ q node, files demo_crashing !! q = Some node →
    (q = ["c"]%string ∧ node = Dir) ∨ (q = state_path ["c"]%string ∧ node ≠ Dir)) as Hfs.
  { intros q node. cbn [demo_crashing m_world demo_world w_fs].
    intros [[<- <-]|[_ [<- <-]%lookup_singleton_Some]]%lookup_insert_Some; [by left|by right]. }
  split.
  - intros q bs Hq [[_ [=]]|[-> _]]%Hfs. apply (dir_not_file _ _ Hq). by left.
  - intros q Hq [[-> _]|[_ ?]]%Hfs; [|done]. apply (dir_not_file ["c"]%string ["c"]%string); [|done].
    by apply cache_dir_place, ancestors_elem.
Qed.
Lemma demo_takes_events log0 : takes_events demo_runtime log0.
Proof.
  intros log body _. exists {| rs_status := 200; rs_body := [] |}.
  exists (if N.even (len log) then 1%nat else 0%nat). unfold serve, demo_event_net.
  destruct (N.even (len log)) eqn:Hl.
  - split; [lia|]. split.
    + intros [|i] Hi; [|lia]. cbn [replicate]. by rewrite app_nil_r, Hl.
    + cbn [replicate]. by rewrite even_later, Hl.
  - split; [lia|]. split; [intros i Hi; lia|]. cbn [replicate]. by rewrite app_nil_r, Hl.
Qed.
Lemma crash_rolled_back_and_reported_witness : ∃ w p3 w3 m4,
  launch_patch ["c"]%string w = (Ok p3, w3) ∧ ip_patch_number <$> p3 = Some 3
  ∧ flush_rollback_events [] demo_runtime (with_world demo_crashing w3) = (Ok tt, m4).
Proof.
  assert (∀ e : CrashRollbackEvent, ∃ v, to_value e = Ok v) as Hevent by eauto.
  assert (∀ e : EventRequest, ∃ v, to_value e = Ok v) as Hrequest by eauto.
  destruct (crash_rolled_back_and_reported Hevent Hrequest []
    demo_runtime demo_crashing demo_pending [] 7) as (p1 & p2 & p3 & w1 & w2 & w3 & s3 & e & m4 & rqs & Hrun).
  - split; [split; [by split|]|by split|].
    + exact demo_tidy.
    + split; [done|]. unfold disk_state.
      change (w_fs (m_world demo_crashing) !! state_path (cache [] demo_runtime)) with (Some (File (pos_bytes (encode demo_pending)))).
      cbn [from_slice demo_state_serde countable_serde]. rewrite countable_from_encode. by rewrite migrate_id.
  - split; reflexivity.
  - reflexivity.
  - reflexivity.
  - apply (bool_decide_unpack _). vm_compute. exact I.
  - apply (bool_decide_unpack _). vm_compute. exact I.
  - reflexivity.
  - apply demo_takes_events.
  - destruct Hrun as (_ & _ & _ & _ & E3 & Hp3 & _ & _ & _ & _ & _ & _ & E4 & _).
    exists w2, p3, w3, m4. split; [exact E3|]. split; [rewrite Hp3; reflexivity|exact E4].
Defined.
End Demo.
