(* ===== verification/SingleFlight.v ===== *)
(** * Concurrent update checks

    [check_for_update_singleflight] of [updater/src/lib.rs] runs outside the
    runtime's mutex: threads that ask the same question share one HTTP request.
    The threads, the map [CHECK_FLIGHTS] and the flights are modelled as a step
    relation whose steps are the critical sections of the function; the HTTP
    request may return anything, or panic.  [check_is_run] relates them to
    [Runtime.check_singleflight], the function as one call. *)
From S2P Require Import Prelude Text Flights Net ServerApi Runtime RuntimeProperties.

(** ** State *)
Abbreviation request := Flights.CheckRequest.

(** Where a thread is in the function; [f] is its flight. *)
Inductive thread :=
| Entering (rq : request)
| Leading (rq : request) (f : nat)
| Publishing (rq : request) (f : nat) (o : outcome)
| Removing (rq : request) (f : nat) (o : outcome)
| Waiting (rq : request) (f : nat)
| Finished (rq : request) (o : outcome)
| Unwound (rq : request) (f : nat).

(** A flight is allocated once and never reused: [fl_request] is the key it was
    created for, [fl_result] the slot its condition variable guards. *)
Record CheckFlight := { fl_request : request; fl_result : option outcome }.
Record flights_state := {
  threads : list thread;
  flights : gmap request nat;
  arena : list CheckFlight;
  performed : list (request * outcome);
}.
Definition set_thread (s : flights_state) (i : nat) (t : thread) : list thread := <[i := t]> (threads s).

Inductive step : flights_state → flights_state → Prop :=
(** a thread calls the function *)
| step_call s rq :
    step s {| threads := threads s ++ [Entering rq]; flights := flights s; arena := arena s;
              performed := performed s |}
(** [if let Some(flight) = flights.get(&request)] *)
| step_join s i rq f :
    threads s !! i = Some (Entering rq) → flights s !! rq = Some f →
    step s {| threads := set_thread s i (Waiting rq f); flights := flights s; arena := arena s;
              performed := performed s |}
(** [flights.insert(request.clone(), Arc::clone(&flight))] *)
| step_lead s i rq :
    threads s !! i = Some (Entering rq) → flights s !! rq = None →
    step s {| threads := set_thread s i (Leading rq (length (arena s)));
              flights := <[rq := length (arena s)]> (flights s);
              arena := arena s ++ [{| fl_request := rq; fl_result := None |}];
              performed := performed s |}
(** [perform_check_request(&request)] *)
| step_perform s i rq f o :
    threads s !! i = Some (Leading rq f) →
    step s {| threads := set_thread s i (Publishing rq f o); flights := flights s; arena := arena s;
              performed := performed s ++ [(rq, o)] |}
| step_unwind s i rq f :
    threads s !! i = Some (Leading rq f) →
    step s {| threads := set_thread s i (Unwound rq f); flights := flights s; arena := arena s;
              performed := performed s |}
(** [*slot = Some(result.clone()); flight.ready.notify_all()] *)
| step_publish s i rq f o :
    threads s !! i = Some (Publishing rq f o) →
    step s {| threads := set_thread s i (Removing rq f o); flights := flights s;
              arena := <[f := {| fl_request := rq; fl_result := Some o |}]> (arena s);
              performed := performed s |}
(** [flights.remove(&request)] *)
| step_remove s i rq f o :
    threads s !! i = Some (Removing rq f o) →
    step s {| threads := set_thread s i (Finished rq o); flights := delete rq (flights s);
              arena := arena s; performed := performed s |}
(** the [while slot.is_none()] loop ends *)
| step_wake s i rq f fl o :
    threads s !! i = Some (Waiting rq f) → arena s !! f = Some fl → fl_result fl = Some o →
    step s {| threads := set_thread s i (Finished rq o); flights := flights s; arena := arena s;
              performed := performed s |}.

Definition initial : flights_state := {| threads := []; flights := ∅; arena := []; performed := [] |}.
Definition reachable : flights_state → Prop := rtc step initial.

(** ** Invariant *)
(** The flight a thread leads. *)
Definition leads (t : thread) (rq : request) (f : nat) : Prop :=
  match t with
  | Leading rq' f' | Publishing rq' f' _ | Removing rq' f' _ | Unwound rq' f' => rq' = rq ∧ f' = f
  | _ => False
  end.
(** What a thread's position says about its flight. *)
Definition thread_ok (s : flights_state) (t : thread) : Prop :=
  match t with
  | Entering _ => True
  | Leading rq f | Unwound rq f =>
      flights s !! rq = Some f ∧ arena s !! f = Some {| fl_request := rq; fl_result := None |}
  | Publishing rq f o =>
      flights s !! rq = Some f ∧ arena s !! f = Some {| fl_request := rq; fl_result := None |}
      ∧ (rq, o) ∈ performed s
  | Removing rq f o =>
      flights s !! rq = Some f ∧ arena s !! f = Some {| fl_request := rq; fl_result := Some o |}
      ∧ (rq, o) ∈ performed s
  | Waiting rq f => ∃ fl, arena s !! f = Some fl ∧ fl_request fl = rq
      ∧ (fl_result fl = None → flights s !! rq = Some f)
  | Finished rq o => (rq, o) ∈ performed s
  end.
Record invariant (s : flights_state) : Prop := {
  inv_threads : ∀ i t, threads s !! i = Some t → thread_ok s t;
  inv_leader : ∀ rq f, flights s !! rq = Some f → ∃ i t, threads s !! i = Some t ∧ leads t rq f;
  inv_unique : ∀ i j t u rq f, threads s !! i = Some t → threads s !! j = Some u →
    leads t rq f → leads u rq f → i = j;
  inv_results : ∀ f fl o, arena s !! f = Some fl → fl_result fl = Some o → (fl_request fl, o) ∈ performed s;
}.

Lemma leads_ok s t rq f : thread_ok s t → leads t rq f → flights s !! rq = Some f.
Proof. destruct t; simpl; naive_solver. Qed.
Lemma invariant_initial : invariant initial.
Proof. split; simpl; intros; simplify_map_eq; done. Qed.

Lemma leads_arena s t rq f : thread_ok s t → leads t rq f → ∃ fl, arena s !! f = Some fl ∧ fl_request fl = rq.
Proof. destruct t; simpl; try done; intros Hok [-> ->]; destruct_and!; eauto. Qed.
Lemma invariant_call s rq : invariant s →
  invariant {| threads := threads s ++ [Entering rq]; flights := flights s; arena := arena s;
               performed := performed s |}.
Proof.
  intros [H1 H2 H3 H4]. split; simpl; [| | |done].
  - intros i t. rewrite lookup_snoc_Some. intros [[_ Ht]|[_ <-]]; [by apply (H1 i t)|done].
  - intros q f Hf. destruct (H2 q f Hf) as (i & t & Ht & Hl). exists i, t. split; [|done].
    by apply lookup_app_l_Some.
  - intros i j t u q f. rewrite !lookup_snoc_Some.
    intros [[_ Ht]|[_ <-]] [[_ Hu]|[_ <-]]; try done. by eapply H3.
Qed.

#[global] Instance leads_dec t rq f : Decision (leads t rq f).
Proof. destruct t; simpl; apply _. Defined.

(** Moving thread [i] from [t] to [t']. *)
Lemma invariant_move s i t t' fls ar pf :
  invariant s → threads s !! i = Some t →
  let s' := {| threads := set_thread s i t'; flights := fls; arena := ar; performed := pf |} in
  thread_ok s' t' →
  (∀ j u, j ≠ i → threads s !! j = Some u → thread_ok s u → thread_ok s' u) →
  (∀ rq f, fls !! rq = Some f → leads t' rq f ∨ (flights s !! rq = Some f ∧ ¬ leads t rq f)) →
  (∀ rq f, leads t' rq f → leads t rq f ∨ flights s !! rq ≠ Some f) →
  (∀ f fl o, ar !! f = Some fl → fl_result fl = Some o → (fl_request fl, o) ∈ pf) →
  invariant s'.
Proof.
  intros [H1 H2 H3 H4] Hi s' Hok Hothers Hlead Huniq Hres.
  assert (i < length (threads s))%nat as Hlt by by eapply lookup_lt_Some.
  split; simpl; [| | |done]; unfold set_thread.
  - intros j u [(<- & <- & _)|[Hne Hu]]%list_lookup_insert_Some; [done|].
    eapply Hothers; [done..|]. by eapply H1.
  - intros rq f [Hl|[Hf Hn]]%Hlead.
    + exists i, t'. by rewrite list_lookup_insert_eq.
    + destruct (H2 rq f Hf) as (j & u & Hu & Hl). exists j, u. split; [|done].
      rewrite list_lookup_insert_ne; [done|]. intros ->. by simplify_eq.
  - intros j k u v rq f [(<- & <- & _)|[Hj Hu]]%list_lookup_insert_Some
      [(<- & <- & _)|[Hk Hv]]%list_lookup_insert_Some Hlu Hlv; [done|..].
    + destruct (Huniq _ _ Hlu) as [Hl|Hn]; [by eapply H3|]. destruct Hn.
      apply (leads_ok s v); [by eapply H1|done].
    + destruct (Huniq _ _ Hlv) as [Hl|Hn]; [by eapply H3|]. destruct Hn.
      apply (leads_ok s u); [by eapply H1|done].
    + by eapply H3.
Qed.

(** Publishing and removing leave the flights of the other threads alone: each
    flight has one leader. *)
Lemma publish_others s i j u rq f o ts :
  invariant s → threads s !! i = Some (Publishing rq f o) → j ≠ i → threads s !! j = Some u → thread_ok s u →
  thread_ok {| threads := ts; flights := flights s;
               arena := <[f := {| fl_request := rq; fl_result := Some o |}]> (arena s); performed := performed s |} u.
Proof.
  intros [H1 _ H3 _] Hi Hj Hu Huok. destruct (H1 _ _ Hi) as (Hf & Ha & Hp).
  assert (∀ q g, leads u q g → g ≠ f) as Hother.
  { intros q g Hl ->. destruct (leads_arena _ _ _ _ Huok Hl) as (fl & Hfl & Hq). rewrite Ha in Hfl.
    injection Hfl as <-. simpl in Hq. subst q. apply Hj. by apply (H3 j i u (Publishing rq f o) rq f). }
  destruct u as [| | | |q g| |]; simpl in *; try done;
    try (specialize (Hother _ _ (conj eq_refl eq_refl)); rewrite list_lookup_insert_ne by done; done).
  destruct Huok as (fl & Hfl & Hr & Hn). destruct (decide (g = f)) as [->|Hne].
  - eexists. rewrite list_lookup_insert_eq by (by eapply lookup_lt_Some). simplify_eq. simpl in *.
    split; [done|]. by split.
  - exists fl. by rewrite list_lookup_insert_ne.
Qed.
Lemma remove_others s i j u rq f o ts :
  invariant s → threads s !! i = Some (Removing rq f o) → j ≠ i → threads s !! j = Some u → thread_ok s u →
  thread_ok {| threads := ts; flights := delete rq (flights s); arena := arena s; performed := performed s |} u.
Proof.
  intros [H1 _ H3 _] Hi Hj Hu Huok. destruct (H1 _ _ Hi) as (Hf & Ha & Hp).
  assert (∀ q g, leads u q g → q ≠ rq) as Hother.
  { intros q g Hl ->. pose proof (leads_ok _ _ _ _ Huok Hl). assert (g = f) as -> by congruence.
    apply Hj. by apply (H3 j i u (Removing rq f o) rq f). }
  destruct u as [| | | |q g| |]; simpl in *; try done;
    try (specialize (Hother _ _ (conj eq_refl eq_refl)); rewrite lookup_delete_ne by done; done).
  destruct Huok as (fl & Hfl & Hr & Hn). exists fl. split_and!; [done..|]. intros Hnone.
  specialize (Hn Hnone). rewrite lookup_delete_ne; [done|]. intros <-. assert (g = f) as -> by congruence.
  rewrite Ha in Hfl. injection Hfl as <-. done.
Qed.

Lemma invariant_step s s' : invariant s → step s s' → invariant s'.
Proof.
  intros Hinv Hstep. revert Hinv. destruct Hstep as [s rq|s i rq f Hi Hf|s i rq Hi Hf|s i rq f o Hi|s i rq f Hi|s i rq f o Hi|s i rq f o Hi
    |s i rq f fl o Hi Hfl Ho]; intros Hinv; [by apply invariant_call|..];
    pose proof Hinv as [H1 H2 H3 H4];
    pose proof (H1 _ _ Hi) as Hok; eapply invariant_move; try eassumption; try (by intros; simpl in *; auto).
  - (* join *) simpl. destruct (H2 rq f Hf) as (j & u & Hu & Hl). specialize (H1 _ _ Hu).
    destruct u; simpl in Hl, H1; try done; destruct Hl as [-> ->]; destruct_and!; eauto.
  - (* lead *) simpl. rewrite lookup_insert_eq, lookup_app_r, Nat.sub_diag by done. done.
  - intros j u _ _. assert (∀ q g, flights s !! q = Some g → <[rq := length (arena s)]> (flights s) !! q = Some g) as Hfl.
    { intros q g Hq. by rewrite lookup_insert_ne by congruence. }
    assert (∀ g fl, arena s !! g = Some fl → (arena s ++ [{| fl_request := rq; fl_result := None |}]) !! g = Some fl) as Ha.
    { intros. by apply lookup_app_l_Some. }
    destruct u; simpl; try done; try (intros; destruct_and!; split_and!; auto; fail).
    intros (fl & ? & ? & ?). exists fl. auto.
  - intros q g. rewrite lookup_insert_Some. simpl. naive_solver.
  - simpl. intros q g [<- <-]. right. by rewrite Hf.
  - intros g fl o. rewrite lookup_snoc_Some. intros [[_ Hg]|[_ <-]]; [by eapply H4|done].
  - (* perform *) simpl in *. destruct_and!. split_and!; [done..|set_solver].
  - intros j u _ _. destruct u; simpl; set_solver.
  - simpl. intros q g Hq. destruct (decide (leads (Leading rq f) q g)); auto.
  - simpl. intros. set_solver.
  - (* unwind *) simpl. intros q g Hq. destruct (decide (leads (Leading rq f) q g)); auto.
  - (* publish *) simpl in *. destruct Hok as (Hf & Ha & Hp). split_and!; [done| |done].
    apply list_lookup_insert_eq. by eapply lookup_lt_Some.
  - intros j u Hj Hu. by apply (publish_others s i j).
  - simpl. intros q g Hq. destruct (decide (leads (Publishing rq f o) q g)); auto.
  - simpl in Hok. destruct Hok as (Hf & Ha & Hp). intros g fl o' [(<- & <- & _)|[Hne Hg]]%list_lookup_insert_Some.
    + simpl. by intros [= <-].
    + by eapply H4.
  - (* remove *) simpl in *. tauto.
  - intros j u Hj Hu. by apply (remove_others s i j u rq f o).
  - simpl. intros q g. rewrite lookup_delete_Some. intros [Hne Hq]. right. split; [done|]. intros [? _]. done.
  - (* wake *) simpl. specialize (H4 _ _ _ Hfl Ho). simpl in Hok. destruct Hok as (fl' & ? & <- & _). by simplify_eq.
Qed.
Lemma invariant_reachable s : reachable s → invariant s.
Proof.
  unfold reachable. intros Hr. pose proof invariant_initial as Hinit. revert Hinit.
  induction Hr as [x|x y z Hxy _ IH]; [done|]. intros Hx. by eapply IH, invariant_step.
Qed.

(** ** Progress *)
(** The steps of the threads inside the function. *)
Definition internal (s s' : flights_state) : Prop := step s s' ∧ length (threads s') = length (threads s).
Definition finished (t : thread) : Prop := match t with Finished _ _ => True | _ => False end.
Definition unwound (t : thread) : Prop := match t with Unwound _ _ => True | _ => False end.
(** How many steps a thread has left at most. *)
Definition steps_left (t : thread) : nat :=
  match t with
  | Entering _ => 4
  | Leading _ _ => 3
  | Publishing _ _ _ => 2
  | Removing _ _ _ | Waiting _ _ => 1
  | Finished _ _ | Unwound _ _ => 0
  end.
Definition remaining (s : flights_state) : nat := sum_list (steps_left <$> threads s).

Lemma sum_move (l : list thread) i t t' :
  l !! i = Some t → steps_left t' < steps_left t →
  sum_list (steps_left <$> <[i := t']> l) < sum_list (steps_left <$> l).
Proof.
  revert i. induction l as [|u l IH]; intros [|i] Hi Hlt; [done..| |].
  - injection Hi as ->. by apply Nat.add_lt_mono_r.
  - apply Nat.add_lt_mono_l. by apply IH.
Qed.
Lemma internal_decreases s s' : internal s s' → remaining s' < remaining s.
Proof.
  intros [Hstep Hlen]. unfold remaining. destruct Hstep; simpl in *;
    try (by eapply sum_move; [eassumption|simpl; lia]).
  rewrite length_app in Hlen. simpl in Hlen. lia.
Qed.
Lemma internal_move s i t s' : step s s' → threads s' = set_thread s i t → internal s s'.
Proof. intros Hs Ht. split; [done|]. rewrite Ht. apply length_insert. Qed.

Lemma leader_moves s i t rq f :
  threads s !! i = Some t → leads t rq f → ¬ unwound t → ∃ s', internal s s'.
Proof.
  intros Hi Hl Hu. destruct t as [|q g|q g o|q g o| | |]; simpl in *; try done.
  - eexists. eapply internal_move; [by apply (step_perform s i q g (inl ""%string))|reflexivity].
  - eexists. eapply internal_move; [by eapply step_publish|reflexivity].
  - eexists. eapply internal_move; [by eapply step_remove|reflexivity].
Qed.
Lemma progress s i t :
  invariant s → Forall (λ t, ¬ unwound t) (threads s) →
  threads s !! i = Some t → ¬ finished t → ∃ s', internal s s'.
Proof.
  intros [H1 H2 H3 H4] Hu Hi Hf. rewrite Forall_lookup in Hu.
  destruct t as [q|q g|q g o|q g o|q g|q o|q g].
  - destruct (flights s !! q) as [g|] eqn:E; eexists.
    + eapply internal_move; [by eapply step_join|reflexivity].
    + eapply internal_move; [by eapply step_lead|reflexivity].
  - eapply leader_moves; [done|by split|by eapply Hu].
  - eapply leader_moves; [done|by split|by eapply Hu].
  - eapply leader_moves; [done|by split|by eapply Hu].
  - destruct (H1 _ _ Hi) as (fl & Hfl & Hq & Hn). destruct (fl_result fl) as [o|] eqn:Ho.
    + eexists. eapply internal_move; [by eapply step_wake|reflexivity].
    + destruct (H2 q g (Hn eq_refl)) as (j & u & Hj & Hl). eapply leader_moves; [done..|]. by eapply Hu.
  - by destruct Hf.
  - exfalso. by apply (Hu _ _ Hi).
Qed.

(** ** Properties *)
(** C24: at most one thread leads the flight of a request, so equal questions asked
    at the same time cost one HTTP request; every answer a caller gets is that
    of a request performed for an equal question; and as long as no request
    panicked, the threads in the function can go on until all of them have
    their answer: some step is possible, and each step leaves fewer. *)
Theorem singleflight_shares s :
  reachable s →
  (∀ i j t u rq f g, threads s !! i = Some t → threads s !! j = Some u →
     leads t rq f → leads u rq g → i = j)
  ∧ (∀ i rq o, threads s !! i = Some (Finished rq o) → (rq, o) ∈ performed s)
  ∧ (Forall (λ t, ¬ unwound t) (threads s) →
     (∀ i t, threads s !! i = Some t → ¬ finished t → ∃ s', internal s s')
     ∧ ∀ s', internal s s' → remaining s' < remaining s).
Proof.
  intros Hr%invariant_reachable. split; [|split].
  - intros i j t u rq f g Hi Hj Hl Hm. assert (f = g) as ->.
    { pose proof (leads_ok _ _ _ _ (inv_threads _ Hr _ _ Hi) Hl).
      pose proof (leads_ok _ _ _ _ (inv_threads _ Hr _ _ Hj) Hm). congruence. }
    by eapply (inv_unique _ Hr).
  - intros i rq o Hi. by apply (inv_threads _ Hr _ _ Hi).
  - intros Hu. split; [intros i t; by apply progress|apply internal_decreases].
Qed.

(** A panic while the request is performed leaves its flight in the map for
    ever: whatever happens later, the flight stays without a result and the
    threads that wait for it never wake up. *)
Theorem singleflight_blocks s s' i rq f :
  reachable s → threads s !! i = Some (Unwound rq f) → rtc step s s' →
  flights s' !! rq = Some f ∧ arena s' !! f = Some {| fl_request := rq; fl_result := None |}
  ∧ ∀ j, threads s !! j = Some (Waiting rq f) → threads s' !! j = Some (Waiting rq f).
Proof.
  intros Hr%invariant_reachable Hi Hsteps. revert Hr Hi.
  induction Hsteps as [s|s s1 s2 Hstep _ IH]; intros Hr Hi.
  { destruct (inv_threads _ Hr _ _ Hi) as [Hf Ha]. done. }
  destruct (inv_threads _ Hr _ _ Hi) as [_ Ha].
  assert (threads s1 !! i = Some (Unwound rq f)
    ∧ ∀ j, threads s !! j = Some (Waiting rq f) → threads s1 !! j = Some (Waiting rq f)) as [Hi1 Hw].
  { destruct Hstep; simpl; unfold set_thread;
      [split; intros; by apply lookup_app_l_Some|..];
      (split; [|intros j Hj]; (rewrite list_lookup_insert_ne; [done|]); intros ->; simplify_eq/=). }
  destruct (IH (invariant_step _ _ Hr Hstep) Hi1) as (Hf2 & Ha2 & Hw2). auto.
Qed.

(** ** The function as one call *)
Section Call.
Context `{Net, BodyText, BodyJson CheckResponse}.
(** The steps of a thread that leads its flight to the end. *)
Lemma led_run s rq o : flights s !! rq = None →
  ∃ s', rtc step s s' ∧ threads s' = threads s ++ [Finished rq o] ∧ flights s' = flights s.
Proof.
  intros Hf. set (i := length (threads s)). set (f := length (arena s)).
  assert (∀ t, (threads s ++ [t]) !! i = Some t) as Hi by (intros; unfold i; by rewrite lookup_app_r, Nat.sub_diag by lia).
  assert (∀ t t', <[i:=t']> (threads s ++ [t]) = threads s ++ [t']) as Hset.
  { intros t t'. unfold i. rewrite <- (Nat.add_0_r (length _)) at 1. by rewrite insert_app_r. }
  eexists. split.
  - eapply rtc_l; [apply (step_call s rq)|].
    eapply rtc_l; [eapply (step_lead _ i rq); [apply Hi|exact Hf]|].
    eapply rtc_l; [eapply (step_perform _ i rq f o); cbn; unfold set_thread; cbn; rewrite Hset; apply Hi|].
    eapply rtc_l; [eapply (step_publish _ i rq f o); cbn; unfold set_thread; cbn; rewrite !Hset; apply Hi|].
    eapply rtc_l; [eapply (step_remove _ i rq f o); cbn; unfold set_thread; cbn; rewrite !Hset; apply Hi|]. apply rtc_refl.
  - cbn. unfold set_thread. cbn. rewrite !Hset. split; [done|]. by apply delete_insert_id.
Qed.
Lemma unwound_run s rq : flights s !! rq = None →
  ∃ s', rtc step s s' ∧ threads s' = threads s ++ [Unwound rq (length (arena s))]
    ∧ flights s' = <[rq := length (arena s)]> (flights s).
Proof.
  intros Hf. set (i := length (threads s)). set (f := length (arena s)).
  assert (∀ t, (threads s ++ [t]) !! i = Some t) as Hi by (intros; unfold i; by rewrite lookup_app_r, Nat.sub_diag by lia).
  assert (∀ t t', <[i:=t']> (threads s ++ [t]) = threads s ++ [t']) as Hset.
  { intros t t'. unfold i. rewrite <- (Nat.add_0_r (length _)) at 1. by rewrite insert_app_r. }
  eexists. split.
  - eapply rtc_l; [apply (step_call s rq)|].
    eapply rtc_l; [eapply (step_lead _ i rq); [apply Hi|exact Hf]|].
    eapply rtc_l; [eapply (step_unwind _ i rq f); cbn; unfold set_thread; cbn; rewrite Hset; apply Hi|]. apply rtc_refl.
  - cbn. unfold set_thread. cbn. by rewrite !Hset.
Qed.
(** [Runtime.check_singleflight] run without a flight under way is a run of one
    new thread: it ends with the answer, or unwound, and its flight then stays in
    the map on both sides. *)
Lemma check_is_run s rq m result m' :
  flights s !! rq = None → m_flights m !! rq = None → check_singleflight rq m = (result, m') →
  ∃ t s', rtc step s s' ∧ threads s' = threads s ++ [t] ∧
    match result with
    | Ok answer => ∃ response, answer = Some response ∧ t = Finished rq (inr response) ∧ flights s' = flights s
    | Err e => ∃ text, e = Message text ∧ t = Finished rq (inl text) ∧ flights s' = flights s
    | Panic _ => t = Unwound rq (length (arena s)) ∧ is_Some (flights s' !! rq) ∧ m_flights m' !! rq = Some None
    end.
Proof.
  intros Hs Hm. unfold check_singleflight. rewrite Hm. destruct (as_message _ _) as [r m1] eqn:E.
  destruct r as [response|e|msg]; intros [= <- <-].
  - destruct (led_run s rq (inr response) Hs) as (s' & ? & ? & ?). exists (Finished rq (inr response)), s'. eauto 6.
  - unfold as_message in E. destruct (perform_check_request _ _) as [[|e'|] m2]; [done| |done].
    injection E as <- <-. destruct (led_run s rq (inl (error_to_string e')) Hs) as (s' & ? & ? & ?). eauto 10.
  - destruct (unwound_run s rq Hs) as (s' & ? & Ht & Hf). do 2 eexists. split; [done|]. split; [exact Ht|].
    split; [done|]. split; [rewrite Hf, lookup_insert_eq; by eexists|].
    apply (act_touches_flights (λ _, True)) in E; [|apply act_touches_perform]. rewrite E. cbn. apply lookup_insert_eq.
Qed.
End Call.

(** ** Witnesses *)
Definition demo_request : request := Flights.Build_CheckRequest "http://h" None "app" "1" "android" "arm64" "stable" 0 "c".
(** One thread leads, another one waits for it. *)
Definition demo_shared : flights_state := {|
  threads := [Leading demo_request 0; Waiting demo_request 0]; flights := {[ demo_request := 0 ]};
  arena := [{| fl_request := demo_request; fl_result := None |}]; performed := [] |}.
(** The leader has panicked. *)
Definition demo_blocked : flights_state := {|
  threads := [Unwound demo_request 0; Waiting demo_request 0]; flights := {[ demo_request := 0 ]};
  arena := [{| fl_request := demo_request; fl_result := None |}]; performed := [] |}.

Lemma demo_shared_reachable : reachable demo_shared.
Proof.
  eapply rtc_l; [apply (step_call initial demo_request)|].
  eapply rtc_l; [eapply (step_lead _ 0 demo_request); reflexivity|].
  eapply rtc_l; [apply (step_call _ demo_request)|].
  eapply rtc_l; [eapply (step_join _ 1 demo_request 0); reflexivity|]. apply rtc_refl.
Qed.
Lemma demo_blocked_reachable : reachable demo_blocked.
Proof.
  eapply rtc_r; [apply demo_shared_reachable|]. exact (step_unwind demo_shared 0 demo_request 0 eq_refl).
Qed.

Lemma singleflight_shares_witness : ∃ s', internal demo_shared s' ∧ remaining s' < remaining demo_shared.
Proof.
  destruct (singleflight_shares demo_shared demo_shared_reachable) as (_ & _ & H).
  destruct H as [Hp Hd]; [repeat constructor; intros []|].
  destruct (Hp 1 (Waiting demo_request 0) eq_refl) as [s' Hs']; [intros []|]. exists s'. split; [exact Hs'|].
  exact (Hd s' Hs').
Defined.
Lemma singleflight_blocks_witness :
  threads demo_blocked !! 1 = Some (Waiting demo_request 0) ∧ flights demo_blocked !! demo_request = Some 0.
Proof.
  destruct (singleflight_blocks demo_blocked demo_blocked 0 demo_request 0 demo_blocked_reachable eq_refl
    (rtc_refl _ _)) as (Hf & _ & Hw). split; [exact (Hw 1 eq_refl)|exact Hf].
Defined.
