(* ===== verification/Shell.v ===== *)
(** * The command line's surroundings

    What [cli/src] sees besides files and the server: its environment variables,
    working directory and other processes, the console, and paths as the texts
    they are written with.  A command of the CLI is a computation in [Cli], which
    adds the processes started, the lines printed and the random values drawn to
    the machine of [Net]. *)
From S2P Require Import Prelude Text External Manifest World Flights Net.
Local Open Scope N_scope.

(** ** Environment *)
Record Environment := {
  env_var : string → option string;
  env_current_dir : path;
  env_current_exe : option string;
  env_temp_dir : string;
  (** [cfg!(target_os = "macos")] and the cargo feature. *)
  env_macos : bool;
  env_snapshot_replace : bool;
}.
(** [std::env::set_var]. *)
Definition set_var (env : Environment) (key value : string) : Environment := {|
  env_var k := if String.eqb k key then Some value else env_var env k;
  env_current_dir := env_current_dir env; env_current_exe := env_current_exe env;
  env_temp_dir := env_temp_dir env; env_macos := env_macos env;
  env_snapshot_replace := env_snapshot_replace env;
|}.

(** ** Processes *)
Record Command := {
  cmd_program : string; cmd_dir : option string; cmd_args : list string;
  cmd_env : list (string * string);
}.
Record Output := {
  success : bool; exit_status : string; stdout : list byte; stderr : list byte;
}.
(** What a program does to the files and answers, after the commands already
    run; [inl] when it cannot be started. *)
Class Processes := run_process : list Command → Command → FS → (string + Output) * FS.

(** [String::from_utf8_lossy]: each maximal part of an invalid sequence becomes
    U+FFFD. *)
Definition replacement : list byte := [xef; xbf; xbd].
Definition second_of_3 (a b : byte) : bool :=
  if in_range 224 224 a then in_range 160 191 b
  else if in_range 237 237 a then in_range 128 159 b
  else cont_byte b.
Definition second_of_4 (a b : byte) : bool :=
  if in_range 240 240 a then in_range 144 191 b
  else if in_range 244 244 a then in_range 128 143 b
  else cont_byte b.
Fixpoint utf8_lossy (bs : list byte) : list byte :=
  match bs with
  | [] => []
  | a :: l =>
    if in_range 0 127 a then a :: utf8_lossy l else
    match l with
    | [] => replacement
    | b :: l2 =>
      if in_range 194 223 a then
        if cont_byte b then a :: b :: utf8_lossy l2 else replacement ++ utf8_lossy l
      else if in_range 224 239 a then
        if second_of_3 a b then
          match l2 with
          | c :: l3 => if cont_byte c then a :: b :: c :: utf8_lossy l3 else replacement ++ utf8_lossy l2
          | [] => replacement
          end
        else replacement ++ utf8_lossy l
      else if in_range 240 244 a then
        if second_of_4 a b then
          match l2 with
          | c :: l3 =>
            if cont_byte c then
              match l3 with
              | d :: l4 =>
                if cont_byte d then a :: b :: c :: d :: utf8_lossy l4 else replacement ++ utf8_lossy l3
              | [] => replacement
              end
            else replacement ++ utf8_lossy l2
          | [] => replacement
          end
        else replacement ++ utf8_lossy l
      else replacement ++ utf8_lossy l
    end
  end.
Definition from_utf8_lossy (bs : list byte) : string := str_of_bytes (utf8_lossy bs).
(** [Path::to_string_lossy] and [OsStr::to_string_lossy]: names are bytes. *)
Definition to_string_lossy (s : string) : string := from_utf8_lossy (str_bytes s).

(** Text stays as it is, and names that are not text may become the same. *)
Lemma utf8_lossy_app a b : utf8_valid a = true → utf8_lossy (a ++ b) = a ++ utf8_lossy b.
Proof.
  intros Ha. remember (length a) as n eqn:Hn. revert a Hn Ha.
  induction (lt_wf n) as [n _ IH]; intros a -> Ha.
  destruct a as [|w a]; [done|]. simpl in Ha |- *.
  destruct (in_range 0 127 w); [f_equal; eapply IH; [|done..]; simpl; lia|].
  destruct a as [|x a]; [done|]. simpl in *.
  destruct (in_range 194 223 w).
  { apply andb_true_iff in Ha as [Hx Ha]. rewrite Hx. do 2 f_equal. eapply IH; [|done..]; simpl; lia. }
  destruct a as [|y a]; [done|]. simpl in *. fold (second_of_3 w x) in Ha.
  destruct (in_range 224 239 w).
  { rewrite !andb_true_iff in Ha. destruct Ha as [[Hy Ha] Hx]. rewrite Hy, Hx.
    do 3 f_equal. eapply IH; [|done..]; simpl; lia. }
  destruct a as [|z a]; [done|]. simpl in *. fold (second_of_4 w x) in Ha.
  rewrite !andb_true_iff in Ha. destruct Ha as [[[[Hw Hy] Hz] Ha] Hx].
  rewrite Hw, Hy, Hz, Hx. do 4 f_equal. eapply IH; [|done..]; simpl; lia.
Qed.
Lemma to_string_lossy_id s : utf8_valid (str_bytes s) = true → to_string_lossy s = s.
Proof.
  intros Hs. unfold to_string_lossy, from_utf8_lossy. rewrite <- (app_nil_r (str_bytes s)), utf8_lossy_app by done.
  cbn. by rewrite app_nil_r, str_of_str_bytes.
Qed.
(** An ASCII character of the result is one of the name. *)
Lemma utf8_lossy_ascii bs c out :
  in_range 0 127 c = true → utf8_lossy bs = c :: out → ∃ rest, bs = c :: rest ∧ out = utf8_lossy rest.
Proof.
  intros Hc E. destruct bs as [|a l]; [done|]. cbn [utf8_lossy] in E.
  destruct (in_range 0 127 a) eqn:Ha; [injection E as <- <-; eauto|].
  unfold replacement in E. repeat case_match; simplify_eq/=; first [congruence|by vm_compute in Hc].
Qed.
Example lossy_names_meet :
  to_string_lossy (str_of_bytes [xff]) = to_string_lossy (str_of_bytes [xfe])
  ∧ to_string_lossy (str_of_bytes [x61; xe2; x82; x2f]) = str_of_bytes ([x61] ++ replacement ++ [x2f]).
Proof. by vm_compute. Qed.

(** ** The running command *)
Record Shell := mk_shell {
  sh_machine : Machine;
  sh_commands : list Command;
  sh_out : list string;
  sh_err : list string;
  (** What [Uuid::new_v4] and the random source will return. *)
  sh_uuids : list string;
  sh_seeds : list (list byte);
}.
Definition Cli (A : Type) : Type := Shell → result A * Shell.
#[global] Instance cli_ret : MRet Cli := λ A a s, (Ok a, s).
#[global] Instance cli_bind : MBind Cli := λ A B f x s,
  match x s with
  | (Ok a, s') => f a s'
  | (Err e, s') => (Err e, s')
  | (Panic m, s') => (Panic m, s')
  end.
Definition cli_lift {A} (r : result A) : Cli A := λ s, (r, s).
Definition cli_err {A} (message : string) : Cli A := cli_lift (err message).
Definition with_machine (s : Shell) (m : Machine) : Shell :=
  mk_shell m (sh_commands s) (sh_out s) (sh_err s) (sh_uuids s) (sh_seeds s).
(** Requests, and files. *)
Definition net {A} (x : Act A) : Cli A := λ s,
  let '(r, m) := x (sh_machine s) in (r, with_machine s m).
Definition io {A} (x : IO A) : Cli A := net (sys x).
(** [match x { Ok(a) => .., Err(e) => .. }]. *)
Definition cli_try {A} (x : Cli A) : Cli (error + A) := λ s,
  match x s with
  | (Ok a, s') => (Ok (inr a), s')
  | (Err e, s') => (Ok (inl e), s')
  | (Panic m, s') => (Panic m, s')
  end.
(** [for a in l { ...?; }]. *)
Fixpoint cli_for_each {A} (f : A → Cli unit) (l : list A) : Cli unit :=
  match l with
  | [] => mret tt
  | a :: l => _ ← f a; cli_for_each f l
  end.

Definition println (line : string) : Cli unit := λ s,
  (Ok tt, mk_shell (sh_machine s) (sh_commands s) (sh_out s ++ [line]) (sh_err s) (sh_uuids s) (sh_seeds s)).
(** [eprintln!] and [eprint!]. *)
Definition eprintln (line : string) : Cli unit := λ s,
  (Ok tt, mk_shell (sh_machine s) (sh_commands s) (sh_out s) (sh_err s ++ [line]) (sh_uuids s) (sh_seeds s)).
Definition new_uuid : Cli string := λ s,
  let '(u, l) := match sh_uuids s with
    | [] => ("00000000-0000-4000-8000-000000000000"%string, []) | u :: l => (u, l) end in
  (Ok u, mk_shell (sh_machine s) (sh_commands s) (sh_out s) (sh_err s) l (sh_seeds s)).
Definition random_seed : Cli (list byte) := λ s,
  let '(b, l) := match sh_seeds s with [] => (replicate 32 x00, []) | b :: l => (b, l) end in
  (Ok b, mk_shell (sh_machine s) (sh_commands s) (sh_out s) (sh_err s) (sh_uuids s) l).

(** [command.output()]. *)
Definition process_output `{Processes} (c : Command) : Cli Output := λ s,
  let w := m_world (sh_machine s) in
  let '(r, fs) := run_process (sh_commands s) c (w_fs w) in
  (match r with inl e => Err (Io e) | inr o => Ok o end,
   mk_shell (with_world (sh_machine s) (with_fs w fs)) (sh_commands s ++ [c]) (sh_out s) (sh_err s)
     (sh_uuids s) (sh_seeds s)).
(** [command.status()]: the program prints on the console itself. *)
Definition process_status `{Processes} (c : Command) : Cli (bool * string) :=
  o ← process_output c; mret (success o, exit_status o).

(** ** Paths as texts *)
(** The components of [p] behind a root, with empty ones; a [.] counts only at
    the start of a relative path. *)
Definition is_absolute (p : string) : bool := starts_with "/" p.
Definition segments (p : string) : list string :=
  split slash (default p (strip_prefix "/" p)).
Fixpoint drop_trivial (absolute : bool) (reversed : list string) : list string :=
  match reversed with
  | [] => []
  | seg :: rest =>
    if is_empty seg || (String.eqb seg "." && (absolute || negb (bool_decide (rest = []))))
    then drop_trivial absolute rest else seg :: rest
  end.
Definition as_path (absolute : bool) (reversed : list string) : string :=
  (if absolute then "/" else "") +:+ join "/" (reverse (drop_trivial absolute reversed)).
(** [p.parent()]. *)
Definition path_parent (p : string) : option string :=
  let absolute := is_absolute p in
  match drop_trivial absolute (reverse (segments p)) with
  | [] => None
  | _ :: rest => Some (as_path absolute rest)
  end.
(** [p.ancestors()]; a parent is shorter, so the length of [p] bounds them. *)
Fixpoint path_ancestors (fuel : nat) (p : string) : list string :=
  p :: match fuel, path_parent p with
       | S fuel, Some q => path_ancestors fuel q
       | _, _ => []
       end.
(** [p.components()], the root as ["/"]. *)
Definition components (p : string) : list string :=
  foldl (λ acc seg,
    if is_empty seg || (String.eqb seg "." && negb (bool_decide (acc = []))) then acc else acc ++ [seg])
    (if is_absolute p then ["/"%string] else []) (segments p).
(** The segments behind the first [n] components; [start] while a [.] counts. *)
Fixpoint drop_components (start : bool) (n : nat) (segs : list string) : list string :=
  match segs with
  | [] => []
  | seg :: rest =>
    if is_empty seg || (String.eqb seg "." && negb start) then drop_components start n rest
    else match n with O => segs | S n => drop_components false n rest end
  end.
(** [p.strip_prefix(base)]. *)
Definition path_strip_prefix (p base : string) : option string :=
  let absolute := is_absolute p in
  let base := components base in
  if bool_decide (base `prefix_of` components p) then
    if bool_decide (base = []) then Some (as_path absolute (reverse (segments p)))
    else
      let n := if absolute then (length base - 1)%nat else length base in
      Some (as_path false (reverse (drop_components (negb absolute) n (segments p))))
  else None.
(** [p.join(a).join(b)...]. *)
Definition joins (p : string) (l : list string) : string := foldl join_text p l.

Example path_tests :
  (path_parent "fcb.yaml" = Some "" ∧ path_parent "/a//b/./" = Some "/a" ∧ path_parent "/" = None
   ∧ path_parent "./a" = Some "." ∧ path_parent "" = None
   ∧ path_ancestors 9 "/a/b" = ["/a/b"; "/a"; "/"]
   ∧ components "./a/./b" = ["."; "a"; "b"] ∧ path_strip_prefix "/k//x//y/" "/k" = Some "x//y"
   ∧ path_strip_prefix "keys/a" "" = Some "keys/a" ∧ path_strip_prefix "/a/b" "b" = None)%string.
Proof. by vm_compute. Qed.

(** ** Files named by texts *)
(** [fs::metadata]: [false] when the call fails. *)
Definition fs_is_dir (p : path) : IO bool := stat_call false (λ fs, is_dir fs p).
Definition fs_is_file (p : path) : IO bool :=
  stat_call false (λ fs, match fs !! p with Some (File _) => true | _ => false end).
(** [fs::set_permissions]; file modes are not part of the machine. *)
Definition fs_set_permissions (p : path) : IO unit := io_call (λ f fs,
  match f with
  | Some f => (inl (fault_error f), fs)
  | None => if bool_decide (is_Some (fs !! p)) then (inr tt, fs)
            else (inl "No such file or directory"%string, fs)
  end).
(** The names in a directory. *)
Definition children (fs : FS) (p : path) : list string :=
  omap (λ kv, if bool_decide (parent kv.1 = Some p) then file_name kv.1 else None) (map_to_list fs).
Definition fs_open_dir (p : path) : IO unit := io_call (λ f fs,
  match f with
  | Some f => (inl (fault_error f), fs)
  | None => if is_dir fs p then (inr tt, fs)
            else (inl (if bool_decide (is_Some (fs !! p)) then "Not a directory"
                       else "No such file or directory")%string, fs)
  end).
(** The operating system lists a directory in the order it likes; a failing
    read ends the listing with the error. *)
Class DirOrder := dir_order : path → list string → list string.
Class DirOrderLaws `{DirOrder} : Prop := dir_order_perm p l : dir_order p l ≡ₚ l.
Definition fs_list_dir `{DirOrder} (p : path) : IO (list (string + string)) := io_call (λ f fs,
  let names := inr <$> dir_order p (children fs p) in
  match f with
  | Some f => (inr (take (N.to_nat (fault_progress f)) names ++ [inl (fault_error f)]), fs)
  | None => (inr names, fs)
  end).
Definition fs_read_dir `{DirOrder} (p : path) : IO (list (string + string)) :=
  _ ← fs_open_dir p; fs_list_dir p.

Section Files.
Variable env : Environment.
Definition resolve (p : string) : path := join_rel (env_current_dir env) p.
(** The empty path names nothing. *)
Definition at_path {A} (f : path → IO A) (p : string) : IO A :=
  if is_empty p then io_lift (Err (Io "No such file or directory")) else f (resolve p).
Definition path_exists (p : string) : Cli bool :=
  if is_empty p then mret false else io (fs_exists (resolve p)).
Definition path_is_dir (p : string) : Cli bool :=
  if is_empty p then mret false else io (fs_is_dir (resolve p)).
Definition path_is_file (p : string) : Cli bool :=
  if is_empty p then mret false else io (fs_is_file (resolve p)).
Definition read_file (p : string) : Cli (list byte) := io (at_path fs_read p).
Definition read_text (p : string) : Cli string := io (at_path fs_read_to_string p).
Definition write_bytes (p : string) (bytes : list byte) : Cli unit := io (at_path (λ q, fs_write q bytes) p).
Definition create_dirs (p : string) : Cli unit :=
  if is_empty p then mret tt else io (fs_create_dir_all (resolve p)).
(** [let _ = fs::remove_dir_all(p);]. *)
Definition remove_dir_quietly (p : string) : Cli unit :=
  _ ← io (io_ok (at_path fs_remove_dir_all p)); mret tt.
Definition read_json_file {A} `{Serde A} (p : string) : Cli A := io (at_path read_json p).
Definition write_json_file {A} `{Serde A} (p : string) (a : A) : Cli unit :=
  io (at_path (λ q, write_json q a) p).
(** [candidates.into_iter().find(|path| path.exists())]. *)
Fixpoint find_existing (candidates : list string) : Cli (option string) :=
  match candidates with
  | [] => mret None
  | p :: l => e ← path_exists p; if (e : bool) then mret (Some p) else find_existing l
  end.
(** [serde_json::to_string_pretty]. *)
Definition to_string_pretty {A} `{Serde A} (a : A) : result string :=
  str_of_bytes <$> map_err Json (to_vec_pretty a).

(** [expand_home] and [resolve_path], the same in [main.rs] and [auto.rs]. *)
Definition expand_home (p : string) : string :=
  let value := to_string_lossy p in
  if String.eqb value "~" then default p (env_var env "HOME")
  else
    match strip_prefix "~/" value with
    | Some rest => match env_var env "HOME" with Some home => join_text home rest | None => p end
    | None => p
    end.
Definition resolve_path (config_dir p : string) : string :=
  let expanded := expand_home p in
  if is_absolute expanded then expanded else join_text config_dir expanded.
End Files.

(** ** Facts *)
Definition fs_of (s : Shell) : FS := w_fs (m_world (sh_machine s)).
Lemma cli_bind_ok {A B} (x : Cli A) (f : A → Cli B) s b s' :
  (x ≫= f) s = (Ok b, s') ↔ ∃ a s1, x s = (Ok a, s1) ∧ f a s1 = (Ok b, s').
Proof.
  unfold mbind, cli_bind. split.
  - destruct (x s) as [[a|e|m] s1]; [eauto|discriminate..].
  - by intros (a & s1 & -> & ->).
Qed.
(** A failure is handed on as it is. *)
Definition stopped {A B} (r : result A) (r' : result B) : Prop :=
  match r, r' with Err e, Err e' => e = e' | Panic m, Panic m' => m = m' | _, _ => False end.
Lemma cli_bind_inv {A B} (x : Cli A) (f : A → Cli B) s r s' :
  (x ≫= f) s = (r, s') →
  (∃ a s1, x s = (Ok a, s1) ∧ f a s1 = (r, s')) ∨ ∃ r1, x s = (r1, s') ∧ stopped r1 r.
Proof.
  unfold mbind, cli_bind. destruct (x s) as [[a|e|m] s1]; [eauto|intros [= <- <-]; right; by eexists..].
Qed.
Lemma cli_bind_run {A B} (x : Cli A) (f : A → Cli B) s a s1 :
  x s = (Ok a, s1) → (x ≫= f) s = f a s1.
Proof. unfold mbind, cli_bind. by intros ->. Qed.
Lemma cli_lift_ok {A} (r : result A) s a s' : cli_lift r s = (Ok a, s') ↔ r = Ok a ∧ s' = s.
Proof. unfold cli_lift. naive_solver. Qed.
Lemma io_inv {A} (x : IO A) s r s' :
  io x s = (r, s') → ∃ w', x (m_world (sh_machine s)) = (r, w')
    ∧ s' = with_machine s (with_world (sh_machine s) w').
Proof.
  unfold io, net, sys. destruct (x (m_world (sh_machine s))) as [r0 w0]. intros [= <- <-]. eauto.
Qed.
Lemma io_fs {A} (x : IO A) s : fs_of (io x s).2 = w_fs (x (m_world (sh_machine s))).2.
Proof. unfold io, net, sys, fs_of. by destruct (x (m_world (sh_machine s))). Qed.

(** *** Computations that never panic *)
Definition cli_no_panic {A} (x : Cli A) : Prop := ∀ s, no_panic (x s).1.
Lemma cli_no_panic_ret {A} (a : A) : cli_no_panic (mret a).
Proof. by intros s. Qed.
Lemma cli_no_panic_lift {A} (r : result A) : no_panic r → cli_no_panic (cli_lift r).
Proof. by intros ? s. Qed.
Lemma cli_no_panic_err {A} m : cli_no_panic (cli_err (A:=A) m).
Proof. by intros s. Qed.
Lemma cli_no_panic_bind {A B} (x : Cli A) (f : A → Cli B) :
  cli_no_panic x → (∀ a, cli_no_panic (f a)) → cli_no_panic (x ≫= f).
Proof.
  intros Hx Hf s. unfold mbind, cli_bind. specialize (Hx s).
  destruct (x s) as [[a|e|m] s']; [apply Hf|intros t; discriminate|by destruct (Hx m)].
Qed.
Lemma cli_no_panic_net {A} (x : Act A) : act_no_panic x → cli_no_panic (net x).
Proof. intros Hx s. unfold net. specialize (Hx (sh_machine s)). by destruct (x (sh_machine s)). Qed.
Lemma cli_no_panic_io {A} (x : IO A) : io_no_panic x → cli_no_panic (io x).
Proof. intros Hx. by apply cli_no_panic_net, act_no_panic_sys. Qed.
Lemma cli_no_panic_try {A} (x : Cli A) : cli_no_panic x → cli_no_panic (cli_try x).
Proof. intros Hx s. unfold cli_try. specialize (Hx s). destruct (x s) as [[|?|m] ?]; [by intros ?..|by destruct (Hx m)]. Qed.
Lemma cli_no_panic_for_each {A} (f : A → Cli unit) l : (∀ a, cli_no_panic (f a)) → cli_no_panic (cli_for_each f l).
Proof. intros Hf. induction l; simpl; [apply cli_no_panic_ret|]. by apply cli_no_panic_bind. Qed.
Lemma cli_no_panic_println m : cli_no_panic (println m).
Proof. by intros s. Qed.
Lemma cli_no_panic_eprintln m : cli_no_panic (eprintln m).
Proof. by intros s. Qed.
Lemma cli_no_panic_uuid : cli_no_panic new_uuid.
Proof. intros s. unfold new_uuid. by destruct (sh_uuids s). Qed.
Lemma cli_no_panic_seed : cli_no_panic random_seed.
Proof. intros s. unfold random_seed. by destruct (sh_seeds s). Qed.
Lemma cli_no_panic_process `{Processes} c : cli_no_panic (process_output c).
Proof. intros s. unfold process_output. by destruct (run_process _ _ _) as [[e|o] fs]. Qed.
Lemma io_no_panic_is_dir p : io_no_panic (fs_is_dir p).
Proof. by intros w. Qed.
Lemma io_no_panic_is_file p : io_no_panic (fs_is_file p).
Proof. by intros w. Qed.
Lemma io_no_panic_at {A} env (f : path → IO A) p : (∀ q, io_no_panic (f q)) → io_no_panic (at_path env f p).
Proof. intros Hf. unfold at_path. destruct (is_empty p); [by intros w|auto]. Qed.
Lemma cli_no_panic_exists env p : cli_no_panic (path_exists env p).
Proof. intros s. unfold path_exists. by destruct (is_empty p). Qed.
Lemma cli_no_panic_is_file env p : cli_no_panic (path_is_file env p).
Proof. intros s. unfold path_is_file. by destruct (is_empty p). Qed.
Lemma cli_no_panic_create_dirs env p : cli_no_panic (create_dirs env p).
Proof.
  unfold create_dirs. destruct (is_empty p); [by intros s|]. apply cli_no_panic_io, io_no_panic_call.
Qed.
Lemma cli_no_panic_read_file env p : cli_no_panic (read_file env p).
Proof. apply cli_no_panic_io, io_no_panic_at. intros q. apply io_no_panic_call. Qed.
Lemma cli_no_panic_read_text env p : cli_no_panic (read_text env p).
Proof. apply cli_no_panic_io, io_no_panic_at. intros q. apply io_no_panic_read_to_string. Qed.
Lemma cli_no_panic_write env p bs : cli_no_panic (write_bytes env p bs).
Proof. apply cli_no_panic_io, io_no_panic_at. intros q. apply io_no_panic_write. Qed.
Lemma cli_no_panic_remove_dir env p : cli_no_panic (remove_dir_quietly env p).
Proof.
  apply cli_no_panic_bind; [|intros; apply cli_no_panic_ret].
  apply cli_no_panic_io, io_no_panic_ok, io_no_panic_at. intros q. apply io_no_panic_call.
Qed.
Lemma cli_no_panic_find env l : cli_no_panic (find_existing env l).
Proof.
  induction l as [|p l IH]; simpl; [apply cli_no_panic_ret|].
  apply cli_no_panic_bind; [apply cli_no_panic_exists|]. intros []; [apply cli_no_panic_ret|done].
Qed.
#[export] Hint Resolve cli_no_panic_ret cli_no_panic_lift cli_no_panic_err cli_no_panic_net cli_no_panic_io
  cli_no_panic_try cli_no_panic_println cli_no_panic_eprintln cli_no_panic_uuid cli_no_panic_seed
  cli_no_panic_process io_no_panic_is_dir io_no_panic_is_file cli_no_panic_exists cli_no_panic_is_file
  cli_no_panic_create_dirs cli_no_panic_read_file cli_no_panic_read_text cli_no_panic_write
  cli_no_panic_remove_dir cli_no_panic_find cli_no_panic_for_each : fcb.
Ltac cli_no_panic_tac :=
  repeat first
    [ apply cli_no_panic_bind; [|intros ?]
    | progress auto with fcb
    | match goal with |- cli_no_panic (match ?x with _ => _ end) => destruct x end ].

(** ** Relations between shells that commands respect *)
Definition moves {A} (R : relation Shell) (x : Cli A) : Prop := ∀ s, R s (x s).2.
Lemma moves_run {A} R (x : Cli A) s r s' : moves R x → x s = (r, s') → R s s'.
Proof. intros Hx E. specialize (Hx s). by rewrite E in Hx. Qed.
Section Moves.
Context {R : relation Shell} `{!PreOrder R}.
Lemma moves_ret {A} (a : A) : moves R (mret a).
Proof. by intros s. Qed.
Lemma moves_lift {A} (r : result A) : moves R (cli_lift r).
Proof. by intros s. Qed.
Lemma moves_err {A} m : moves R (cli_err (A:=A) m).
Proof. by intros s. Qed.
Lemma moves_bind {A B} (x : Cli A) (f : A → Cli B) : moves R x → (∀ a, moves R (f a)) → moves R (x ≫= f).
Proof.
  intros Hx Hf s. unfold mbind, cli_bind. specialize (Hx s).
  destruct (x s) as [[a|e|m] s1]; [|done..]. etrans; [exact Hx|apply Hf].
Qed.
Lemma moves_try {A} (x : Cli A) : moves R x → moves R (cli_try x).
Proof. intros Hx s. unfold cli_try. specialize (Hx s). by destruct (x s) as [[] ?]. Qed.
Lemma moves_for_each {A} (f : A → Cli unit) l : (∀ a, moves R (f a)) → moves R (cli_for_each f l).
Proof. intros Hf. induction l; simpl; [apply moves_ret|]. by apply moves_bind. Qed.
End Moves.
#[export] Hint Extern 0 (PreOrder _) => apply _ : fcb.

(** Relations that only the network, programs and changes to files can break. *)
Class Quiet (R : relation Shell) : Prop := {
  #[global] quiet_preorder :: PreOrder R;
  quiet_console s out err : R s (mk_shell (sh_machine s) (sh_commands s) out err (sh_uuids s) (sh_seeds s));
  quiet_reads {A} (x : IO A) : touches (λ _, False) x → moves R (io x) }.
(** Programs keep to [R]. *)
Class Runs `{Processes} (R : relation Shell) : Prop := runs_program c : moves R (process_output c).
(** So do making directories, and writing and removing at the places of [W]. *)
Class Writes (env : Environment) (R : relation Shell) (W : string → Prop) : Prop := {
  writes_dirs p : moves R (create_dirs env p);
  writes_bytes p bs : W p → moves R (write_bytes env p bs);
  writes_json {A} `{Serde A} p (a : A) : W p → moves R (write_json_file env p a);
  writes_remove p : W p → moves R (remove_dir_quietly env p) }.
(** Drawing a name, and going on with one of [N]. *)
Class Names (R : relation Shell) (N : string → Prop) : Prop :=
  names_new : ∀ B (f : string → Cli B), (∀ id, N id → moves R (f id)) → moves R (new_uuid ≫= f).
(** Drawing names and seeds. *)
Class Draws (R : relation Shell) : Prop := { draws_uuid : moves R new_uuid; draws_seed : moves R random_seed }.
#[export] Hint Extern 0 (Draws _) => apply _ : fcb.
#[export] Hint Extern 0 (Quiet _) => apply _ : fcb.
#[export] Hint Extern 0 (Runs _) => apply _ : fcb.

Lemma at_path_touches {A} S env (f : path → IO A) p : (∀ q, touches S (f q)) → touches S (at_path env f p).
Proof. intros Hf. unfold at_path. destruct (is_empty p); [apply touches_lift|auto]. Qed.
Lemma touches_open_dir S p : touches S (fs_open_dir p).
Proof. apply touches_call. intros [f|] fs q _; [done|]. by destruct (is_dir fs p). Qed.
Lemma touches_list_dir `{DirOrder} S p : touches S (fs_list_dir p).
Proof. apply touches_call. by intros [f|] fs q _. Qed.
Lemma touches_read_dir `{DirOrder} S p : touches S (fs_read_dir p).
Proof. apply touches_bind; [apply touches_open_dir|]. intros. apply touches_list_dir. Qed.
Lemma touches_is_file S p : touches S (fs_is_file p).
Proof. apply touches_stat_call. Qed.
Lemma touches_is_dir S p : touches S (fs_is_dir p).
Proof. apply touches_stat_call. Qed.
#[export] Hint Resolve touches_read_dir touches_is_file touches_is_dir : fcb.
Lemma touches_set_permissions S p : touches S (fs_set_permissions p).
Proof. apply touches_call. intros [f|] fs q _; simpl; [done|]. by destruct (bool_decide _). Qed.
Section Reading.
Context {R : relation Shell} `{!Quiet R}.
Variable env : Environment.
Lemma moves_println m : moves R (println m).
Proof. intros s. apply quiet_console. Qed.
Lemma moves_eprintln m : moves R (eprintln m).
Proof. intros s. apply quiet_console. Qed.
Lemma moves_exists p : moves R (path_exists env p).
Proof. unfold path_exists. destruct (is_empty p); [apply moves_ret|apply quiet_reads, touches_exists]. Qed.
Lemma moves_is_dir p : moves R (path_is_dir env p).
Proof. unfold path_is_dir. destruct (is_empty p); [apply moves_ret|apply quiet_reads, touches_is_dir]. Qed.
Lemma moves_is_file p : moves R (path_is_file env p).
Proof. unfold path_is_file. destruct (is_empty p); [apply moves_ret|apply quiet_reads, touches_is_file]. Qed.
Lemma moves_find l : moves R (find_existing env l).
Proof.
  induction l as [|p l IH]; simpl; [apply moves_ret|]. apply moves_bind; [apply moves_exists|].
  intros []; [apply moves_ret|exact IH].
Qed.
Lemma moves_read_file p : moves R (read_file env p).
Proof. apply quiet_reads, at_path_touches. intros. apply touches_read. Qed.
Lemma moves_read_text p : moves R (read_text env p).
Proof. apply quiet_reads, at_path_touches. intros. apply touches_read_to_string. Qed.
Lemma moves_read_json {A} `{Serde A} p : moves R (read_json_file (A:=A) env p).
Proof. apply quiet_reads, at_path_touches. intros. unfold read_json. touches_tac. Qed.
Lemma moves_text_ok p : moves R (io (io_ok (at_path env fs_read_to_string p))).
Proof. apply quiet_reads, touches_ok, at_path_touches. intros. apply touches_read_to_string. Qed.
Lemma moves_permissions p : moves R (io (at_path env fs_set_permissions p)).
Proof. apply quiet_reads, at_path_touches. intros. apply touches_set_permissions. Qed.
End Reading.
#[export] Hint Resolve moves_ret moves_lift moves_err moves_try moves_for_each quiet_reads runs_program moves_println
  draws_uuid draws_seed moves_permissions
  moves_eprintln moves_exists moves_is_dir moves_is_file moves_find moves_read_file moves_read_text moves_read_json
  moves_text_ok : fcb.
Ltac moves_tac :=
  repeat first
    [ progress auto with fcb
    | apply moves_bind; [|intros ?]
    | match goal with |- moves _ (match ?x with _ => _ end) => destruct x end ].

(** *** The requests a command sends *)
Definition sent (P : Request → Prop) : relation Shell := λ s s', ∃ rqs,
  m_log (sh_machine s') = m_log (sh_machine s) ++ rqs ∧ Forall P rqs.
Abbreviation cli_sends P x := (moves (sent P) x).
Section Sends.
Context (P : Request → Prop).
Lemma sent_same s s' : m_log (sh_machine s') = m_log (sh_machine s) → sent P s s'.
Proof. intros E. exists []. by rewrite E, app_nil_r. Qed.
#[global] Instance sent_preorder : PreOrder (sent P).
Proof.
  split; [intros s; by apply sent_same|]. intros s1 s2 s3 (l1 & E1 & H1) (l2 & E2 & H2).
  exists (l1 ++ l2). split; [|by apply Forall_app]. by rewrite E2, E1, app_assoc.
Qed.
Lemma cli_sends_net {A} (x : Act A) : act_sends P x → cli_sends P (net x).
Proof. intros Hx s. unfold net. specialize (Hx (sh_machine s)). by destruct (x (sh_machine s)). Qed.
Lemma cli_sends_io {A} (x : IO A) : cli_sends P (io x).
Proof. apply cli_sends_net, act_sends_sys. Qed.
#[global] Instance sent_quiet : Quiet (sent P).
Proof. split; [apply _|intros s out err; by apply sent_same|intros; apply cli_sends_io]. Qed.
#[global] Instance sent_runs `{Processes} : Runs (sent P).
Proof. intros c s. apply sent_same. unfold process_output. by destruct (run_process _ _ _). Qed.
Lemma cli_sends_create_dirs env p : cli_sends P (create_dirs env p).
Proof. unfold create_dirs. destruct (is_empty p); [apply moves_ret|apply cli_sends_io]. Qed.
#[global] Instance sent_writes env : Writes env (sent P) (λ _, True).
Proof.
  split; intros; try apply cli_sends_io; [apply cli_sends_create_dirs|].
  apply moves_bind; [apply cli_sends_io|]. intros. apply moves_ret.
Qed.
#[global] Instance sent_draws : Draws (sent P).
Proof.
  split; intros s; apply sent_same; [unfold new_uuid; by destruct (sh_uuids s)|].
  unfold random_seed. by destruct (sh_seeds s).
Qed.
#[global] Instance sent_names : Names (sent P) (λ _, True).
Proof. intros B f Hf. apply moves_bind; [apply draws_uuid|]. intros id. by apply Hf. Qed.
Lemma cli_sends_write_bytes env p bs : cli_sends P (write_bytes env p bs).
Proof. by apply writes_bytes. Qed.
Lemma cli_sends_write_json {A} `{Serde A} env p (a : A) : cli_sends P (write_json_file env p a).
Proof. by apply writes_json. Qed.
Lemma cli_sends_remove_dir env p : cli_sends P (remove_dir_quietly env p).
Proof. by apply writes_remove. Qed.
End Sends.
#[export] Hint Resolve cli_sends_net cli_sends_io cli_sends_create_dirs
  cli_sends_write_bytes cli_sends_write_json cli_sends_remove_dir : fcb.

(** ** For the witnesses *)
Definition demo_env : Environment := {|
  env_var _ := None; env_current_dir := ["app"%string]; env_current_exe := None; env_temp_dir := "/tmp";
  env_macos := false; env_snapshot_replace := true |}.
Definition shell_with (fs : FS) : Shell :=
  mk_shell (mk_machine (mk_world fs [] [] [] 1 0) [] [] false [] ∅) [] [] [] [] [].
Definition listing_order : DirOrder := λ _ l, l.
Definition reverse_order : DirOrder := λ _ l, reverse l.
Lemma listing_order_laws : @DirOrderLaws listing_order.
Proof. by intros p l. Qed.
Lemma reverse_order_laws : @DirOrderLaws reverse_order.
Proof. intros p l. apply reverse_Permutation. Qed.
