(* ===== verification/AotEntryPoints.v ===== *)
(** * AOT entry points

    Models [cli/src/aot_entry_points.rs]: the names [gen_snapshot] prints, their
    normalisation to the ids the bytecode compiler uses, and the capture of
    [aot_entry_points.json] for a release. *)
From S2P Require Import Prelude Text External Manifest World Flights Net Shell.
Local Open Scope N_scope.

Record SizeEntry := { se_l : option string; se_c : option string; se_n : string }.

(** ** Unmangling *)
Definition at_sign : byte := x40.
Definition is_ascii_digit : byte → bool := in_range 48 57.
(** [out.push(b as char)]: the character U+00[b] in UTF-8. *)
Definition push_char (b : byte) : list byte :=
  if in_range 0 127 b then [b]
  else [byte_of_N (192 + Byte.to_N b / 64); byte_of_N (128 + Byte.to_N b mod 64)].
(** The two loops of [strip_mangle]; [None] when the fuel runs out. *)
Fixpoint skip_digits (fuel : nat) (bytes : list byte) (i : N) : option N :=
  match fuel with
  | O => None
  | S fuel =>
    match get bytes i with
    | Some b => if is_ascii_digit b then skip_digits fuel bytes (i + 1) else Some i
    | None => Some i
    end
  end.
Fixpoint strip_loop (fuel : nat) (bytes : list byte) (i : N) (out : list byte) : option (list byte) :=
  match fuel with
  | O => None
  | S fuel =>
    match get bytes i with
    | None => Some out
    | Some b =>
      if bool_decide (b = at_sign)
         && match get bytes (i + 1) with Some d => is_ascii_digit d | None => false end
      then j ← skip_digits fuel bytes (i + 1); strip_loop fuel bytes j out
      else strip_loop fuel bytes (i + 1) (out ++ push_char b)
    end
  end.
(** Every round of a loop advances [i], so the length of the name bounds both. *)
Definition strip_mangle (name : string) : string :=
  let bytes := str_bytes name in
  str_of_bytes (default [] (strip_loop (S (length bytes)) bytes 0 [])).

(** ** Normalisation *)
Definition not_callable (name : string) : bool :=
  starts_with "[tear-off]" name || starts_with "[tear-off-extractor]" name
  || contains "<anonymous closure" name || contains "<anonymous" name
  || starts_with "Allocate " name || starts_with "Type " name || starts_with "dyn:" name.
Definition normalize_entry (entry : SizeEntry) : option string :=
  library ← se_l entry;
  if is_empty library then None else
  let name := match starts_with "[" (se_n entry), find "] " (se_n entry) with
    | true, Some idx => sdrop (idx + 2) (se_n entry)
    | _, _ => se_n entry
    end in
  if not_callable name then None else
  match strip_prefix "new " name with
  | Some rest => Some (library +:+ "::class:" +:+ strip_mangle rest)
  | None =>
    let member := strip_mangle name in
    match se_c entry with
    | Some class => if negb (is_empty class)
                    then Some (library +:+ "::class:" +:+ strip_mangle class +:+ "." +:+ member)
                    else Some (library +:+ "::" +:+ member)
    | None => Some (library +:+ "::" +:+ member)
    end
  end.

Section AotEntryPoints.
Context `{Serde (list SizeEntry), Serde Value.t, Processes}.
Variable env : Environment.

Definition parse_gen_snapshot_sizes (json : list byte) : result (gset string) :=
  entries ← map_err (λ e, Message ("invalid gen_snapshot sizes: " +:+ e)) (from_slice (A:=list SizeEntry) json);
  Ok (list_to_set (omap normalize_entry entries)).

(** ** Capture *)
Definition gen_snapshot_path (flutter_root platform arch : string) : Cli (option string) :=
  let engine := join_text flutter_root "bin/cache/artifacts/engine" in
  let host := if env_macos env then "darwin-x64"%string else "linux-x64"%string in
  let android dir := find_existing env [joins engine [dir; host; "gen_snapshot"%string]] in
  if String.eqb platform "android" then
    if String.eqb arch "arm64-v8a" then android "android-arm64-release"%string
    else if String.eqb arch "armeabi-v7a" then android "android-arm-release"%string
    else if String.eqb arch "x86_64" then android "android-x64-release"%string
    else mret None
  else if String.eqb platform "ios" then
    find_existing env [join_text engine "ios-release/gen_snapshot_arm64";
                       join_text engine "ios/gen_snapshot_arm64"]
  else mret None.

Definition extract_aot_entry_points (gen_snapshot dill : string) : Cli (gset string) :=
  id ← new_uuid;
  let temp := join_text (env_temp_dir env) ("fcb-aot-" +:+ id) in
  _ ← create_dirs env temp;
  let sizes := join_text temp "instructions_sizes.json" in
  let elf := join_text temp "app.so" in
  output ← process_output {|
    cmd_program := gen_snapshot; cmd_dir := None;
    cmd_args := ["--deterministic"%string; "--snapshot_kind=app-aot-elf"%string; "--elf=" +:+ elf;
                 "--print_instructions_sizes_to=" +:+ sizes; dill];
    cmd_env := [] |};
  if negb (success output) then
    _ ← remove_dir_quietly env temp;
    cli_err ("gen_snapshot failed: " +:+ from_utf8_lossy (stderr output))
  else
    json ← read_file env sizes;
    let result := parse_gen_snapshot_sizes json in
    _ ← remove_dir_quietly env temp;
    cli_lift result.

Definition aot_entry_points_json (platform arch : string) (entry_points : gset string) : Value.t :=
  json_object [("schema_version"%string, Value.Number "1"); ("platform"%string, Value.String platform);
    ("arch"%string, Value.String arch);
    ("function_ids"%string, Value.Array (Value.String <$> btree_iter entry_points))].
Definition generate_aot_entry_points (release_dir flutter_root : string) (dill : option string)
    (platform arch : string) : Cli (option N) :=
  gen_snapshot ← gen_snapshot_path flutter_root platform arch;
  match gen_snapshot, dill with
  | Some gen_snapshot, Some dill =>
    entry_points ← extract_aot_entry_points gen_snapshot dill;
    bytes ← cli_lift (map_err Json (to_vec_pretty (aot_entry_points_json platform arch entry_points)));
    _ ← write_bytes env (join_text release_dir "aot_entry_points.json") bytes;
    mret (Some (N.of_nat (base.size entry_points)))
  | _, _ => mret None
  end.
End AotEntryPoints.

Example normalize_tests :
  (strip_mangle "_State@337133756.build@1x" = "_State.buildx"
   ∧ normalize_entry (Build_SizeEntry (Some "package:a/a.dart") (Some "_S@12") "[Optimized] _f@34")
     = Some "package:a/a.dart::class:_S._f"
   ∧ normalize_entry (Build_SizeEntry (Some "a") (Some "C") "[Optimized] [tear-off] f") = None
   ∧ normalize_entry (Build_SizeEntry (Some "a") None "[tear-off] f") = Some "a::f")%string.
Proof. by vm_compute. Qed.

(** ** Specification of [strip_mangle] *)
Definition starts_digit (bs : list byte) : bool :=
  match bs with b :: _ => is_ascii_digit b | [] => false end.
(** A name is read as a sequence of characters and suffixes [@digits]; the
    suffixes, digits taken as far as they go, are left out. *)
Inductive unmangled : list byte → list byte → Prop :=
| unmangled_nil : unmangled [] []
| unmangled_suffix ds rest out :
    ds ≠ [] → Forall (λ d, is_ascii_digit d = true) ds → starts_digit rest = false →
    unmangled rest out → unmangled (at_sign :: ds ++ rest) out
| unmangled_char b rest out :
    b ≠ at_sign ∨ starts_digit rest = false →
    unmangled rest out → unmangled (b :: rest) (push_char b ++ out).

Lemma get_here {A} (pre l : list A) : get (pre ++ l) (len pre) = head l.
Proof. unfold get, len. rewrite Nat2N.id, lookup_app_r by done. rewrite Nat.sub_diag. by destruct l. Qed.
Lemma get_next {A} (pre l : list A) a : get (pre ++ a :: l) (len pre + 1) = head l.
Proof.
  rewrite cons_middle, app_assoc. replace (len pre + 1) with (len (pre ++ [a])); [apply get_here|].
  by rewrite len_app.
Qed.
Lemma skip_digits_spec fuel pre l :
  (length l < fuel)%nat →
  ∃ ds rest, l = ds ++ rest ∧ Forall (λ d, is_ascii_digit d = true) ds ∧ starts_digit rest = false
    ∧ skip_digits fuel (pre ++ l) (len pre) = Some (len (pre ++ ds)).
Proof.
  revert pre l. induction fuel as [|fuel IH]; intros pre l Hf; [lia|]. cbn [skip_digits].
  rewrite get_here. destruct l as [|b l]; cbn [head].
  { exists [], []. split; [done|]. split; [constructor|]. split; [done|]. by rewrite app_nil_r. }
  destruct (is_ascii_digit b) eqn:Hb.
  - destruct (IH (pre ++ [b]) l) as (ds & rest & -> & Hds & Hrest & Hs); [simpl in Hf; lia|].
    exists (b :: ds), rest. split; [done|]. split; [by constructor|]. split; [done|].
    rewrite <- (app_assoc pre [b]), len_app in Hs. change (len [b]) with 1 in Hs.
    cbn [app] in Hs |- *. by rewrite Hs, <- app_assoc.
  - exists [], (b :: l). split; [done|]. split; [constructor|]. split; [done|]. by rewrite app_nil_r.
Qed.
Lemma strip_loop_spec fuel pre l out :
  (length l < fuel)%nat →
  ∃ o, unmangled l o ∧ strip_loop fuel (pre ++ l) (len pre) out = Some (out ++ o).
Proof.
  revert pre l out. induction fuel as [|fuel IH]; intros pre l out Hf; [lia|]. cbn [strip_loop].
  rewrite get_here. destruct l as [|b l]; cbn [head].
  { exists []. split; [constructor|by rewrite app_nil_r]. }
  simpl in Hf. rewrite get_next.
  assert (match head l with Some d => is_ascii_digit d | None => false end = starts_digit l) as ->
    by by destruct l.
  assert (pre ++ b :: l = (pre ++ [b]) ++ l) as Hpre by by rewrite <- app_assoc.
  assert (len pre + 1 = len (pre ++ [b])) as Hlen by by rewrite len_app.
  destruct (bool_decide_reflect (b = at_sign)) as [->|Hb]; cbn [andb].
  - destruct (starts_digit l) eqn:Hl.
    + destruct (skip_digits_spec fuel (pre ++ [at_sign]) l) as (ds & rest & -> & Hds & Hrest & Hs); [lia|].
      rewrite Hpre, Hlen, Hs. cbn [mbind option_bind].
      destruct (IH ((pre ++ [at_sign]) ++ ds) rest out) as (o & Ho & Hso).
      { rewrite length_app in Hf. lia. }
      exists o. split; [|by rewrite app_assoc].
      apply unmangled_suffix; [|done..]. intros ->. cbn in Hl. congruence.
    + destruct (IH (pre ++ [at_sign]) l (out ++ push_char at_sign)) as (o & Ho & Hso); [lia|].
      rewrite Hpre, Hlen, Hso, <- app_assoc. eexists. split; [|done]. constructor; auto.
  - destruct (IH (pre ++ [b]) l (out ++ push_char b)) as (o & Ho & Hso); [lia|].
    rewrite Hpre, Hlen, Hso, <- app_assoc. eexists. split; [|done]. constructor; auto.
Qed.
Lemma digits_split ds rest ds' rest' :
  Forall (λ d, is_ascii_digit d = true) ds → Forall (λ d, is_ascii_digit d = true) ds' →
  starts_digit rest = false → starts_digit rest' = false →
  ds ++ rest = ds' ++ rest' → ds = ds' ∧ rest = rest'.
Proof.
  revert ds'. induction ds as [|d ds IH]; intros [|d' ds'] Hds Hds' Hr Hr' E; simpl in E.
  - done.
  - subst rest. apply list.Forall_cons in Hds' as [Hd _]. cbn in Hr. congruence.
  - subst rest'. apply list.Forall_cons in Hds as [Hd _]. cbn in Hr'. congruence.
  - injection E as -> E. apply list.Forall_cons in Hds as [_ Hds], Hds' as [_ Hds'].
    by destruct (IH ds' Hds Hds' Hr Hr' E) as [-> ->].
Qed.
Lemma unmangled_fun l o o' : unmangled l o → unmangled l o' → o = o'.
Proof.
  intros H. revert o'. induction H as [|ds rest o Hne Hds Hr H IH|b rest o Hb H IH]; intros o' H'.
  - by inversion H'.
  - inversion H' as [|ds' rest' ? Hne' Hds' Hr' Ho' E|b rest' out' Hb' Ho' E]; subst.
    + destruct (digits_split ds rest ds' rest') as [-> ->]; auto.
    + destruct ds as [|d ds]; [done|]. apply list.Forall_cons in Hds as [Hd _].
      destruct Hb' as [?|Hb']; [done|]. cbn in Hb'. congruence.
  - inversion H' as [|ds' rest' ? Hne' Hds' Hr' Ho' E|b' rest' out' Hb' Ho' E]; subst.
    + destruct ds' as [|d ds']; [done|]. apply list.Forall_cons in Hds' as [Hd _].
      destruct Hb as [?|Hb]; [done|]. cbn in Hb. congruence.
    + f_equal. auto.
Qed.

(** ASCII names. *)
Definition ascii_only (bs : list byte) : Prop := Forall (λ b, in_range 0 127 b = true) bs.
(** No [@] before a digit. *)
Fixpoint plain (bs : list byte) : Prop :=
  match bs with
  | [] => True
  | b :: rest => ¬ (b = at_sign ∧ starts_digit rest = true) ∧ plain rest
  end.
Lemma plain_unmangled bs : ascii_only bs → plain bs → unmangled bs bs.
Proof.
  induction bs as [|b bs IH]; intros Ha Hp; [constructor|].
  apply list.Forall_cons in Ha as [Hb Ha]. destruct Hp as [Hp Hbs].
  assert (push_char b = [b]) as Hpush by (unfold push_char; by rewrite Hb).
  change (b :: bs) with ([b] ++ bs) at 2. rewrite <- Hpush. apply unmangled_char; [|by apply IH].
  destruct (decide (b = at_sign)) as [->|]; [right|by left].
  destruct (starts_digit bs); [by destruct Hp|done].
Qed.
Lemma unmangled_ascii l o :
  unmangled l o → ascii_only l →
  ascii_only o ∧ plain o ∧ (starts_digit l = false → starts_digit o = false).
Proof.
  induction 1 as [|ds rest o Hne Hds Hr H IH|b rest o Hb H IH]; intros Ha.
  - by split_and!; [constructor|..].
  - apply list.Forall_cons in Ha as [_ [_ Ha]%list.Forall_app]. destruct (IH Ha) as (Ho & Hp & Hs).
    split_and!; [done..|]. intros _. auto.
  - apply list.Forall_cons in Ha as [Hb' Ha]. destruct (IH Ha) as (Ho & Hp & Hs).
    unfold push_char. rewrite Hb'. cbn [app]. split_and!; [by constructor| |done].
    split; [|done]. intros [-> Hd]. destruct Hb as [?|Hb]; [done|]. rewrite Hs in Hd by done. discriminate.
Qed.
Lemma strip_mangle_spec name : unmangled (str_bytes name) (str_bytes (strip_mangle name)).
Proof.
  unfold strip_mangle. cbv zeta.
  destruct (strip_loop_spec (S (length (str_bytes name))) [] (str_bytes name) []) as (o & Ho & Hs); [lia|].
  cbn [app] in Hs. change (len []) with 0 in Hs. rewrite Hs. cbn [default from_option].
  by rewrite str_bytes_of.
Qed.

(** ** Properties *)
(** The loops of [strip_mangle] compute the unmangled name: the text with
    every maximal suffix [@digits] left out and nothing else removed; the fuel of
    the model is never used up.  For an ASCII name nothing is left to strip, so
    stripping again changes nothing. *)
Theorem strip_mangle_unmangles name :
  (∀ fuel, (length (str_bytes name) < fuel)%nat →
     str_of_bytes <$> strip_loop fuel (str_bytes name) 0 [] = Some (strip_mangle name))
  ∧ (∀ out, strip_mangle name = out ↔ unmangled (str_bytes name) (str_bytes out))
  ∧ (ascii_only (str_bytes name) →
       plain (str_bytes (strip_mangle name)) ∧ strip_mangle (strip_mangle name) = strip_mangle name).
Proof.
  assert (∀ out, unmangled (str_bytes name) (str_bytes out) → strip_mangle name = out) as Hfun.
  { intros out Hout. rewrite <- (str_of_str_bytes (strip_mangle name)), <- (str_of_str_bytes out). f_equal.
    eapply unmangled_fun; [apply strip_mangle_spec|done]. }
  split; [|split].
  - intros fuel Hf. destruct (strip_loop_spec fuel [] (str_bytes name) [] Hf) as (o & Ho & Hs).
    cbn [app] in Hs. change (len []) with 0 in Hs. rewrite Hs. simpl. f_equal. symmetry. apply Hfun.
    by rewrite str_bytes_of.
  - intros out. split; [intros <-; apply strip_mangle_spec|apply Hfun].
  - intros Ha. destruct (unmangled_ascii _ _ (strip_mangle_spec name) Ha) as (Ho & Hp & _).
    split; [done|]. rewrite <- (str_of_str_bytes (strip_mangle (strip_mangle name))).
    rewrite <- (str_of_str_bytes (strip_mangle name)) at 2. f_equal.
    eapply unmangled_fun; [apply strip_mangle_spec|by apply plain_unmangled].
Qed.

(** A character that is not ASCII is re-encoded byte by byte: the two bytes
    of U+00E9 become the four bytes of U+00C3 U+00A9, so an identifier that uses
    it never equals the compiler's id for the same function. *)
Lemma strip_mangle_reencodes prefix suffix :
  plain (str_bytes prefix ++ [xc3; xa9] ++ str_bytes suffix) →
  ascii_only (str_bytes prefix) → ascii_only (str_bytes suffix) →
  strip_mangle (str_of_bytes (str_bytes prefix ++ [xc3; xa9] ++ str_bytes suffix))
  = str_of_bytes (str_bytes prefix ++ [xc3; x83; xc2; xa9] ++ str_bytes suffix).
Proof.
  intros Hp Hpre Hsuf.
  apply strip_mangle_unmangles. rewrite !str_bytes_of.
  revert Hp Hpre. generalize (str_bytes prefix) as pre. induction pre as [|b pre IH]; intros Hp Hpre.
  - destruct Hp as (_ & _ & Hp). cbn [app].
    apply (unmangled_char xc3); [by left|]. apply (unmangled_char xa9); [by left|]. by apply plain_unmangled.
  - destruct Hp as [Hb Hp]. apply list.Forall_cons in Hpre as [Hb' Hpre]. cbn [app].
    assert (push_char b = [b]) as Hpush by (unfold push_char; by rewrite Hb').
    rewrite <- (app_nil_l (str_bytes suffix)).
    match goal with |- unmangled _ (b :: ?o) => change (b :: o) with ([b] ++ o) end.
    rewrite <- Hpush. apply unmangled_char; [|by apply IH].
    destruct (decide (b = at_sign)) as [->|]; [right|by left].
    match goal with |- ?x = false => destruct x eqn:E end; [|done]. by destruct Hb.
Qed.
