(* ===== verification/Auto.v ===== *)
(** * The build pipeline of the command line

    Models [cli/src/auto.rs]: the resolved build options, the calls of [flutter],
    [dart], [git] and the kernel tool, the hashes of build products, the build
    description and the files of the release cache.  The programs that are run
    are the interface [Processes] of [Shell]. *)
From S2P Require Import Prelude Text Floats External Crypto Manifest Linker BuildInfo Config World Flights Net Shell AotEntryPoints.
Local Open Scope N_scope.

(** ** Data *)
Record BuildOptions := {
  bo_project : option string; bo_flutter : option string; bo_target : option string;
  bo_build_mode : option string; bo_flavor : option string; bo_dart_defines : list string;
  bo_ignored_dart_define_keys : list string; bo_ios_sdk : option string;
  bo_local_engine : option string; bo_local_engine_host : option string;
  bo_local_engine_src_path : option string;
}.
Record ResolvedBuild := {
  project : string; flutter : string; target : string; rb_build_mode : string;
  rb_flavor : option string; rb_dart_defines : gmap string string;
  rb_ignored_dart_define_keys : gset string; ios_sdk : string;
  rb_local_engine : option string; rb_local_engine_host : option string;
  rb_local_engine_src_path : option string;
}.
Record ReleaseCacheMetadata := {
  rc_schema_version : N; rc_manifest : ReleaseManifest; rc_build_info : BuildInfo;
}.
Record PatchReport := {
  pr_schema_version : N; pr_status : string; pr_backend : string; pr_platform : string;
  pr_arch : string; pr_release_version : string; pr_patch_number : N;
  build_comparison : option BuildInfoComparison; linker_plan : option LinkerPlan;
  pr_payload_hash : option string; pr_ignored_dart_define_keys : list string;
  messages : list string;
}.
Definition patch_report_new (backend platform arch release_version : string) (patch_number : N) : PatchReport := {|
  pr_schema_version := 1; pr_status := "started"; pr_backend := backend; pr_platform := platform;
  pr_arch := arch; pr_release_version := release_version; pr_patch_number := patch_number;
  build_comparison := None; linker_plan := None; pr_payload_hash := None;
  pr_ignored_dart_define_keys := []; messages := [];
|}.
(** Field assignments. *)
Definition set_status (r : PatchReport) (s : string) : PatchReport :=
  Build_PatchReport (pr_schema_version r) s (pr_backend r) (pr_platform r) (pr_arch r) (pr_release_version r)
    (pr_patch_number r) (build_comparison r) (linker_plan r) (pr_payload_hash r)
    (pr_ignored_dart_define_keys r) (messages r).
Definition set_comparison (r : PatchReport) (keys : list string) (c : BuildInfoComparison) : PatchReport :=
  Build_PatchReport (pr_schema_version r) (pr_status r) (pr_backend r) (pr_platform r) (pr_arch r)
    (pr_release_version r) (pr_patch_number r) (Some c) (linker_plan r) (pr_payload_hash r) keys (messages r).
Definition set_linker_plan (r : PatchReport) (p : LinkerPlan) : PatchReport :=
  Build_PatchReport (pr_schema_version r) (pr_status r) (pr_backend r) (pr_platform r) (pr_arch r)
    (pr_release_version r) (pr_patch_number r) (build_comparison r) (Some p) (pr_payload_hash r)
    (pr_ignored_dart_define_keys r) (messages r).
Definition set_payload_hash (r : PatchReport) (h : string) : PatchReport :=
  Build_PatchReport (pr_schema_version r) (pr_status r) (pr_backend r) (pr_platform r) (pr_arch r)
    (pr_release_version r) (pr_patch_number r) (build_comparison r) (linker_plan r) (Some h)
    (pr_ignored_dart_define_keys r) (messages r).
Definition push_message (r : PatchReport) (m : string) : PatchReport :=
  Build_PatchReport (pr_schema_version r) (pr_status r) (pr_backend r) (pr_platform r) (pr_arch r)
    (pr_release_version r) (pr_patch_number r) (build_comparison r) (linker_plan r) (pr_payload_hash r)
    (pr_ignored_dart_define_keys r) (messages r ++ [m]).

(** ** The share of interpreted functions *)
(** 0.05 in binary64. *)
Definition INTERPRETER_RATIO_WARNING_THRESHOLD : spec_float := S754_finite false 7205759403792794 (-57).
Definition estimated_interpreter_ratio (plan : LinkerPlan) : spec_float :=
  let total := len (interpret plan) + len (unchanged plan) in
  if total =? 0 then S754_zero false
  else f64_div (u64_to_f64 (len (interpret plan))) (u64_to_f64 total).
Definition interpreter_ratio_warning (plan : LinkerPlan) : option string :=
  let ratio := estimated_interpreter_ratio plan in
  if f64_le ratio INTERPRETER_RATIO_WARNING_THRESHOLD then None
  else Some ("warning: estimated interpreter_ratio " +:+ fixed2 (f64_mul ratio (u64_to_f64 100))
             +:+ "% exceeds " +:+ fixed2 (f64_mul INTERPRETER_RATIO_WARNING_THRESHOLD (u64_to_f64 100))
             +:+ "%; consider shipping a new release").
(** The warning, and the report with it. *)
Definition record_interpreter_ratio_warning (report : PatchReport) : option string * PatchReport :=
  match linker_plan report ≫= interpreter_ratio_warning with
  | None => (None, report)
  | Some warning =>
    (Some warning,
     if existsb (String.eqb warning) (messages report) then report else push_message report warning)
  end.

(** ** Options *)
Class BuildContext (C : Type) := {
  config_path : C → string;
  build_config : C → LocalBuildConfig;
}.
(** [s.split_once(c)]. *)
Definition split_once (c : string) (s : string) : option (string * string) :=
  match find c s with
  | Some i => Some (stake i s, sdrop (i + String.length c) s)
  | None => None
  end.
(** [a.or_else(|| b)]. *)
Definition or_else {A} (a b : option A) : option A := match a with Some _ => a | None => b end.
Definition with_dart_define (defines : gmap string string) (define : string) : result (gmap string string) :=
  match split_once "=" define with
  | Some (key, value) => Ok (<[key := value]> defines)
  | None => err ("--dart-define must be KEY=VALUE, got " +:+ define)
  end.
Fixpoint with_dart_defines (defines : gmap string string) (l : list string) : result (gmap string string) :=
  match l with
  | [] => Ok defines
  | define :: l => defines ← with_dart_define defines define; with_dart_defines defines l
  end.

(** [Metadata::modified] of a path; [None] when a call fails. *)
Class Modified := modified : FS → path → option N.

(** [sort_by]: a stable sort. *)
Fixpoint insert_sorted {A} (le : A → A → bool) (x : A) (l : list A) : list A :=
  match l with
  | [] => [x]
  | y :: l => if le x y then x :: y :: l else y :: insert_sorted le x l
  end.
Definition stable_sort {A} (le : A → A → bool) (l : list A) : list A := foldr (insert_sorted le) [] l.

(** [x.map_err(f)]. *)
Definition cli_map_err {A} (f : error → error) (x : Cli A) : Cli A := λ s,
  let '(r, s') := x s in (map_err f r, s').
(** [for a in l { acc = f(acc, a)?; }]. *)
Fixpoint cli_fold {A B} (f : B → A → Cli B) (l : list A) (acc : B) : Cli B :=
  match l with
  | [] => mret acc
  | a :: l => acc ← f acc a; cli_fold f l acc
  end.

Definition android_target_platform (arch : string) : result string :=
  if String.eqb arch "arm64-v8a" then Ok "android-arm64"%string
  else if String.eqb arch "armeabi-v7a" then Ok "android-arm"%string
  else if String.eqb arch "x86_64" then Ok "android-x64"%string
  else err ("unsupported Android arch " +:+ arch).
Definition bundle_target_platform (platform arch : string) : result string :=
  if String.eqb platform "ios" then Ok "ios"%string
  else if String.eqb platform "android" then android_target_platform arch
  else err ("unsupported bundle platform " +:+ platform).
Definition target_platform_label (platform arch : string) (build : ResolvedBuild) : result string :=
  if String.eqb platform "android" then android_target_platform arch
  else if String.eqb platform "ios" then Ok (ios_sdk build)
  else err ("unsupported platform " +:+ platform).
Definition android_app_so_path (project arch : string) : string :=
  joins project ["build/app/intermediates/flutter/release"; arch; "app.so"]%string.

(** [flutter.parent().and_then(Path::parent)]. *)
Definition flutter_root_of (flutter : string) : option string := path_parent flutter ≫= path_parent.
Definition flutter_sdk_root (flutter : string) : string :=
  default "vendor/flutter"%string (flutter_root_of flutter).
Definition flutter_dart_path (flutter : string) : string :=
  match flutter_root_of flutter with
  | Some root => join_text root "bin/cache/dart-sdk/bin/dart"
  | None => "dart"%string
  end.
Definition build_info_warnings (build_info : BuildInfo) : list string :=
  omap (λ fv : string * string,
    if String.eqb fv.2 "unknown"
    then Some ("warning: build_info " +:+ fv.1 +:+ " is unknown; SDK pin protection is weakened") else None)
    [("flutter_tool_rev"%string, flutter_tool_rev build_info);
     ("engine_fork_rev"%string, engine_fork_rev build_info);
     ("dart_sdk_rev"%string, dart_sdk_rev build_info)].

(** ** Walking directories *)
(** More than the depth of the file system, hence of any walk. *)
Definition walk_fuel (fs : FS) : nat := S (map_fold (λ p _ m, Nat.max (length p) m) O fs).
Definition get_fs : Cli FS := λ s, (Ok (w_fs (m_world (sh_machine s))), s).
(** [matches!(name, ".git" | ".dart_tool" | "build" | ".fcb")]. *)
Definition skipped_dirs : list string := [".git"; ".dart_tool"; "build"; ".fcb"]%string.
Definition backslash : Ascii.ascii := Ascii.ascii_of_nat 92.
(** [s.replace('\\', "/")]. *)
Fixpoint forward_slashes (s : string) : string :=
  match s with
  | ""%string => ""%string
  | String a s => String (if decide (a = backslash) then slash else a) (forward_slashes s)
  end.
(** [path.strip_prefix(root)] as text. *)
Definition relative_text (root p : path) : string :=
  forward_slashes (to_string_lossy (join "/" (drop (length root) p))).

Section Walks.
Context `{Hash, DirOrder, Modified}.

(** [collect_hash_entries_excluding]; the recursion is bounded by the depth. *)
Fixpoint collect_hash_entries_excluding (fuel : nat) (root dir : path) (excluded_names : list string)
    (out : list (string * string)) : Cli (list (string * string)) :=
  match fuel with
  | O => cli_lift (Panic "stack overflow")
  | S fuel =>
    entries ← io (fs_read_dir dir);
    cli_fold (λ out entry,
      match entry with
      | inl e => cli_lift (Err (Io e))
      | inr name =>
        let text := to_string_lossy name in
        if existsb (String.eqb text) excluded_names then mret out
        else if existsb (String.eqb text) skipped_dirs then mret out
        else
          let p := join1 dir name in
          d ← io (fs_is_dir p);
          if (d : bool) then collect_hash_entries_excluding fuel root p excluded_names out
          else
            f ← io (fs_is_file p);
            if (f : bool) then
              bytes ← io (fs_read p); mret (out ++ [(relative_text root p, sha256_hex bytes)])
            else mret out
      end) entries out
  end.
(** A directory entry as its text and the place it names. *)
Fixpoint collect_app_dill_candidates (fuel : nat) (dir : string * path)
    (candidates : list (string * path)) : Cli (list (string * path)) :=
  match fuel with
  | O => cli_lift (Panic "stack overflow")
  | S fuel =>
    entries ← io (io_ok (fs_read_dir dir.2));
    match entries with
    | None => mret candidates
    | Some entries =>
      cli_fold (λ candidates entry,
        match entry with
        | inl _ => mret candidates
        | inr name =>
          let p := (join_text dir.1 name, join1 dir.2 name) in
          d ← io (fs_is_dir p.2);
          if (d : bool) then collect_app_dill_candidates fuel p candidates
          else if String.eqb name "app.dill" then
            n ← io (fs_file_len p.2);
            mret (if 0 <? n then candidates ++ [p] else candidates)
          else mret candidates
        end) entries candidates
    end
  end.

Variable env : Environment.
Definition newest_non_empty_app_dill (project : string) : Cli (option string) :=
  let build_root := join_text project ".dart_tool/flutter_build" in
  fs ← get_fs;
  candidates ← collect_app_dill_candidates (walk_fuel fs) (build_root, resolve env build_root) [];
  fs ← get_fs;
  let time (p : string * path) := default 0 (modified fs p.2) in
  mret (fst <$> head (stable_sort (λ a b, time b <=? time a) candidates)).

(** ** Hashes of build products *)
Definition hash_optional_file (p : string) : Cli string :=
  e ← path_exists env p;
  if (e : bool) then bytes ← read_file env p; mret (sha256_hex bytes) else mret "missing"%string.
Fixpoint hash_first_existing (candidates : list string) : Cli string :=
  match candidates with
  | [] => mret "missing"%string
  | p :: l => e ← path_exists env p; if (e : bool) then hash_optional_file p else hash_first_existing l
  end.
Definition hash_line (entry : string * string) : list byte :=
  str_bytes entry.1 ++ [x00] ++ str_bytes entry.2 ++ [x0a].
Definition hash_entries (entries : list (string * string)) : string :=
  match stable_sort (λ a b, String.leb a.1 b.1) entries with
  | [] => "missing"%string
  | entries => sha256_hex (entries ≫= hash_line)
  end.
Definition hash_path_excluding (p : string) (excluded_names : list string) : Cli string :=
  f ← path_is_file env p;
  if (f : bool) then hash_optional_file p else
  e ← path_exists env p;
  if negb e then mret "missing"%string else
  fs ← get_fs;
  entries ← collect_hash_entries_excluding (walk_fuel fs) (resolve env p) (resolve env p) excluded_names [];
  mret (hash_entries entries).
Fixpoint hash_first_existing_excluding (candidates : list string) (excluded_names : list string) : Cli string :=
  match candidates with
  | [] => mret "missing"%string
  | p :: l =>
    e ← path_exists env p;
    if (e : bool) then hash_path_excluding p excluded_names else hash_first_existing_excluding l excluded_names
  end.

Definition manifests_in (project dir : string) : list string :=
  join_text project <$> [dir +:+ "/AssetManifest.bin.json"; dir +:+ "/AssetManifest.bin";
                         dir +:+ "/AssetManifest.json"].
Definition hash_build_assets (platform backend : string) (build : ResolvedBuild) : Cli string :=
  let dirs :=
    if String.eqb backend "bytecode" then ["build/flutter_assets"%string]
    else if String.eqb platform "android" then
      ["build/app/intermediates/flutter/release/flutter_assets"%string;
       "build/app/intermediates/assets/release/flutter_assets"%string]
    else if String.eqb platform "ios" then
      ["build/ios/iphoneos/Runner.app/Frameworks/App.framework/flutter_assets"%string;
       "build/ios/iphonesimulator/Runner.app/Frameworks/App.framework/flutter_assets"%string]
    else [] in
  hash_first_existing (dirs ≫= manifests_in (project build)).
Definition ios_frameworks (build : ResolvedBuild) : list string :=
  join_text (project build) <$> ["build/ios/iphoneos/Runner.app/Frameworks";
                                 "build/ios/iphonesimulator/Runner.app/Frameworks"]%string.
Definition hash_build_native (platform backend : string) (build : ResolvedBuild) : Cli string :=
  if String.eqb backend "bytecode" then mret "missing"%string
  else if String.eqb platform "android" then
    hash_first_existing_excluding
      (join_text (project build) <$> ["build/app/intermediates/merged_native_libs";
                                      "build/app/intermediates/stripped_native_libs"]%string)
      ["libapp.so"%string]
  else if String.eqb platform "ios" then
    hash_first_existing_excluding (ios_frameworks build) ["App.framework"%string]
  else hash_first_existing [].
Definition hash_build_plugins (platform backend : string) (build : ResolvedBuild) : Cli string :=
  if String.eqb backend "bytecode" then
    hash_optional_file (join_text (project build) ".flutter-plugins-dependencies")
  else if String.eqb platform "ios" then
    hash_first_existing_excluding (ios_frameworks build) ["App.framework"%string]
  else if String.eqb platform "android" then
    hash_first_existing [join_text (project build) ".flutter-plugins-dependencies"]
  else hash_first_existing [].
End Walks.

(** ** Programs *)
Section Programs.
Context `{Hash, Processes, DirOrder, Modified}.
Variable env : Environment.

Definition git_rev (p : string) : Cli string :=
  output ← cli_try (process_output {|
    cmd_program := "git"; cmd_dir := None; cmd_args := ["-C"%string; p; "rev-parse"%string; "HEAD"%string];
    cmd_env := [] |});
  mret (match output with
        | inr output => if success output then trim (from_utf8_lossy (stdout output)) else "unknown"%string
        | inl _ => "unknown"%string
        end).
Definition command_rev (command : string) (args : list string) : Cli string :=
  output ← process_output {| cmd_program := command; cmd_dir := None; cmd_args := args; cmd_env := [] |};
  mret (if negb (success output) then command +:+ ":unknown"
        else trim (default "unknown"%string (head (lines (from_utf8_lossy (stdout output)))))).
Definition dart_sdk_rev_of (flutter : string) : Cli string :=
  let dart := flutter_dart_path flutter in
  e ← path_exists env dart;
  if (e : bool) then command_rev dart ["--version"%string] else mret "dart:unknown"%string.
Definition flutter_tool_rev_of (flutter : string) : Cli string := git_rev (flutter_sdk_root flutter).
Fixpoint find_sdk (candidates : list string) : Cli (option string) :=
  match candidates with
  | [] => mret None
  | p :: l => e ← path_exists env (join_text p "runtime/vm");
              if (e : bool) then mret (Some p) else find_sdk l
  end.
Definition embedded_dart_sdk_root (build : ResolvedBuild) : Cli (option string) :=
  find_sdk
    (match rb_local_engine_src_path build with
     | Some engine_src => [join_text engine_src "flutter/third_party/dart";
                           join_text engine_src "third_party/dart"]
     | None => []
     end ++ [join_text (flutter_sdk_root (flutter build)) "engine/src/flutter/third_party/dart"]).
Definition dart_sdk_git_rev (build : ResolvedBuild) : Cli string :=
  sdk_root ← embedded_dart_sdk_root build;
  rev ← match sdk_root with Some sdk_root => git_rev sdk_root | None => mret "unknown"%string end;
  if negb (String.eqb rev "unknown") then mret rev else
  rev ← git_rev (join_text (flutter_sdk_root (flutter build)) "bin/cache/dart-sdk");
  mret (if negb (String.eqb rev "unknown") then rev else "unknown"%string).

Definition default_flutter_path : Cli string :=
  let vendored := "vendor/flutter/bin/flutter"%string in
  e ← path_exists env vendored; mret (if (e : bool) then vendored else "flutter"%string).

(** ** Resolving the options *)
Definition resolve_build {C} `{BuildContext C} (context : C) (platform arch : string)
    (options : BuildOptions) (example : option string) : Cli ResolvedBuild :=
  let config_dir := default "."%string (path_parent (config_path context)) in
  let build_config := build_config context in
  let platform_config := lb_platforms build_config !! platform in
  let project := default config_dir
    (or_else (bo_project options) (or_else example (lb_project build_config))) in
  _ ← (if bool_decide (bo_project options = None ∧ is_Some example)
       then eprintln "warning: --example is deprecated; use --project" else mret tt);
  flutter ← match or_else (bo_flutter options) (lb_flutter build_config) with
            | Some flutter => mret flutter | None => default_flutter_path end;
  let target := default "lib/main.dart"%string (or_else (bo_target options) (lb_target build_config)) in
  let build_mode := default "release"%string (or_else (bo_build_mode options) (lb_build_mode build_config)) in
  if negb (one_of ["debug"; "profile"; "release"] build_mode) then
    cli_err ("unsupported build mode " +:+ build_mode) else
  dart_defines ← cli_lift (with_dart_defines (lb_dart_defines build_config) (bo_dart_defines options));
  let ignored := lb_ignored_dart_define_keys build_config ∪ list_to_set (bo_ignored_dart_define_keys options) in
  let ios_sdk := default "iphoneos"%string (or_else (bo_ios_sdk options) (platform_config ≫= sdk)) in
  if String.eqb platform "ios" && negb (one_of ["iphoneos"; "iphonesimulator"] ios_sdk) then
    cli_err ("unsupported iOS sdk " +:+ ios_sdk) else
  _ ← (if String.eqb platform "android" then
         match platform_config with
         | Some config =>
           if negb (bool_decide (abis config = [])) && negb (existsb (String.eqb arch) (abis config)) then
             cli_err ("arch " +:+ arch +:+ " is not in configured Android ABI list: " +:+ join ", " (abis config))
           else mret tt
         | None => mret tt
         end
       else mret tt : Cli unit);
  mret {|
    project := resolve_path env config_dir project; flutter := resolve_path env config_dir flutter;
    target := target; rb_build_mode := build_mode;
    rb_flavor := or_else (bo_flavor options) (lb_flavor build_config);
    rb_dart_defines := dart_defines; rb_ignored_dart_define_keys := ignored; ios_sdk := ios_sdk;
    rb_local_engine := or_else (bo_local_engine options) (platform_config ≫= local_engine);
    rb_local_engine_host := or_else (bo_local_engine_host options) (platform_config ≫= local_engine_host);
    rb_local_engine_src_path := resolve_path env config_dir <$>
      or_else (bo_local_engine_src_path options) (platform_config ≫= local_engine_src_path);
  |}.

(** ** [flutter build] *)
Definition flag_arg (flag : string) (o : option string) : list string :=
  match o with Some v => [flag; v] | None => [] end.
Definition backend_args (platform arch backend : string) (build : ResolvedBuild) : result (list string) :=
  let args kind target_platform :=
    [kind; "--" +:+ rb_build_mode build; "--target"%string; target build; "--target-platform"%string;
     target_platform] in
  if String.eqb backend "bytecode" then args "bundle"%string <$> bundle_target_platform platform arch
  else if String.eqb backend "snapshot_replace" then
    if negb (String.eqb platform "android") then
      err "snapshot_replace build is only supported for Android"
    else args "apk"%string <$> android_target_platform arch
  else err ("unsupported build backend " +:+ backend).
Definition flutter_command (platform arch backend : string) (build : ResolvedBuild) : result Command :=
  args ← backend_args platform arch backend build;
  Ok {| cmd_program := flutter build; cmd_dir := Some (project build);
        cmd_args := ["--no-version-check"%string; "build"%string] ++ args
          ++ flag_arg "--flavor" (rb_flavor build)
          ++ (btree_entries (rb_dart_defines build) ≫= λ kv, ["--dart-define"%string; kv.1 +:+ "=" +:+ kv.2])
          ++ flag_arg "--local-engine-src-path" (rb_local_engine_src_path build)
          ++ flag_arg "--local-engine-host" (rb_local_engine_host build)
          ++ flag_arg "--local-engine" (rb_local_engine build);
        cmd_env := [] |}.
Definition run_flutter_build (platform arch backend : string) (build : ResolvedBuild) : Cli unit :=
  e ← path_exists env (join_text (project build) "pubspec.yaml");
  if negb e then cli_err ("project " +:+ project build +:+ " does not contain pubspec.yaml") else
  command ← cli_lift (flutter_command platform arch backend build);
  '(ok, status) ← process_status command;
  if negb ok then
    cli_err ("flutter build failed for " +:+ platform +:+ "/" +:+ backend +:+ " with status " +:+ status)
  else mret tt.
End Programs.

(** ** The kernel tool *)
Record KernelManifestTool := { dart : string; snapshot : string; sdk_root : string; tool_dir : string }.
Definition FCB_DIR : string := ".fcb".
Definition TOOL : string := "tool/fcb_kernel_manifest.dart".
Definition VENDORED_DART : string := "vendor/flutter/engine/src/flutter/third_party/dart".

Section Kernel.
Context `{Hash, Processes, DirOrder, Modified}.
Context `{Serde KernelInventory, Serde LinkerPlan}.
Variable env : Environment.

Definition ancestors_of (p : string) : list string := path_ancestors (String.length p) p.
Definition kernel_inventory_tool_path : Cli string :=
  match env_var env "FCB_KERNEL_MANIFEST_TOOL" with
  | Some p => mret p
  | None =>
    e ← path_exists env TOOL;
    if (e : bool) then mret TOOL else
    found ← match env_current_exe env with
            | Some exe => find_existing env ((λ a, join_text a TOOL) <$> ancestors_of exe)
            | None => mret None
            end;
    mret (default TOOL found)
  end.
Definition kernel_sdk_root (tool : string) (build : ResolvedBuild) : Cli string :=
  from_env ← match env_var env "FCB_KERNEL_SDK_ROOT" with
             | Some p => find_existing env [p]
             | None => mret None
             end;
  match from_env with
  | Some p => mret p
  | None =>
    embedded ← embedded_dart_sdk_root env build;
    match embedded with
    | Some p => mret p
    | None =>
      found ← find_existing env ((λ a, join_text a VENDORED_DART) <$> ancestors_of tool);
      mret (default VENDORED_DART found)
    end
  end.
(** [KernelManifestTool::prepare]. *)
Definition prepare (build : ResolvedBuild) : Cli KernelManifestTool :=
  tool ← kernel_inventory_tool_path;
  e ← path_exists env tool;
  if negb e then cli_err ("missing kernel inventory tool " +:+ tool) else
  let dart := flutter_dart_path (flutter build) in
  let cache_dir := join_text FCB_DIR "tool-cache" in
  _ ← create_dirs env cache_dir;
  tool_hash ← hash_optional_file env tool;
  dart_rev ← dart_sdk_rev_of env (flutter build);
  let key := sha256_hex (str_bytes dart_rev ++ [x0a] ++ str_bytes tool_hash) in
  let key_path := join_text cache_dir "fcb_kernel_manifest.key" in
  let snapshot := join_text cache_dir "fcb_kernel_manifest.dart.snapshot" in
  current_key ← io (io_ok (at_path env fs_read_to_string key_path));
  e ← (if negb (String.eqb (default ""%string current_key) key) then mret false
       else path_exists env snapshot);
  _ ← (if negb e then
         '(ok, _) ← process_status {|
           cmd_program := dart; cmd_dir := None;
           cmd_args := ["compile"%string; "kernel"%string; tool; "-o"%string; snapshot]; cmd_env := [] |};
         if negb ok then cli_err ("failed to compile " +:+ tool)
         else write_bytes env key_path (str_bytes key)
       else mret tt);
  sdk_root ← kernel_sdk_root tool build;
  mret {| dart := dart; snapshot := snapshot; sdk_root := sdk_root;
          tool_dir := default "tool"%string (path_parent tool) |}.
Definition tool_env (tool : KernelManifestTool) : list (string * string) :=
  [("FCB_KERNEL_SDK_ROOT"%string, sdk_root tool); ("FCB_KERNEL_TOOL_DIR"%string, tool_dir tool)].
Definition print_stderr (output : Output) : Cli unit :=
  if bool_decide (stderr output = []) then mret tt else eprintln (from_utf8_lossy (stderr output)).

Definition generate_kernel_inventory (build : ResolvedBuild) : Cli KernelInventory :=
  tool ← prepare build;
  output ← process_output {|
    cmd_program := dart tool; cmd_dir := None;
    cmd_args := [snapshot tool; "--project"%string; project build; "--target"%string; target build];
    cmd_env := tool_env tool |};
  _ ← print_stderr output;
  if negb (success output) then
    cli_err ("kernel inventory tool failed: " +:+ from_utf8_lossy (stderr output)) else
  inventory ← cli_lift (map_err Json (from_slice (A:=KernelInventory) (stdout output)));
  _ ← cli_lift (validate_inventory inventory);
  mret inventory.

Definition compile_kernel_plan (build : ResolvedBuild) (plan : LinkerPlan) : Cli (option (list byte)) :=
  if bool_decide (interpret plan = []) then mret None else
  patch_dill ← newest_non_empty_app_dill env (project build);
  match patch_dill with
  | None => cli_err ("missing Flutter app.dill under " +:+ join_text (project build) ".dart_tool/flutter_build"
                     +:+ "; rerun flutter build bundle before compiling bytecode")
  | Some patch_dill =>
    tool ← prepare build;
    id ← new_uuid;
    let temp := join_text (env_temp_dir env) ("fcb-kernel-compile-" +:+ id) in
    _ ← create_dirs env temp;
    let plan_path := join_text temp "linker_plan.json" in
    let out_path := join_text temp "module.fcbm" in
    _ ← write_json_file env plan_path plan;
    output ← process_output {|
      cmd_program := dart tool; cmd_dir := None;
      cmd_args := [snapshot tool; "--compile-from-plan"%string; plan_path; "--patch"%string; patch_dill;
                   "--project"%string; project build; "--target"%string; target build; "--format"%string;
                   "binary"%string; "-o"%string; out_path];
      cmd_env := tool_env tool |};
    _ ← print_stderr output;
    if negb (success output) then
      _ ← remove_dir_quietly env temp;
      cli_err ("kernel bytecode compiler failed: " +:+ from_utf8_lossy (stderr output))
    else
      bytes ← read_file env out_path;
      _ ← remove_dir_quietly env temp;
      mret (Some bytes)
  end.
End Kernel.

(** ** Build descriptions and the release cache *)
Section Cache.
Context `{Hash, Processes, DirOrder, Modified}.
Context `{Serde KernelInventory, Serde LinkerPlan, Serde (list SizeEntry), Serde Value.t}.
Context `{Serde ReleaseManifest, Serde BuildInfo, Serde ReleaseCacheMetadata, Serde PatchReport}.
Variable env : Environment.

Definition collect_release_artifact (release_dir platform arch backend : string) (build : ResolvedBuild) :
    Cli (list byte) :=
  if String.eqb backend "snapshot_replace" then
    if negb (String.eqb platform "android") then
      cli_err "snapshot_replace release artifact is only supported on Android"
    else
      let source := android_app_so_path (project build) arch in
      artifact ← cli_map_err (λ e, Message ("failed to read Android app.so at " +:+ source +:+ ": "
                                            +:+ error_to_string e)) (read_file env source);
      _ ← write_bytes env (join_text release_dir "app.so") artifact;
      mret artifact
  else if String.eqb backend "bytecode" then
    inventory ← generate_kernel_inventory env build;
    bytes ← cli_lift (map_err Json (to_vec_pretty inventory));
    _ ← write_bytes env (join_text release_dir "kernel_inventory.json") bytes;
    dill ← newest_non_empty_app_dill env (project build);
    captured ← cli_try (generate_aot_entry_points env release_dir (flutter_sdk_root (flutter build))
                          dill platform arch);
    _ ← match captured with
        | inr (Some count) => eprintln ("recorded " +:+ dec count +:+ " AOT entry points for call_original gate")
        | inr None => eprintln "warning: gen_snapshot or app.dill unavailable; skipped AOT entry-point capture (ADR-#2)"
        | inl e => eprintln ("warning: AOT entry-point capture failed: " +:+ error_to_string e)
        end;
    mret bytes
  else cli_err ("unsupported release backend: " +:+ backend).

(** The part [collect_build_info] and [collect_prebuild_build_info] share: the
    label, the revisions and the hash of [pubspec.lock]; [rest] adds the hashes
    of the build products and the compiler settings. *)
Definition build_info_of (platform arch backend : string) (build : ResolvedBuild)
    (rest : Cli (string * string * string * bool * option string)) : Cli BuildInfo :=
  let engine_root := default (flutter_sdk_root (flutter build)) (rb_local_engine_src_path build) in
  target_platform ← cli_lift (target_platform_label platform arch build);
  flutter_tool_rev ← flutter_tool_rev_of (flutter build);
  engine_fork_rev ← git_rev engine_root;
  dart_sdk_rev ← dart_sdk_git_rev env build;
  pubspec_lock_hash ← hash_optional_file env (join_text (project build) "pubspec.lock");
  '(asset_hash, native_hash, plugin_hash, obfuscation, split_debug_info) ← rest;
  mret {|
    bi_schema_version := BUILD_INFO_SCHEMA_VERSION; bi_backend := backend; bi_platform := platform;
    bi_arch := arch; target_platform := target_platform; build_mode := rb_build_mode build;
    flavor := rb_flavor build; flutter_tool_rev := flutter_tool_rev; engine_fork_rev := engine_fork_rev;
    dart_sdk_rev := dart_sdk_rev; pubspec_lock_hash := pubspec_lock_hash; asset_hash := asset_hash;
    native_hash := native_hash; plugin_hash := plugin_hash; obfuscation := obfuscation;
    split_debug_info := split_debug_info; dart_defines := rb_dart_defines build;
    ignored_dart_define_keys := rb_ignored_dart_define_keys build;
  |}.
Definition collect_build_info (platform arch backend : string) (build : ResolvedBuild) : Cli BuildInfo :=
  build_info_of platform arch backend build
    (asset_hash ← hash_build_assets env platform backend build;
     native_hash ← hash_build_native env platform backend build;
     plugin_hash ← hash_build_plugins env platform backend build;
     mret (asset_hash, native_hash, plugin_hash, false, None)).
Definition collect_prebuild_build_info (release : BuildInfo) (platform arch backend : string)
    (build : ResolvedBuild) : Cli BuildInfo :=
  build_info_of platform arch backend build
    (mret (asset_hash release, native_hash release, plugin_hash release, obfuscation release,
           split_debug_info release)).

Definition write_release_cache (release_dir : string) (manifest : ReleaseManifest) (build_info : BuildInfo)
    (artifact : list byte) (platform backend : string) : Cli unit :=
  _ ← write_json_file env (join_text release_dir "release_manifest.json") manifest;
  _ ← write_json_file env (join_text release_dir "build_info.json") build_info;
  let metadata := {| rc_schema_version := 2; rc_manifest := manifest; rc_build_info := build_info |} in
  _ ← write_json_file env (join_text release_dir "release_cache.json") metadata;
  if String.eqb backend "snapshot_replace" && String.eqb platform "android" then
    write_bytes env (join_text release_dir "artifact.bin") artifact
  else mret tt.
Definition read_release_cache (release_dir : string) : Cli ReleaseCacheMetadata :=
  let metadata_path := join_text release_dir "release_cache.json" in
  e ← path_exists env metadata_path;
  if (e : bool) then
    metadata ← read_json_file env metadata_path;
    if negb (rc_schema_version metadata =? 2) then
      cli_err ("unsupported release cache schema_version " +:+ dec (rc_schema_version metadata))
    else
      _ ← cli_lift (validate_build_info (rc_build_info metadata));
      mret metadata
  else cli_err ("missing release metadata " +:+ metadata_path +:+ "; run 'fcb release' first").
Definition write_patch_report (out : string) (report : PatchReport) : Cli unit :=
  write_json_file env (join_text out "patch_report.json") report.
End Cache.
