(* ===== verification/AutoFacts.v ===== *)
(** * Facts about the build pipeline

    Walks over directory trees end, whatever fails meanwhile, and the hash of a
    tree depends on its files only and identifies them, if their names are UTF-8. *)
From S2P Require Import Prelude Text Floats External Crypto Manifest Linker BuildInfo Config World Flights Net Shell AotEntryPoints Auto.
Local Open Scope N_scope.

(** ** Walks end *)
(** Run in files [fs], [x] does not panic and leaves them alone. *)
Definition reads_only {A : Type} (fs : FS) (x : Cli A) : Prop := ∀ s,
  fs_of s = fs → no_panic (x s).1 ∧ fs_of (x s).2 = fs.
Lemma reads_only_ret {A} fs (a : A) : reads_only fs (mret a).
Proof. by intros s. Qed.
Lemma reads_only_lift {A} fs (r : result A) : no_panic r → reads_only fs (cli_lift r).
Proof. by intros ? s. Qed.
Lemma reads_only_bind {A B} fs (x : Cli A) (f : A → Cli B) :
  reads_only fs x → (∀ a, reads_only fs (f a)) → reads_only fs (x ≫= f).
Proof.
  intros Hx Hf s Hs. unfold mbind, cli_bind. destruct (Hx s Hs) as [Hn Hfs].
  destruct (x s) as [[a|e|m] s']; [by apply Hf|done|by destruct (Hn m)].
Qed.
Lemma reads_only_io {A} fs (x : IO A) : io_no_panic x → touches (λ _, False) x → reads_only fs (io x).
Proof.
  intros Hn Ht s <-. split; [by apply cli_no_panic_io|]. rewrite io_fs. unfold fs_of.
  destruct (Ht (m_world (sh_machine s))) as (_ & _ & Hp). apply map_eq. intros p. apply Hp. by intros [].
Qed.
Lemma reads_only_fold {A B} fs (f : B → A → Cli B) l acc :
  (∀ b a, reads_only fs (f b a)) → reads_only fs (cli_fold f l acc).
Proof.
  intros Hf. revert acc. induction l as [|a l IH]; intros acc; simpl; [apply reads_only_ret|].
  by apply reads_only_bind.
Qed.
Lemma is_dir_answer s p r s1 :
  io (fs_is_dir p) s = (r, s1) → fs_of s1 = fs_of s ∧ (r = Ok false ∨ r = Ok (is_dir (fs_of s) p)).
Proof. intros (w & (Hr & Hfs & _)%stat_call_inv & ->)%io_inv. by split. Qed.
Lemma reads_only_is_dir {A} fs p (x y : Cli A) :
  (is_dir fs p = true → reads_only fs x) → reads_only fs y →
  reads_only fs (d ← io (fs_is_dir p); if (d : bool) then x else y).
Proof.
  intros Hx Hy s Hs. unfold mbind, cli_bind.
  destruct (io (fs_is_dir p) s) as [r s1] eqn:E.
  apply is_dir_answer in E as [Hfs Hr]. rewrite Hs in Hfs, Hr.
  destruct Hr as [->| ->]; [by apply Hy|]. destruct (is_dir fs p) eqn:Hd; [by apply Hx|by apply Hy].
Qed.
Lemma io_no_panic_read_dir `{DirOrder} p : io_no_panic (fs_read_dir p).
Proof. apply io_no_panic_bind; intros; apply io_no_panic_call. Qed.
#[export] Hint Resolve reads_only_ret reads_only_lift reads_only_io io_no_panic_read_dir : fcb.

Lemma walk_fuel_key fs p node : fs !! p = Some node → (length p < walk_fuel fs)%nat.
Proof.
  unfold walk_fuel. revert p node.
  apply (map_fold_weak_ind (λ m (fs : FS), ∀ p node, fs !! p = Some node → (length p < S m)%nat)); [done|].
  intros q x fs' m _ IH p node. destruct (decide (p = q)) as [->|].
  - intros _. lia.
  - rewrite lookup_insert_ne by done. intros Hp%IH. lia.
Qed.
Lemma is_dir_fuel fs p name :
  is_dir fs (join1 p name) = true → (S (length p) < walk_fuel fs)%nat.
Proof.
  unfold is_dir, join1. intros [Hp|Hp]%orb_true_iff; apply bool_decide_eq_true in Hp.
  - by destruct p.
  - apply walk_fuel_key in Hp. rewrite length_app in Hp. simpl in Hp. lia.
Qed.

Section Walks.
Context `{Hash, DirOrder, Modified}.

Lemma collect_hash_reads fs fuel root dir excluded out :
  (0 < fuel)%nat → (walk_fuel fs ≤ fuel + length dir)%nat →
  reads_only fs (collect_hash_entries_excluding fuel root dir excluded out).
Proof.
  revert dir out. induction fuel as [|fuel IH]; intros dir out Hf Hw; [lia|]. cbn [collect_hash_entries_excluding].
  apply reads_only_bind; [auto with fcb|]. intros entries. apply reads_only_fold.
  intros b [e|name]; [by apply reads_only_lift|].
  destruct (existsb _ excluded); [auto with fcb|]. destruct (existsb _ skipped_dirs); [auto with fcb|].
  apply reads_only_is_dir.
  - intros Hd%is_dir_fuel. apply IH; [|unfold join1; rewrite length_app; simpl]; lia.
  - apply reads_only_bind; [auto with fcb|]. intros []; [|auto with fcb].
    apply reads_only_bind; [apply reads_only_io; [apply io_no_panic_call|apply touches_read]|auto with fcb].
Qed.
Lemma collect_dill_reads fs fuel dir candidates :
  (0 < fuel)%nat → (walk_fuel fs ≤ fuel + length dir.2)%nat →
  reads_only fs (collect_app_dill_candidates fuel dir candidates).
Proof.
  revert dir candidates. induction fuel as [|fuel IH]; intros dir candidates Hf Hw; [lia|].
  cbn [collect_app_dill_candidates].
  apply reads_only_bind; [apply reads_only_io; auto with fcb|]. intros [entries|]; [|auto with fcb].
  apply reads_only_fold. intros b [e|name]; [auto with fcb|]. cbv zeta. apply reads_only_is_dir.
  - intros Hd%is_dir_fuel. apply IH; [|cbn [snd]; unfold join1; rewrite length_app; simpl]; lia.
  - destruct (String.eqb name "app.dill"); [|auto with fcb]. apply reads_only_bind; auto with fcb.
Qed.

(** *** Hence the callers never panic *)
Variable env : Environment.
Lemma cli_no_panic_newest project : cli_no_panic (newest_non_empty_app_dill env project).
Proof.
  intros s. unfold newest_non_empty_app_dill. cbv zeta. unfold get_fs. fold (fs_of s).
  unfold mbind, cli_bind.
  destruct (collect_dill_reads (fs_of s) (walk_fuel (fs_of s))
    (join_text project ".dart_tool/flutter_build", resolve env (join_text project ".dart_tool/flutter_build")) []
    ltac:(unfold walk_fuel; lia) ltac:(lia) s eq_refl) as [Hn _].
  fold (fs_of s) in *. destruct (collect_app_dill_candidates _ _ _ s) as [[c|e|m] s']; [done|done|by destruct (Hn m)].
Qed.
Lemma cli_no_panic_hash_optional p : cli_no_panic (hash_optional_file env p).
Proof. unfold hash_optional_file. cli_no_panic_tac. Qed.
Lemma cli_no_panic_hash_path p excluded : cli_no_panic (hash_path_excluding env p excluded).
Proof.
  unfold hash_path_excluding. apply cli_no_panic_bind; [auto with fcb|].
  intros []; [apply cli_no_panic_hash_optional|].
  apply cli_no_panic_bind; [auto with fcb|]. intros e. destruct (negb e); [auto with fcb|].
  intros s. unfold get_fs, mbind, cli_bind.
  destruct (collect_hash_reads (fs_of s) (walk_fuel (fs_of s)) (resolve env p) (resolve env p) excluded []
    ltac:(unfold walk_fuel; lia) ltac:(lia) s eq_refl) as [Hn _].
  fold (fs_of s). destruct (collect_hash_entries_excluding _ _ _ _ _ s) as [[c|er|m] s']; [done|done|by destruct (Hn m)].
Qed.
Lemma cli_no_panic_hash_first l : cli_no_panic (hash_first_existing env l).
Proof.
  induction l as [|p l IH]; simpl; [auto with fcb|].
  apply cli_no_panic_bind; [auto with fcb|]. intros []; [apply cli_no_panic_hash_optional|done].
Qed.
Lemma cli_no_panic_hash_first_excluding l excluded : cli_no_panic (hash_first_existing_excluding env l excluded).
Proof.
  induction l as [|p l IH]; simpl; [auto with fcb|].
  apply cli_no_panic_bind; [auto with fcb|]. intros []; [apply cli_no_panic_hash_path|done].
Qed.
End Walks.
#[export] Hint Resolve cli_no_panic_newest cli_no_panic_hash_optional cli_no_panic_hash_path
  cli_no_panic_hash_first cli_no_panic_hash_first_excluding : fcb.

(** *** More fuel changes nothing *)
Definition agree {A : Type} (fs : FS) (x y : Cli A) : Prop := ∀ s, fs_of s = fs → x s = y s.
Lemma agree_bind {A B} fs (x : Cli A) (f g : A → Cli B) :
  reads_only fs x → (∀ a, agree fs (f a) (g a)) → agree fs (x ≫= f) (x ≫= g).
Proof.
  intros Hx Hf s Hs. unfold mbind, cli_bind. destruct (Hx s Hs) as [_ Hfs].
  destruct (x s) as [[a|e|m] s']; [by apply Hf|done..].
Qed.
Lemma agree_fold {A B} fs (f g : B → A → Cli B) l acc :
  (∀ b a, agree fs (f b a) (g b a)) → (∀ b a, reads_only fs (g b a)) →
  agree fs (cli_fold f l acc) (cli_fold g l acc).
Proof.
  intros Hf Hg. revert acc. induction l as [|a l IH]; intros acc; simpl; [by intros s|].
  intros s Hs. unfold mbind, cli_bind. rewrite (Hf acc a s Hs). destruct (Hg acc a s Hs) as [_ Hfs].
  destruct (g acc a s) as [[b|e|m] s']; [by apply IH|done..].
Qed.
Lemma agree_is_dir {A} fs p (x x' y : Cli A) :
  (is_dir fs p = true → agree fs x x') →
  agree fs (d ← io (fs_is_dir p); if (d : bool) then x else y) (d ← io (fs_is_dir p); if (d : bool) then x' else y).
Proof.
  intros Hx s Hs. unfold mbind, cli_bind. destruct (io (fs_is_dir p) s) as [r s1] eqn:E.
  apply is_dir_answer in E as [Hfs Hr]. rewrite Hs in Hfs, Hr.
  destruct Hr as [->| ->]; [done|]. destruct (is_dir fs p) eqn:Hd; [by apply Hx|done].
Qed.

Section MoreFuel.
Context `{Hash, DirOrder}.
Lemma collect_hash_fuel fs fuel fuel' root dir excluded out :
  (0 < fuel)%nat → (fuel ≤ fuel')%nat → (walk_fuel fs ≤ fuel + length dir)%nat →
  agree fs (collect_hash_entries_excluding fuel' root dir excluded out)
           (collect_hash_entries_excluding fuel root dir excluded out).
Proof.
  revert fuel' dir out. induction fuel as [|fuel IH]; intros [|fuel'] dir out Hf Hle Hw; [lia..|].
  cbn [collect_hash_entries_excluding].
  apply agree_bind; [auto with fcb|]. intros entries. apply agree_fold.
  - intros b [e|name]; [by intros s|].
    destruct (existsb _ excluded); [by intros s|]. destruct (existsb _ skipped_dirs); [by intros s|].
    apply agree_is_dir. intros Hd%is_dir_fuel. apply IH; [|lia|unfold join1; rewrite length_app; simpl]; lia.
  - intros b [e|name]; [by apply reads_only_lift|].
    destruct (existsb _ excluded); [auto with fcb|]. destruct (existsb _ skipped_dirs); [auto with fcb|].
    apply reads_only_is_dir.
    + intros Hd%is_dir_fuel. apply collect_hash_reads; [|unfold join1; rewrite length_app; simpl]; lia.
    + apply reads_only_bind; [auto with fcb|]. intros []; [|auto with fcb].
      apply reads_only_bind; [apply reads_only_io; [apply io_no_panic_call|apply touches_read]|auto with fcb].
Qed.
Lemma collect_dill_fuel fs fuel fuel' dir candidates :
  (0 < fuel)%nat → (fuel ≤ fuel')%nat → (walk_fuel fs ≤ fuel + length dir.2)%nat →
  agree fs (collect_app_dill_candidates fuel' dir candidates) (collect_app_dill_candidates fuel dir candidates).
Proof.
  revert fuel' dir candidates. induction fuel as [|fuel IH]; intros [|fuel'] dir candidates Hf Hle Hw; [lia..|].
  cbn [collect_app_dill_candidates].
  apply agree_bind; [apply reads_only_io; auto with fcb|]. intros [entries|]; [|by intros s]. apply agree_fold.
  - intros b [e|name]; [by intros s|]. cbv zeta. apply agree_is_dir. intros Hd%is_dir_fuel.
    apply IH; [|lia|cbn [snd]; unfold join1; rewrite length_app; simpl]; lia.
  - intros b [e|name]; [auto with fcb|]. cbv zeta. apply reads_only_is_dir.
    + intros Hd%is_dir_fuel.
      apply collect_dill_reads; [|cbn [snd]; unfold join1; rewrite length_app; simpl]; lia.
    + destruct (String.eqb name "app.dill"); [|auto with fcb]. apply reads_only_bind; auto with fcb.
Qed.
End MoreFuel.

(** C28: both directory walks end: in every state of the machine and under every
    schedule of faults, the fuel the callers use (the depth of the file system)
    is enough, a larger one gives the same outcome, the walk never overflows,
    and it leaves the files as they are. *)
Theorem walks_end `{Hash, DirOrder} s root dir excluded out text candidates fuel :
  let fs := fs_of s in
  let hash fuel := collect_hash_entries_excluding fuel root dir excluded out s in
  let dill fuel := collect_app_dill_candidates fuel (text, dir) candidates s in
  no_panic (hash (walk_fuel fs)).1 ∧ fs_of (hash (walk_fuel fs)).2 = fs
  ∧ hash (walk_fuel fs + fuel)%nat = hash (walk_fuel fs)
  ∧ no_panic (dill (walk_fuel fs)).1 ∧ fs_of (dill (walk_fuel fs)).2 = fs
  ∧ dill (walk_fuel fs + fuel)%nat = dill (walk_fuel fs).
Proof.
  cbv zeta. assert (0 < walk_fuel (fs_of s))%nat as Hpos by (unfold walk_fuel; lia).
  destruct (collect_hash_reads (fs_of s) (walk_fuel (fs_of s)) root dir excluded out Hpos ltac:(lia) s eq_refl).
  destruct (collect_dill_reads (fs_of s) (walk_fuel (fs_of s)) (text, dir) candidates Hpos ltac:(lia) s eq_refl).
  do 2 (split; [done|]). split; [by apply (collect_hash_fuel (fs_of s)); [lia..|]|].
  do 2 (split; [done|]). by apply (collect_dill_fuel (fs_of s)); [lia..|].
Qed.

(** ** What the hash of a tree depends on *)
(** No call fails. *)
Definition calm (s : Shell) : Prop :=
  w_faults (m_world (sh_machine s)) = [] ∧ w_stats (m_world (sh_machine s)) = [].
Definition walked_name (excluded : list string) (name : string) : Prop :=
  to_string_lossy name ∉ excluded ∧ to_string_lossy name ∉ skipped_dirs.
(** [p] is a file the walk of [dir] reaches. *)
Inductive walked (fs : FS) (excluded : list string) : path → path → Prop :=
| walked_file dir name bs :
    walked_name excluded name → fs !! join1 dir name = Some (File bs) →
    walked fs excluded dir (join1 dir name)
| walked_dir dir name p :
    walked_name excluded name → fs !! join1 dir name = Some Dir →
    walked fs excluded (join1 dir name) p → walked fs excluded dir p.
(** The relative names and contents of those files. *)
Definition tree_file (fs : FS) (excluded : list string) (root rel : path) (bs : list byte) : Prop :=
  walked fs excluded root (root ++ rel) ∧ fs !! (root ++ rel) = Some (File bs).

Lemma walked_under fs excluded dir p : walked fs excluded dir p →
  ∃ name rest, p = dir ++ name :: rest ∧ ∃ bs, fs !! p = Some (File bs).
Proof.
  induction 1 as [dir name bs _ Hbs|dir name p _ _ _ (n & rest & -> & bs & Hbs)].
  - exists name, []. split; [done|]. eauto.
  - exists name, (n :: rest). unfold join1 in *. rewrite <- app_assoc in *. split; [done|]. eauto.
Qed.
Lemma existsb_elem name l : existsb (String.eqb name) l = true ↔ name ∈ l.
Proof.
  rewrite existsb_exists. split.
  - intros (x & Hx & ->%String.eqb_eq). by apply list_elem_of_In.
  - intros Hin. exists name. split; [by apply list_elem_of_In|apply String.eqb_refl].
Qed.
Lemma child_of q p name : parent q = Some p → file_name q = Some name → q = join1 p name.
Proof.
  unfold file_name. intros Hp [r ->]%last_Some. fold (join1 r name) in *. rewrite parent_join1 in Hp. by simplify_eq.
Qed.
Lemma children_spec fs p name : name ∈ children fs p ↔ is_Some (fs !! join1 p name).
Proof.
  unfold children. rewrite list_elem_of_omap. split.
  - intros ([q node] & Hq%elem_of_map_to_list & Hname). cbn [fst] in Hname.
    case_bool_decide as Hp; [|done]. rewrite <- (child_of q p name) by done. eauto.
  - intros [node Hnode]. exists (join1 p name, node). split; [by apply elem_of_map_to_list|].
    cbn [fst]. rewrite bool_decide_eq_true_2 by apply parent_join1. unfold file_name, join1. by rewrite last_snoc.
Qed.
Lemma children_NoDup fs p : NoDup (children fs p).
Proof.
  unfold children. pose proof (NoDup_fst_map_to_list fs) as Hnd. revert Hnd.
  generalize (map_to_list fs) as l. induction l as [|[q node] l IH]; intros Hnd; simpl; [constructor|].
  apply NoDup_cons in Hnd as [Hq Hnd]. case_bool_decide as Hp; [|by apply IH].
  destruct (file_name q) as [name|] eqn:Hname; [|by apply IH]. constructor; [|by apply IH].
  rewrite list_elem_of_omap. intros ([q' node'] & Hin & Hname'). cbn [fst] in Hname'.
  case_bool_decide as Hp'; [|done]. apply Hq. rewrite (child_of q p name), <- (child_of q' p name) by done.
  by apply (list_elem_of_fmap_2 fst) in Hin.
Qed.

Lemma walked_inv fs excluded dir name rest :
  walked fs excluded dir (dir ++ name :: rest) ↔
    walked_name excluded name
    ∧ (rest = [] ∧ (∃ bs, fs !! join1 dir name = Some (File bs))
       ∨ fs !! join1 dir name = Some Dir ∧ walked fs excluded (join1 dir name) (dir ++ name :: rest)).
Proof.
  split.
  - intros Hw. inversion Hw as [d n bs Hn Hbs E1 E2|d n p Hn Hdir Hrec E1 E2]; subst.
    + unfold join1 in E2. apply app_inv_head in E2. injection E2 as -> <-. eauto.
    + destruct (walked_under _ _ _ _ Hrec) as (n' & rest' & E & _). unfold join1 in E.
      rewrite <- app_assoc in E. apply app_inv_head in E. injection E as -> _. eauto.
  - intros [Hn [[-> [bs Hbs]]|[Hdir Hrec]]]; [by eapply walked_file|by eapply walked_dir].
Qed.

Section Hashes.
Context `{Hash, DirOrder, !DirOrderLaws}.

Lemma calm_io {A} (x : IO A) s a :
  x (m_world (sh_machine s)) = (Ok a, m_world (sh_machine s)) → io x s = (Ok a, s).
Proof. unfold io, net, sys. intros ->. destruct s as [[]]. done. Qed.
Lemma calm_call {A} (run : option fault → FS → (string + A) * FS) s a :
  calm s → run None (fs_of s) = (inr a, fs_of s) → io (io_call run) s = (Ok a, s).
Proof.
  intros [Hf _] Hr. apply calm_io. unfold io_call. rewrite Hf. unfold fs_of in Hr. rewrite Hr.
  destruct s as [[[]]]. simpl in *. by subst.
Qed.
Lemma calm_read_dir s dir :
  calm s → is_dir (fs_of s) dir = true →
  io (fs_read_dir dir) s = (Ok (inr <$> dir_order dir (children (fs_of s) dir)), s).
Proof.
  intros [Hf _] Hd. apply calm_io. unfold fs_of in Hd. destruct s as [[w] ?]. simpl in *.
  destruct w as [fs ? ? ? ? ?]. simpl in *. subst.
  unfold fs_read_dir, mbind, io_bind, fs_open_dir, fs_list_dir, io_call. simpl. by rewrite Hd.
Qed.
Lemma calm_is_dir s p : calm s → io (fs_is_dir p) s = (Ok (is_dir (fs_of s) p), s).
Proof. intros [_ Hst]. apply calm_io. by apply stat_call_ok. Qed.
Lemma calm_is_file s p : calm s →
  io (fs_is_file p) s = (Ok (match fs_of s !! p with Some (File _) => true | _ => false end), s).
Proof. intros [_ Hst]. apply calm_io. by apply stat_call_ok. Qed.
Lemma calm_read s p bs : calm s → fs_of s !! p = Some (File bs) → io (fs_read p) s = (Ok bs, s).
Proof. intros Hs Hp. apply calm_call; [done|]. by rewrite Hp. Qed.

(** The pair recorded for a file. *)
Definition hash_entry (fs : FS) (root p : path) : string * string :=
  (relative_text root p, sha256_hex (match fs !! p with Some (File bs) => bs | _ => [] end)).

(** One round of the loop; [rec] is the recursive call. *)
Definition visit (rec : path → list (string * string) → Cli (list (string * string))) (root dir : path)
    (excluded : list string) (out : list (string * string)) (entry : string + string) :
    Cli (list (string * string)) :=
  match entry with
  | inl e => cli_lift (Err (Io e))
  | inr name =>
    let text := to_string_lossy name in
    if existsb (String.eqb text) excluded then mret out
    else if existsb (String.eqb text) skipped_dirs then mret out
    else
      d ← io (fs_is_dir (join1 dir name));
      if (d : bool) then rec (join1 dir name) out
      else
        f ← io (fs_is_file (join1 dir name));
        if (f : bool) then
          bytes ← io (fs_read (join1 dir name));
          mret (out ++ [(relative_text root (join1 dir name), sha256_hex bytes)])
        else mret out
  end.
(** [x] appends to [out] the entries of the files that satisfy [P]. *)
Definition lists (s : Shell) (root : path) (x : Cli (list (string * string))) (out : list (string * string))
    (P : path → Prop) : Prop :=
  ∃ ps, x s = (Ok (out ++ (hash_entry (fs_of s) root <$> ps)), s) ∧ NoDup ps ∧ ∀ p, p ∈ ps ↔ P p.
Definition below (s : Shell) (excluded : list string) (dir : path) (name : string) (p : path) : Prop :=
  walked (fs_of s) excluded dir p ∧ ∃ rest, p = dir ++ name :: rest.

Lemma visit_skips s root excluded dir name out :
  ¬ walked_name excluded name → lists s root (mret out) out (below s excluded dir name).
Proof.
  intros Hn. exists []. split; [by rewrite app_nil_r|]. split; [constructor|].
  intros p. split; [by intros ?%elem_of_nil|]. intros [Hp [rest ->]]. apply walked_inv in Hp. tauto.
Qed.
Lemma visit_lists s root excluded dir name rec out :
  calm s → is_Some (fs_of s !! join1 dir name) →
  (is_dir (fs_of s) (join1 dir name) = true →
     lists s root (rec (join1 dir name) out) out (walked (fs_of s) excluded (join1 dir name))) →
  lists s root (visit rec root dir excluded out (inr name)) out (below s excluded dir name).
Proof.
  intros Hs [node Hnode] Hrec. unfold visit. cbv zeta.
  destruct (existsb (String.eqb _) excluded) eqn:Hex.
  { apply visit_skips. apply existsb_elem in Hex. by intros [? _]. }
  destruct (existsb (String.eqb _) skipped_dirs) eqn:Hsk.
  { apply visit_skips. apply existsb_elem in Hsk. by intros [_ ?]. }
  assert (walked_name excluded name) as Hn by (split; rewrite <- existsb_elem; congruence).
  unfold lists. rewrite (cli_bind_run _ _ s _ s (calm_is_dir s (join1 dir name) Hs)).
  destruct node as [bs|].
  - assert (is_dir (fs_of s) (join1 dir name) = false) as ->.
    { unfold is_dir. rewrite Hnode. rewrite !bool_decide_eq_false_2; [done|done|by destruct dir]. }
    rewrite (cli_bind_run _ _ s _ s (calm_is_file s (join1 dir name) Hs)), Hnode.
    rewrite (cli_bind_run _ _ s _ s (calm_read s (join1 dir name) bs Hs Hnode)).
    exists [join1 dir name]. split; [by unfold hash_entry; simpl; rewrite Hnode|].
    split; [apply NoDup_singleton|]. intros p. rewrite list_elem_of_singleton. split.
    + intros ->. split; [by eapply walked_file|]. by exists [].
    + intros [Hp [rest ->]]. apply walked_inv in Hp as [_ [[-> _]|[Hdir _]]]; [done|congruence].
  - assert (is_dir (fs_of s) (join1 dir name) = true) as Hdir.
    { unfold is_dir. rewrite Hnode. by rewrite (bool_decide_eq_true_2 (Some Dir = Some Dir)), orb_true_r. }
    rewrite Hdir. destruct (Hrec Hdir) as (ps & Hps & Hnd & Hin). exists ps. split; [done|]. split; [done|].
    intros p. rewrite Hin. split.
    + intros Hp. split; [by eapply walked_dir|]. destruct (walked_under _ _ _ _ Hp) as (n' & rest & -> & _).
      exists (n' :: rest). unfold join1. by rewrite <- app_assoc.
    + intros [Hp [rest ->]]. apply walked_inv in Hp as [_ [[_ [bs Hbs]]|[_ Hp]]]; [congruence|done].
Qed.
Lemma fold_lists s root excluded dir rec names out :
  calm s → NoDup names → (∀ name, name ∈ names → is_Some (fs_of s !! join1 dir name)) →
  (∀ name out, is_dir (fs_of s) (join1 dir name) = true →
     lists s root (rec (join1 dir name) out) out (walked (fs_of s) excluded (join1 dir name))) →
  lists s root (cli_fold (visit rec root dir excluded) (inr <$> names) out) out
    (λ p, ∃ name, name ∈ names ∧ below s excluded dir name p).
Proof.
  intros Hs Hnd Hin Hrec. revert out. induction names as [|name names IHn]; intros out.
  { exists []. split; [by rewrite app_nil_r|]. split; [constructor|]. intros p.
    split; [by intros ?%elem_of_nil|]. by intros (? & ?%elem_of_nil & _). }
  apply NoDup_cons in Hnd as [Hname Hnd].
  destruct (visit_lists s root excluded dir name rec out) as (ps1 & Hf1 & Hnd1 & Hps1);
    [done|apply Hin; set_solver|auto|].
  destruct (IHn Hnd ltac:(intros; apply Hin; set_solver) (out ++ (hash_entry (fs_of s) root <$> ps1)))
    as (ps2 & Hf2 & Hnd2 & Hps2).
  exists (ps1 ++ ps2). cbn [fmap list_fmap cli_fold]. rewrite (cli_bind_run _ _ s _ s Hf1).
  split; [by rewrite Hf2, fmap_app, app_assoc|]. split.
  - apply NoDup_app. split; [done|]. split; [|done].
    intros p [_ [rest ->]]%Hps1 (name' & Hin' & _ & rest' & E)%Hps2.
    apply app_inv_head in E. by injection E as -> ->.
  - intros p. rewrite elem_of_app, Hps1, Hps2. setoid_rewrite elem_of_cons. naive_solver.
Qed.

Lemma collect_hash_walked s root excluded fuel dir out :
  calm s → is_dir (fs_of s) dir = true → (0 < fuel)%nat → (walk_fuel (fs_of s) ≤ fuel + length dir)%nat →
  lists s root (collect_hash_entries_excluding fuel root dir excluded out) out (walked (fs_of s) excluded dir).
Proof.
  intros Hs. revert dir out. induction fuel as [|fuel IH]; intros dir out Hd Hf Hw; [lia|].
  unfold lists. cbn [collect_hash_entries_excluding].
  rewrite (cli_bind_run _ _ s _ s (calm_read_dir s dir Hs Hd)).
  change (λ out entry, match entry with inl _ => _ | inr _ => _ end)
    with (visit (λ p out, collect_hash_entries_excluding fuel root p excluded out) root dir excluded).
  destruct (fold_lists s root excluded dir (λ p out, collect_hash_entries_excluding fuel root p excluded out)
    (dir_order dir (children (fs_of s) dir)) out) as (ps & Hps & Hnd & Hin); [done|..].
  { rewrite dir_order_perm. apply children_NoDup. }
  { intros name. rewrite dir_order_perm. apply children_spec. }
  { intros name out' Hdir. pose proof (is_dir_fuel _ _ _ Hdir).
    apply IH; [done|lia|unfold join1; rewrite length_app; simpl; lia]. }
  exists ps. split; [done|]. split; [done|]. intros p. rewrite Hin. split; [by intros (_ & _ & ? & _)|].
  intros Hp. destruct (walked_under _ _ _ _ Hp) as (name & rest & -> & _).
  exists name. split; [|by split; eauto]. rewrite dir_order_perm. apply children_spec.
  apply walked_inv in Hp as [_ [[_ [bs Hbs]]|[Hdir _]]]; eauto.
Qed.
End Hashes.

(** *** Sorting and printing the entries *)
Lemma insert_sorted_perm {A} (le : A → A → bool) x l : insert_sorted le x l ≡ₚ x :: l.
Proof.
  induction l as [|y l IH]; simpl; [done|]. destruct (le x y); [done|]. rewrite IH. constructor.
Qed.
Lemma stable_sort_perm {A} (le : A → A → bool) l : stable_sort le l ≡ₚ l.
Proof. induction l as [|x l IH]; simpl; [done|]. by rewrite insert_sorted_perm, IH. Qed.
Definition by_name (a b : string * string) : bool := String.leb a.1 b.1.
Lemma stable_sort_sorted l : StronglySorted (λ a b, str_le a.1 b.1) (stable_sort by_name l).
Proof.
  induction l as [|x l IH]; simpl; [constructor|].
  induction IH as [|y l' Hs IH Hall]; simpl; [repeat constructor|].
  unfold by_name at 1. destruct (String.leb x.1 y.1) eqn:E.
  - constructor; [by constructor|]. constructor; [done|].
    eapply list.Forall_impl; [exact Hall|]. intros z Hz. by transitivity (y.1).
  - constructor; [done|]. rewrite insert_sorted_perm. constructor; [|done].
    unfold str_le. destruct (String.leb_total y.1 x.1) as [|H']; [done|congruence].
Qed.
Lemma stable_sort_unique l l' : NoDup (l.*1) → l ≡ₚ l' → stable_sort by_name l = stable_sort by_name l'.
Proof.
  intros Hnd Hl.
  apply (StronglySorted_unique_strong (λ a b : string * string, str_le a.1 b.1)).
  - intros a b Ha Hb Hab Hba. rewrite stable_sort_perm in Ha, Hb. rewrite <- Hl in Hb.
    assert (a.1 = b.1) as E by (by apply (anti_symm str_le)).
    apply list_elem_of_lookup in Ha as [i Hi], Hb as [j Hj].
    assert (i = j) as ->; [|congruence].
    eapply (NoDup_lookup (l.*1)); [done| |]; rewrite list_lookup_fmap; [by rewrite Hi|by rewrite Hj; simpl; rewrite E].
  - apply stable_sort_sorted.
  - apply stable_sort_sorted.
  - by rewrite !stable_sort_perm.
Qed.

Lemma cut_unique {A} (x : A) l1 l2 r1 r2 :
  x ∉ l1 → x ∉ l2 → l1 ++ x :: r1 = l2 ++ x :: r2 → l1 = l2 ∧ r1 = r2.
Proof.
  revert l2. induction l1 as [|a l1 IH]; intros [|b l2] H1 H2 E; simpl in E.
  - by simplify_eq.
  - injection E as -> _. set_solver.
  - injection E as -> _. set_solver.
  - injection E as -> E. apply not_elem_of_cons in H1 as [_ H1], H2 as [_ H2].
    by destruct (IH l2 H1 H2 E) as [-> ->].
Qed.
Definition line_ok (e : string * string) : Prop := x00 ∉ str_bytes e.1 ∧ x0a ∉ str_bytes e.2.
Lemma hash_lines_inj l l' :
  Forall line_ok l → Forall line_ok l' → l ≫= hash_line = l' ≫= hash_line → l = l'.
Proof.
  revert l'. induction l as [|[a b] l IH]; intros [|[a' b'] l'] Hl Hl' E; [done| | |].
  - symmetry in E. apply app_nil in E as [E _]. by apply app_nil in E as [_ E].
  - apply app_nil in E as [E _]. by apply app_nil in E as [_ E].
  - apply list.Forall_cons in Hl as [[Ha Hb] Hl], Hl' as [[Ha' Hb'] Hl']. cbn [fst snd] in *.
    cbn [mbind list_bind] in E. unfold hash_line at 1 in E. unfold hash_line at 2 in E. cbn [fst snd] in E. rewrite <- !app_assoc in E. cbn [app] in E.
    apply cut_unique in E as [Ea E]; [|done..].
    apply cut_unique in E as [Eb E]; [|done..].
    rewrite <- (str_of_str_bytes a), <- (str_of_str_bytes b), Ea, Eb, !str_of_str_bytes. f_equal. by apply IH.
Qed.

(** *** Relative names *)
Definition nul : Ascii.ascii := Ascii.ascii_of_nat 0.
(** A name the entry of a file keeps apart from others: UTF-8, and without the
    characters the entries are made of. *)
Definition good_name (n : string) : Prop :=
  no_char slash n ∧ no_char backslash n ∧ no_char nul n ∧ utf8_valid (str_bytes n) = true.
Lemma forward_slashes_id s : no_char backslash s → forward_slashes s = s.
Proof. induction s as [|a s IH]; [done|]. intros [Ha Hs]. simpl. rewrite decide_False by done. by rewrite IH. Qed.
Lemma split_single c s : no_char c s → split c s = [s].
Proof.
  induction s as [|a s IH]; [done|]. intros [Ha Hs]. cbn [split]. rewrite IH by done.
  by rewrite decide_False by done.
Qed.
Lemma no_char_join c rel : c ≠ slash → Forall (no_char c) rel → no_char c (join "/" rel).
Proof.
  intros Hc Hrel. induction Hrel as [|n rel Hn Hrel IH]; [done|]. destruct rel as [|m rel]; [done|].
  cbn [join]. rewrite !no_char_app. split; [done|]. split; [|done]. split; [|done]. intros E. by apply Hc.
Qed.
Lemma split_join rel : rel ≠ [] → Forall (no_char slash) rel → split slash (join "/" rel) = rel.
Proof.
  intros Hne Hrel. induction Hrel as [|n rel Hn Hrel IH]; [done|]. destruct rel as [|m rel].
  - by apply split_single.
  - change (join "/" (n :: m :: rel)) with (n +:+ String slash (join "/" (m :: rel))).
    rewrite split_sep by done. f_equal. by apply IH.
Qed.
Lemma utf8_join sep rel : utf8_valid (str_bytes sep) = true →
  Forall (λ n, utf8_valid (str_bytes n) = true) rel → utf8_valid (str_bytes (join sep rel)) = true.
Proof.
  intros Hs Hrel. induction Hrel as [|n rel Hn _ IH]; [done|]. destruct rel as [|m rel]; [done|].
  change (join sep (n :: m :: rel)) with (n +:+ sep +:+ join sep (m :: rel)). rewrite !str_bytes_app. by repeat apply utf8_valid_app.
Qed.
Lemma relative_text_good root rel :
  Forall good_name rel → relative_text root (root ++ rel) = join "/" rel.
Proof.
  intros Hrel. unfold relative_text. rewrite drop_app_length, to_string_lossy_id.
  - apply forward_slashes_id, no_char_join; [done|]. eapply list.Forall_impl; [exact Hrel|]. by intros n (_ & ? & _).
  - apply utf8_join; [done|]. eapply list.Forall_impl; [exact Hrel|]. by intros n (_ & _ & _ & ?).
Qed.
(** Files whose names differ can have one entry: a byte that is not UTF-8 is
    recorded as U+FFFD. *)
Example names_not_identified : str_of_bytes [xff] ≠ str_of_bytes [xfe]
  ∧ ∀ root, relative_text root (root ++ [str_of_bytes [xff]]) = relative_text root (root ++ [str_of_bytes [xfe]]).
Proof. split; [done|]. intros root. unfold relative_text. rewrite !drop_app_length. by vm_compute. Qed.
Lemma bytes_no_char c s : no_char c s → Ascii.byte_of_ascii c ∉ str_bytes s.
Proof.
  induction s as [|a s IH]; [intros _ ?%elem_of_nil; done|]. intros [Ha Hs]. rewrite str_bytes_cons.
  intros [E|?]%elem_of_cons; [|by apply IH]. apply Ha.
  rewrite <- (Ascii.ascii_of_byte_of_ascii a), <- E. by rewrite Ascii.ascii_of_byte_of_ascii.
Qed.

(** Hexadecimal text has lower case digits only. *)
Definition hex_byte (b : byte) : bool := in_range 48 57 b || in_range 97 102 b.
Class HexText `{Hash} : Prop := hex_text bs : Forall (λ b, hex_byte b = true) (str_bytes (hex_encode bs)).

Section TreeHash.
Context `{Hash, !HexText}.
Definition names_ok (fs : FS) (excluded : list string) (root : path) : Prop :=
  ∀ rel bs, tree_file fs excluded root rel bs → Forall good_name rel.
Definition collision : Prop := ∃ x y : list byte, x ≠ y ∧ sha256_hex x = sha256_hex y.

Lemma walked_relative fs excluded root p :
  walked fs excluded root p → ∃ rel bs, p = root ++ rel ∧ rel ≠ [] ∧ tree_file fs excluded root rel bs.
Proof.
  intros Hp. destruct (walked_under _ _ _ _ Hp) as (name & rest & -> & bs & Hbs).
  exists (name :: rest), bs. split; [done|]. split; [done|]. by split.
Qed.
(** The entries of a tree, as pairs of its relative names and hashes. *)
Definition entries_of (fs : FS) (excluded : list string) (root : path) (l : list (string * string)) : Prop :=
  NoDup (l.*1) ∧ Forall line_ok l
  ∧ ∀ e, e ∈ l ↔ ∃ rel bs, rel ≠ [] ∧ tree_file fs excluded root rel bs ∧ e = (join "/" rel, sha256_hex bs).

Lemma sha256_hex_line bs : x0a ∉ str_bytes (sha256_hex bs).
Proof.
  intros Hin. pose proof (hex_text (sha256_digest bs)) as Hall. rewrite list.Forall_forall in Hall.
  specialize (Hall _ Hin). by vm_compute in Hall.
Qed.
Lemma sha256_hex_not_missing bs : sha256_hex bs ≠ "missing"%string.
Proof.
  intros E. pose proof (hex_text (sha256_digest bs)) as Hall. fold (sha256_hex bs) in Hall. rewrite E in Hall.
  vm_compute in Hall. inversion Hall; subst. discriminate.
Qed.
Lemma walked_entries fs excluded root ps :
  names_ok fs excluded root → NoDup ps → (∀ p, p ∈ ps ↔ walked fs excluded root p) →
  entries_of fs excluded root (hash_entry fs root <$> ps).
Proof.
  intros Hok Hnd Hps.
  assert (∀ p, p ∈ ps → ∃ rel bs, p = root ++ rel ∧ rel ≠ [] ∧ tree_file fs excluded root rel bs
    ∧ hash_entry fs root p = (join "/" rel, sha256_hex bs)) as Hentry.
  { intros p Hp%Hps. destruct (walked_relative _ _ _ _ Hp) as (rel & bs & -> & Hne & Hrel).
    exists rel, bs. do 3 (split; [done|]). unfold hash_entry. rewrite relative_text_good by eauto.
    destruct Hrel as [_ Hbs]. by rewrite Hbs. }
  split; [|split].
  - rewrite <- list_fmap_compose. apply NoDup_fmap_2_strong; [|done].
    intros p q Hp Hq E. change ((hash_entry fs root p).1 = (hash_entry fs root q).1) in E. destruct (Hentry p Hp) as (rp & bp & -> & Hnp & Htp & Ep).
    destruct (Hentry q Hq) as (rq & bq & -> & Hnq & Htq & Eq). f_equal.
    rewrite Ep, Eq in E. cbn [fst] in E.
    rewrite <- (split_join rp), <- (split_join rq), E; [done|done| |done|];
      (eapply list.Forall_impl; [eapply Hok; eassumption|]; by intros ? (? & _ & _)).
  - apply list.Forall_forall. intros e (p & -> & Hp)%list_elem_of_fmap.
    destruct (Hentry p Hp) as (rel & bs & -> & Hne & Ht & ->). split; cbn [fst snd]; [|apply sha256_hex_line].
    apply (bytes_no_char nul), no_char_join; [done|].
    eapply list.Forall_impl; [by eapply Hok|]. by intros ? (_ & _ & ? & _).
  - intros e. rewrite list_elem_of_fmap. split.
    + intros (p & -> & Hp). destruct (Hentry p Hp) as (rel & bs & -> & ? & ? & ?). eauto.
    + intros (rel & bs & Hne & Ht & ->). exists (root ++ rel). split; [|by apply Hps, Ht].
      unfold hash_entry. rewrite relative_text_good by eauto. destruct Ht as [_ Hbs]. by rewrite Hbs.
Qed.

Context `{DirOrder, !DirOrderLaws}.
Lemma hash_path_tree env s p excluded :
  calm s → p ≠ ""%string → fs_of s !! resolve env p = Some Dir →
  names_ok (fs_of s) excluded (resolve env p) →
  ∃ l, hash_path_excluding env p excluded s = (Ok (hash_entries l), s)
    ∧ entries_of (fs_of s) excluded (resolve env p) l.
Proof.
  intros Hs Hp Hdir Hok. set (root := resolve env p) in *.
  assert (is_dir (fs_of s) root = true) as Hd.
  { unfold is_dir. rewrite Hdir. by rewrite (bool_decide_eq_true_2 (Some Dir = Some Dir)), orb_true_r. }
  assert (is_empty p = false) as He by (unfold is_empty; by rewrite bool_decide_eq_false_2).
  destruct (collect_hash_walked s root excluded (walk_fuel (fs_of s)) root [] Hs Hd) as (ps & Hps & Hnd & Hin);
    [unfold walk_fuel; lia|lia|].
  exists (hash_entry (fs_of s) root <$> ps). split; [|by apply walked_entries].
  unfold hash_path_excluding, path_is_file, path_exists. rewrite He. fold root.
  rewrite (cli_bind_run _ _ s _ s (calm_is_file s root Hs)), Hdir.
  assert (io (fs_exists root) s = (Ok true, s)) as Hex.
  { apply calm_io. unfold fs_exists. rewrite stat_call_ok by apply Hs. fold (fs_of s). rewrite Hdir.
    by rewrite (bool_decide_eq_true_2 (is_Some (Some Dir))), orb_true_r by eauto. }
  rewrite (cli_bind_run _ _ s _ s Hex). cbn [negb].
  rewrite (cli_bind_run get_fs _ s (fs_of s) s eq_refl).
  by rewrite (cli_bind_run _ _ s _ s Hps).
Qed.
End TreeHash.

Lemma entries_unique `{Hash} fs fs' excluded root root' l l' :
  entries_of fs excluded root l → entries_of fs' excluded root' l' →
  (∀ rel bs, tree_file fs excluded root rel bs ↔ tree_file fs' excluded root' rel bs) →
  hash_entries l = hash_entries l'.
Proof.
  intros (Hnd & _ & Hl) (Hnd' & _ & Hl') Hsame. unfold hash_entries. fold by_name.
  rewrite (stable_sort_unique l l'); [done|done|].
  apply NoDup_Permutation; [by eapply NoDup_fmap_1|by eapply NoDup_fmap_1|].
  intros e. rewrite Hl, Hl'. setoid_rewrite Hsame. done.
Qed.
Lemma hash_entries_inj `{Hash, !HexText} l l' :
  Forall line_ok l → Forall line_ok l' → hash_entries l = hash_entries l' → l ≡ₚ l' ∨ collision.
Proof.
  intros Hl Hl' E. unfold hash_entries in E. fold by_name in E.
  rewrite <- (stable_sort_perm by_name l), <- (stable_sort_perm by_name l').
  rewrite <- (stable_sort_perm by_name l) in Hl. rewrite <- (stable_sort_perm by_name l') in Hl'.
  destruct (stable_sort by_name l) as [|a m], (stable_sort by_name l') as [|a' m']; [by left| | |].
  - by destruct (sha256_hex_not_missing ((a' :: m') ≫= hash_line)).
  - by destruct (sha256_hex_not_missing ((a :: m) ≫= hash_line)).
  - destruct (decide ((a :: m) ≫= hash_line = (a' :: m') ≫= hash_line)) as [Eb|Hne].
    + left. by rewrite (hash_lines_inj _ _ Hl Hl' Eb).
    + right. by eexists _, _.
Qed.

(** C26: when no call fails and the names of its files are UTF-8, without backslash
    and NUL ([names_ok]), the hash of a build directory stands for its files: it does
    not depend on where the directory is, on the order in which the operating system
    lists directories, nor on excluded names; two directories with the same relative
    names and contents have the same hash, and when the hashes are equal every file
    of one is a file of the other with the same bytes, unless two different texts
    with the same SHA-256 turn up.  Other names are not kept apart
    ([names_not_identified]). *)
Theorem tree_hash_identifies `{Hash, !HexText}
    (o1 o2 : DirOrder) `{!@DirOrderLaws o1, !@DirOrderLaws o2} env1 env2 s1 s2 p1 p2 excluded :
  calm s1 → calm s2 → p1 ≠ ""%string → p2 ≠ ""%string →
  fs_of s1 !! resolve env1 p1 = Some Dir → fs_of s2 !! resolve env2 p2 = Some Dir →
  names_ok (fs_of s1) excluded (resolve env1 p1) → names_ok (fs_of s2) excluded (resolve env2 p2) →
  ∃ h1 h2,
    @hash_path_excluding _ o1 env1 p1 excluded s1 = (Ok h1, s1)
    ∧ @hash_path_excluding _ o2 env2 p2 excluded s2 = (Ok h2, s2)
    ∧ ((∀ rel bs, tree_file (fs_of s1) excluded (resolve env1 p1) rel bs
                  ↔ tree_file (fs_of s2) excluded (resolve env2 p2) rel bs) → h1 = h2)
    ∧ (h1 = h2 → ∀ rel bs, tree_file (fs_of s1) excluded (resolve env1 p1) rel bs →
         tree_file (fs_of s2) excluded (resolve env2 p2) rel bs ∨ collision).
Proof.
  intros Hs1 Hs2 Hp1 Hp2 Hd1 Hd2 Hn1 Hn2.
  destruct (@hash_path_tree _ _ o1 _ env1 s1 p1 excluded Hs1 Hp1 Hd1 Hn1) as (l1 & Hr1 & He1).
  destruct (@hash_path_tree _ _ o2 _ env2 s2 p2 excluded Hs2 Hp2 Hd2 Hn2) as (l2 & Hr2 & He2).
  exists (hash_entries l1), (hash_entries l2). split; [done|]. split; [done|].
  split; [by apply entries_unique|]. intros E rel bs Hf.
  destruct (hash_entries_inj l1 l2) as [Hperm|]; [apply He1|apply He2|done| |by right].
  assert (rel ≠ []) as Hne.
  { intros ->. destruct Hf as [Hw _]. destruct (walked_under _ _ _ _ Hw) as (n & rest & E0 & _).
    apply app_inv_head in E0. discriminate. }
  assert ((join "/" rel, sha256_hex bs) ∈ l2) as Hin by (rewrite <- Hperm; apply He1; eauto).
  apply He2 in Hin as (rel2 & bs2 & Hne2 & Hf2 & [= Erel Ebs]).
  assert (rel = rel2) as <-.
  { rewrite <- (split_join rel), <- (split_join rel2), Erel; [done|done| |done|];
      (eapply list.Forall_impl; [eauto|]; by intros ? (? & _ & _)). }
  destruct (decide (bs = bs2)) as [<-|Hbs]; [by left|]. right. by exists bs, bs2.
Qed.

(** *** Witness *)
Lemma names_ok_all fs excluded root : map_Forall (λ p _, Forall good_name p) fs → names_ok fs excluded root.
Proof.
  intros Hall rel bs [_ Hbs]. apply Hall in Hbs. by apply list.Forall_app in Hbs as [_ ?].
Qed.
#[global] Instance no_char_dec c s : Decision (no_char c s).
Proof. induction s; simpl; apply _. Defined.
#[global] Instance good_name_dec n : Decision (good_name n).
Proof. unfold good_name. apply _. Defined.
Lemma hex_string_text bs : Forall (λ b, hex_byte b = true) (str_bytes (hex_string bs)).
Proof.
  induction bs as [|b bs IH]; [constructor|].
  change (hex_string (b :: bs)) with (hex2 false b +:+ hex_string bs). rewrite str_bytes_app.
  apply Forall_app_2; [|done]. destruct b; by repeat constructor.
Qed.
Lemma demo_hash_text : @HexText demo_hash.
Proof. intros bs. apply hex_string_text. Qed.
Definition demo_tree (dir : string) (extra : list (path * node)) : Shell := shell_with (list_to_map ([
  ([dir], Dir); ([dir; "libs"], Dir); ([dir; "libs"; "x"], Dir);
  ([dir; "libs"; "x"; "a.so"], File [x01]); ([dir; "libs"; "b.so"], File [x02])]%string ++ extra)).
Definition demo_tree1 : Shell := demo_tree "app" [].
Definition demo_tree2 : Shell := demo_tree "ci" [(["ci"; "libs"; "libapp.so"]%string, File [x03])].
Lemma tree_hash_identifies_witness : ∃ h1 h2,
  @hash_path_excluding demo_hash listing_order demo_env "libs" ["libapp.so"%string] demo_tree1 = (Ok h1, demo_tree1)
  ∧ @hash_path_excluding demo_hash reverse_order demo_env "/ci/libs" ["libapp.so"%string] demo_tree2
    = (Ok h2, demo_tree2) ∧ h1 = h2.
Proof.
  destruct (@tree_hash_identifies demo_hash demo_hash_text listing_order reverse_order listing_order_laws
    reverse_order_laws demo_env demo_env demo_tree1 demo_tree2 "libs" "/ci/libs" ["libapp.so"%string])
    as (h1 & h2 & Hr1 & Hr2 & _ & _); [done|done|done|done|by vm_compute|by vm_compute|..].
  - apply names_ok_all. apply (bool_decide_unpack _). by vm_compute.
  - apply names_ok_all. apply (bool_decide_unpack _). by vm_compute.
  - exists h1, h2. split; [exact Hr1|]. split; [exact Hr2|].
    assert (Ok h1 = (@hash_path_excluding demo_hash listing_order demo_env "libs" ["libapp.so"%string] demo_tree1).1)
      as E1 by by rewrite Hr1.
    assert (Ok h2 = (@hash_path_excluding demo_hash reverse_order demo_env "/ci/libs" ["libapp.so"%string] demo_tree2).1)
      as E2 by by rewrite Hr2.
    assert (Ok h1 = Ok h2 :> result string) as E by (rewrite E1, E2; vm_compute; reflexivity).
    by injection E.
Defined.
