(* ===== verification/BuildFacts.v ===== *)
(** * Resolved builds and the gate before the build

    What the options of a command resolve to and when they are refused, and what
    the comparison made before the Flutter build can and cannot see. *)
From S2P Require Import Prelude Text Floats External Crypto Manifest Linker BuildInfo Config World Flights Net Shell AotEntryPoints Auto AutoFacts.
Local Open Scope N_scope.

(** ** Dart defines *)
Definition equals : Ascii.ascii := Ascii.ascii_of_nat 61.
Lemma split_once_cons a d :
  split_once "=" (String a d) =
    if decide (a = equals) then Some (""%string, d)
    else (λ kv, (String a kv.1, kv.2)) <$> split_once "=" d.
Proof.
  unfold split_once, find. cbn [String.index String.prefix].
  assert (String.prefix "" d = true) as Hp by by destruct d.
  change (Ascii.Ascii true false true true true true false false) with equals.
  destruct (Ascii.ascii_dec equals a) as [<-|Ha].
  - rewrite Hp, decide_True by done. cbn [sdrop stake String.length Nat.add]. by destruct d.
  - rewrite decide_False by congruence. by destruct (String.index 0 (String equals "") d).
Qed.
(** The text before the first [=] and the text behind it. *)
Lemma split_once_spec d k v :
  split_once "=" d = Some (k, v) ↔ no_char equals k ∧ d = k +:+ String equals v.
Proof.
  revert k. induction d as [|a d IH]; intros k.
  { split; [done|]. intros [_ E]. by destruct k. }
  rewrite split_once_cons. case_decide as Ha.
  - subst a. split; [by intros [= <- <-]|]. intros [Hk E]. destruct k as [|b k]; [by injection E as ->|].
    injection E as E _. destruct Hk as [Hk _]. by symmetry in E.
  - split.
    + intros ([k' v'] & Hs & E)%fmap_Some. injection E as -> ->. apply IH in Hs as [Hk ->]. done.
    + intros [Hk E]. destruct k as [|b k]; [by injection E as ->|]. injection E as -> E.
      destruct Hk as [_ Hk]. assert (split_once "=" d = Some (k, v)) as -> by by apply IH. done.
Qed.
Lemma split_once_none d : split_once "=" d = None ↔ no_char equals d.
Proof.
  induction d as [|a d IH]; [done|]. rewrite split_once_cons. cbn [no_char]. rewrite <- IH.
  case_decide; [by split; [|intros [? _]]|]. by destruct (split_once "=" d); split; [|intros [_ ?]| |].
Qed.

(** What the last define of a key in [l] sets it to. *)
Fixpoint last_define (l : list string) (key : string) : option string :=
  match l with
  | [] => None
  | d :: l =>
    match last_define l key with
    | Some v => Some v
    | None => match split_once "=" d with
              | Some (k, v) => if decide (k = key) then Some v else None
              | None => None
              end
    end
  end.
Lemma with_dart_defines_spec m l :
  no_panic (with_dart_defines m l)
  ∧ ∀ m', with_dart_defines m l = Ok m' ↔
      Forall (λ d, ¬ no_char equals d) l
      ∧ ∀ key, m' !! key = or_else (last_define l key) (m !! key).
Proof.
  revert m. induction l as [|d l IH]; intros m.
  - split; [done|]. intros m'. simpl. split.
    + intros [= <-]. by split; [constructor|].
    + intros [_ Hm]. f_equal. by apply map_eq.
  - cbn [with_dart_defines last_define]. unfold with_dart_define.
    destruct (split_once "=" d) as [[k v]|] eqn:Hs.
    + destruct (IH (<[k := v]> m)) as [Hn Hm]. split; [done|]. intros m'. cbn [mbind res_bind]. rewrite Hm.
      rewrite list.Forall_cons, <- split_once_none, Hs.
      assert (∀ key, or_else (last_define l key) (<[k := v]> m !! key)
        = or_else (match last_define l key with Some v => Some v
                   | None => if decide (k = key) then Some v else None end) (m !! key)) as Hkey.
      { intros key. destruct (last_define l key); [done|]. cbn [or_else]. case_decide as Hk.
        - subst k. by rewrite lookup_insert_eq.
        - by rewrite lookup_insert_ne. }
      setoid_rewrite Hkey. naive_solver.
    + split; [done|]. intros m'. split; [done|]. intros [[Hd _]%list.Forall_cons _].
      by apply split_once_none in Hs.
Qed.

(** ** Resolving options *)
Section Resolve.
Context {C : Type} `{BuildContext C}.
Variable env : Environment.

(** The values the options and the configuration give, before they are checked. *)
Definition chosen_mode (context : C) (options : BuildOptions) : string :=
  default "release"%string (or_else (bo_build_mode options) (lb_build_mode (build_config context))).
Definition chosen_sdk (context : C) (platform : string) (options : BuildOptions) : string :=
  default "iphoneos"%string
    (or_else (bo_ios_sdk options) (lb_platforms (build_config context) !! platform ≫= sdk)).
(** The options are refused unless this holds. *)
Definition buildable (context : C) (platform arch : string) (options : BuildOptions) : Prop :=
  chosen_mode context options ∈ ["debug"; "profile"; "release"]%string
  ∧ Forall (λ d, ¬ no_char equals d) (bo_dart_defines options)
  ∧ (platform = "ios"%string → chosen_sdk context platform options ∈ ["iphoneos"; "iphonesimulator"]%string)
  ∧ (platform = "android"%string → ∀ config, lb_platforms (build_config context) !! platform = Some config →
       abis config = [] ∨ arch ∈ abis config).
(** The type of a resolved build for a platform. *)
Record typed_build (context : C) (platform arch : string) (options : BuildOptions) (build : ResolvedBuild) : Prop := {
  typed_mode : rb_build_mode build = chosen_mode context options
               ∧ rb_build_mode build ∈ ["debug"; "profile"; "release"]%string;
  typed_sdk : ios_sdk build = chosen_sdk context platform options
              ∧ (platform = "ios"%string → ios_sdk build ∈ ["iphoneos"; "iphonesimulator"]%string);
  typed_defines : ∀ key, rb_dart_defines build !! key
    = or_else (last_define (bo_dart_defines options) key) (lb_dart_defines (build_config context) !! key);
  typed_ignored : ∀ key, key ∈ rb_ignored_dart_define_keys build ↔
    key ∈ lb_ignored_dart_define_keys (build_config context) ∨ key ∈ bo_ignored_dart_define_keys options;
  typed_paths : ∀ p, p ∈ [project build; flutter build] ++ option_list (rb_local_engine_src_path build) →
    ∃ q, p = resolve_path env (default "."%string (path_parent (config_path context))) q;
}.

Lemma path_exists_run p s : ∃ b s', path_exists env p s = (Ok b, s') ∧ fs_of s' = fs_of s.
Proof.
  unfold path_exists. destruct (is_empty p); [by exists false, s|].
  destruct (io (fs_exists (resolve env p)) s) as [r s'] eqn:E.
  pose proof E as (w & (Hr & Hfs & _)%stat_call_inv & ->)%io_inv. destruct Hr as [->| ->]; by do 2 eexists.
Qed.
Lemma default_flutter_run s : ∃ p s', default_flutter_path env s = (Ok p, s') ∧ fs_of s' = fs_of s.
Proof.
  unfold default_flutter_path. cbv zeta.
  destruct (path_exists_run "vendor/flutter/bin/flutter" s) as (b & s' & Hb & Hfs).
  rewrite (cli_bind_run _ _ _ _ _ Hb). eauto.
Qed.
Lemma defines_ok m l : Forall (λ d, ¬ no_char equals d) l → ∃ m', with_dart_defines m l = Ok m'.
Proof.
  revert m. induction l as [|d l IH]; intros m Hd; [eauto|]. apply list.Forall_cons in Hd as [Hd Hl].
  cbn [with_dart_defines]. unfold with_dart_define.
  destruct (split_once "=" d) as [[k v]|] eqn:Hs; [by apply IH|]. by apply split_once_none in Hs.
Qed.
Lemma refused (context : C) platform arch options (e : error) (s s' : Shell) :
  fs_of s' = fs_of s → ¬ buildable context platform arch options →
  no_panic (Err e : result ResolvedBuild) ∧ fs_of s' = fs_of s
  ∧ (is_ok (Err e : result ResolvedBuild) = true ↔ buildable context platform arch options)
  ∧ ∀ build, (Err e : result ResolvedBuild) = Ok build → typed_build context platform arch options build.
Proof. intros Hs Hb. split; [done|]. split; [done|]. split; [by split|done]. Qed.
Definition abi_allowed (context : C) (platform arch : string) : Prop :=
  platform = "android"%string → ∀ config, lb_platforms (build_config context) !! platform = Some config →
    abis config = [] ∨ arch ∈ abis config.
Lemma abi_check (context : C) platform arch s :
  let x : Cli unit :=
    if String.eqb platform "android" then
      match lb_platforms (build_config context) !! platform with
      | Some config =>
        if negb (bool_decide (abis config = [])) && negb (existsb (String.eqb arch) (abis config)) then
          cli_err ("arch " +:+ arch +:+ " is not in configured Android ABI list: " +:+ join ", " (abis config))
        else mret tt
      | None => mret tt
      end
    else mret tt in
  (x s = (Ok tt, s) ∧ abi_allowed context platform arch)
  ∨ ∃ e, x s = (Err e, s) ∧ ¬ abi_allowed context platform arch.
Proof.
  cbv zeta. unfold abi_allowed. destruct (String.eqb_spec platform "android") as [->|Hp]; [|by left].
  destruct (lb_platforms _ !! _) as [config|]; [|by left].
  destruct (bool_decide (abis config = [])) eqn:Hn; cbn [negb andb].
  { left. apply bool_decide_eq_true in Hn. split; [done|]. intros _ ? [= <-]. by left. }
  apply bool_decide_eq_false in Hn. destruct (existsb _ _) eqn:He; cbn [negb].
  - left. apply existsb_elem in He. split; [done|]. intros _ ? [= <-]. by right.
  - right. eexists. split; [done|]. intros Ha. destruct (Ha eq_refl config eq_refl) as [|Hin]; [done|].
    apply existsb_elem in Hin. congruence.
Qed.
Lemma mode_check m : negb (one_of ["debug"; "profile"; "release"]%string m) = false
  ↔ m ∈ ["debug"; "profile"; "release"]%string.
Proof. by rewrite negb_false_iff, one_of_spec. Qed.

(** C27: the options of a command resolve to a build of the right type or are
    refused with an error, and nothing is written: a build has one of the three
    modes, for iOS one of the two SDKs, an ABI the configuration allows, the last
    value given to each dart define over the configured one, and paths resolved
    against the directory of [fcb.yaml]; exactly the options that violate this
    are refused. *)
Theorem resolve_build_typed (context : C) platform arch options example s :
  let '(r, s') := resolve_build env context platform arch options example s in
  no_panic r ∧ fs_of s' = fs_of s
  ∧ (is_ok r = true ↔ buildable context platform arch options)
  ∧ ∀ build, r = Ok build → typed_build context platform arch options build.
Proof.
  unfold resolve_build. cbv zeta.
  match goal with |- context [(mbind _ ?x) s] => assert (∃ s1, x s = (Ok tt, s1) ∧ fs_of s1 = fs_of s) as (s1 & Hw & Hfs) end.
  { destruct (bool_decide _); by eexists. }
  rewrite (cli_bind_run _ _ _ _ _ Hw). clear Hw. rewrite <- Hfs. clear Hfs.
  match goal with |- context [(mbind _ ?x) s1] =>
    assert (∃ f s2, x s1 = (Ok f, s2) ∧ fs_of s2 = fs_of s1) as (f & s2 & Hf & Hfs) end.
  { destruct (or_else _ _); [by do 2 eexists|apply default_flutter_run]. }
  rewrite (cli_bind_run _ _ _ _ _ Hf). clear Hf. rewrite <- Hfs. clear Hfs. clear s s1. rename s2 into s1.
  fold (chosen_mode context options). fold (chosen_sdk context platform options).
  destruct (negb (one_of ["debug"; "profile"; "release"]%string (chosen_mode context options))) eqn:Hmode.
  { apply refused; [done|]. intros (Hm%mode_check & _). congruence. }
  apply mode_check in Hmode.
  destruct (with_dart_defines_spec (lb_dart_defines (build_config context)) (bo_dart_defines options)) as [Hn Hdef].
  unfold mbind at 1, cli_bind at 1. unfold cli_lift at 1.
  destruct (with_dart_defines _ (bo_dart_defines options)) as [defines|e|m] eqn:Ed; [| |by destruct (Hn m)].
  2:{ apply refused; [done|]. intros (_ & Hd & _). destruct (defines_ok (lb_dart_defines (build_config context)) _ Hd) as [m' Hm']. congruence. }
  destruct (proj1 (Hdef defines) eq_refl) as [Hd Hlookup].
  destruct (String.eqb platform "ios" && negb (one_of ["iphoneos"; "iphonesimulator"]%string
    (chosen_sdk context platform options))) eqn:Hsdk.
  { apply refused; [done|]. intros (_ & _ & Hs & _). apply andb_true_iff in Hsdk as [->%String.eqb_eq Hsdk].
    specialize (Hs eq_refl). apply one_of_spec in Hs. by rewrite Hs in Hsdk. }
  assert (platform = "ios"%string → chosen_sdk context platform options ∈ ["iphoneos"; "iphonesimulator"]%string) as Hs.
  { intros Hp. apply String.eqb_eq in Hp. rewrite Hp in Hsdk. cbn [andb] in Hsdk.
    apply negb_false_iff in Hsdk. by apply one_of_spec. }
  match goal with |- context [(mbind _ ?x) s1] =>
    destruct (abi_check context platform arch s1 : _ ∨ ∃ e, x s1 = _ ∧ _) as [[Hx Ha]|(e & Hx & Ha)] end.
  - rewrite (cli_bind_run _ _ _ _ _ Hx). split; [done|]. split; [done|]. split; [by split; [|done]|].
    intros build [= <-]. split; cbn; [done|done|done| |].
    + intros key. by rewrite elem_of_union, elem_of_list_to_set.
    + intros p Hp. destruct (or_else (bo_local_engine_src_path options) _) as [q|]; simpl in Hp; set_solver.
  - unfold mbind at 1, cli_bind at 1. rewrite Hx. apply refused; [done|]. intros (_ & _ & _ & Habi). by apply Ha.
Qed.
End Resolve.

(** ** The gate before the build *)
(** What is known before the build products exist. *)
Definition same_before_build (a b : BuildInfo) : Prop :=
  bi_schema_version a = bi_schema_version b ∧ bi_backend a = bi_backend b
  ∧ bi_platform a = bi_platform b ∧ bi_arch a = bi_arch b ∧ target_platform a = target_platform b
  ∧ build_mode a = build_mode b ∧ flavor a = flavor b ∧ flutter_tool_rev a = flutter_tool_rev b
  ∧ engine_fork_rev a = engine_fork_rev b ∧ dart_sdk_rev a = dart_sdk_rev b
  ∧ pubspec_lock_hash a = pubspec_lock_hash b.
Definition product_fields : list string :=
  ["asset_hash"; "native_hash"; "plugin_hash"; "obfuscation"; "split_debug_info"]%string.

Section Gate.
Context `{Hash, Processes, DirOrder, Modified}.
Variable env : Environment.

Lemma build_info_of_ok platform arch backend build rest s info s' :
  build_info_of env platform arch backend build rest s = (Ok info, s') →
  ∃ s1 asset native plugin obf split,
    rest s1 = (Ok (asset, native, plugin, obf, split), s')
    ∧ asset_hash info = asset ∧ native_hash info = native ∧ plugin_hash info = plugin
    ∧ obfuscation info = obf ∧ split_debug_info info = split
    ∧ bi_schema_version info = BUILD_INFO_SCHEMA_VERSION ∧ bi_backend info = backend
    ∧ bi_platform info = platform ∧ bi_arch info = arch
    ∧ target_platform_label platform arch build = Ok (target_platform info)
    ∧ build_mode info = rb_build_mode build ∧ flavor info = rb_flavor build
    ∧ dart_defines info = rb_dart_defines build
    ∧ ignored_dart_define_keys info = rb_ignored_dart_define_keys build.
Proof.
  unfold build_info_of. intros (label & s1 & [Hl ->]%cli_lift_ok & Hr)%cli_bind_ok.
  apply cli_bind_ok in Hr as (tool & s2 & _ & Hr). apply cli_bind_ok in Hr as (engine & s3 & _ & Hr).
  apply cli_bind_ok in Hr as (dart & s4 & _ & Hr). apply cli_bind_ok in Hr as (lock & s5 & _ & Hr).
  apply cli_bind_ok in Hr as ([[[[asset native] plugin] obf] split] & s6 & Hrest & Hr).
  injection Hr as <- <-. exists s5, asset, native, plugin, obf, split. by repeat (split; [done|]).
Qed.

Lemma prebuild_products release platform arch backend build s info s' :
  collect_prebuild_build_info env release platform arch backend build s = (Ok info, s') →
  asset_hash info = asset_hash release ∧ native_hash info = native_hash release
  ∧ plugin_hash info = plugin_hash release ∧ obfuscation info = obfuscation release
  ∧ split_debug_info info = split_debug_info release.
Proof.
  intros (s1 & a & n & p & o & sp & Hrest & -> & -> & -> & -> & -> & _)%build_info_of_ok.
  by injection Hrest as -> -> -> -> ->.
Qed.
End Gate.

Lemma compare_field_eq field a : compare_field (field, a, a) = None.
Proof. by apply compare_field_none. Qed.

(** The gate before the build is sound and partial: it never reports a
    difference in the build products or the compiler settings, which it takes
    from the release, and whatever the build then yields, each of its failures is
    also a failure of the gate after the build, in the same order; so a build
    refused early would have been refused later. *)
Theorem prebuild_gate_sound `{Hash, Processes, DirOrder, Modified} env release platform arch backend build s info s' final :
  collect_prebuild_build_info env release platform arch backend build s = (Ok info, s') →
  same_before_build info final →
  Forall (λ m, mm_field m ∉ product_fields) (hard_failures (compare_for_patch release info))
  ∧ sublist (hard_failures (compare_for_patch release info)) (hard_failures (compare_for_patch release final))
  ∧ (comparison_is_ok (compare_for_patch release final) = true →
       comparison_is_ok (compare_for_patch release info) = true).
Proof.
  intros Hi (E1 & E2 & E3 & E4 & E5 & E6 & E7 & E8 & E9 & E10 & E11).
  destruct (prebuild_products _ _ _ _ _ _ _ _ _ Hi) as (P1 & P2 & P3 & P4 & P5).
  assert (∃ known products,
    hard_failures (compare_for_patch release info) = omap compare_field known
    ∧ hard_failures (compare_for_patch release final) = omap compare_field known ++ products
    ∧ Forall (λ e : string * string * string, e.1.1 ∉ product_fields) known) as (known & products & Hk & Hp & Hf).
  { exists (take 11 (compared_fields release info)), (omap compare_field (drop 11 (compared_fields release final))).
    cbn [hard_failures compare_for_patch]. unfold compared_fields.
    rewrite P1, P2, P3, P4, P5, <- E1, <- E2, <- E3, <- E4, <- E5, <- E6, <- E7, <- E8, <- E9, <- E10, <- E11.
    cbn [take drop]. split; [|split].
    - match goal with |- omap _ ?l = omap _ ?l' =>
        assert (∃ tl, l = l' ++ tl ∧ omap compare_field tl = []) as (tl & -> & Htl) end.
      { eexists. split; [reflexivity|]. cbn [omap list_omap]. by rewrite !compare_field_eq. }
      by rewrite omap_app, Htl, app_nil_r.
    - rewrite <- omap_app. reflexivity.
    - repeat (constructor; [cbn; apply (bool_decide_unpack _); by vm_compute|]). constructor. }
  rewrite Hk, Hp. split; [|split].
  - apply list.Forall_forall. intros m ([[f r] p] & Hin & Hm)%list_elem_of_omap.
    rewrite list.Forall_forall in Hf. specialize (Hf _ Hin). unfold compare_field in Hm.
    destruct (negb _); [|done]. by injection Hm as <-.
  - apply sublist_inserts_r. done.
  - unfold comparison_is_ok. rewrite Hk, Hp, !bool_decide_eq_true. by intros [? _]%app_nil.
Qed.

(** *** Witness *)
(** Every program answers a revision. *)
Definition demo_programs : Processes := λ _ _ fs,
  (inr {| success := true; exit_status := "exit status: 0"; stdout := str_bytes "0123abcd"; stderr := [] |}, fs).
Definition demo_modified : Modified := λ _ _, None.
Definition demo_resolved : ResolvedBuild := {|
  project := "/app"; flutter := "/sdk/bin/flutter"; target := "lib/main.dart"; rb_build_mode := "release";
  rb_flavor := None; rb_dart_defines := ∅; rb_ignored_dart_define_keys := ∅; ios_sdk := "iphoneos";
  rb_local_engine := None; rb_local_engine_host := None; rb_local_engine_src_path := None |}.
Definition demo_release_info : BuildInfo := {|
  bi_schema_version := 3; bi_backend := "bytecode"; bi_platform := "android"; bi_arch := "arm64-v8a";
  target_platform := "android-arm64"; build_mode := "debug"; flavor := None;
  flutter_tool_rev := "0123abcd"; engine_fork_rev := "0123abcd"; dart_sdk_rev := "0123abcd";
  pubspec_lock_hash := "missing"; asset_hash := "aa"; native_hash := "missing"; plugin_hash := "missing";
  obfuscation := false; split_debug_info := None; dart_defines := ∅; ignored_dart_define_keys := ∅ |}.
Definition demo_prebuild : result BuildInfo * Shell :=
  @collect_prebuild_build_info demo_hash demo_programs demo_env demo_release_info "android" "arm64-v8a" "bytecode"
    demo_resolved demo_tree1.
Definition demo_info : BuildInfo := {|
  bi_schema_version := 3; bi_backend := "bytecode"; bi_platform := "android"; bi_arch := "arm64-v8a";
  target_platform := "android-arm64"; build_mode := "release"; flavor := None;
  flutter_tool_rev := "0123abcd"; engine_fork_rev := "0123abcd"; dart_sdk_rev := "0123abcd";
  pubspec_lock_hash := "missing"; asset_hash := "aa"; native_hash := "missing"; plugin_hash := "missing";
  obfuscation := false; split_debug_info := None; dart_defines := ∅; ignored_dart_define_keys := ∅ |}.
(** The build modes differ, and the assets of the finished build as well. *)
Lemma prebuild_gate_sound_witness : ∃ final,
  asset_hash final ≠ asset_hash demo_release_info
  ∧ comparison_is_ok (compare_for_patch demo_release_info demo_info) = false
  ∧ sublist (hard_failures (compare_for_patch demo_release_info demo_info))
            (hard_failures (compare_for_patch demo_release_info final)).
Proof.
  destruct demo_prebuild as [r s'] eqn:E.
  assert (r = Ok demo_info) as -> by (change r with (r, s').1; rewrite <- E; vm_compute; reflexivity).
  pose (final := {|
    bi_schema_version := 3; bi_backend := "bytecode"; bi_platform := "android"; bi_arch := "arm64-v8a";
    target_platform := "android-arm64"; build_mode := "release"; flavor := None;
    flutter_tool_rev := "0123abcd"; engine_fork_rev := "0123abcd"; dart_sdk_rev := "0123abcd";
    pubspec_lock_hash := "missing"; asset_hash := "bb"; native_hash := "missing"; plugin_hash := "missing";
    obfuscation := false; split_debug_info := None; dart_defines := ∅; ignored_dart_define_keys := ∅ |}).
  exists final. split; [done|]. split; [by vm_compute|].
  refine (proj1 (proj2 (@prebuild_gate_sound demo_hash demo_programs listing_order demo_modified
    _ _ _ _ _ _ _ _ _ final E _))).
  by repeat split.
Defined.
