(* ===== verification/Inspect.v ===== *)
(** * Inspecting patches and releases

    Models [cli/src/inspect.rs]: which kind of file a patch file is, and the
    summaries printed for reports and bytecode modules. *)
From S2P Require Import Prelude Text Floats External Bytecode BytecodeCheck Manifest Linker World Flights Net Shell AotEntryPoints Auto.
Local Open Scope N_scope.

(** [serde_json::from_value]. *)
Class FromValue (A : Type) := from_value : Value.t → res string A.
#[global] Hint Mode FromValue ! : typeclass_instances.

Definition number (n : N) : Value.t := Value.Number (dec n).
Definition sum_of {A} (f : A → N) (l : list A) : N := foldr (λ a n, f a + n) 0 l.
(** [code.contains(&(op as u8))]. *)
Definition contains_byte (op : OpCode.t) (code : list byte) : bool :=
  existsb (λ b, bool_decide (b = OpCode.to_byte op)) code.
(** [value.get(key)]. *)
Definition value_get (key : string) (v : Value.t) : option Value.t :=
  match v with Value.Object fields => map_get key fields | _ => None end.

Definition function_summary (function : BytecodeFunction) : Value.t := json_object [
  ("name"%string, Value.String (name function));
  ("return_convention"%string, Value.String (return_convention function));
  ("param_count"%string, number (param_count function));
  ("local_count"%string, number (local_count function));
  ("constant_count"%string, number (len (constants function)));
  ("code_bytes"%string, number (len (code function)));
  ("source_map_entries"%string, number (len (source_map function)));
  ("first_source_location"%string,
     json_opt_string (Bytecode.source_location <$> head (source_map function)));
  ("uses_call_static"%string, Value.Bool (contains_byte OpCode.CallStatic (code function)));
  ("uses_get_field"%string, Value.Bool (contains_byte OpCode.GetField (code function)));
  ("uses_set_field"%string, Value.Bool (contains_byte OpCode.SetField (code function)))].
Definition bytecode_summary (module : BytecodeModule) : Value.t :=
  let functions := Bytecode.functions module in
  json_object [
    ("kind"%string, Value.String "bytecode_module"); ("version"%string, number (version module));
    ("function_count"%string, number (len functions));
    ("total_code_bytes"%string, number (sum_of (λ f, len (code f)) functions));
    ("total_constants"%string, number (sum_of (λ f, len (constants f)) functions));
    ("total_source_map_entries"%string, number (sum_of (λ f, len (source_map f)) functions));
    ("functions_with_source_map"%string,
       number (len (List.filter (λ f, negb (bool_decide (source_map f = []))) functions)));
    ("functions"%string, Value.Array (function_summary <$> functions))].

Section Inspect.
Context `{Serde Value.t, Serde BytecodeModule, Serde ReleaseManifest, Serde PatchManifest}.
Context `{ToValue PatchReport, FromValue PatchReport, FromValue BytecodeModule, FromValue PatchManifest}.
Context `{JsonF64}.
Variable env : Environment.

Definition patch_report_summary (report : PatchReport) : result Value.t :=
  summary ← map_err Json (to_value report);
  match linker_plan report, summary with
  | None, _ => Ok summary
  | Some plan, Value.Object fields =>
    let fields := map_insert "estimated_interpreter_ratio" (json_f64 (estimated_interpreter_ratio plan)) fields in
    let fields := map_insert "estimated_interpreted_functions" (number (len (interpret plan))) fields in
    let fields := map_insert "estimated_total_patchable_functions"
                    (number (len (interpret plan) + len (unchanged plan))) fields in
    Ok (Value.Object
      (match interpreter_ratio_warning plan with
       | Some warning => map_insert "interpreter_ratio_warning" (Value.String warning) fields
       | None => fields
       end))
  | Some _, summary => Ok summary
  end.
Definition print_json {A} `{Serde A} (a : A) : Cli unit :=
  text ← cli_lift (to_string_pretty a); println text.
Definition inspect_patch (bytes : list byte) : Cli unit :=
  match from_slice (A:=Value.t) bytes with
  | Panic s => cli_lift (Panic s)
  | Err json_error =>
    module ← cli_lift (map_err (λ module_error,
        Message ("patch is not JSON (" +:+ json_error +:+ ") or bytecode module ("
                 +:+ error_to_string module_error +:+ ")")) (module_from_slice bytes));
    print_json (bytecode_summary module)
  | Ok json =>
    if bool_decide (is_Some (value_get "status" json)) then
      report ← cli_lift (map_err Json (from_value (A:=PatchReport) json));
      summary ← cli_lift (patch_report_summary report);
      _ ← match value_get "interpreter_ratio_warning" summary with
          | Some (Value.String warning) => eprintln warning
          | _ => mret tt
          end;
      print_json summary
    else if bool_decide (is_Some (value_get "functions" json)) && bool_decide (is_Some (value_get "version" json)) then
      module ← cli_lift (map_err Json (from_value (A:=BytecodeModule) json));
      _ ← cli_lift (validate module);
      print_json (bytecode_summary module)
    else
      manifest ← cli_lift (map_err Json (from_value (A:=PatchManifest) json));
      print_json manifest
  end.
Definition inspect (kind p : string) : Cli unit :=
  bytes ← read_file env p;
  if String.eqb kind "patch" then inspect_patch bytes
  else if String.eqb kind "release" then
    manifest ← cli_lift (map_err Json (from_slice (A:=ReleaseManifest) bytes));
    print_json manifest
  else cli_err "inspect kind must be patch or release".
End Inspect.
