(* ===== verification/Cli.v ===== *)
(** * The command line

    Models [cli/src/main.rs] and [cli/src/bytecode_payload.rs]: the resolved
    context, every subcommand but [inspect], the trust-on-first-use pins of public
    keys and the gates a patch passes before it is signed and uploaded.

    The report a patch command writes is threaded through the steps that fill it
    by [Reporting], so an error keeps what they recorded. *)
From S2P Require Import Prelude Text Floats External Bytecode BytecodeCheck Crypto Diff Manifest World State Linker BuildInfo Config Flights Net ServerApi Shell AotEntryPoints Auto Inspect.
Local Open Scope N_scope.

(** ** Arguments *)
Inductive Subcommand :=
| Init (name channel : string)
| AppAdd (name : string) (id : option string) (channel : string)
| Doctor
| Release (platform : string) (build : BuildOptions) (example : option string) (release_version arch : string)
| Patch (platform : string) (build : BuildOptions) (release_version : string) (patch_number : N)
    (arch : string) (payload : option string)
| Promote (release_version : string) (patch_number : N) (platform arch channel : string)
    (rollout_percentage : N)
| Rollback (release_version : string) (patch_number : N) (platform arch : string)
| Check (release_version platform arch channel : string) (current_patch_number : N) (client_id : string)
    (install : bool) (cache_dir : string)
| Install (manifest payload cache_dir : string)
| MarkSuccess (cache_dir : string)
| MarkFailure (patch_number : N) (reason cache_dir : string)
| Inspect (kind path : string).
Record Args := {
  ar_server : option string; ar_token : option string; ar_app : option string; ar_app_id : option string;
  ar_key_file : option string; i_understand_store_policy : bool; command : Subcommand;
}.
Record ResolvedContext := {
  cx_server : string; cx_token : option string; cx_app : option string; cx_app_id : option string;
  cx_key_file : string; cx_config_path : string; cx_build : LocalBuildConfig;
}.
#[global] Instance resolved_build_context : BuildContext ResolvedContext :=
  {| config_path := cx_config_path; build_config := cx_build |}.
Definition default_build : LocalBuildConfig := {|
  lb_project := None; lb_flutter := None; lb_target := None; lb_build_mode := None; lb_flavor := None;
  lb_dart_defines := ∅; lb_ignored_dart_define_keys := ∅; lb_platforms := ∅ |}.

Record PatchPayloadResult := {
  py_bytes : list byte; py_kind : string; py_diff_algorithm : option string; py_base_hash : option string;
  py_output_hash : option string; py_artifact : option (list byte);
}.
Record AotEntryPoints := { function_ids : list string }.

(** ** Names and paths *)
Definition fcb_dir : string := FCB_DIR.
Definition release_cache_dir (app_id release_version platform arch : string) : string :=
  joins fcb_dir ["apps"%string; app_id; "releases"%string; release_version; platform; arch].
Definition patch_cache_dir (release_version : string) (patch_number : N) (platform arch : string) : string :=
  joins fcb_dir ["patches"%string; release_version; dec patch_number; platform; arch].
Definition patch_artifact_path (release_version : string) (patch_number : N) (platform arch : string) : string :=
  join_text (patch_cache_dir release_version patch_number platform arch) "artifact.bin".
Definition object_key (app_id release_version platform arch : string) (patch_number : N) (file_name : string) : string :=
  "patches/" +:+ app_id +:+ "/" +:+ release_version +:+ "/" +:+ platform +:+ "/" +:+ arch +:+ "/"
  +:+ dec patch_number +:+ "/" +:+ file_name.
Definition default_platforms : list RemotePlatformEntry := [
  {| re_platform := "android"; enabled := true; re_backend := "snapshot_replace";
     abi := ["arm64-v8a"; "x86_64"] |};
  {| re_platform := "ios"; enabled := true; re_backend := "bytecode"; abi := [] |}]%string.
(** [path.strip_prefix(config_dir).unwrap_or(path)]. *)
Definition path_for_context (config_path p : string) : string :=
  to_string_lossy (default p (path_strip_prefix p (default "."%string (path_parent config_path)))).

(** A character that is not ASCII is one [_] for all its bytes. *)
Definition safe_char (b : byte) : bool :=
  in_range 48 57 b || in_range 65 90 b || in_range 97 122 b
  || bool_decide (b = x2d) || bool_decide (b = x5f) || bool_decide (b = x2e).
Definition safe_filename (value : string) : string :=
  str_of_bytes (omap (λ b, if cont_byte b then None else Some (if safe_char b then b else x5f))
    (str_bytes value)).

(** [a.eq_ignore_ascii_case(b)]. *)
Definition ascii_lower (a : Ascii.ascii) : Ascii.ascii :=
  let n := Ascii.N_of_ascii a in if (65 <=? n) && (n <=? 90) then Ascii.ascii_of_N (n + 32) else a.
Fixpoint to_ascii_lowercase (s : string) : string :=
  match s with ""%string => ""%string | String a s => String (ascii_lower a) (to_ascii_lowercase s) end.
Definition eq_ignore_ascii_case (a b : string) : bool :=
  String.eqb (to_ascii_lowercase a) (to_ascii_lowercase b).
(** [s.split(c).next()]. *)
Definition split_first (c : Ascii.ascii) (s : string) : string := default ""%string (head (split c s)).
Definition colon : Ascii.ascii := Ascii.ascii_of_nat 58.
Definition close_bracket : Ascii.ascii := Ascii.ascii_of_nat 93.
Definition server_host (rest : string) : string :=
  let host_port := split_first slash rest in
  match strip_prefix "[" host_port with
  | Some value => split_first close_bracket value
  | None => split_first colon host_port
  end.
Definition enforce_secure_server (server : string) : result unit :=
  let refused := err "HTTPS is required when fetching public keys from non-localhost servers" in
  if starts_with "https://" server then Ok tt
  else
    match strip_prefix "http://" server with
    | Some rest => if one_of ["localhost"; "127.0.0.1"; "::1"]%string (server_host rest) then Ok tt else refused
    | None => refused
    end.

Definition backend_for (config : RemoteAppConfig) (platform : string) : result string :=
  match remote_platform config platform with
  | None => err ("app " +:+ ra_id config +:+ " does not define platform " +:+ platform)
  | Some entry =>
    if negb (enabled entry) then err ("platform " +:+ platform +:+ " is disabled for app " +:+ ra_id config)
    else Ok (re_backend entry)
  end.
(** [o.as_deref().map(|value| value.trim()).filter(|value| !value.is_empty())]. *)
Definition trimmed (o : option string) : option string :=
  option_filter (λ value, negb (is_empty value)) (trim <$> o).

(** ** [bytecode_payload.rs] *)
Section Payload.
Context `{Serde BytecodeModule}.
Definition read_bytecode_module (bytes : list byte) : result BytecodeModule := module_from_slice bytes.
Definition validate_compiled_bytecode_payload (bytes : list byte) : result (list byte) :=
  module ← module_from_slice bytes;
  if has_magic bytes then Ok bytes else module_to_vec module.
End Payload.

(** ** Reports *)
Definition Reporting (A : Type) : Type := PatchReport * Shell → result A * (PatchReport * Shell).
#[global] Instance reporting_ret : MRet Reporting := λ A a s, (Ok a, s).
#[global] Instance reporting_bind : MBind Reporting := λ A B f x s,
  match x s with
  | (Ok a, s') => f a s'
  | (Err e, s') => (Err e, s')
  | (Panic m, s') => (Panic m, s')
  end.
Definition lift_cli {A} (x : Cli A) : Reporting A := λ '(report, s),
  let '(r, s') := x s in (r, (report, s')).
Definition update (f : PatchReport → PatchReport) : Reporting unit := λ '(report, s), (Ok tt, (f report, s)).
Definition get_report : Reporting PatchReport := λ '(report, s), (Ok report, (report, s)).
Definition put_report (r : PatchReport) : Reporting unit := update (λ _, r).
(** Runs [x] from [report] and hands on its outcome with the report it leaves. *)
Definition reporting {A B} (report : PatchReport) (x : Reporting A)
    (k : result A → PatchReport → Cli B) : Cli B := λ s,
  let '(r, (report, s')) := x (report, s) in k r report s'.
Definition reject_payload {A} (message : string) : Reporting A := lift_cli (cli_err message).

(** ** Commands *)
Section Cli.
Context `{Hash, Base64, Ed25519, BsdiffZstd, Processes, DirOrder, Modified, Net, BodyText}.
Context `{BodyJson RemoteAppConfig, BodyJson CheckResponse, SerdeYaml LocalAppContext}.
Context `{Serde Value.t, Serde PatchManifest, Serde ReleaseManifest, Serde SimpleBinaryDiff}.
Context `{Serde BytecodeModule, Serde State, Serde CrashRollbackEvent, Serde CheckResponse}.
Context `{Serde KernelInventory, Serde LinkerPlan, Serde (list SizeEntry), Serde BuildInfo}.
Context `{Serde ReleaseCacheMetadata, Serde PatchReport, Serde AotEntryPoints}.
Context `{ToValue PatchManifest, ToValue CreateAppRequest, ToValue ReleaseManifest}.
Context `{ToValue CreatePatchRequest, ToValue PromotePatchRequest}.
Variable env : Environment.

Definition authed_client (server : string) (token : option string) : result Client :=
  match or_else token (env_var env "FCB_CLI_TOKEN") with
  | Some token => Ok (with_token (client_new server) token)
  | None => err "CLI token required; pass --token or set FCB_CLI_TOKEN"
  end.
Definition load_private_key (p : string) : Cli string :=
  text ← read_text env p; cli_lift (private_key_seed_b64 text).
Definition resolve_app (client : Client) (context : ResolvedContext) : Cli RemoteAppConfig :=
  match trimmed (cx_app_id context) with
  | Some app_id => net (get_app client app_id)
  | None =>
    app ← cli_lift (ok_or (Message "app required; pass --app, set FCB_APP, or add app to fcb.yaml")
                      (trimmed (cx_app context)));
    net (ServerApi.resolve_app client app)
  end.
(** [Err(Error::Io(err)) if err.kind() == NotFound]: an I/O error is its text. *)
Definition not_found (e : error) : bool :=
  match e with Io m => String.eqb m "No such file or directory" | _ => false end.
Definition load_local_context (p : string) : Cli (option LocalAppContext) :=
  r ← cli_try (io (at_path env read_yaml p));
  match r with
  | inr context => mret (Some context)
  | inl e => if not_found e then mret None else cli_lift (Err e)
  end.
Definition new_context (args : Args) (local : option LocalAppContext) (config_path : string) : ResolvedContext :=
  let config_dir := default "."%string (path_parent config_path) in
  let key_file := default ".fcb/private_key"%string (or_else (ar_key_file args) (key_file <$> local)) in
  {| cx_server := default "http://127.0.0.1:8080"%string (or_else (ar_server args) (server <$> local));
     cx_token := ar_token args; cx_app := or_else (ar_app args) (app <$> local);
     cx_app_id := ar_app_id args; cx_key_file := resolve_path env config_dir key_file;
     cx_config_path := config_path; cx_build := default default_build (build <$> local) |}.

(** *** [init], [app add] *)
(** The public key of [key_file], which is made when it does not exist. *)
Definition public_key_of (key_file : string) : Cli string :=
  e ← path_exists env key_file;
  if (e : bool) then
    key_material ← read_text env key_file;
    cli_lift (public_key_b64_from_private_key key_material)
  else
    seed ← random_seed;
    let '(private_key, public_key) := generate_keypair_b64 seed in
    _ ← write_bytes env key_file (str_bytes private_key);
    _ ← io (at_path env fs_set_permissions key_file);
    mret public_key.
Definition create_parent (p : string) : Cli unit :=
  match path_parent p with Some parent => create_dirs env parent | None => mret tt end.
Definition register_app (context : ResolvedContext) (app_id name channel public_key : string)
    (build : LocalBuildConfig) : Cli unit :=
  client ← cli_lift (authed_client (cx_server context) (cx_token context));
  _ ← net (create_app client {|
        ca_id := app_id; ca_name := name; ca_channel := channel; ca_public_key := public_key;
        ca_platforms := default_platforms |});
  io (at_path env (write_yaml {|
    app := name; server := cx_server context;
    key_file := path_for_context (cx_config_path context) (cx_key_file context); build := build |})
    (cx_config_path context)).
Definition init (context : ResolvedContext) (name channel : string) : Cli unit :=
  e ← path_exists env (cx_config_path context);
  if (e : bool) then cli_err "fcb.yaml already exists" else
  _ ← create_parent (cx_key_file context);
  app_id ← new_uuid;
  public_key ← public_key_of (cx_key_file context);
  _ ← register_app context app_id name channel public_key default_build;
  _ ← println ("APP_ID=" +:+ app_id);
  _ ← println ("app=" +:+ name);
  println ("private_key=" +:+ cx_key_file context).
Definition app_add (context : ResolvedContext) (name : string) (id : option string) (channel : string) : Cli unit :=
  _ ← create_parent (cx_key_file context);
  public_key ← public_key_of (cx_key_file context);
  app_id ← match id with Some id => mret id | None => new_uuid end;
  _ ← register_app context app_id name channel public_key (cx_build context);
  _ ← println ("APP_ID=" +:+ app_id);
  println ("app=" +:+ name).

(** *** [release] *)
Definition release (context : ResolvedContext) (platform : string) (build_options : BuildOptions)
    (example : option string) (release_version arch : string) : Cli unit :=
  client ← cli_lift (authed_client (cx_server context) (cx_token context));
  app ← resolve_app client context;
  backend ← cli_lift (backend_for app platform);
  build ← resolve_build env context platform arch build_options example;
  _ ← run_flutter_build env platform arch backend build;
  let release_dir := release_cache_dir (ra_id app) release_version platform arch in
  _ ← create_dirs env release_dir;
  artifact ← collect_release_artifact env release_dir platform arch backend build;
  build_info ← collect_build_info env platform arch backend build;
  _ ← cli_for_each eprintln (build_info_warnings build_info);
  let manifest := {|
    rm_schema_version := 1; rm_app_id := ra_id app; rm_release_version := release_version;
    rm_channel := ra_channel app; rm_platform := platform; rm_arch := arch; rm_backend := backend;
    rm_artifact_hash := sha256_hex artifact; rm_artifact_size := len artifact |} in
  _ ← write_release_cache env release_dir manifest build_info artifact platform backend;
  _ ← net (create_release client manifest);
  println (join_text release_dir "release_manifest.json").

(** *** Patch payloads *)
Definition release_artifact_path (app_id release_version platform arch : string) : Cli string :=
  let app_so := join_text (release_cache_dir app_id release_version platform arch) "app.so" in
  e ← path_exists env app_so;
  mret (if (e : bool) then app_so
        else join_text (release_cache_dir app_id release_version platform arch) "artifact.bin").
Definition require_snapshot_replace_ack : Cli unit :=
  _ ← eprintln ("warning: backend 'snapshot_replace' ships native .so diffs and is enterprise/internal-only; "
        +:+ "it is NOT Play/App Store compliant. Use the 'bytecode' backend for store distribution "
        +:+ "(see docs/backends.md, ADR-#3).");
  let acked := match env_var env "FCB_ACK_STORE_POLICY" with
    | Some v => String.eqb v "1" || eq_ignore_ascii_case v "true"
    | None => false
    end in
  if negb acked then
    cli_err ("snapshot_replace requires explicit acknowledgement of store policy: pass "
      +:+ "--i-understand-store-policy (or set FCB_ACK_STORE_POLICY=1). This backend is for "
      +:+ "enterprise/internal/sideloaded distribution only, never Google Play / App Store.")
  else mret tt.
Definition snapshot_replace_diff_base (app_id release_version platform arch : string) (patch_number : N) :
    Cli (list byte) :=
  let prev := patch_artifact_path release_version (saturating_sub patch_number 1) platform arch in
  use_prev ← (if 1 <? patch_number then path_exists env prev else mret false);
  if (use_prev : bool) then read_file env prev else
  release ← release_artifact_path app_id release_version platform arch;
  e ← path_exists env release;
  if (e : bool) then read_file env release
  else cli_err ("missing base artifact for snapshot_replace patch " +:+ dec patch_number +:+ ": expected "
                +:+ prev +:+ " or " +:+ release).
(** The tuple both snapshot payloads end with. *)
Definition snapshot_payload (base target_artifact : list byte) : result PatchPayloadResult :=
  diff ← create_bsdiff_zstd base target_artifact;
  Ok {| py_bytes := diff; py_kind := "binary_diff"; py_diff_algorithm := Some BSDIFF_ZSTD_ALGORITHM;
        py_base_hash := Some (sha256_hex base); py_output_hash := Some (sha256_hex target_artifact);
        py_artifact := Some target_artifact |}.
Definition bytecode_payload (bytes : list byte) : PatchPayloadResult := {|
  py_bytes := bytes; py_kind := "bytecode_module"; py_diff_algorithm := None; py_base_hash := None;
  py_output_hash := None; py_artifact := None |}.

Definition manual_patch_payload (app : RemoteAppConfig) (backend release_version : string) (patch_number : N)
    (platform arch payload_path : string) : Cli (option PatchPayloadResult) :=
  target_artifact ← read_file env payload_path;
  if String.eqb backend "snapshot_replace" then
    if env_snapshot_replace env then
      _ ← require_snapshot_replace_ack;
      base ← snapshot_replace_diff_base (ra_id app) release_version platform arch patch_number;
      payload ← cli_lift (snapshot_payload base target_artifact);
      mret (Some payload)
    else cli_err "snapshot_replace backend is not enabled in this build"
  else if String.eqb backend "bytecode" then
    module ← cli_lift (read_bytecode_module target_artifact);
    bytes ← cli_lift (module_to_vec module);
    mret (Some (bytecode_payload bytes))
  else cli_err ("unsupported patch backend: " +:+ backend).

Definition automatic_snapshot_payload (app : RemoteAppConfig) (release_version : string) (patch_number : N)
    (platform arch : string) (build : ResolvedBuild) : Cli (option PatchPayloadResult) :=
  if negb (String.eqb platform "android") then cli_err "snapshot_replace is only supported for Android" else
  _ ← require_snapshot_replace_ack;
  target_artifact ← read_file env (android_app_so_path (project build) arch);
  base ← snapshot_replace_diff_base (ra_id app) release_version platform arch patch_number;
  payload ← cli_lift (snapshot_payload base target_artifact);
  mret (Some payload).

Definition read_aot_entry_points (release_dir : string) : Cli (option (gset string)) :=
  let p := join_text release_dir "aot_entry_points.json" in
  e ← path_exists env p;
  if negb e then mret None else
  parsed ← read_json_file (A:=AotEntryPoints) env p;
  mret (Some (list_to_set (function_ids parsed))).
Definition missing_target (target : string) : RejectDecision := {|
  rd_function_id := target; rd_source_location := None;
  reject_reason := RejectReason.OriginalTargetNotInAot;
  rd_message := "AOT-referenced target (call_static/call_original) has no entry point in the release" |}.
Definition reject_targets (missing : list string) (report : PatchReport) : PatchReport :=
  match linker_plan report with
  | Some plan => set_linker_plan report (foldl push_reject plan (missing_target <$> missing))
  | None => report
  end.
Definition gate_call_original_aot_presence (release_dir : string) (payload : list byte) : Reporting unit :=
  aot_present ← lift_cli (read_aot_entry_points release_dir);
  match aot_present with
  | None => lift_cli (eprintln "warning: aot_entry_points.json absent in release cache; skipping AOT-presence gate (ADR-#2)")
  | Some aot_present =>
    module ← lift_cli (cli_lift (read_bytecode_module payload));
    missing ← lift_cli (cli_lift (missing_aot_targets module aot_present));
    if bool_decide (missing = []) then mret tt else
    _ ← update (reject_targets missing);
    reject_payload ("bytecode patch rejected: " +:+ dec (len missing)
      +:+ " AOT-referenced target(s) missing an AOT entry point; see patch_report.json")
  end.
Definition automatic_bytecode_payload (release_dir : string) (build : ResolvedBuild) :
    Reporting (option PatchPayloadResult) :=
  release_inventory ← lift_cli (read_json_file (A:=KernelInventory) env (join_text release_dir "kernel_inventory.json"));
  patch_inventory ← lift_cli (generate_kernel_inventory env build);
  plan ← lift_cli (cli_lift (plan_bytecode_link release_inventory patch_inventory));
  _ ← update (λ r, set_linker_plan r plan);
  report ← get_report;
  let '(warning, report) := record_interpreter_ratio_warning report in
  _ ← put_report report;
  _ ← lift_cli (match warning with Some warning => eprintln warning | None => mret tt end);
  if has_rejects plan then reject_payload "bytecode patch rejected; see patch_report.json"
  else if changed_function_count plan =? 0 then mret None
  else
    bytes ← lift_cli (compile_kernel_plan env build plan);
    match bytes with
    | None => mret None
    | Some bytes =>
      payload ← lift_cli (cli_lift (validate_compiled_bytecode_payload bytes));
      _ ← gate_call_original_aot_presence release_dir payload;
      mret (Some (bytecode_payload payload))
    end.

(** Records the comparison; a build that differs from the release is refused. *)
Definition require_same_build (release_info patch_info : BuildInfo) (out : string) : Reporting unit :=
  let comparison := compare_for_patch release_info patch_info in
  _ ← update (λ r, set_comparison r (btree_iter (ignored_dart_define_keys patch_info)) comparison);
  if negb (comparison_is_ok comparison) then
    report ← get_report;
    _ ← lift_cli (write_patch_report env out report);
    reject_payload ("release was built with different config; see " +:+ join_text out "patch_report.json")
  else mret tt.
Definition automatic_patch_payload (context : ResolvedContext) (app : RemoteAppConfig)
    (backend platform : string) (build_options : BuildOptions) (release_version : string) (patch_number : N)
    (arch out : string) : Reporting (option PatchPayloadResult) :=
  let release_dir := release_cache_dir (ra_id app) release_version platform arch in
  e ← lift_cli (path_exists env release_dir);
  if negb e then reject_payload ("missing release cache " +:+ release_dir +:+ "; run 'fcb release' first") else
  release_metadata ← lift_cli (read_release_cache env release_dir);
  build ← lift_cli (resolve_build env context platform arch build_options None);
  prebuild_info ← lift_cli (collect_prebuild_build_info env (rc_build_info release_metadata) platform arch backend build);
  _ ← require_same_build (rc_build_info release_metadata) prebuild_info out;
  _ ← update (λ r, foldl push_message r (build_info_warnings prebuild_info));
  _ ← lift_cli (run_flutter_build env platform arch backend build);
  patch_build_info ← lift_cli (collect_build_info env platform arch backend build);
  _ ← require_same_build (rc_build_info release_metadata) patch_build_info out;
  if env_snapshot_replace env && String.eqb backend "snapshot_replace" then
    lift_cli (automatic_snapshot_payload app release_version patch_number platform arch build)
  else if String.eqb backend "bytecode" then automatic_bytecode_payload release_dir build
  else reject_payload ("unsupported patch backend: " +:+ backend).

(** *** [patch] *)
Definition unsigned_manifest (app : RemoteAppConfig) (backend platform release_version : string)
    (patch_number : N) (arch : string) (payload : PatchPayloadResult) : PatchManifest := {|
  schema_version := 1; app_id := ra_id app; release_version := release_version; patch_number := patch_number;
  channel := ra_channel app; created_at := "1970-01-01T00:00:00Z"; backend := backend; platform := platform;
  arch := arch;
  payload := {|
    kind := py_kind payload; compression := "none"; hash := sha256_hex (py_bytes payload);
    size := len (py_bytes payload);
    download_url := object_key (ra_id app) release_version platform arch patch_number "payload.bin";
    diff_algorithm := py_diff_algorithm payload; base_hash := py_base_hash payload;
    output_hash := py_output_hash payload |};
  policy := {| rollout_percentage := 0; allow_downgrade := false |};
  signature := {| algorithm := "ed25519"; key_id := ra_id app; value := "" |};
|}.
(** From the payload on: sign, write and upload. *)
Definition publish_patch (context : ResolvedContext) (client : Client) (out : string)
    (unsigned : PatchManifest) (payload : PatchPayloadResult) (report : PatchReport) : Cli unit :=
  _ ← write_bytes env (join_text out "payload.bin") (py_bytes payload);
  _ ← match py_artifact payload with
      | Some artifact => write_bytes env (join_text out "artifact.bin") artifact
      | None => mret tt
      end;
  let report := set_payload_hash report (sha256_hex (py_bytes payload)) in
  private_key ← load_private_key (cx_key_file context);
  let '(signed, manifest) := sign_patch_manifest unsigned (trim private_key) in
  _ ← cli_lift signed;
  _ ← write_json_file env (join_text out "patch_manifest.json") manifest;
  _ ← net (create_patch client manifest (py_bytes payload));
  _ ← write_patch_report env out (set_status report "created");
  _ ← println (join_text out "patch_manifest.json");
  _ ← println (join_text out "patch_report.json");
  println ("payload_sha256=" +:+ sha256_hex (py_bytes payload)).
Definition patch_payload (context : ResolvedContext) (app : RemoteAppConfig) (backend platform : string)
    (build_options : BuildOptions) (release_version : string) (patch_number : N) (arch out : string)
    (payload : option string) : Reporting (option PatchPayloadResult) :=
  match payload with
  | Some p =>
    _ ← update (λ r, push_message r "--payload supplied; bypassing automatic build checks");
    lift_cli (manual_patch_payload app backend release_version patch_number platform arch p)
  | None =>
    automatic_patch_payload context app backend platform build_options release_version patch_number arch out
  end.
Definition NO_OP : string := "no-op: 0 functions changed, no patch created".
(** [match payload_result]: what was reported decides how the command ends. *)
Definition finish_patch (context : ResolvedContext) (client : Client) (out : string)
    (manifest_for : PatchPayloadResult → PatchManifest) (payload_result : result (option PatchPayloadResult))
    (report : PatchReport) : Cli unit :=
  match payload_result with
  | Ok (Some payload) => publish_patch context client out (manifest_for payload) payload report
  | Ok None =>
    _ ← write_patch_report env out (push_message (set_status report "no_op") NO_OP);
    _ ← println NO_OP;
    println (join_text out "patch_report.json")
  | Err e =>
    _ ← write_patch_report env out (push_message (set_status report "rejected") (error_to_string e));
    cli_lift (Err e)
  | Panic s => cli_lift (Panic s)
  end.
Definition patch (context : ResolvedContext) (platform : string) (build_options : BuildOptions)
    (release_version : string) (patch_number : N) (arch : string) (payload : option string) : Cli unit :=
  client ← cli_lift (authed_client (cx_server context) (cx_token context));
  app ← resolve_app client context;
  backend ← cli_lift (backend_for app platform);
  let out := patch_cache_dir release_version patch_number platform arch in
  _ ← create_dirs env out;
  reporting (patch_report_new backend platform arch release_version patch_number)
    (patch_payload context app backend platform build_options release_version patch_number arch out payload)
    (finish_patch context client out
      (unsigned_manifest app backend platform release_version patch_number arch)).

(** *** [promote], [rollback] *)
Definition promote (context : ResolvedContext) (release_version : string) (patch_number : N)
    (platform arch channel : string) (rollout_percentage : N) : Cli unit :=
  client ← cli_lift (authed_client (cx_server context) (cx_token context));
  app ← resolve_app client context;
  _ ← net (promote_patch client {|
        pp_app_id := ra_id app; pp_release_version := release_version; pp_platform := platform;
        pp_arch := arch; pp_patch_number := patch_number; pp_channel := channel;
        pp_rollout_percentage := rollout_percentage |});
  println ("patch " +:+ dec patch_number +:+ " promoted to " +:+ channel +:+ " at "
           +:+ dec rollout_percentage +:+ "%").
Definition rollback (context : ResolvedContext) (release_version : string) (patch_number : N)
    (platform arch : string) : Cli unit :=
  client ← cli_lift (authed_client (cx_server context) (cx_token context));
  app ← resolve_app client context;
  _ ← net (rollback_patch client {|
        pp_app_id := ra_id app; pp_release_version := release_version; pp_platform := platform;
        pp_arch := arch; pp_patch_number := patch_number; pp_channel := ""; pp_rollout_percentage := 0 |});
  println ("patch " +:+ dec patch_number +:+ " rolled back").

(** *** [install], [check] *)
Definition pin_path (cache_dir server app_id : string) : string :=
  joins cache_dir ["trusted_keys"%string;
                   safe_filename server +:+ "__" +:+ safe_filename app_id +:+ ".sha256"].
Definition ensure_pinned_public_key (cache_dir server app_id public_key : string) : Cli unit :=
  _ ← create_dirs env (join_text cache_dir "trusted_keys");
  let pin_path := pin_path cache_dir server app_id in
  let fingerprint := sha256_hex (str_bytes public_key) in
  e ← path_exists env pin_path;
  if (e : bool) then
    pinned ← read_text env pin_path;
    if negb (String.eqb (trim pinned) fingerprint) then
      cli_err ("public key fingerprint mismatch for app " +:+ app_id +:+ "; refusing to install")
    else mret tt
  else write_bytes env pin_path (str_bytes fingerprint ++ [x0a]).
Definition install (context : ResolvedContext) (manifest_path payload_path cache_dir : string) : Cli unit :=
  manifest ← read_json_file (A:=PatchManifest) env manifest_path;
  _ ← cli_lift (enforce_secure_server (cx_server context));
  client ← cli_lift (authed_client (cx_server context) (cx_token context));
  app ← net (get_app client (app_id manifest));
  if is_empty (trim (ra_public_key app)) then
    cli_err ("app " +:+ app_id manifest +:+ " has no public_key") else
  _ ← ensure_pinned_public_key cache_dir (cx_server context) (app_id manifest) (trim (ra_public_key app));
  baseline_path ← release_artifact_path (app_id manifest) (release_version manifest) (platform manifest)
                    (arch manifest);
  e ← path_exists env baseline_path;
  _ ← io (install_payload_with_baseline (env_snapshot_replace env) (resolve env cache_dir)
            (resolve env manifest_path) (resolve env payload_path) (trim (ra_public_key app))
            (if (e : bool) then Some (resolve env baseline_path) else None));
  println ("installed patch into " +:+ cache_dir).

Definition ensure_hash (label : string) (bytes : list byte) (expected : string) : result unit :=
  let actual := sha256_hex bytes in
  if negb (String.eqb actual expected)
  then err (label +:+ " sha256 mismatch: expected " +:+ expected +:+ ", got " +:+ actual)
  else Ok tt.
Definition download_patch_files (client : Client) (patch : PatchCheck)
    (app_id release_version platform arch : string) : Cli (string * string) :=
  let out := joins fcb_dir ["apps"%string; app_id; "downloads"%string; release_version;
                            dec (pc_patch_number patch); platform; arch] in
  _ ← create_dirs env out;
  manifest_bytes ← net (download_bytes (env_current_dir env) (manifest_url patch));
  _ ← cli_lift (ensure_hash "manifest" manifest_bytes (manifest_hash patch));
  let manifest_path := join_text out "patch_manifest.json" in
  _ ← write_bytes env manifest_path manifest_bytes;
  payload_bytes ← net (download_bytes (env_current_dir env) (payload_url patch));
  _ ← cli_lift (ensure_hash "payload" payload_bytes (payload_hash patch));
  let payload_path := join_text out "payload.bin" in
  _ ← write_bytes env payload_path payload_bytes;
  mret (manifest_path, payload_path).
Definition download_and_install (context : ResolvedContext) (client : Client) (response : CheckResponse)
    (app_id release_version platform arch cache_dir : string) : Cli unit :=
  match Flights.patch response with
  | None =>
    if patch_available response then cli_err "server response marked patch_available but omitted patch"
    else mret tt
  | Some patch =>
    '(manifest_path, payload_path) ← download_patch_files client patch app_id release_version platform arch;
    install context manifest_path payload_path cache_dir
  end.
Definition check (context : ResolvedContext) (release_version platform arch channel : string)
    (current_patch_number : N) (client_id : string) (install_patch : bool) (cache_dir : string) : Cli unit :=
  authed ← cli_lift (authed_client (cx_server context) (cx_token context));
  app ← resolve_app authed context;
  let client := client_new (cx_server context) in
  response ← net (ServerApi.check client {|
    cr_org_id := ra_org_id app; cr_app_id := ra_id app; cr_release_version := release_version;
    cr_platform := platform; cr_arch := arch; cr_channel := channel;
    current_patch_number := current_patch_number; cr_client_id := client_id |});
  text ← cli_lift (to_string_pretty response);
  _ ← println text;
  if install_patch then
    download_and_install context client response (ra_id app) release_version platform arch cache_dir
  else mret tt.

(** *** [run] *)
Context `{ToValue PatchReport, FromValue PatchReport, FromValue BytecodeModule, FromValue PatchManifest}.
Context `{JsonF64}.
Definition dispatch (context : ResolvedContext) (command : Subcommand) : Cli unit :=
  match command with
  | Init name channel => init context name channel
  | AppAdd name id channel => app_add context name id channel
  | Doctor => println "fcb doctor: ok"
  | Release platform build example release_version arch =>
    release context platform build example release_version arch
  | Patch platform build release_version patch_number arch payload =>
    patch context platform build release_version patch_number arch payload
  | Promote release_version patch_number platform arch channel rollout_percentage =>
    promote context release_version patch_number platform arch channel rollout_percentage
  | Check release_version platform arch channel current_patch_number client_id install_patch cache_dir =>
    check context release_version platform arch channel current_patch_number client_id install_patch cache_dir
  | Install manifest payload cache_dir => install context manifest payload cache_dir
  | MarkSuccess cache_dir =>
    _ ← io (mark_success (resolve env cache_dir));
    println "launch marked successful"
  | MarkFailure patch_number reason cache_dir =>
    _ ← io (mark_failure (resolve env cache_dir) patch_number reason);
    println ("patch " +:+ dec patch_number +:+ " marked failed")
  | Rollback release_version patch_number platform arch =>
    rollback context release_version patch_number platform arch
  | Inspect kind p => inspect env kind p
  end.
Definition run_in_env (args : Args) : Cli unit :=
  let config_path := "fcb.yaml"%string in
  local_context ← load_local_context config_path;
  dispatch (new_context args local_context config_path) (command args).
End Cli.

Section Main.
Context `{Hash, Base64, Ed25519, BsdiffZstd, Processes, DirOrder, Modified, Net, BodyText}.
Context `{BodyJson RemoteAppConfig, BodyJson CheckResponse, SerdeYaml LocalAppContext}.
Context `{Serde Value.t, Serde PatchManifest, Serde ReleaseManifest, Serde SimpleBinaryDiff}.
Context `{Serde BytecodeModule, Serde State, Serde CrashRollbackEvent, Serde CheckResponse}.
Context `{Serde KernelInventory, Serde LinkerPlan, Serde (list SizeEntry), Serde BuildInfo}.
Context `{Serde ReleaseCacheMetadata, Serde PatchReport, Serde AotEntryPoints}.
Context `{ToValue PatchManifest, ToValue CreateAppRequest, ToValue ReleaseManifest}.
Context `{ToValue CreatePatchRequest, ToValue PromotePatchRequest}.
Context `{ToValue PatchReport, FromValue PatchReport, FromValue BytecodeModule, FromValue PatchManifest}.
Context `{JsonF64}.
(** The flag is turned into the variable the snapshot gate reads. *)
Definition run (env : Environment) (args : Args) : Cli unit :=
  run_in_env (if i_understand_store_policy args then set_var env "FCB_ACK_STORE_POLICY" "1" else env) args.
(** [main]: the exit code. *)
Definition main (env : Environment) (args : Args) (s : Shell) : N * Shell :=
  match run env args s with
  | (Ok _, s) => (0, s)
  | (Err e, s) => (1, (eprintln ("error: " +:+ error_to_string e) s).2)
  | (Panic _, s) => (101, s)
  end.
End Main.
