(* ===== verification/Pipeline.v ===== *)
(** * What the build pipeline may do to its surroundings

    The functions of [Auto] that describe, run and compile a build, and those of
    [Cli] that make the payload of a patch, respect every relation between shells
    that the console, readers, programs and the files they write respect.  So a
    fact about a whole build (which requests it sends, which files it leaves
    alone) is an instance of [Quiet], [Runs], [Writes] and [Names]. *)
From S2P Require Import Prelude Text External Bytecode BytecodeCheck Crypto Diff Manifest World State StateFacts Linker BuildInfo Config Flights Net ServerApi Resilience Shell AotEntryPoints Auto AutoFacts Inspect Cli.
Local Open Scope N_scope.

(** ** Files left alone *)
(** What is left of the schedule of metadata calls. *)
Definition stat_of (s : Shell) : list bool := w_stats (m_world (sh_machine s)).
(** The place [q] is as before, and no metadata call fails that would not have. *)
Definition same_file (q : path) : relation Shell := λ s s',
  fs_of s' !! q = fs_of s !! q ∧ stat_of s' `suffix_of` stat_of s.
Lemma suffix_nil_of (l k : list bool) : l `suffix_of` k → k = [] → l = [].
Proof. intros Hl ->. by apply suffix_nil_inv in Hl. Qed.
Abbreviation cli_keeps q x := (moves (same_file q) x).
(** No program changes the file. *)
Definition spares `{Processes} (q : path) : Prop := ∀ cs c fs, (run_process cs c fs).2 !! q = fs !! q.
Existing Class spares.
Section Keeps.
Variable q : path.
#[global] Instance same_file_preorder : PreOrder (same_file q).
Proof. split; [by intros s|]. intros s1 s2 s3 [E1 E2] [E3 E4]. split; [congruence|by etrans]. Qed.
Lemma cli_keeps_io {A} S (x : IO A) : touches S x → ¬ S q → cli_keeps q (io x).
Proof.
  intros Hx Hq s. split; [rewrite io_fs; by apply Hx|]. unfold io, net, sys, stat_of.
  pose proof (proj1 (Hx (m_world (sh_machine s)))) as Hst. by destruct (x (m_world (sh_machine s))).
Qed.
#[global] Instance same_file_quiet : Quiet (same_file q).
Proof. split; [apply _|by intros s|]. intros A x Hx. apply (cli_keeps_io _ _ Hx). tauto. Qed.
#[global] Instance same_file_runs `{Processes} `{!spares q} : Runs (same_file q).
Proof.
  intros c s. unfold process_output, same_file, fs_of, stat_of.
  pose proof (spares0 (sh_commands s) c (w_fs (m_world (sh_machine s)))) as Hq. by destruct (run_process _ _ _).
Qed.
Lemma cli_keeps_net {A} (x : Act A) : act_worlds still x → cli_keeps q (net x).
Proof.
  intros Hx s. unfold net, same_file, fs_of, stat_of. destruct (Hx (sh_machine s)) as [Hst Hfs].
  destruct (x (sh_machine s)). cbn in *. by rewrite Hfs.
Qed.
#[global] Instance same_file_draws : Draws (same_file q).
Proof.
  split; intros s; [unfold new_uuid; by destruct (sh_uuids s)|]. unfold random_seed. by destruct (sh_seeds s).
Qed.
Lemma cli_keeps_run {A} (x : Cli A) s r s' : cli_keeps q x → x s = (r, s') → fs_of s' !! q = fs_of s !! q.
Proof. intros Hx E. by apply (moves_run _ _ _ _ _ Hx E). Qed.
Lemma cli_keeps_stat {A} (x : Cli A) s r s' : cli_keeps q x → x s = (r, s') → stat_of s' `suffix_of` stat_of s.
Proof. intros Hx E. by apply (moves_run _ _ _ _ _ Hx E). Qed.
End Keeps.
#[export] Hint Resolve cli_keeps_net : fcb.

(** ** Invariants *)
(** Whatever the outcome, [I] still holds. *)
Definition upholds (I : Shell → Prop) : relation Shell := λ s s', I s → I s'.
Abbreviation preserves I x := (moves (upholds I) x).
#[global] Instance upholds_preorder I : PreOrder (upholds I).
Proof. split; unfold upholds; [by intros s|]. intros s1 s2 s3; tauto. Qed.
Lemma preserves_run {A} I (x : Cli A) s r s' : preserves I x → I s → x s = (r, s') → I s'.
Proof. intros Hx Hs E. by apply (moves_run _ _ _ _ _ Hx E). Qed.

(** Invariants of the files. *)
Class Framed (I : Shell → Prop) : Prop := framed : ∀ s s', (∀ q, same_file q s s') → I s → I s'.
Section Framed.
Context (I : Shell → Prop) `{!Framed I}.
Lemma framed_keeps {A} (x : Cli A) : (∀ q, cli_keeps q x) → preserves I x.
Proof. intros Hx s Hs. eapply framed, Hs. intros q. apply Hx. Qed.
#[global] Instance framed_quiet : Quiet (upholds I).
Proof.
  split; [apply _| |].
  - intros s out err Hs. eapply framed, Hs. intros q. apply quiet_console.
  - intros A x Hx. apply framed_keeps. intros q. by apply quiet_reads.
Qed.
Lemma framed_net {A} (x : Act A) : act_worlds still x → preserves I (net x).
Proof. intros Hx. apply framed_keeps. intros q. by apply cli_keeps_net. Qed.
#[global] Instance framed_draws : Draws (upholds I).
Proof. split; apply framed_keeps; intros q; [apply draws_uuid|apply draws_seed]. Qed.
End Framed.
(** No metadata call fails any more. *)
Abbreviation stats_end := (λ s, stat_of s = []).
#[global] Instance framed_stat : Framed stats_end.
Proof. intros s s' Hk Hs. by eapply suffix_nil_of; [apply (Hk [])|]. Qed.
Lemma preserves_stat {A} S (x : IO A) : touches S x → preserves stats_end (io x).
Proof.
  intros Hx s Hs. eapply suffix_nil_of, Hs. unfold stat_of, io, net, sys.
  destruct (Hx (m_world (sh_machine s))) as (Hstat & _). by destruct (x (m_world (sh_machine s))).
Qed.
#[global] Instance stat_writes env : Writes env (upholds stats_end) (λ _, True).
Proof.
  assert (∀ A (f : path → IO A) p, (∀ q, touches (λ _, True) (f q)) → preserves stats_end (io (at_path env f p)))
    as Hat by (intros; by eapply preserves_stat, at_path_touches).
  split; intros.
  - unfold create_dirs. destruct (is_empty p); [apply moves_ret|]. by apply (preserves_stat (λ _, True)), touches_create_dir_all.
  - apply Hat. intros q. by apply touches_write.
  - apply Hat. intros q. unfold write_json.
    apply touches_bind; [destruct (parent q); [by apply touches_create_dir_all|apply touches_ret]|].
    intros _. apply touches_bind; [apply touches_lift|]. intros. by apply touches_write.
  - apply moves_bind; [|intros; apply moves_ret]. eapply preserves_stat, touches_ok, at_path_touches. intros q.
    by apply (touches_remove_dir_all (λ _, True)).
Qed.

(** A file that holds [bs], where metadata calls work. *)
Definition holds_bytes (q : path) (bs : list byte) (s : Shell) : Prop :=
  fs_of s !! q = Some (File bs) ∧ stat_of s = [].
#[global] Instance holds_bytes_framed q bs : Framed (holds_bytes q bs).
Proof. intros s s' Hk [Hf Hst]. destruct (Hk q) as [E1 E2]. split; [congruence|by eapply suffix_nil_of]. Qed.
Lemma same_file_holds q bs s s' : same_file q s s' → holds_bytes q bs s → holds_bytes q bs s'.
Proof. intros [E1 E2] [Hf Hst]. split; [congruence|by eapply suffix_nil_of]. Qed.
Lemma preserves_holds_bytes {A} q bs (x : Cli A) : cli_keeps q x → preserves (holds_bytes q bs) x.
Proof. intros Hx s Hs. exact (same_file_holds _ _ _ _ (Hx s) Hs). Qed.
Lemma holds_bytes_run {A} q bs (x : Cli A) s r s' :
  cli_keeps q x → x s = (r, s') → holds_bytes q bs s → holds_bytes q bs s'.
Proof. intros Hx E. apply same_file_holds. exact (moves_run _ _ _ _ _ Hx E). Qed.

Lemma make_dirs_keeps ps fs q e : fs !! q = Some e → (make_dirs ps fs).2 !! q = Some e.
Proof.
  revert fs. induction ps as [|p ps IH]; intros fs Hq; [done|]. simpl.
  destruct (fs !! p) as [[]|] eqn:Hp; [done|by apply IH|].
  apply IH. by rewrite lookup_insert_ne by congruence.
Qed.
(** A file that stays, whatever the outcome. *)
Definition file_stays {A} (q : path) (bs : list byte) (x : IO A) : Prop := ∀ w,
  w_fs w !! q = Some (File bs) → w_stats w = [] →
  w_fs (x w).2 !! q = Some (File bs) ∧ w_stats (x w).2 = [].
Lemma preserves_file {A} q bs (x : IO A) : file_stays q bs x → preserves (holds_bytes q bs) (io x).
Proof.
  intros Hx s [Hf Hst]. destruct (io x s) as [r s'] eqn:E. apply io_inv in E as (w & E & ->).
  specialize (Hx _ Hf Hst). by rewrite E in Hx.
Qed.
Lemma file_stays_touches {A} q bs S (x : IO A) : touches S x → ¬ S q → file_stays q bs x.
Proof. intros Hx Hq w Hf Hst. destruct (Hx w) as (Hs & _ & Hfs). rewrite (Hfs q Hq). split; [done|by eapply suffix_nil_of]. Qed.
Lemma file_stays_bind {A B} q bs (x : IO A) (f : A → IO B) :
  file_stays q bs x → (∀ a, file_stays q bs (f a)) → file_stays q bs (x ≫= f).
Proof.
  intros Hx Hf w Hw Hst. unfold mbind, io_bind. destruct (Hx w Hw Hst) as [Hw1 Hst1].
  destruct (x w) as [[a|e|m] w1]; [by apply Hf|done..].
Qed.
Lemma file_stays_create_dir q bs p : file_stays q bs (fs_create_dir_all p).
Proof.
  intros w Hf Hst. destruct (fs_create_dir_all p w) as [r w'] eqn:E. cbn [snd].
  pose proof E as (f & r0 & Hr & _)%io_call_inv. split.
  - destruct f; apply (f_equal snd) in Hr; cbn in Hr; rewrite <- Hr; by apply make_dirs_keeps.
  - eapply suffix_nil_of, Hst. eapply touches_stat; [|exact E]. by apply (touches_create_dir_all (λ _, True)).
Qed.
(** Making directories replaces no file. *)
Lemma preserves_create_dirs env q bs p : preserves (holds_bytes q bs) (create_dirs env p).
Proof.
  unfold create_dirs. destruct (is_empty p); [apply moves_ret|apply preserves_file, file_stays_create_dir].
Qed.

(** Nor does writing or removing anything but it and what is above it. *)
Section Elsewhere.
Variables (env : Environment) (q : path) (bs : list byte).
Abbreviation elsewhere p := (¬ under (resolve env p) q).
Lemma elsewhere_ne p : elsewhere p → q ≠ resolve env p.
Proof. intros Hp ->. apply Hp. by exists []. Qed.
Lemma file_stays_off {A} S (x : IO A) : touches S x → ¬ S q → preserves (holds_bytes q bs) (io x).
Proof. intros Hx Hq. by eapply preserves_file, file_stays_touches. Qed.
#[global] Instance holds_bytes_writes : Writes env (upholds (holds_bytes q bs)) (λ p, elsewhere p).
Proof.
  split.
  - apply preserves_create_dirs.
  - intros p b Hq%elsewhere_ne. unfold write_bytes, at_path. destruct (is_empty p); [apply quiet_reads, touches_lift|].
    by apply (file_stays_off (λ q', q' = resolve env p)); [apply touches_write|].
  - intros A HA p a Hq%elsewhere_ne. unfold write_json_file, at_path.
    destruct (is_empty p); [apply quiet_reads, touches_lift|].
    assert (∀ B (x : IO B), touches (λ _, False) x → file_stays q bs x) as Hreads
      by (intros B x Hx; apply (file_stays_touches _ _ _ _ Hx); tauto).
    apply preserves_file. unfold write_json. apply file_stays_bind.
    { destruct (parent _) as [d|]; [apply file_stays_create_dir|apply Hreads, touches_ret]. }
    intros _. apply file_stays_bind; [apply Hreads, touches_lift|]. intros b.
    by apply (file_stays_touches _ _ (λ q', q' = resolve env p)); [apply touches_write|].
  - intros p Hq. unfold remove_dir_quietly. apply moves_bind; [|intros _; apply moves_ret].
    unfold at_path. destruct (is_empty p); [apply quiet_reads, touches_ok, touches_lift|].
    by apply (file_stays_off (under (resolve env p))); [apply touches_ok, touches_remove_dir_all|].
Qed.
End Elsewhere.

(** Relations that requests to the server respect. *)
Class Nets (R : relation Shell) : Prop := nets_still : ∀ A (x : Act A), act_worlds still x → moves R (net x).
#[global] Instance same_file_nets q : Nets (same_file q).
Proof. intros A x. apply cli_keeps_net. Qed.
#[global] Instance framed_nets I `{!Framed I} : Nets (upholds I).
Proof. intros A x. by apply framed_net. Qed.
Lemma moves_get_app `{Net, BodyText, BodyJson RemoteAppConfig} {R} `{!Nets R} client id :
  moves R (net (get_app client id)).
Proof. apply nets_still, still_retry_loop. Qed.
#[export] Hint Extern 0 (Nets _) => apply _ : fcb.
#[export] Hint Resolve moves_get_app : fcb.
Lemma moves_resolve_app `{Net, BodyText, BodyJson RemoteAppConfig} {R} `{!Quiet R, !Nets R} client context :
  moves R (resolve_app client context).
Proof.
  unfold resolve_app. destruct (trimmed _) as [id|]; [auto with fcb|].
  apply moves_bind; [auto with fcb|]. intros app. apply nets_still. unfold ServerApi.resolve_app. worlds_tac.
Qed.
#[export] Hint Resolve moves_resolve_app : fcb.

(** ** Keys *)
Lemma moves_parent {R} env {W} `{!Quiet R, !Writes env R W} p : moves R (create_parent env p).
Proof. unfold create_parent. destruct (path_parent p); [apply writes_dirs|apply moves_ret]. Qed.
Lemma moves_public_key `{Base64, Ed25519} {R} env {W} `{!Quiet R, !Writes env R W, !Draws R} p :
  W p → moves R (public_key_of env p).
Proof.
  intros Hp. unfold public_key_of, generate_keypair_b64. pose proof (λ b, writes_bytes p b Hp). moves_tac.
Qed.

(** ** The build pipeline *)
Section Combinators.
Context {R : relation Shell} `{!PreOrder R}.
Lemma moves_map_err {A} f (x : Cli A) : moves R x → moves R (cli_map_err f x).
Proof. intros Hx s. unfold cli_map_err. specialize (Hx s). by destruct (x s). Qed.
Lemma moves_fold {A B} (f : B → A → Cli B) l b : (∀ b a, moves R (f b a)) → moves R (cli_fold f l b).
Proof. intros Hf. revert b. induction l; intros b; simpl; [apply moves_ret|]. by apply moves_bind. Qed.
Lemma moves_get_fs : moves R get_fs.
Proof. by intros s. Qed.
End Combinators.
#[export] Hint Resolve moves_map_err moves_fold moves_get_fs : fcb.

(** ** Describing a build *)
Section Describing.
Context `{Hash, Processes, DirOrder, Modified}.
Context {R : relation Shell} `{!Quiet R, !Runs R}.
Variable env : Environment.
Lemma moves_hash_entries fuel root dir names out : moves R (collect_hash_entries_excluding fuel root dir names out).
Proof.
  revert dir out. induction fuel as [|fuel IH]; intros dir out; cbn [collect_hash_entries_excluding]; [auto with fcb|].
  apply moves_bind; [auto with fcb|]. intros entries. apply moves_fold. intros b [e|name]; moves_tac.
Qed.
Lemma moves_dills fuel dir candidates : moves R (collect_app_dill_candidates fuel dir candidates).
Proof.
  revert dir candidates. induction fuel as [|fuel IH]; intros dir candidates; cbn [collect_app_dill_candidates];
    [auto with fcb|].
  apply moves_bind; [auto with fcb|]. intros [entries|]; [|auto with fcb].
  apply moves_fold. intros b [e|name]; moves_tac.
Qed.
#[local] Hint Resolve moves_hash_entries moves_dills : fcb.
Lemma moves_newest project : moves R (newest_non_empty_app_dill env project).
Proof. unfold newest_non_empty_app_dill. moves_tac. Qed.
Lemma moves_hash_file p : moves R (hash_optional_file env p).
Proof. unfold hash_optional_file. moves_tac. Qed.
Lemma moves_status c : moves R (process_status c).
Proof. unfold process_status. moves_tac. Qed.
#[local] Hint Resolve moves_newest moves_hash_file moves_status : fcb.
Lemma moves_hash_first l : moves R (hash_first_existing env l).
Proof. induction l; simpl; moves_tac. Qed.
Lemma moves_hash_path p names : moves R (hash_path_excluding env p names).
Proof. unfold hash_path_excluding. moves_tac. Qed.
#[local] Hint Resolve moves_hash_first moves_hash_path : fcb.
Lemma moves_hash_first_excluding l names : moves R (hash_first_existing_excluding env l names).
Proof. induction l; simpl; moves_tac. Qed.
Lemma moves_git p : moves R (git_rev p).
Proof. unfold git_rev. moves_tac. Qed.
Lemma moves_find_sdk l : moves R (find_sdk env l).
Proof. induction l; simpl; moves_tac. Qed.
#[local] Hint Resolve moves_hash_first_excluding moves_git moves_find_sdk : fcb.
Lemma moves_resolve_build {C} `{BuildContext C} (context : C) platform arch options example :
  moves R (resolve_build env context platform arch options example).
Proof. unfold resolve_build, default_flutter_path. cbv zeta. moves_tac. Qed.
Lemma moves_flutter_build platform arch backend build : moves R (run_flutter_build env platform arch backend build).
Proof. unfold run_flutter_build. moves_tac. Qed.
Lemma moves_info_of platform arch backend build rest :
  moves R rest → moves R (build_info_of env platform arch backend build rest).
Proof.
  intros Hr. unfold build_info_of, flutter_tool_rev_of, dart_sdk_git_rev, embedded_dart_sdk_root. cbv zeta. moves_tac.
Qed.
Lemma moves_build_info platform arch backend build : moves R (collect_build_info env platform arch backend build).
Proof.
  apply moves_info_of. unfold hash_build_assets, hash_build_native, hash_build_plugins. cbv zeta. moves_tac.
Qed.
Lemma moves_prebuild release platform arch backend build :
  moves R (collect_prebuild_build_info env release platform arch backend build).
Proof. apply moves_info_of. auto with fcb. Qed.
Lemma moves_release_cache `{Serde ReleaseCacheMetadata} dir : moves R (read_release_cache env dir).
Proof. unfold read_release_cache. cbv zeta. moves_tac. Qed.
End Describing.
#[export] Hint Resolve moves_newest moves_hash_file moves_status moves_git moves_find_sdk moves_resolve_build moves_flutter_build moves_build_info
  moves_prebuild moves_release_cache : fcb.

(** ** Compiling *)
Definition tool_key_file : string := join_text (join_text FCB_DIR "tool-cache") "fcb_kernel_manifest.key".
Definition compile_dir (env : Environment) (id : string) : string :=
  join_text (env_temp_dir env) ("fcb-kernel-compile-" +:+ id).
Section Compiling.
Context `{Hash, Processes, DirOrder, Modified, Serde KernelInventory, Serde LinkerPlan}.
Context {R : relation Shell} `{!Quiet R, !Runs R}.
Context {env : Environment} {W N : string → Prop} `{!Writes env R W, !Names R N}.
Context (writes_tool : W tool_key_file).
Context (writes_temp : ∀ id, N id → W (compile_dir env id) ∧ W (join_text (compile_dir env id) "linker_plan.json")).
Lemma moves_prepare build : moves R (prepare env build).
Proof.
  unfold prepare, kernel_inventory_tool_path, kernel_sdk_root, embedded_dart_sdk_root, dart_sdk_rev_of, command_rev.
  pose proof (writes_dirs (env:=env) (R:=R) (W:=W)). pose proof (λ b, writes_bytes _ b writes_tool). cbv zeta. moves_tac.
Qed.
#[local] Hint Resolve moves_prepare : fcb.
Lemma moves_inventory build : moves R (generate_kernel_inventory env build).
Proof. unfold generate_kernel_inventory, print_stderr. moves_tac. Qed.
Lemma moves_compile build plan : moves R (compile_kernel_plan env build plan).
Proof.
  unfold compile_kernel_plan, print_stderr. cbv zeta. destruct (bool_decide _); [auto with fcb|].
  apply moves_bind; [auto with fcb|]. intros [dill|]; [|auto with fcb].
  apply moves_bind; [auto with fcb|]. intros tool. apply names_new. intros id [Hdir Hplan]%writes_temp.
  fold (compile_dir env id).
  pose proof (writes_dirs (env:=env) (R:=R) (W:=W)). pose proof (writes_json (A:=LinkerPlan) _ plan Hplan). pose proof (writes_remove _ Hdir).
  moves_tac.
Qed.
End Compiling.

(** ** Steps that fill a report *)
Definition reports {A} (R : relation Shell) (x : Reporting A) : Prop := ∀ st, R st.2 (x st).2.2.
Lemma reports_run {A} R (x : Reporting A) report s r report' s' :
  reports R x → x (report, s) = (r, (report', s')) → R s s'.
Proof. intros Hx E. specialize (Hx (report, s)). by rewrite E in Hx. Qed.
Section Reports.
Context {R : relation Shell} `{!PreOrder R}.
Lemma reports_ret {A} (a : A) : reports R (mret a).
Proof. by intros st. Qed.
Lemma reports_bind {A B} (x : Reporting A) (f : A → Reporting B) :
  reports R x → (∀ a, reports R (f a)) → reports R (x ≫= f).
Proof.
  intros Hx Hf st. unfold mbind, reporting_bind. specialize (Hx st).
  destruct (x st) as [[a|e|m] st1]; [|done..]. etrans; [exact Hx|apply Hf].
Qed.
Lemma reports_lift {A} (x : Cli A) : moves R x → reports R (lift_cli x).
Proof. intros Hx [report s]. unfold lift_cli. specialize (Hx s). by destruct (x s). Qed.
Lemma reports_update f : reports R (update f).
Proof. by intros [report s]. Qed.
Lemma reports_put r : reports R (put_report r).
Proof. by intros [report s]. Qed.
Lemma reports_get : reports R get_report.
Proof. by intros [report s]. Qed.
Lemma reports_reject {A} m : reports R (reject_payload (A:=A) m).
Proof. apply reports_lift, moves_err. Qed.
End Reports.
#[export] Hint Resolve reports_ret reports_lift reports_update reports_put reports_get reports_reject : fcb.
Ltac reports_tac :=
  repeat first
    [ progress auto with fcb
    | apply reports_bind; [|intros ?]
    | match goal with |- reports _ (match ?x with _ => _ end) => destruct x end
    | apply reports_lift; progress moves_tac ].

Lemma reports_same_build `{Serde PatchReport} {R} `{!Quiet R} env release_info patch_info out :
  (∀ r, moves R (write_patch_report env out r)) → reports R (require_same_build env release_info patch_info out).
Proof. intros Hw. unfold require_same_build. cbv zeta. reports_tac. Qed.

(** ** The payload of a patch *)
Section Snapshots.
Context `{Hash, BsdiffZstd, Serde BytecodeModule}.
Context {R : relation Shell} `{!Quiet R}.
Variable env : Environment.
Lemma moves_diff_base app release_version platform arch patch_number :
  moves R (snapshot_replace_diff_base env app release_version platform arch patch_number).
Proof. unfold snapshot_replace_diff_base, release_artifact_path. cbv zeta. moves_tac. Qed.
Lemma moves_artifact_path app release_version platform arch :
  moves R (release_artifact_path env app release_version platform arch).
Proof. unfold release_artifact_path. cbv zeta. moves_tac. Qed.
Lemma moves_ack : moves R (require_snapshot_replace_ack env).
Proof. unfold require_snapshot_replace_ack. cbv zeta. moves_tac. Qed.
#[local] Hint Resolve moves_diff_base moves_ack : fcb.
Lemma moves_manual app backend release_version patch_number platform arch p :
  moves R (manual_patch_payload env app backend release_version patch_number platform arch p).
Proof. unfold manual_patch_payload. moves_tac. Qed.
Lemma moves_snapshot app release_version patch_number platform arch build :
  moves R (automatic_snapshot_payload env app release_version patch_number platform arch build).
Proof. unfold automatic_snapshot_payload. moves_tac. Qed.
End Snapshots.
#[export] Hint Resolve moves_artifact_path moves_diff_base moves_ack moves_manual moves_snapshot : fcb.

Section Payloads.
Context `{Hash, BsdiffZstd, Processes, DirOrder, Modified, Serde BytecodeModule}.
Context `{Serde KernelInventory, Serde LinkerPlan, Serde ReleaseCacheMetadata, Serde PatchReport, Serde AotEntryPoints}.
Context {R : relation Shell} `{!Quiet R, !Runs R}.
Context {env : Environment} {W N : string → Prop} `{!Writes env R W, !Names R N}.
Context (writes_tool : W tool_key_file).
Context (writes_temp : ∀ id, N id → W (compile_dir env id) ∧ W (join_text (compile_dir env id) "linker_plan.json")).
Variable out : string.
Context (writes_report : W (join_text out "patch_report.json")).
Lemma moves_report r : moves R (write_patch_report env out r).
Proof. by apply writes_json. Qed.
#[local] Hint Resolve moves_report : fcb.
Lemma reports_gate release_dir bytes : reports R (gate_call_original_aot_presence env release_dir bytes).
Proof.
  unfold gate_call_original_aot_presence. apply reports_bind; [|intros []; reports_tac].
  apply reports_lift. unfold read_aot_entry_points. cbv zeta. moves_tac.
Qed.
Lemma reports_bytecode release_dir build : reports R (automatic_bytecode_payload env release_dir build).
Proof.
  unfold automatic_bytecode_payload. pose proof reports_gate.
  pose proof (moves_inventory writes_tool). pose proof (moves_compile writes_tool writes_temp). reports_tac.
Qed.
#[local] Hint Resolve reports_bytecode reports_same_build : fcb.
Lemma reports_payload context app backend platform options release_version patch_number arch payload :
  reports R (patch_payload env context app backend platform options release_version patch_number arch out payload).
Proof.
  unfold patch_payload. destruct payload as [p|]; [reports_tac|].
  unfold automatic_patch_payload. cbv zeta. reports_tac.
Qed.
End Payloads.
