(* ===== verification/PatchFacts.v ===== *)
(** * What [fcb patch] lets through

    The gates between a source tree and a published patch: the comparison of the
    builds, the plan of the linker, the validation of the compiled module and the
    presence of the AOT functions it calls; then signing and uploading.  What is
    said of a run is said of the states that run goes through ([same_build],
    [linked], [compiled_to], [payload_was], [signed_with]).  The theorems compose those of [BuildInfo], [Linker], [BytecodeCheck], [Manifest]
    and [ServerApi]. *)
From S2P Require Import Prelude Text Floats External Bytecode BytecodeCheck BytecodeFacts Crypto Diff Manifest World State StateFacts StateProperties Linker BuildInfo Config Flights Net ServerApi Shell AotEntryPoints Auto AutoFacts BuildFacts Inspect Cli Pipeline.
Local Open Scope N_scope.

(** ** Steps that fill a report *)
Lemma reporting_bind_ok {A B} (x : Reporting A) (f : A → Reporting B) st b st' :
  (x ≫= f) st = (Ok b, st') ↔ ∃ a st1, x st = (Ok a, st1) ∧ f a st1 = (Ok b, st').
Proof.
  unfold mbind, reporting_bind. split.
  - destruct (x st) as [[a|e|m] st1]; [eauto|discriminate..].
  - by intros (a & st1 & -> & ->).
Qed.
Lemma lift_cli_ok {A} (x : Cli A) st a st' :
  lift_cli x st = (Ok a, st') ↔ st'.1 = st.1 ∧ x st.2 = (Ok a, st'.2).
Proof.
  destruct st as [rep s], st' as [rep' s']. unfold lift_cli. cbn [fst snd].
  destruct (x s) as [r1 s1]. naive_solver.
Qed.
Lemma update_ok f st a st' : update f st = (Ok a, st') ↔ st' = (f st.1, st.2).
Proof. destruct st as [rep s], a. unfold update. naive_solver. Qed.
Lemma get_report_ok st a st' : get_report st = (Ok a, st') ↔ a = st.1 ∧ st' = st.
Proof. destruct st as [rep s]. unfold get_report. naive_solver. Qed.
Lemma reporting_ret_ok {A} (a b : A) st st' : (mret a : Reporting A) st = (Ok b, st') ↔ b = a ∧ st' = st.
Proof. unfold mret, reporting_ret. naive_solver. Qed.
Lemma reject_payload_ok {A} m st (a : A) st' : ¬ reject_payload m st = (Ok a, st').
Proof. destruct st as [rep s]. intros E. discriminate E. Qed.

(** Reading a file leaves the files alone. *)
Lemma io_keeps_fs {A} (x : IO A) s : touches (λ _, False) x → fs_of (io x s).2 = fs_of s.
Proof.
  intros Hx. rewrite io_fs. apply map_eq. intros p. destruct (Hx (m_world (sh_machine s))) as (_ & _ & Hp).
  apply Hp. by intros [].
Qed.
Lemma path_exists_fs env p s : fs_of (path_exists env p s).2 = fs_of s.
Proof. unfold path_exists. destruct (is_empty p); [done|]. apply io_keeps_fs, touches_exists. Qed.
Lemma read_json_file_fs {A} `{Serde A} env p s : fs_of (read_json_file (A:=A) env p s).2 = fs_of s.
Proof.
  apply io_keeps_fs, at_path_touches. intros q. unfold read_json. touches_tac.
Qed.

(** ** The gates of a bytecode patch *)
Section Gates.
Context `{Hash, BsdiffZstd, Processes, DirOrder, Modified, Serde BytecodeModule}.
Context `{Serde KernelInventory, Serde LinkerPlan, Serde ReleaseCacheMetadata, Serde PatchReport, Serde AotEntryPoints}.
Variable env : Environment.

(** The bytes are a module the device can load. *)
Definition valid_payload (bytes : list byte) : Prop :=
  (has_magic bytes = true ∧ ∃ m, from_binary bytes = Ok m)
  ∨ ∃ m, validate m = Ok tt ∧ to_vec m = Ok bytes.
(** What the run, in the shell [s], finds recorded for the release: every function
    the module calls in the AOT snapshot, or no record.  Where no metadata call
    fails any more, that means that there is no such file. *)
Definition record_path (release_dir : string) : string := join_text release_dir "aot_entry_points.json".
Definition targets_present (release_dir : string) (s : Shell) (bytes : list byte) : Prop :=
  ∃ aot s1, read_aot_entry_points env release_dir s = (Ok aot, s1)
  ∧ match aot with
    | None => w_stats (m_world (sh_machine s)) = [] → fs_of s !! resolve env (record_path release_dir) = None
    | Some present => ∃ m, module_from_slice bytes = Ok m
        ∧ ∀ t, calls_target [OpCode.CallStatic; OpCode.CallOriginal] m t → t ∈ present
    end.
(** The inventories agree on what a patch cannot change. *)
Definition compatible (release patch : KernelInventory) : Prop :=
  Forall (λ f, keeps release f ∨ interprets release f) (functions patch) ∧ shapes_agree release patch.

Lemma compiled_payload_ok bytes payload :
  validate_compiled_bytecode_payload bytes = Ok payload → valid_payload payload.
Proof.
  unfold validate_compiled_bytecode_payload, module_from_slice, module_to_vec, valid_payload.
  destruct (has_magic bytes) eqn:Hm.
  - destruct (from_binary bytes) as [m| |] eqn:Hf; [|done..]. cbn [mbind res_bind]. intros [= <-]. eauto.
  - destruct (map_err Json (from_slice bytes)) as [m| |]; [|done..]. cbn [mbind res_bind].
    destruct (validate m) as [[]| |] eqn:Hv; [|done..]. cbn [mbind res_bind]. rewrite Hv. cbn [mbind res_bind].
    destruct (to_vec m) as [bs| |] eqn:Ht; [|done..]. intros [= <-]. eauto.
Qed.

Lemma join_text_ne p q : q ≠ ""%string → is_empty (join_text p q) = false.
Proof.
  intros Hq. apply bool_decide_eq_false. unfold join_text. destruct (starts_with "/" q); [done|].
  repeat case_match; [done|..]; destruct p, q; done.
Qed.
Lemma no_record release_dir s s1 :
  read_aot_entry_points env release_dir s = (Ok None, s1) → w_stats (m_world (sh_machine s)) = [] →
  fs_of s !! resolve env (record_path release_dir) = None.
Proof.
  unfold read_aot_entry_points. cbv zeta.
  intros (e & s2 & He & Hr)%cli_bind_ok Hst. destruct e; cbn [negb] in Hr.
  { by apply cli_bind_ok in Hr as (parsed & s3 & _ & [=]). }
  unfold path_exists in He. rewrite join_text_ne in He by done.
  apply io_inv in He as (w & He & _). unfold fs_exists in He. rewrite stat_call_ok in He by done.
  injection He as He _. apply orb_false_iff in He as [_ He%bool_decide_eq_false].
  unfold fs_of, record_path. by apply eq_None_not_Some.
Qed.
Lemma missing_none m present :
  missing_aot_targets m present = Ok [] →
  ∀ t, calls_target [OpCode.CallStatic; OpCode.CallOriginal] m t → t ∈ present.
Proof.
  intros Hmiss t Ht.
  destruct (targets_for_spec [OpCode.CallStatic; OpCode.CallOriginal] m) as (l & Hl & _ & _ & Hin).
  revert Hmiss. unfold missing_aot_targets, aot_referenced_targets. rewrite Hl. cbn [fmap res_fmap mbind res_bind].
  intros [= Hnil]. destruct (decide (t ∈ present)); [done|].
  assert (t ∈ filter (λ t, t ∉ present) l) as Hf by (by apply list_elem_of_filter; split; [|apply Hin]).
  rewrite Hnil in Hf. by apply elem_of_nil in Hf.
Qed.
Lemma aot_gate_ok release_dir payload st st' :
  gate_call_original_aot_presence env release_dir payload st = (Ok tt, st') →
  st'.1 = st.1 ∧ targets_present release_dir st.2 payload.
Proof.
  unfold gate_call_original_aot_presence.
  intros (aot & st1 & [Hr1 Hx]%lift_cli_ok & Hr)%reporting_bind_ok.
  enough (st'.1 = st1.1 ∧ match aot with
    | None => True
    | Some present => ∃ m, module_from_slice payload = Ok m
        ∧ ∀ t, calls_target [OpCode.CallStatic; OpCode.CallOriginal] m t → t ∈ present end) as [E Ht].
  { split; [congruence|]. exists aot, st1.2. split; [exact Hx|]. destruct aot; [done|by eapply no_record]. }
  destruct aot as [present|].
  - apply reporting_bind_ok in Hr as (m & st2 & [Hr2 [Hm _]%cli_lift_ok]%lift_cli_ok & Hr).
    apply reporting_bind_ok in Hr as (missing & st3 & [Hr3 [Hmiss _]%cli_lift_ok]%lift_cli_ok & Hr).
    case_bool_decide as Hnil; [|by apply reporting_bind_ok in Hr as ([] & st4 & _ & []%reject_payload_ok)].
    apply reporting_ret_ok in Hr as [_ ->]. split; [congruence|]. subst missing.
    exists m. split; [done|by apply missing_none].
  - by apply lift_cli_ok in Hr as [Hr2 _].
Qed.

(** Reading a release inventory and compiling the plan against it: the shell
    afterwards, where a warning may have been printed. *)
Definition warned (s s' : Shell) : Prop :=
  ∃ err, s' = mk_shell (sh_machine s) (sh_commands s) (sh_out s) err (sh_uuids s) (sh_seeds s).
Definition linked (release_dir : string) (build : ResolvedBuild) (s : Shell) (release patch : KernelInventory)
    (s' : Shell) : Prop :=
  ∃ s1 s2, read_json_file env (join_text release_dir "kernel_inventory.json") s = (Ok release, s1)
    ∧ generate_kernel_inventory env build s1 = (Ok patch, s2) ∧ warned s2 s'.
(** The plan compiled to bytes that validate, with their calls recorded. *)
Definition compiled_to (release_dir : string) (build : ResolvedBuild) (plan : LinkerPlan) (s : Shell)
    (bytes : list byte) : Prop :=
  ∃ compiled s', compile_kernel_plan env build plan s = (Ok (Some compiled), s')
    ∧ validate_compiled_bytecode_payload compiled = Ok bytes ∧ valid_payload bytes
    ∧ targets_present release_dir s' bytes.
Definition changes (release patch : KernelInventory) : Prop := ¬ Forall (keeps release) (functions patch).

Lemma plan_changes release patch plan :
  plan_bytecode_link release patch = Ok plan → has_rejects plan = false →
  (interpret plan = [] ↔ Forall (keeps release) (functions patch)).
Proof.
  intros Hplan Hrej. pose proof (plan_lists _ _ _ Hplan) as (_ & Hi & _).
  pose proof (plan_inv _ _ _ Hplan) as (Hwf & _).
  apply (plan_accepts _ _ _ Hplan) in Hrej as [Hall _]. rewrite Hi. split.
  - intros Hnil%fmap_nil_inv. apply list.Forall_forall. intros f Hf.
    rewrite list.Forall_forall in Hall. destruct (Hall f Hf) as [|Hint]; [done|].
    assert (f ∈ filter (interprets release) (functions patch)) as Hin by by apply list_elem_of_filter.
    rewrite Hnil in Hin. by apply elem_of_nil in Hin.
  - intros Hk. rewrite (filter_none (interprets release)); [done|].
    eapply list.Forall_impl; [exact Hk|]. intros f. by apply keeps_not_interprets.
Qed.

Lemma recorded_plan report warning report' :
  record_interpreter_ratio_warning report = (warning, report') →
  linker_plan report' = linker_plan report ∧ build_comparison report' = build_comparison report.
Proof.
  unfold record_interpreter_ratio_warning.
  destruct (linker_plan report ≫= interpreter_ratio_warning); [|by intros [= _ <-]].
  destruct (existsb _ _); by intros [= _ <-].
Qed.

Lemma bytecode_payload_ok release_dir build st o st' :
  automatic_bytecode_payload env release_dir build st = (Ok o, st') →
  build_comparison st'.1 = build_comparison st.1
  ∧ ∃ release patch plan s1, linked release_dir build st.2 release patch s1
      ∧ plan_bytecode_link release patch = Ok plan ∧ linker_plan st'.1 = Some plan ∧ compatible release patch
      ∧ match o with
        | None => ¬ changes release patch
        | Some p => changes release patch
            ∧ ∃ bytes, p = bytecode_payload bytes ∧ compiled_to release_dir build plan s1 bytes
        end.
Proof.
  unfold automatic_bytecode_payload.
  intros (release & st1 & [R1 Hrel]%lift_cli_ok & Hr)%reporting_bind_ok.
  apply reporting_bind_ok in Hr as (patch & st2 & [R2 Hpat]%lift_cli_ok & Hr).
  apply reporting_bind_ok in Hr as (plan & st3 & [R3 [Hplan S3]%cli_lift_ok]%lift_cli_ok & Hr).
  apply reporting_bind_ok in Hr as ([] & st4 & R4%update_ok & Hr).
  apply reporting_bind_ok in Hr as (rep & st5 & [-> ->]%get_report_ok & Hr).
  destruct (record_interpreter_ratio_warning st4.1) as [warning rep] eqn:Hw.
  apply recorded_plan in Hw as [Hw1 Hw2].
  apply reporting_bind_ok in Hr as ([] & st6 & R6%update_ok & Hr).
  apply reporting_bind_ok in Hr as ([] & st7 & [R7 W7]%lift_cli_ok & Hr).
  assert (linker_plan st7.1 = Some plan ∧ build_comparison st7.1 = build_comparison st.1) as [P7 B7].
  { rewrite R7, R6. cbn [fst]. rewrite Hw1, Hw2, R4. cbn [fst linker_plan build_comparison set_linker_plan].
    by rewrite R3, R2, R1. }
  destruct (has_rejects plan) eqn:Hrej; [by apply reject_payload_ok in Hr|].
  assert (compatible release patch) as Hc by by apply (plan_accepts _ _ _ Hplan).
  assert (linked release_dir build st.2 release patch st7.2) as Hl.
  { exists st1.2, st2.2. split; [done|]. split; [done|]. rewrite R6, R4, S3 in W7. cbn [snd] in W7.
    destruct warning; injection W7 as <-; [by eexists|]. exists (sh_err st2.2). by destruct (st2.2). }
  pose proof (plan_changes _ _ _ Hplan Hrej) as Hch.
  assert (interpret plan = [] → ¬ changes release patch) as Hnone by (intros Hi Hx; by apply Hx, Hch).
  unfold changed_function_count in Hr. destruct (N.eqb_spec (len (interpret plan)) 0) as [Hz|Hz].
  { apply reporting_ret_ok in Hr as [-> ->]. split; [done|]. exists release, patch, plan, st7.2.
    do 4 (split; [done|]). apply Hnone. by destruct (interpret plan); [|rewrite len_cons in Hz; lia]. }
  apply reporting_bind_ok in Hr as (compiled & st8 & [R8 Hcomp]%lift_cli_ok & Hr).
  rewrite <- R8 in P7, B7. destruct compiled as [compiled|].
  - apply reporting_bind_ok in Hr as (bytes & st9 & [R9 [Hv S9]%cli_lift_ok]%lift_cli_ok & Hr).
    apply reporting_bind_ok in Hr as ([] & st10 & [R10 Ht]%aot_gate_ok & Hr). rewrite S9 in Ht.
    apply reporting_ret_ok in Hr as [-> ->]. rewrite R10, R9. split; [done|]. exists release, patch, plan, st7.2.
    do 4 (split; [done|]). split.
    + intros Hk%Hch. rewrite Hk in Hz. done.
    + exists bytes. split; [done|]. exists compiled, st8.2. do 2 (split; [done|]).
      split; [by eapply compiled_payload_ok|done].
  - apply reporting_ret_ok in Hr as [-> ->]. split; [done|]. exists release, patch, plan, st7.2.
    do 4 (split; [done|]). apply Hnone.
    revert Hcomp. unfold compile_kernel_plan. case_bool_decide; [done|].
    intros (dill & s1 & _ & Hr)%cli_bind_ok. destruct dill; [|discriminate Hr].
    repeat (apply cli_bind_ok in Hr as (? & ? & _ & Hr)). destruct (success _); cbn [negb] in Hr;
      repeat (apply cli_bind_ok in Hr as (? & ? & _ & Hr)); discriminate Hr.
Qed.
End Gates.

Section Automatic.
Context `{Hash, BsdiffZstd, Processes, DirOrder, Modified, Serde BytecodeModule}.
Context `{Serde KernelInventory, Serde LinkerPlan, Serde ReleaseCacheMetadata, Serde PatchReport, Serde AotEntryPoints}.
Variable env : Environment.

(** The run from [s] to [s'], up to the link: the cached release is read, the build
    resolved, compared with it, run, and compared again once it is finished. *)
Definition same_build (context : ResolvedContext) (platform : string) (options : BuildOptions) (release_dir arch : string)
    (s : Shell) (build : ResolvedBuild) (report : PatchReport) (s' : Shell) : Prop :=
  ∃ metadata prebuilt built s1 s2 s3 s4 s5,
    path_exists env release_dir s = (Ok true, s1)
    ∧ read_release_cache env release_dir s1 = (Ok metadata, s2)
    ∧ resolve_build env context platform arch options None s2 = (Ok build, s3)
    ∧ collect_prebuild_build_info env (rc_build_info metadata) platform arch "bytecode" build s3 = (Ok prebuilt, s4)
    ∧ comparison_is_ok (compare_for_patch (rc_build_info metadata) prebuilt) = true
    ∧ run_flutter_build env platform arch "bytecode" build s4 = (Ok tt, s5)
    ∧ collect_build_info env platform arch "bytecode" build s5 = (Ok built, s')
    ∧ build_comparison report = Some (compare_for_patch (rc_build_info metadata) built)
    ∧ comparison_is_ok (compare_for_patch (rc_build_info metadata) built) = true.

Lemma require_same_build_ok release_info patch_info out st st' :
  require_same_build env release_info patch_info out st = (Ok tt, st') →
  st'.2 = st.2 ∧ build_comparison st'.1 = Some (compare_for_patch release_info patch_info)
  ∧ comparison_is_ok (compare_for_patch release_info patch_info) = true.
Proof.
  unfold require_same_build. cbv zeta. intros ([] & st1 & ->%update_ok & Hr)%reporting_bind_ok.
  destruct (comparison_is_ok _) eqn:Hc; cbn [negb] in Hr.
  - by apply reporting_ret_ok in Hr as [_ ->].
  - apply reporting_bind_ok in Hr as (rep & st2 & [-> ->]%get_report_ok & Hr).
    by apply reporting_bind_ok in Hr as ([] & st3 & _ & []%reject_payload_ok).
Qed.

(** C10: [fcb patch] yields a bytecode payload only after every gate of its run: the
    build agrees with the cached release, before it is run and when it is finished,
    on all but ignored dart defines; the inventory of the release and that of the
    finished build link without rejects; something did change; the bytes are what
    the compiler made of that plan, a valid module; and every function it calls in
    the AOT snapshot is in the record the run read for the release.  That last gate
    is skipped when the record is not found, which without a failing metadata call
    means that there is none.  The report names that comparison and plan.  The run
    ends as a no-op only when the linked functions are all unchanged. *)
Theorem bytecode_patch_gates context app platform options release_version patch_number arch out report s :
  let '(r, (report', s')) := automatic_patch_payload env context app "bytecode" platform options
                               release_version patch_number arch out (report, s) in
  let release_dir := release_cache_dir (ra_id app) release_version platform arch in
  match r with
  | Ok o =>
    ∃ build release patch plan s1 s2,
      same_build context platform options release_dir arch s build report' s1
      ∧ linked env release_dir build s1 release patch s2
      ∧ plan_bytecode_link release patch = Ok plan ∧ linker_plan report' = Some plan
      ∧ compatible release patch
      ∧ match o with
        | None => ¬ changes release patch
        | Some p => changes release patch
            ∧ ∃ bytes, p = bytecode_payload bytes ∧ compiled_to env release_dir build plan s2 bytes
        end
  | _ => True
  end.
Proof.
  destruct (automatic_patch_payload _ _ _ _ _ _ _ _ _ _ _) as [[o|e|m] [report' s']] eqn:E; [|done..].
  revert E. unfold automatic_patch_payload. cbv zeta.
  intros (e & st1 & [_ Hex]%lift_cli_ok & Hr)%reporting_bind_ok.
  destruct e; cbn [negb] in Hr; [|by apply reject_payload_ok in Hr].
  apply reporting_bind_ok in Hr as (metadata & st2 & [_ Hmeta]%lift_cli_ok & Hr).
  apply reporting_bind_ok in Hr as (build & st3 & [_ Hbuild]%lift_cli_ok & Hr).
  apply reporting_bind_ok in Hr as (prebuilt & st4 & [_ Hpre]%lift_cli_ok & Hr).
  apply reporting_bind_ok in Hr as ([] & st5 & (S5 & _ & Hok5)%require_same_build_ok & Hr).
  apply reporting_bind_ok in Hr as ([] & st6 & S6%update_ok & Hr).
  apply reporting_bind_ok in Hr as ([] & st7 & [_ Hrun]%lift_cli_ok & Hr).
  rewrite S6 in Hrun. cbn [snd] in Hrun. rewrite S5 in Hrun.
  apply reporting_bind_ok in Hr as (built & st8 & [_ Hbuilt]%lift_cli_ok & Hr).
  apply reporting_bind_ok in Hr as ([] & st9 & (S9 & C9 & Hok)%require_same_build_ok & Hr).
  rewrite andb_false_r in Hr. cbn iota in Hr.
  apply bytecode_payload_ok in Hr as (B & release & patch & plan & s2 & Hl & Hplan & Hrec & Hc & Ho).
  cbn [fst snd] in *. rewrite S9 in Hl. rewrite C9 in B.
  exists build, release, patch, plan, st8.2, s2. split; [|by repeat (split; [done|])].
  exists metadata, prebuilt, built, st1.2, st2.2, st3.2, st4.2, st7.2. by repeat (split; [done|]).
Qed.
End Automatic.

(** ** Requests of the command line *)
Definition is_get (rq : Request) : Prop := rq_method rq = "GET"%string.
Section Lookups.
Context `{Net, BodyText, BodyJson RemoteAppConfig}.
Lemma act_sends_get_app client id : act_sends is_get (get_app client id).
Proof.
  eapply act_sends_weaken; [|apply act_sends_retry_loop]. by intros rq ->.
Qed.
Lemma act_sends_resolve_app client selector : act_sends is_get (ServerApi.resolve_app client selector).
Proof. unfold ServerApi.resolve_app. apply act_sends_bind; [by apply act_sends_call|]. intros []; act_sends_tac. Qed.
Lemma cli_sends_resolve_app client context : cli_sends is_get (resolve_app client context).
Proof. unfold resolve_app. pose proof act_sends_get_app. pose proof act_sends_resolve_app. moves_tac. Qed.
End Lookups.
#[export] Hint Resolve cli_sends_resolve_app : fcb.

(** Filling a report sends what [P] allows, for every [P]. *)
Lemma payload_sends `{Hash, BsdiffZstd, Processes, DirOrder, Modified, Serde BytecodeModule}
    `{Serde KernelInventory, Serde LinkerPlan, Serde ReleaseCacheMetadata, Serde PatchReport, Serde AotEntryPoints}
    P env context app backend platform options release_version patch_number arch out payload :
  reports (sent P)
    (patch_payload env context app backend platform options release_version patch_number arch out payload).
Proof. by apply (reports_payload (W:=λ _, True) (N:=λ _, True)). Qed.
(** ** A published patch *)
Section Delivery.
Context `{Hash, Base64, !Base64Laws, !Base64Text, Ed25519, !Ed25519Laws, BsdiffZstd}.
Context `{Processes, DirOrder, Modified, Net, BodyText, BodyJson RemoteAppConfig}.
Context `{Serde Value.t, Serde PatchManifest, Serde BytecodeModule, Serde KernelInventory, Serde LinkerPlan}.
Context `{Serde ReleaseCacheMetadata, Serde PatchReport, Serde AotEntryPoints}.
Context `{ToValue PatchManifest, ToValue CreatePatchRequest}.
Variable env : Environment.

(** The last request posted [body] and was accepted. *)
Definition posted (client : Client) (p : string) (body : Value.t) (m : Machine) : Prop :=
  let rq := {| rq_method := "POST"; rq_url := base_url client +:+ p; rq_headers := authorization client;
               rq_query := []; rq_body := Some body |} in
  ∃ earlier resp, m_log m = earlier ++ [rq] ∧ serve earlier rq = inr resp
    ∧ is_success (rs_status resp) = true.
Lemma post_json_ok `{ToValue A} client p (v : A) m m' :
  post_json client p v m = (Ok tt, m') → ∃ body, to_value v = Ok body ∧ posted client p body m'.
Proof.
  unfold post_json. intros (body & m1 & [Hb ->]%act_lift_ok & Hr)%act_bind_ok.
  exists body. split; [by destruct (to_value v); simplify_eq/=|].
  match type of Hr with retry_loop ?rq ?os _ _ _ = _ =>
    destruct (retry_loop_retried rq os 4 0 None m eq_refl) as (k & ds & _ & _ & _ & Hres & Hlog & _) end.
  change (nums 0 5) with attempts in *. rewrite Hr in Hres, Hlog. cbn [fst snd] in *.
  unfold conclude, reply in Hres.
  eexists (m_log m ++ replicate k _). rewrite replicate_S_end, app_assoc in Hlog.
  destruct (serve _ _) as [e|resp] eqn:Hs in Hres; [done|]. exists resp.
  split; [exact Hlog|]. split; [exact Hs|].
  destruct (is_success (rs_status resp)); [done|discriminate Hres].
Qed.

(** *** Payloads *)
Definition packed (backend : string) (p : PatchPayloadResult) : Prop :=
  (backend = "bytecode"%string ∧ ∃ bytes, p = bytecode_payload bytes ∧ valid_payload bytes)
  ∨ (backend = "snapshot_replace"%string ∧ ∃ base target, snapshot_payload base target = Ok p).

Lemma snapshot_packed x st p st' :
  (payload ← x; mret (Some payload) : Cli (option PatchPayloadResult)) st = (Ok (Some p), st') →
  ∃ st1, x st = (Ok p, st1).
Proof. intros (q & st1 & Hq & [= -> ->])%cli_bind_ok. by exists st'. Qed.
Lemma manual_packed app backend release_version patch_number platform arch payload_path s p s' :
  manual_patch_payload env app backend release_version patch_number platform arch payload_path s = (Ok (Some p), s') →
  packed backend p.
Proof.
  unfold manual_patch_payload. intros (target & s1 & _ & Hr)%cli_bind_ok.
  destruct (String.eqb_spec backend "snapshot_replace") as [->|_].
  - right. split; [done|]. destruct (env_snapshot_replace env); [|discriminate Hr].
    apply cli_bind_ok in Hr as ([] & s2 & _ & Hr). apply cli_bind_ok in Hr as (base & s3 & _ & Hr).
    apply snapshot_packed in Hr as [s4 [Hp _]%cli_lift_ok]. eauto.
  - destruct (String.eqb_spec backend "bytecode") as [->|_]; [|discriminate Hr].
    left. split; [done|]. apply cli_bind_ok in Hr as (m & s2 & [Hm _]%cli_lift_ok & Hr).
    apply cli_bind_ok in Hr as (bytes & s3 & [Hb _]%cli_lift_ok & Hr). injection Hr as <- _.
    exists bytes. split; [done|]. right. exists m. unfold module_to_vec in Hb.
    destruct (validate m) as [[]| |]; [|done..]. split; [done|]. by destruct (to_vec m); simplify_eq/=.
Qed.
Lemma automatic_packed context app backend platform options release_version patch_number arch out st p st' :
  automatic_patch_payload env context app backend platform options release_version patch_number arch out st
    = (Ok (Some p), st') → packed backend p.
Proof.
  unfold automatic_patch_payload. cbv zeta. intros (e & st1 & _ & Hr)%reporting_bind_ok.
  destruct e; cbn [negb] in Hr; [|by apply reject_payload_ok in Hr].
  do 8 apply reporting_bind_ok in Hr as (? & ? & _ & Hr).
  destruct (String.eqb_spec backend "bytecode") as [->|Hne].
  - rewrite andb_false_r in Hr. cbn iota in Hr.
    apply bytecode_payload_ok in Hr as (_ & rel & pat & plan & s1 & _ & _ & _ & _ & _ & bytes & -> & ? & ? & _ & _ & Hv & _).
    left. eauto.
  - destruct (env_snapshot_replace env); cbn [andb] in Hr; [|by apply reject_payload_ok in Hr].
    destruct (String.eqb_spec backend "snapshot_replace") as [->|_]; [|by apply reject_payload_ok in Hr].
    right. split; [done|]. apply lift_cli_ok in Hr as [_ Hr]. unfold automatic_snapshot_payload in Hr.
    destruct (String.eqb platform "android"); cbn [negb] in Hr; [|discriminate Hr].
    do 3 apply cli_bind_ok in Hr as (? & ? & _ & Hr).
    apply snapshot_packed in Hr as [s4 [Hp _]%cli_lift_ok]. eauto.
Qed.

Lemma payload_packed context app backend platform options release_version patch_number arch out payload st p st' :
  patch_payload env context app backend platform options release_version patch_number arch out payload st
    = (Ok (Some p), st') → packed backend p.
Proof.
  unfold patch_payload. destruct payload as [q|]; [|apply automatic_packed].
  intros ([] & st1 & _ & [_ Hp]%lift_cli_ok)%reporting_bind_ok. by eapply manual_packed.
Qed.

(** *** What the device checks *)
Definition is_double (c : Constant.t) : bool := match c with Constant.Double _ => true | _ => false end.
Definition has_doubles (m : BytecodeModule) : bool :=
  existsb (λ f, existsb is_double (Bytecode.constants f)) (Bytecode.functions m).
(** JSON keeps a module without doubles; its text never starts with the magic. *)
Context `{!SerdeLaws BytecodeModule (λ m, has_doubles m = false)}.
Context (json_no_magic : ∀ (m : BytecodeModule) bs, to_vec m = Ok bs → has_magic bs = false).

(** A JSON payload some of whose constants are doubles. *)
Definition json_with_doubles (bytes : list byte) : Prop :=
  ∃ m : BytecodeModule, to_vec m = Ok bytes ∧ has_doubles m = true.
Lemma validate_envelope_of m : validate m = Ok tt → validate_envelope m = Ok tt.
Proof. unfold validate. by destruct (validate_envelope m) as [[]| |]. Qed.
Lemma packed_contract feat m p :
  packed (backend m) p → (backend m = "snapshot_replace"%string → feat = true) →
  kind (payload m) = py_kind p → diff_algorithm (payload m) = py_diff_algorithm p →
  base_hash (payload m) = py_base_hash p → output_hash (payload m) = py_output_hash p →
  validate_payload_contract feat m (py_bytes p) = Ok tt
  ∨ (backend m = "bytecode"%string ∧ json_with_doubles (py_bytes p)).
Proof.
  intros [(Hb & bytes & -> & Hv)|(Hb & base & target & Hp)] Hfeat Hk Ha Hbase Hout;
    unfold validate_payload_contract; rewrite Hb, Hk.
  - cbn [py_kind bytecode_payload py_bytes]. rewrite !String.eqb_refl. cbn [negb].
    unfold validate_bytecode_module_payload, module_from_slice_envelope.
    destruct Hv as [[-> [module Hm]]|(module & Hval & Hm)].
    + left. unfold from_binary in Hm. unfold from_binary_envelope.
      destruct (read_binary bytes) as [module'| |]; [|done..]. cbn [mbind res_bind] in *.
      destruct (validate module') as [[]| |] eqn:Hval; [|done..].
      by rewrite (validate_envelope_of _ Hval).
    + rewrite (json_no_magic _ _ Hm). destruct (has_doubles module) eqn:Hd.
      { right. split; [done|]. by exists module. }
      left. rewrite (from_to_vec module bytes Hd Hm). cbn [map_err mbind res_bind].
      by rewrite (validate_envelope_of _ Hval).
  - left. unfold snapshot_payload in Hp.
    destruct (create_bsdiff_zstd base target) as [d| |]; [|done..]. injection Hp as <-.
    cbn [py_kind py_diff_algorithm py_base_hash py_output_hash] in *.
    rewrite (Hfeat Hb), Ha, Hbase, Hout. done.
Qed.

Lemma write_json_file_ok {A} `{Serde A} p (a : A) s s' :
  write_json_file env p a s = (Ok tt, s') → m_log (sh_machine s') = m_log (sh_machine s).
Proof. unfold write_json_file. by intros (w & _ & ->)%io_inv. Qed.

(** The signature made with the key in a file. *)
Lemma signed_with_file text key unsigned signed :
  private_key_seed_b64 text = Ok key → sign_patch_manifest unsigned (trim key) = (Ok tt, signed) →
  ∃ seed, private_key_seed text = Ok seed ∧ signed = set_signature unsigned (signature signed)
    ∧ verify_patch_manifest signed (b64_encode (ed_public seed)) = Ok tt.
Proof.
  unfold private_key_seed_b64. intros Hseed Hsign.
  destruct (private_key_seed text) as [seed| |] eqn:Hs; [|done..]. injection Hseed as <-.
  destruct (signed_manifest_verifies unsigned _ (b64_encode (ed_public seed)) signed Hsign) as (Hv & Hm & _).
  { unfold public_key_b64_from_private_key.
    by rewrite (private_key_seed_reload seed (private_key_seed_length _ _ Hs)). }
  eauto.
Qed.
(** The files written before the key is read. *)
Definition write_payload_files (out : string) (p : PatchPayloadResult) : Cli unit :=
  _ ← write_bytes env (join_text out "payload.bin") (py_bytes p);
  match py_artifact p with
  | Some artifact => write_bytes env (join_text out "artifact.bin") artifact
  | None => mret tt
  end.
(** The run that publishes [p] from the shell [s] signs with [seed]: the key it
    reads in the key file, once it has written those files. *)
Definition signed_with (context : ResolvedContext) (out : string) (p : PatchPayloadResult) (s : Shell)
    (seed : list byte) : Prop :=
  ∃ s1 text s2, write_payload_files out p s = (Ok tt, s1)
    ∧ read_text env (cx_key_file context) s1 = (Ok text, s2) ∧ private_key_seed text = Ok seed.
(** What [publish_patch] did when it succeeded, with the key of [seed]. *)
Definition published (context : ResolvedContext) (client : Client) (out : string) (unsigned : PatchManifest)
    (p : PatchPayloadResult) (s : Shell) (seed : list byte) (signed : PatchManifest) (m : Machine) : Prop :=
  signed_with context out p s seed
  ∧ signed = set_signature unsigned (signature signed)
  ∧ verify_patch_manifest signed (b64_encode (ed_public seed)) = Ok tt
  ∧ ∃ body, to_value {| cp_manifest := signed; payload_b64 := b64_encode (py_bytes p) |} = Ok body
      ∧ posted client "/v1/patches" body m.
Lemma publish_patch_ok context client out unsigned p report s s' :
  publish_patch env context client out unsigned p report s = (Ok tt, s') →
  ∃ seed signed, published context client out unsigned p s seed signed (sh_machine s').
Proof.
  unfold publish_patch. cbv zeta. intros ([] & s1 & E1 & Hr)%cli_bind_ok.
  apply cli_bind_ok in Hr as ([] & s2 & E2 & Hr). apply cli_bind_ok in Hr as (key & s3 & Hk & Hr).
  unfold load_private_key in Hk. apply cli_bind_ok in Hk as (text & s4 & Htext & [Hseed ->]%cli_lift_ok).
  destruct (sign_patch_manifest unsigned (trim key)) as [r signed] eqn:Hsign.
  apply cli_bind_ok in Hr as ([] & s5 & [-> ->]%cli_lift_ok & Hr).
  apply cli_bind_ok in Hr as ([] & s6 & _ & Hr). apply cli_bind_ok in Hr as ([] & s7 & Hnet & Hr).
  apply cli_bind_ok in Hr as ([] & s8 & Hw%write_json_file_ok & Hr).
  destruct (signed_with_file _ _ _ _ Hseed Hsign) as (seed & Hs & Hm & Hv).
  unfold net in Hnet. destruct (create_patch _ _ _ _) as [r m1] eqn:Hc. injection Hnet as -> <-.
  apply post_json_ok in Hc as (body & Hb & earlier & resp & Hlog & Hserve & Hsuc).
  exists seed, signed. split.
  { exists s2, text, s4. split; [by unfold write_payload_files; rewrite (cli_bind_run _ _ _ _ _ E1)|done]. }
  do 2 (split; [done|]). exists body. split; [done|].
  exists earlier, resp. split; [|done].
  repeat (apply cli_bind_ok in Hr as ([] & ? & [= <-] & Hr)). injection Hr as <-. cbn in *.
  by rewrite Hw.
Qed.

Lemma finish_patch_ok context client out manifest_for pr report s s' :
  finish_patch env context client out manifest_for pr report s = (Ok tt, s') →
  (pr = Ok None ∧ NO_OP ∈ sh_out s' ∧ m_log (sh_machine s') = m_log (sh_machine s))
  ∨ ∃ p, pr = Ok (Some p) ∧ publish_patch env context client out (manifest_for p) p report s = (Ok tt, s').
Proof.
  unfold finish_patch. destruct pr as [[p|]|e|m].
  - intros Hp. right. eauto.
  - intros ([] & s1 & Hw%write_json_file_ok & Hr)%cli_bind_ok. left. split; [done|].
    apply cli_bind_ok in Hr as ([] & s2 & [= <-] & Hr). injection Hr as <-. cbn.
    split; [|done]. rewrite !elem_of_app. left. right. by apply list_elem_of_singleton.
  - intros ([] & s1 & _ & [=])%cli_bind_ok.
  - discriminate.
Qed.
(** *** The run *)
Section Run.
Variables (context : ResolvedContext) (platform : string) (options : BuildOptions)
  (release_version : string) (patch_number : N) (arch : string) (payload : option string).
Let out := patch_cache_dir release_version patch_number platform arch.
(** The first steps of [patch]. *)
Definition patch_setup : Cli (Client * RemoteAppConfig * string) :=
  client ← cli_lift (authed_client env (cx_server context) (cx_token context));
  app ← resolve_app client context;
  backend ← cli_lift (backend_for app platform);
  _ ← create_dirs env out;
  mret (client, app, backend).
(** The run from [s] came to the payload, with this outcome and report. *)
Definition payload_was (s : Shell) (client : Client) (app : RemoteAppConfig) (backend : string)
    (r : result (option PatchPayloadResult)) (report : PatchReport) (s1 : Shell) : Prop :=
  ∃ s0, patch_setup s = (Ok (client, app, backend), s0)
    ∧ patch_payload env context app backend platform options release_version patch_number arch out payload
        (patch_report_new backend platform arch release_version patch_number, s0) = (r, (report, s1)).
(** [patch] from the payload on. *)
Definition patch_rest (found : Client * RemoteAppConfig * string) : Cli unit :=
  let '(client, app, backend) := found in
  reporting (patch_report_new backend platform arch release_version patch_number)
    (patch_payload env context app backend platform options release_version patch_number arch out payload)
    (finish_patch env context client out
      (unsigned_manifest app backend platform release_version patch_number arch)).
Lemma patch_split s :
  patch env context platform options release_version patch_number arch payload s = (patch_setup ≫= patch_rest) s.
Proof.
  unfold patch, patch_setup, mbind, cli_bind. cbv zeta. fold out.
  destruct (cli_lift _ s) as [[client|?|?] s1]; [|done..].
  destruct (resolve_app client context s1) as [[app|?|?] s2]; [|done..].
  destruct (cli_lift _ s2) as [[backend|?|?] s3]; [|done..].
  by destruct (create_dirs env out s3) as [[[]|?|?] s4].
Qed.
Lemma patch_setup_sends : cli_sends is_get patch_setup.
Proof. unfold patch_setup. moves_tac. Qed.
Lemma setup_found s client app backend s0 : patch_setup s = (Ok (client, app, backend), s0) →
  authed_client env (cx_server context) (cx_token context) = Ok client ∧ backend_for app platform = Ok backend.
Proof.
  unfold patch_setup. intros (c & s1 & [Hc _]%cli_lift_ok & Hr)%cli_bind_ok.
  apply cli_bind_ok in Hr as (a & s2 & _ & Hr). apply cli_bind_ok in Hr as (b & s3 & [Hb _]%cli_lift_ok & Hr).
  apply cli_bind_ok in Hr as ([] & s4 & _ & [= -> -> -> _]). by split.
Qed.

(** What a run from [s] that published the payload [p] for the app has done: the
    server accepted, as the last request, the payload and a manifest signed with
    the key the run read in the key file, of an installable patch.  The one
    exception is a module with doubles uploaded as JSON. *)
Definition delivered (s : Shell) (client : Client) (app : RemoteAppConfig) (backend : string) (p : PatchPayloadResult)
    (seed : list byte) (signed : PatchManifest) (m : Machine) : Prop :=
  authed_client env (cx_server context) (cx_token context) = Ok client
  ∧ (∃ report s1, payload_was s client app backend (Ok (Some p)) report s1 ∧ signed_with context out p s1 seed)
  ∧ backend_for app platform = Ok backend ∧ packed backend p
  ∧ signed = set_signature
      (unsigned_manifest app backend platform release_version patch_number arch p) (signature signed)
  ∧ (∃ body, to_value {| cp_manifest := signed; payload_b64 := b64_encode (py_bytes p) |} = Ok body
       ∧ posted client "/v1/patches" body m)
  ∧ ∀ feat, (backend = "snapshot_replace"%string → feat = true) →
      installable feat (b64_encode (ed_public seed)) signed (py_bytes p)
      ∨ (backend = "bytecode"%string ∧ json_with_doubles (py_bytes p)).
Lemma published_delivered s client app backend p report s1 seed signed m :
  payload_was s client app backend (Ok (Some p)) report s1 →
  published context client out (unsigned_manifest app backend platform release_version patch_number arch p) p
    s1 seed signed m →
  delivered s client app backend p seed signed m.
Proof.
  intros Hwas (Hk & Hm & Hv & Hpost). pose proof Hwas as (s0 & [Hclient Hbackend]%setup_found & Hpacked%payload_packed).
  split; [done|]. split; [by exists report, s1|]. do 4 (split; [done|]). intros feat Hfeat.
  assert (Manifest.backend signed = backend ∧ kind (Manifest.payload signed) = py_kind p
    ∧ diff_algorithm (Manifest.payload signed) = py_diff_algorithm p
    ∧ base_hash (Manifest.payload signed) = py_base_hash p
    ∧ output_hash (Manifest.payload signed) = py_output_hash p
    ∧ hash (Manifest.payload signed) = sha256_hex (py_bytes p)) as (F1 & F2 & F3 & F4 & F5 & F6)
    by (rewrite Hm; done).
  rewrite <- F1 in Hpacked, Hfeat.
  destruct (packed_contract feat signed p Hpacked Hfeat F2 F3 F4 F5) as [Hc|[Hby Hd]]; [left|right].
  - by split; [|split].
  - by rewrite <- F1.
Qed.
(** Up to its payload a run only looks things up. *)
Lemma payload_was_sends s client app backend r report s1 :
  payload_was s client app backend r report s1 → sent is_get s s1.
Proof.
  intros (s0 & Hset & Hp). pose proof (moves_run _ _ _ _ _ patch_setup_sends Hset) as (l0 & Hl0 & Hg0).
  pose proof (reports_run _ _ _ _ _ _ _ (payload_sends is_get _ _ _ _ _ _ _ _ _ _ _) Hp) as (l & Hl & Hg).
  exists (l0 ++ l). split; [by rewrite Hl, Hl0, app_assoc|by apply Forall_app].
Qed.
(** The run from [s] to [s'] found nothing changed, said so and uploaded nothing. *)
Definition unchanged (s s' : Shell) : Prop :=
  (∃ client app backend report s1, payload_was s client app backend (Ok None) report s1)
  ∧ NO_OP ∈ sh_out s' ∧ sent is_get s s'.
(** From the setup on, a run that succeeds finds nothing changed or delivers. *)
Lemma rest_delivers s client app backend s0 s' :
  patch_setup s = (Ok (client, app, backend), s0) → patch_rest (client, app, backend) s0 = (Ok tt, s') →
  unchanged s s' ∨ ∃ p seed signed, delivered s client app backend p seed signed (sh_machine s').
Proof.
  intros Hset Hr. unfold patch_rest, reporting in Hr.
  destruct (patch_payload _ _ _ _ _ _ _ _ _ _ _ _) as [pr [report s1]] eqn:Hp.
  assert (payload_was s client app backend pr report s1) as Hwas by by exists s0.
  apply finish_patch_ok in Hr as [(-> & Hno & Hlog)|(p & -> & Hpub)]; [left|right].
  - split; [by exists client, app, backend, report, s1|]. split; [done|].
    apply payload_was_sends in Hwas as (l & Hl & Hg). exists l. by rewrite Hlog.
  - apply publish_patch_ok in Hpub as (seed & signed & Hpub). exists p, seed, signed. by eapply published_delivered.
Qed.
(** When [fcb patch] succeeds, it found nothing changed or delivered a payload. *)
Lemma patch_delivers s :
  let '(r, s') := patch env context platform options release_version patch_number arch payload s in
  match r with
  | Ok _ => unchanged s s' ∨ ∃ client app backend p seed signed,
      delivered s client app backend p seed signed (sh_machine s')
  | _ => True
  end.
Proof.
  destruct (patch _ _ _ _ _ _ _ _ s) as [[[]|e|m] s'] eqn:E; [|done..]. rewrite patch_split in E.
  apply cli_bind_ok in E as ([[client app] backend] & s0 & Hset & Hr).
  destruct (rest_delivers _ _ _ _ _ _ Hset Hr) as [|(p & seed & signed & Hd)]; [by left|right].
  by exists client, app, backend, p, seed, signed.
Qed.
End Run.
End Delivery.

Lemma calm_path_exists env p s bs :
  calm s → is_empty p = false → fs_of s !! resolve env p = Some (File bs) → path_exists env p s = (Ok true, s).
Proof.
  intros [_ Hst] He Hf. unfold path_exists. rewrite He. apply calm_io. unfold fs_exists. rewrite stat_call_ok by done.
  unfold fs_of in Hf. rewrite Hf. by rewrite (bool_decide_eq_true_2 (is_Some _)), orb_true_r by eauto.
Qed.
Lemma calm_read_file env p s bs :
  calm s → is_empty p = false → fs_of s !! resolve env p = Some (File bs) → read_file env p s = (Ok bs, s).
Proof. intros Hs He Hf. unfold read_file, at_path. rewrite He. by apply calm_read. Qed.
(** The previous patch's artifact is looked up without the app's id: two apps
    patched from one directory get the same base. *)
Lemma diff_base_ignores_app env app app' release_version platform arch patch_number s bytes :
  let prev := patch_artifact_path release_version (saturating_sub patch_number 1) platform arch in
  1 < patch_number → calm s → fs_of s !! resolve env prev = Some (File bytes) → is_empty prev = false →
  snapshot_replace_diff_base env app release_version platform arch patch_number s = (Ok bytes, s)
  ∧ snapshot_replace_diff_base env app' release_version platform arch patch_number s = (Ok bytes, s).
Proof.
  intros prev Hn Hs Hf He.
  assert (∀ a, snapshot_replace_diff_base env a release_version platform arch patch_number s = (Ok bytes, s)) as Hall;
    [|by split].
  intros a. unfold snapshot_replace_diff_base. cbv zeta. fold prev.
  rewrite (proj2 (N.ltb_lt _ _) Hn).
  rewrite (cli_bind_run _ _ s true s) by by eapply calm_path_exists. by apply calm_read_file.
Qed.

(** ** Witness *)
Section Demo.
#[local] Existing Instances demo_hash demo_base64 demo_ed25519 demo_bsdiff demo_value_serde demo_to_value.
#[local] Existing Instances demo_base64_laws demo_base64_text demo_ed25519_laws.
#[local] Existing Instances demo_programs listing_order demo_modified.
(** The module of the demonstrations has a short text. *)
Definition short_text : list byte := [x7b; x7d].
Definition module_text (m : BytecodeModule) : list byte :=
  if decide (m = demo_module) then short_text else pos_bytes (encode m).
#[local] Instance demo_module_serde : Serde BytecodeModule := {|
  to_vec m := Ok (module_text m); to_vec_pretty m := Ok (module_text m);
  from_slice bs := if decide (bs = short_text) then Ok demo_module else countable_from_slice bs |}.
Lemma pos_bytes_not_short p : pos_bytes p ≠ short_text.
Proof.
  intros E. pose proof (hex_string_alphabet (to_be_bytes (S (Pos.size_nat p / 8)) (Npos p))) as Ha.
  unfold pos_bytes in E. rewrite E in Ha. by apply list.Forall_cons in Ha as [Hb _].
Qed.
Lemma module_text_reads m : from_slice (module_text m) = Ok m.
Proof.
  unfold module_text. cbn [from_slice demo_module_serde]. destruct (decide (m = demo_module)) as [->|_].
  - by rewrite decide_True.
  - rewrite decide_False by apply pos_bytes_not_short. apply countable_from_encode.
Qed.
#[local] Instance demo_module_laws : SerdeLaws BytecodeModule (λ m, has_doubles m = false).
Proof.
  split; cbn [to_vec to_vec_pretty demo_module_serde]; try by eauto.
  - intros a bs _ [= <-]. apply module_text_reads.
  - intros a bs _ [= <-]. apply module_text_reads.
  - intros bs. cbn. destruct (decide _); [done|]. unfold countable_from_slice. eauto with fcb.
Qed.
(** Documents the manual payload never reads back. *)
Definition write_only {A} : Serde A := {|
  to_vec _ := Ok []; to_vec_pretty _ := Ok []; from_slice _ := Err "not a document"%string |}.
#[local] Instance demo_manifest_serde : Serde PatchManifest := write_only.
#[local] Instance demo_inventory_serde : Serde KernelInventory := write_only.
#[local] Instance demo_plan_serde : Serde LinkerPlan := write_only.
#[local] Instance demo_cache_serde : Serde ReleaseCacheMetadata := write_only.
#[local] Instance demo_report_serde : Serde PatchReport := write_only.
#[local] Instance demo_entry_points_serde : Serde AotEntryPoints := write_only.
#[local] Instance demo_create_patch : ToValue CreatePatchRequest := λ rq,
  m ← to_value (cp_manifest rq);
  Ok (Value.Object [("manifest"%string, m); ("payload_b64"%string, Value.String (payload_b64 rq))]).
(** A server that knows one app and accepts every request. *)
Definition demo_remote_app : RemoteAppConfig := {|
  ra_id := "app"; ra_org_id := None; ra_name := "demo"; ra_channel := "stable"; ra_public_key := demo_public_key;
  platforms := [{| re_platform := "android"; enabled := true; re_backend := "bytecode"; abi := [] |}] |}.
#[local] Instance demo_accepting : Net := λ _ _, inr {| rs_status := 200; rs_body := [] |}.
#[local] Instance demo_body_text : BodyText := λ _, Ok ""%string.
#[local] Instance demo_app_json : BodyJson RemoteAppConfig := λ _, Ok demo_remote_app.

Definition demo_cli_context : ResolvedContext := {|
  cx_server := "https://fcb.example"; cx_token := Some "t"%string; cx_app := None; cx_app_id := Some "app"%string;
  cx_key_file := "/app/key"; cx_config_path := "fcb.yaml"; cx_build := default_build |}.
Definition demo_build_options : BuildOptions := {|
  bo_project := None; bo_flutter := None; bo_target := None; bo_build_mode := None; bo_flavor := None;
  bo_dart_defines := []; bo_ignored_dart_define_keys := []; bo_ios_sdk := None; bo_local_engine := None;
  bo_local_engine_host := None; bo_local_engine_src_path := None |}.
Definition demo_workspace : Shell := shell_with {[
  ["app"]%string := Dir; ["app"; "key"]%string := File (str_bytes demo_private_key);
  ["app"; "module.fcbm"]%string := File demo_bytes ]}.
Definition demo_patch_run : result unit * Shell :=
  patch demo_env demo_cli_context "android" demo_build_options "1.0.0" 1 "arm64-v8a" (Some "module.fcbm"%string)
    demo_workspace.

Lemma demo_json_no_magic (m : BytecodeModule) bs : to_vec m = Ok bs → has_magic bs = false.
Proof.
  intros [= <-]. unfold module_text. destruct (decide _); [done|].
  unfold pos_bytes, has_magic. apply bool_decide_eq_false. intros Hm.
  pose proof (hex_string_alphabet (to_be_bytes (S (Pos.size_nat (encode m) / 8)) (Npos (encode m)))) as Ha.
  destruct (str_bytes _) as [|b l]; [done|]. apply list.Forall_cons in Ha as [Hb _].
  injection Hm as -> _. discriminate Hb.
Qed.
End Demo.
