(* ===== verification/EndToEnd.v ===== *)
(** * From [fcb patch] to a running patch

    The two ends of a delivery in one statement: what the command line signs and
    uploads is what takes effect on every device that has the public key and to
    which a server hands it on. *)
From S2P Require Import Prelude Text Floats External Bytecode BytecodeCheck BytecodeFacts Crypto Diff Manifest World State StateFacts StateProperties StateProgress Linker BuildInfo Config Flights Net ServerApi Runtime RuntimeProperties Delivery Resilience Shell AotEntryPoints Auto AutoFacts BuildFacts Inspect Cli Pipeline PatchFacts.
Local Open Scope N_scope.

Section EndToEnd.
Context `{Hash, Base64, !Base64Laws, !Base64Text, Ed25519, !Ed25519Laws, BsdiffZstd, !BsdiffZstdLaws}.
Context `{Processes, DirOrder, Modified, Net, BodyText, BodyJson RemoteAppConfig}.
Context `{Serde Value.t, Serde PatchManifest, Serde BytecodeModule, Serde KernelInventory, Serde LinkerPlan}.
Context `{Serde ReleaseCacheMetadata, Serde PatchReport, Serde AotEntryPoints}.
Context `{ToValue PatchManifest, ToValue CreatePatchRequest}.
Context `{!SerdeLaws BytecodeModule (λ m, has_doubles m = false)}.
Context (json_no_magic : ∀ (m : BytecodeModule) bs, to_vec m = Ok bs → has_magic bs = false).
(** The device's side: its documents, its network. *)
Context `{Serde SimpleBinaryDiff, Serde State, !SerdeLaws State (λ _, True), Serde CrashRollbackEvent}.
Context `{ToValue EventRequest, JsonF64, BodyJson CheckResponse}.
Context (event_no_panic : ∀ e : EventRequest, no_panic (to_value e)).
Variable env : Environment.

(** A device that has what the payload needs: nothing, or for a diff from [base]
    the native backend and a stored artifact or baseline that is [base]. *)
Definition can_build (feat : bool) (dir : path) (rt : Runtime) (st : State) (m : Machine)
    (native : option (list byte * list byte)) : Prop :=
  match native with
  | None => True
  | Some (base, _) =>
    let baseline := Runtime.resolve dir <$> rt_baseline_artifact_path rt in
    feat = true ∧ artifacts_placed (cache dir rt) (installed st) baseline
    ∧ pick_base (cache dir rt) (files m) (sha256_hex base) (installed st) baseline = Some base
  end.
(** What was published takes effect on a device: one that has the key and what
    the payload needs, to which some server offers the manifest and the payload,
    and which does not hold the patch for bad.  For a diff the artifact it was
    made for is what the device then has. *)
Definition reaches_devices (seed : list byte) (signed : PatchManifest) (bytes : list byte)
    (native : option (list byte * list byte)) : Prop :=
  ∀ (device_net : Net) (device_bodies : BodyText) feat dir rt stats st offer mb m,
    @offered _ _ device_net _ dir rt st offer mb bytes m →
    rt_public_key_b64 rt = b64_encode (ed_public seed) → from_slice mb = Ok signed →
    can_build feat dir rt st m native → patch_number signed ∉ bad_patches st →
    @takes_effect _ _ _ _ _ _ _ _ _ _ _ _ _ device_net device_bodies _ feat dir rt stats signed bytes
      (snd <$> native) m.
Lemma installable_reaches seed signed bytes native :
  (∀ feat dir rt st m, can_build feat dir rt st m native →
     installable feat (b64_encode (ed_public seed)) signed bytes
     ∧ device_makes feat dir rt st signed bytes (snd <$> native) m) →
  reaches_devices seed signed bytes native.
Proof.
  intros Hi device_net device_bodies feat dir rt stats st offer mb m Ho Hk Hm Hb Hbad.
  destruct (Hi _ _ _ _ _ Hb) as [Hins Hmakes].
  eapply (@update_takes_effect _ _ _ _ _ _ _ _ _ _ _ _ _ device_net device_bodies _ _ event_no_panic);
    [exact Ho| |exact Hmakes|exact Hbad].
  split; [exact Hm|]. by rewrite Hk.
Qed.
Lemma bytecode_makes feat dir rt st signed bytes m :
  Manifest.backend signed = "bytecode"%string → device_makes feat dir rt st signed bytes None m.
Proof. unfold device_makes, makes_artifact. by intros ->. Qed.
(** The diff of [fcb patch] makes the target of the base. *)
Lemma snapshot_makes feat dir rt st signed p base target m :
  snapshot_payload base target = Ok p → Manifest.backend signed = "snapshot_replace"%string →
  diff_algorithm (payload signed) = py_diff_algorithm p → base_hash (payload signed) = py_base_hash p →
  output_hash (payload signed) = py_output_hash p → can_build feat dir rt st m (Some (base, target)) →
  device_makes feat dir rt st signed (py_bytes p) (Some target) m.
Proof.
  intros Hp Hb Ha Hbase Hout (Hf & Hpl & Hpick). unfold snapshot_payload in Hp.
  apply bind_ok in Hp as (d & Hd & [= <-]). cbn in Ha, Hbase, Hout |- *.
  do 3 (split; [done|]). exists BSDIFF_ZSTD_ALGORITHM, (sha256_hex base), base.
  do 3 (split; [done|]). split; [by apply bsdiff_zstd_roundtrip|]. rewrite Hout. by intros o [= <-].
Qed.

(** A native payload that was delivered passes the checks of the devices that can
    build it, and becomes the target there. *)
Lemma delivered_native context platform options release_version patch_number arch payload s client app p seed signed
    sent base target :
  delivered env context platform options release_version patch_number arch payload s client app "snapshot_replace" p
    seed signed sent →
  snapshot_payload base target = Ok p →
  ∀ feat dir rt st m, can_build feat dir rt st m (Some (base, target)) →
    installable feat (b64_encode (ed_public seed)) signed (py_bytes p)
    ∧ device_makes feat dir rt st signed (py_bytes p) (Some target) m.
Proof.
  intros (_ & _ & _ & _ & Hs & _ & Hi) Hpay feat dir rt st m Hcan. split.
  - destruct (Hi feat) as [?|[[=] _]]; [|done]. by destruct Hcan.
  - eapply snapshot_makes; [exact Hpay|by rewrite Hs..|exact Hcan].
Qed.

(** What becomes of a payload that was delivered. *)
Definition goes_live (backend : string) (p : PatchPayloadResult) (seed : list byte) (signed : PatchManifest) : Prop :=
  (backend = "bytecode"%string → ¬ json_with_doubles (py_bytes p) → reaches_devices seed signed (py_bytes p) None)
  ∧ (backend = "snapshot_replace"%string → ∃ base target,
       snapshot_payload base target = Ok p ∧ reaches_devices seed signed (py_bytes p) (Some (base, target))).
Lemma delivered_live context platform options release_version patch_number arch payload s client app backend p seed
    signed m :
  delivered env context platform options release_version patch_number arch payload s client app backend p seed
    signed m →
  goes_live backend p seed signed.
Proof.
  intros Hd. pose proof Hd as (_ & _ & _ & Hp & Hs & _ & Hi). split.
  - intros -> Hj. apply installable_reaches. intros feat dir rt st m' _. split.
    + by destruct (Hi feat) as [?|[_ ?]].
    + apply bytecode_makes. by rewrite Hs.
  - intros ->. destruct Hp as [[[=] _]|(_ & base & target & Hpay)]. exists base, target. split; [done|].
    apply installable_reaches. intros feat dir rt st m' Hcan. by eapply delivered_native.
Qed.

End EndToEnd.

(** ** Witness *)
Section Demo.
#[local] Existing Instances demo_hash demo_base64 demo_ed25519 demo_bsdiff demo_value_serde demo_to_value.
#[local] Existing Instances demo_base64_laws demo_base64_text demo_ed25519_laws demo_bsdiff_laws.
#[local] Existing Instances demo_programs listing_order demo_modified demo_state_serde demo_state_laws demo_event_serde.
#[local] Existing Instances PatchFacts.demo_manifest_serde PatchFacts.demo_module_serde PatchFacts.demo_module_laws.
#[local] Existing Instances demo_inventory_serde demo_plan_serde demo_cache_serde demo_report_serde.
#[local] Existing Instances demo_entry_points_serde demo_create_patch demo_accepting PatchFacts.demo_body_text demo_app_json.
#[local] Existing Instances demo_diff_serde demo_update_json demo_event_value demo_json_number.
(** The payload the last request carried. *)
Definition last_payload (log : list Request) : option string :=
  rq ← last log; body ← rq_body rq;
  match body with Value.Object [_; (_, Value.String text)] => Some text | _ => None end.
(** The bytecode is uploaded as JSON. *)
Definition demo_payload : list byte := short_text.
Lemma demo_patch_result : demo_patch_run.1 = Ok tt ∧ NO_OP ∉ sh_out demo_patch_run.2
  ∧ last_payload (m_log (sh_machine demo_patch_run.2)) = Some (b64_encode demo_payload).
Proof.
  split; [vm_compute; reflexivity|]. split; [|vm_compute; reflexivity].
  intros Hin%existsb_elem. revert Hin. vm_compute. discriminate.
Qed.
Lemma demo_no_doubles : ¬ json_with_doubles demo_payload.
Proof.
  intros (m & [= Hm] & Hd). pose proof (module_text_reads m) as Hr. rewrite Hm in Hr.
  injection Hr as <-. vm_compute in Hd. discriminate Hd.
Qed.
Lemma last_payload_posted client signed bytes m :
  (∃ body, to_value {| cp_manifest := signed; payload_b64 := b64_encode bytes |} = Ok body
     ∧ posted client "/v1/patches" body m) → last_payload (m_log m) = Some (b64_encode bytes).
Proof.
  intros (body & [v [_ [= <-]]]%bind_ok & earlier & resp & Hl & _). unfold last_payload. by rewrite Hl, last_snoc.
Qed.
End Demo.
