(* ===== verification/PublishFacts.v ===== *)
(** * How [fcb patch] ends

    What the command sends and leaves behind on every path, failures included:
    nothing but lookups before a payload has passed the gates and is signed, then
    that patch only; the report says which way the run went. *)
From S2P Require Import Prelude Text Floats External Bytecode BytecodeCheck BytecodeFacts Crypto Diff Manifest World State StateFacts StateProperties Linker BuildInfo Config Flights Net ServerApi Shell AotEntryPoints Auto AutoFacts BuildFacts Inspect Cli Pipeline PatchFacts EndToEnd.
Local Open Scope N_scope.

(** ** What is sent meanwhile *)
(** Compiling sends what [P] allows, for every [P]. *)
Lemma cli_sends_inventory `{Hash, Processes, DirOrder, Modified, Serde KernelInventory} P env build :
  cli_sends P (generate_kernel_inventory env build).
Proof. by apply (moves_inventory (W:=λ _, True)). Qed.
#[export] Hint Resolve cli_sends_inventory : fcb.

(** ** The ways [fcb patch] ends *)
Section Outcomes.
Context `{Hash, Base64, !Base64Laws, !Base64Text, Ed25519, !Ed25519Laws, BsdiffZstd}.
Context `{Processes, DirOrder, Modified, Net, BodyText, BodyJson RemoteAppConfig}.
Context `{Serde Value.t, Serde PatchManifest, Serde BytecodeModule, Serde KernelInventory, Serde LinkerPlan}.
Context `{Serde ReleaseCacheMetadata, Serde PatchReport, Serde AotEntryPoints}.
Context `{ToValue PatchManifest, ToValue CreatePatchRequest}.
Variable env : Environment.

(** The file [name] of the directory [dir] holds the document [a]. *)
Definition keeps_document {A} `{Serde A} (dir name : string) (a : A) (s : Shell) : Prop :=
  ∃ bs, to_vec_pretty a = Ok bs ∧ fs_of s !! resolve env (join_text dir name) = Some (File bs).
(** The upload of the payload [p] by the run that publishes it from the shell [s]:
    a POST with a manifest that differs from [unsigned] in the signature, which
    verifies under the public half of the key that run reads in the key file. *)
Definition signed_upload (context : ResolvedContext) (client : Client) (dir : string) (unsigned : PatchManifest)
    (p : PatchPayloadResult) (s : Shell) (rq : Request) : Prop :=
  ∃ seed signed body, signed_with env context dir p s seed
    ∧ signed = set_signature unsigned (signature signed)
    ∧ verify_patch_manifest signed (b64_encode (ed_public seed)) = Ok tt
    ∧ to_value {| cp_manifest := signed; payload_b64 := b64_encode (py_bytes p) |} = Ok body
    ∧ rq = {| rq_method := "POST"; rq_url := base_url client +:+ "/v1/patches";
              rq_headers := authorization client; rq_query := []; rq_body := Some body |}.
(** The request, sent one to five times. *)
Definition tries (rq : Request) (sent : list Request) : Prop := ∃ k, (k ≤ 4)%nat ∧ sent = replicate (S k) rq.
(** The last request was [rq], and the server accepted it. *)
Definition accepted (rq : Request) (s : Shell) : Prop :=
  ∃ earlier resp, m_log (sh_machine s) = earlier ++ [rq] ∧ serve earlier rq = inr resp
    ∧ is_success (rs_status resp) = true.

Section Run.
Variables (context : ResolvedContext) (platform : string) (options : BuildOptions)
  (release_version : string) (patch_number : N) (arch : string) (payload : option string).
Let out := patch_cache_dir release_version patch_number platform arch.
Abbreviation setup := (patch_setup env context platform release_version patch_number arch).
Abbreviation payload_run := (payload_was env context platform options release_version patch_number arch payload).
(** The last report of a run without a payload. *)
Definition closing_report (r : result (option PatchPayloadResult)) (report : PatchReport) : option PatchReport :=
  match r with
  | Err e => Some (push_message (set_status report "rejected") (error_to_string e))
  | Ok None => Some (push_message (set_status report "no_op") NO_OP)
  | _ => None
  end.

(** The result of the run from [s] to [s'] and the requests it sent. *)
Inductive patch_ends (s s' : Shell) : result unit → list Request → Prop :=
| ends_unstarted r r1 sent :
    setup s = (r1, s') → stopped r1 r → Forall is_get sent → patch_ends s s' r sent
| ends_refused client app backend e report last s1 sent :
    payload_run s client app backend (Err e) report s1 → closing_report (Err e) report = Some last →
    keeps_document out "patch_report.json" last s' → Forall is_get sent → patch_ends s s' (Err e) sent
| ends_unchanged client app backend report last s1 sent :
    payload_run s client app backend (Ok None) report s1 → closing_report (Ok None) report = Some last →
    keeps_document out "patch_report.json" last s' → Forall is_get sent → patch_ends s s' (Ok tt) sent
| ends_unreported client app backend r1 report last s1 r r2 sent :
    payload_run s client app backend r1 report s1 → closing_report r1 report = Some last →
    write_patch_report env out last s1 = (r2, s') → stopped r2 r → Forall is_get sent → patch_ends s s' r sent
| ends_panicked client app backend m report s1 sent :
    payload_run s client app backend (Panic m) report s1 → Forall is_get sent → patch_ends s s' (Panic m) sent
| ends_unpublished client app backend p report s1 r sent :
    payload_run s client app backend (Ok (Some p)) report s1 → r ≠ Ok tt → Forall is_get sent →
    patch_ends s s' r sent
| ends_unconfirmed client app backend p report s1 r rq sent retries :
    payload_run s client app backend (Ok (Some p)) report s1 → packed backend p →
    signed_upload context client out (unsigned_manifest app backend platform release_version patch_number arch p)
      p s1 rq →
    r ≠ Ok tt → Forall is_get sent → tries rq retries → patch_ends s s' r (sent ++ retries)
| ends_published client app backend p report s1 rq sent retries :
    payload_run s client app backend (Ok (Some p)) report s1 → packed backend p →
    signed_upload context client out (unsigned_manifest app backend platform release_version patch_number arch p)
      p s1 rq →
    accepted rq s' →
    keeps_document out "patch_report.json"
      (set_status (set_payload_hash report (sha256_hex (py_bytes p))) "created") s' →
    Forall is_get sent → tries rq retries → patch_ends s s' (Ok tt) (sent ++ retries).
End Run.

Lemma write_json_keeps {A} `{Serde A} dir name (a : A) s s' :
  write_json_file env (join_text dir name) a s = (Ok tt, s') → keeps_document dir name a s'.
Proof.
  unfold write_json_file. intros (w & Hr & ->)%io_inv. unfold at_path in Hr.
  destruct (is_empty _); [discriminate Hr|]. unfold write_json in Hr.
  apply io_bind_ok in Hr as ([] & w1 & _ & Hr). apply io_bind_ok in Hr as (bs & w2 & [Hb ->]%io_lift_ok & Hr).
  apply io_bind_ok in Hr as ([] & w3 & Hc%fs_create_ok & Ha%fs_append_ok).
  exists bs. split; [by destruct (to_vec_pretty a); simplify_eq/=|].
  unfold fs_of. cbn. by rewrite Ha, lookup_insert_eq, Hc, lookup_insert_eq.
Qed.
Lemma silent_log {A} (x : Cli A) s r s' :
  cli_sends (λ _, False) x → x s = (r, s') → m_log (sh_machine s') = m_log (sh_machine s).
Proof.
  intros Hx E. destruct (moves_run _ _ _ _ _ Hx E) as (sent & -> & Hs).
  destruct Hs; [by rewrite app_nil_r|done].
Qed.
Lemma stopped_not_ok {A} (r : result A) (r' : result unit) : stopped r r' → r' ≠ Ok tt.
Proof. by intros Hs ->; destruct r. Qed.

Lemma silent_step {A} (x : Cli A) (f : A → Cli unit) s r s' :
  (x ≫= f) s = (r, s') → cli_sends (λ _, False) x →
  (r ≠ Ok tt ∧ m_log (sh_machine s') = m_log (sh_machine s))
  ∨ ∃ a s1, x s = (Ok a, s1) ∧ m_log (sh_machine s1) = m_log (sh_machine s) ∧ f a s1 = (r, s').
Proof.
  intros [(a & s1 & E & Hr)|(r1 & E & Hs%stopped_not_ok)]%cli_bind_inv Hx; apply silent_log in E as Hlog; eauto 6.
Qed.
Lemma post_json_sends `{ToValue A} client p (v : A) s r s' :
  net (post_json client p v) s = (r, s') →
  (r ≠ Ok tt ∧ m_log (sh_machine s') = m_log (sh_machine s))
  ∨ ∃ body retries, to_value v = Ok body
      ∧ (let rq := {| rq_method := "POST"; rq_url := base_url client +:+ p; rq_headers := authorization client;
                      rq_query := []; rq_body := Some body |} in
         tries rq retries ∧ m_log (sh_machine s') = m_log (sh_machine s) ++ retries
         ∧ (r = Ok tt → accepted rq s')).
Proof.
  unfold net. destruct (post_json client p v (sh_machine s)) as [r0 m] eqn:E. intros [= <- <-].
  cbn [sh_machine with_machine]. pose proof E as E'. unfold post_json in E'.
  destruct (to_value v) as [body|e|msg] eqn:Hb; [right|left; by injection E' as <- <-..].
  exists body. cbn [map_err] in E'. rewrite (act_bind_run (act_lift (Ok body)) _ _ body (sh_machine s)) in E' by done.
  match type of E' with retry_loop ?rq ?os _ _ _ = _ =>
    destruct (retry_loop_retried rq os 4 0 None (sh_machine s) eq_refl) as (k & ds & Hk & _ & _ & _ & Hlog & _) end.
  change (nums 0 5) with attempts in Hlog. rewrite E' in Hlog. cbn [snd] in Hlog.
  eexists. split; [done|]. split; [by exists k|]. split; [exact Hlog|].
  intros ->. apply post_json_ok in E as (body' & Hb' & Hp). rewrite Hb in Hb'. by injection Hb' as <-.
Qed.

(** Publishing: without a request, or with the signed upload and no other. *)
Lemma publish_patch_ends context client dir unsigned p report s r s' :
  publish_patch env context client dir unsigned p report s = (r, s') →
  (r ≠ Ok tt ∧ m_log (sh_machine s') = m_log (sh_machine s))
  ∨ ∃ rq retries, signed_upload context client dir unsigned p s rq ∧ tries rq retries
      ∧ m_log (sh_machine s') = m_log (sh_machine s) ++ retries
      ∧ (r = Ok tt → accepted rq s' ∧ keeps_document dir "patch_report.json"
           (set_status (set_payload_hash report (sha256_hex (py_bytes p))) "created") s').
Proof.
  unfold publish_patch. cbv zeta.
  intros [?|([] & s1 & E1 & <- & Hr)]%silent_step; [by left| |auto with fcb].
  apply silent_step in Hr as [?|([] & s2 & E2 & <- & Hr)]; [by left| |by destruct (py_artifact p); auto with fcb].
  assert (write_payload_files env dir p s = (Ok tt, s2)) as Hfiles
    by (unfold write_payload_files; by rewrite (cli_bind_run _ _ _ _ _ E1)). clear E1 E2.
  apply silent_step in Hr as [?|(key & s3 & Hk & <- & Hr)]; [by left| |].
  2:{ unfold load_private_key, read_text. moves_tac. }
  unfold load_private_key in Hk. apply cli_bind_ok in Hk as (text & s4 & Htext & [Hseed ->]%cli_lift_ok).
  destruct (sign_patch_manifest unsigned (trim key)) as [rs signed] eqn:Hsign.
  apply silent_step in Hr as [?|([] & s5 & [-> ->]%cli_lift_ok & _ & Hr)]; [by left| |auto with fcb].
  apply silent_step in Hr as [?|([] & s6 & _ & <- & Hr)]; [by left| |auto with fcb].
  destruct (signed_with_file _ _ _ _ Hseed Hsign) as (seed & Hs & Hm & Hv).
  assert (∀ (x : Cli unit) s r s', cli_sends (λ _, False) x → x s = (r, s') →
    m_log (sh_machine s') = m_log (sh_machine s)) as Hsilent by (intros; by eapply silent_log).
  apply cli_bind_inv in Hr as [([] & s7 & Hnet & Hr)|(r1 & Hnet & Hstop)]; apply post_json_sends in Hnet.
  - destruct Hnet as [[[] _]|(body & retries & Hb & Hall & Hlog & Hacc)]; [done|].
    right. eexists _, retries. split; [by exists seed, signed, body; split; [exists s2, text, s4|]|]. split; [exact Hall|].
    apply Hsilent in Hr as Hl; [|unfold write_patch_report; moves_tac]. split; [by rewrite Hl|]. intros ->.
    split.
    + destruct (Hacc eq_refl) as (earlier & resp & ? & ?). exists earlier, resp. by rewrite Hl.
    + apply cli_bind_ok in Hr as ([] & s8 & (bs & Hbs & Hf)%write_json_keeps & Hr). exists bs. split; [done|].
      repeat (apply cli_bind_ok in Hr as ([] & ? & [= <-] & Hr)). by injection Hr as <-.
  - pose proof (stopped_not_ok _ _ Hstop) as Hno.
    destruct Hnet as [[_ ?]|(body & retries & Hb & Hall & Hlog & _)]; [by left|].
    right. eexists _, retries. split; [by exists seed, signed, body; split; [exists s2, text, s4|]|]. by repeat (split; [done|]).
Qed.

Section Runs.
Variables (context : ResolvedContext) (platform : string) (options : BuildOptions)
  (release_version : string) (patch_number : N) (arch : string) (payload : option string).
Let out := patch_cache_dir release_version patch_number platform arch.
(** The end of a run without a payload: only the report is written. *)
Lemma finish_without_payload client manifest_for r1 report last s r s' :
  closing_report r1 report = Some last →
  finish_patch env context client out manifest_for r1 report s = (r, s') →
  m_log (sh_machine s') = m_log (sh_machine s)
  ∧ (keeps_document out "patch_report.json" last s' ∧ stopped r1 r
     ∨ r1 = Ok None ∧ keeps_document out "patch_report.json" last s' ∧ r = Ok tt
     ∨ ∃ r2, write_patch_report env out last s = (r2, s') ∧ stopped r2 r).
Proof.
  unfold finish_patch, closing_report. intros Hlast Hr. split.
  { destruct r1 as [[p|]|e|m]; [done| | |done]; eapply silent_log, Hr; unfold write_patch_report; moves_tac. }
  destruct r1 as [[p|]|e|m]; [done| | |done]; injection Hlast as <-;
    apply cli_bind_inv in Hr as [([] & s1 & (bs & Hb & Hf)%write_json_keeps & Hr)|(r2 & E & Hs)]; eauto.
  - right. left. unfold mbind, cli_bind, println in Hr. injection Hr as <- <-. split; [done|].
    split; [by exists bs|done].
  - left. injection Hr as <- <-. split; [by exists bs|done].
Qed.

(** C11: every run of [fcb patch], with any server, any programs and any faults,
    ends in one of the ways of [patch_ends].  So nothing is ever uploaded but a
    payload that passed the gates, with a manifest signed with the key in the key
    file, and the server sees only lookups before it and no more than five
    attempts at it; a run ends well only when nothing changed or the server
    accepted that upload; a run whose payload was refused fails with the reason;
    and [patch_report.json] says "rejected" and
    why, "no_op" or "created" with the hash of the payload, unless it could not
    be written, which is then the error reported. *)
Theorem patch_outcome s :
  let '(r, s') := patch env context platform options release_version patch_number arch payload s in
  ∃ sent, m_log (sh_machine s') = m_log (sh_machine s) ++ sent
    ∧ patch_ends context platform options release_version patch_number arch payload s s' r sent.
Proof.
  destruct (patch _ _ _ _ _ _ _ _ s) as [r s'] eqn:E. rewrite patch_split in E.
  apply cli_bind_inv in E as [([[client app] backend] & s0 & Hset & Hr)|(r1 & Hset & Hs)];
    pose proof (moves_run _ _ _ _ _ (patch_setup_sends env context platform release_version patch_number arch) Hset) as (sent & Hlog & Hget);
    [|exists sent; split; [done|by eapply ends_unstarted]].
  unfold patch_rest, reporting in Hr.
  destruct (patch_payload _ _ _ _ _ _ _ _ _ _ _ _) as [r1 [report s1]] eqn:Hp.
  assert (∃ more, m_log (sh_machine s1) = m_log (sh_machine s) ++ more ∧ Forall is_get more) as (more & Hlog1 & Hmore).
  { pose proof (reports_run _ _ _ _ _ _ _ (payload_sends is_get _ _ _ _ _ _ _ _ _ _ _) Hp) as (l & El & Hl).
    exists (sent ++ l). split; [by rewrite El, Hlog, app_assoc|by apply Forall_app]. }
  assert (payload_was env context platform options release_version patch_number arch payload s client app backend r1 report s1)
    as Hwas by by exists s0.
  destruct (closing_report r1 report) as [last|] eqn:Hlast.
  - destruct (finish_without_payload _ _ _ _ _ _ _ _ Hlast Hr) as (Hl & Hend). exists more. split; [congruence|].
    destruct Hend as [[Hk Hs]|[(-> & Hk & ->)|(r2 & Hw & Hs)]].
    + destruct r1 as [[p|]|e|m]; [done|by destruct r| |done]. destruct r as [|e'|]; [done| |done].
      cbn in Hs. subst e'. by eapply ends_refused.
    + by eapply ends_unchanged.
    + by eapply ends_unreported.
  - destruct r1 as [[p|]|e|m]; [|done..|].
    + apply publish_patch_ends in Hr as [[Hno Hl]|(rq & retries & Hup & Hall & Hl & Hok)].
      { exists more. split; [congruence|]. by eapply ends_unpublished. }
      assert (packed backend p) as Hpacked by by eapply payload_packed.
      exists (more ++ retries). split; [by rewrite Hl, Hlog1, app_assoc|].
      destruct (decide (r = Ok tt)) as [->|Hno]; [destruct (Hok eq_refl)|].
      * by eapply ends_published.
      * by eapply ends_unconfirmed.
    + injection Hr as <- <-. exists more. split; [done|]. by eapply ends_panicked.
Qed.
End Runs.
End Outcomes.

(** ** Witness *)
Section Demo.
#[local] Existing Instances demo_hash demo_base64 demo_ed25519 demo_bsdiff demo_value_serde demo_to_value.
#[local] Existing Instances demo_base64_laws demo_base64_text demo_ed25519_laws.
#[local] Existing Instances demo_programs listing_order demo_modified.
#[local] Existing Instances PatchFacts.demo_manifest_serde PatchFacts.demo_module_serde.
#[local] Existing Instances demo_inventory_serde demo_plan_serde demo_cache_serde demo_report_serde.
#[local] Existing Instances demo_entry_points_serde demo_create_patch demo_accepting PatchFacts.demo_body_text demo_app_json.
Lemma patch_outcome_witness : ∃ sent,
  m_log (sh_machine demo_patch_run.2) = sent
  ∧ patch_ends demo_env demo_cli_context "android" demo_build_options "1.0.0" 1 "arm64-v8a" (Some "module.fcbm"%string)
      demo_workspace demo_patch_run.2 (Ok tt) sent.
Proof.
  pose proof (patch_outcome demo_env demo_cli_context "android" demo_build_options "1.0.0" 1 "arm64-v8a"
    (Some "module.fcbm"%string) demo_workspace) as Ho.
  change (patch _ _ _ _ _ _ _ _ demo_workspace) with demo_patch_run in Ho.
  pose proof demo_patch_result as (Hr & _ & _). destruct demo_patch_run as [r s']. cbn [fst snd] in *. subst r.
  destruct Ho as (sent & Hlog & Ho). exists sent. split; [exact Hlog|exact Ho].
Defined.
End Demo.
