(* ===== verification/TrustFacts.v ===== *)
(** * Which servers and keys [fcb install] trusts

    The check of the server's address, compared with the host RFC 3986 gives the
    address, and the pins that make the first public key seen for an app on a
    server the only one accepted afterwards. *)
From S2P Require Import Prelude Text Floats External Bytecode BytecodeCheck BytecodeFacts Crypto Diff Manifest World State StateFacts StateProperties Linker BuildInfo Config Flights Net ServerApi Resilience Shell AotEntryPoints Auto AutoFacts BuildFacts Inspect Cli Pipeline PatchFacts.
Local Open Scope N_scope.

(** ** Texts split at a character *)
Lemma split_first_sep c s t : no_char c s → split_first c (s +:+ String c t) = s.
Proof. intros Hs. unfold split_first. by rewrite split_sep. Qed.
Lemma split_first_id c s : no_char c s → split_first c s = s.
Proof. intros Hs. unfold split_first. by rewrite split_single. Qed.
Lemma split_snoc c p t : no_char c t → split c (p +:+ String c t) = split c p ++ [t].
Proof.
  intros Ht. induction p as [|a p IH].
  - rewrite (split_sep c "" t) by done. by rewrite split_single.
  - change (String a p +:+ String c t) with (String a (p +:+ String c t)). cbn [split]. rewrite IH.
    destruct (decide (a = c)); [done|].
    pose proof (split_ne c p) as Hne. by destruct (split c p).
Qed.

(** ** The address of the server *)
Definition at_sign : Ascii.ascii := Ascii.ascii_of_nat 64.
Definition question_mark : Ascii.ascii := Ascii.ascii_of_nat 63.
Definition number_sign : Ascii.ascii := Ascii.ascii_of_nat 35.
(** RFC 3986, section 3.2: the authority ends at the first [/], [?] or [#]; the
    host follows the user information and precedes the port. *)
Definition url_authority (rest : string) : string :=
  split_first number_sign (split_first question_mark (split_first slash rest)).
Definition without_userinfo (authority : string) : string :=
  default authority (last (split at_sign authority)).
Definition host_of (host_port : string) : string :=
  match strip_prefix "[" host_port with
  | Some value => split_first close_bracket value
  | None => split_first colon host_port
  end.
Definition url_host (rest : string) : string := host_of (without_userinfo (url_authority rest)).
Definition loopback (host : string) : Prop := host ∈ ["localhost"; "127.0.0.1"; "::1"]%string.
(** A name without any of the delimiters of an address. *)
Definition plain_host (host : string) : Prop :=
  no_char slash host ∧ no_char at_sign host ∧ no_char question_mark host ∧ no_char number_sign host
  ∧ no_char colon host ∧ starts_with "[" host = false.

Lemma enforce_ok server :
  enforce_secure_server server = Ok tt ↔
  starts_with "https://" server = true
  ∨ ∃ rest, strip_prefix "http://" server = Some rest ∧ loopback (server_host rest).
Proof.
  unfold enforce_secure_server, loopback. destruct (starts_with "https://" server); [naive_solver|].
  destruct (strip_prefix "http://" server) as [rest|]; [|naive_solver].
  pose proof (one_of_spec ["localhost"; "127.0.0.1"; "::1"]%string (server_host rest)) as Ho.
  destruct (one_of _ _); naive_solver.
Qed.

Lemma url_host_plain rest :
  no_char at_sign (split_first slash rest) → no_char question_mark (split_first slash rest) →
  no_char number_sign (split_first slash rest) → url_host rest = server_host rest.
Proof.
  intros Ha Hq Hn. unfold url_host, url_authority, without_userinfo.
  rewrite (split_first_id question_mark) by done. rewrite (split_first_id number_sign) by done.
  rewrite split_single by done. done.
Qed.
Lemma user_info_host user evil :
  user ∈ ["localhost"; "127.0.0.1"]%string → plain_host evil →
  let rest := user +:+ ":@" +:+ evil in
  server_host rest = user ∧ url_host rest = evil.
Proof.
  intros Hu (Hs & Ha & Hq & Hn & Hc & Hb) rest.
  assert (no_char slash user ∧ no_char at_sign user ∧ no_char question_mark user ∧ no_char number_sign user
    ∧ no_char colon user ∧ strip_prefix "[" (user +:+ ":@" +:+ evil) = None) as (Us & Ua & Uq & Un & Uc & Up).
  { repeat (apply list.elem_of_cons in Hu as [->|Hu]; [by vm_compute|]). by apply elem_of_nil in Hu. }
  assert (∀ c, no_char c user → c ≠ colon → c ≠ at_sign → no_char c evil → no_char c rest) as Hno.
  { intros c ????. unfold rest. rewrite no_char_app. split; [done|]. cbn. by repeat split. }
  assert (split_first slash rest = rest) as Hslash by by apply split_first_id, Hno.
  split.
  - unfold server_host. rewrite Hslash. unfold rest. rewrite Up.
    change (user +:+ ":@" +:+ evil) with (user +:+ String colon ("@" +:+ evil)).
    by apply split_first_sep.
  - unfold url_host, url_authority, without_userinfo. rewrite Hslash.
    rewrite (split_first_id question_mark) by by apply Hno.
    rewrite (split_first_id number_sign) by by apply Hno.
    assert (rest = (user +:+ ":") +:+ String at_sign evil) as -> by (unfold rest; by rewrite string_app_assoc).
    rewrite split_snoc by done. rewrite last_snoc. cbn [from_option id]. unfold host_of, strip_prefix.
    rewrite Hb. by apply split_first_id.
Qed.

(** C40: a server address is accepted exactly when it starts with [https://], or
    with [http://] before what the check takes for a loopback host.  That is the
    host of the address when there is no user information, query or fragment
    before the first [/]; with user information it is not: for every host the
    address [http://localhost:@host] is accepted and names that host, so keys are
    fetched from it without TLS. *)
Theorem secure_server_host server evil :
  no_panic (enforce_secure_server server)
  ∧ (enforce_secure_server server = Ok tt ↔
       starts_with "https://" server = true
       ∨ ∃ rest, strip_prefix "http://" server = Some rest ∧ loopback (server_host rest))
  ∧ (∀ rest, no_char at_sign (split_first slash rest) → no_char question_mark (split_first slash rest) →
       no_char number_sign (split_first slash rest) → server_host rest = url_host rest)
  ∧ (plain_host evil →
       enforce_secure_server ("http://localhost:@" +:+ evil) = Ok tt
       ∧ url_host ("localhost:@" +:+ evil) = evil).
Proof.
  split.
  { unfold enforce_secure_server. destruct (starts_with _ _); [by intros m|].
    destruct (strip_prefix _ _); [|by intros m]. by destruct (one_of _ _). }
  split; [apply enforce_ok|]. split.
  { intros rest ???. symmetry. by apply url_host_plain. }
  intros Hevil. destruct (user_info_host "localhost" evil) as [Hs Hu]; [by left|done|].
  split; [|exact Hu]. apply enforce_ok. right. exists ("localhost:@" +:+ evil). split; [done|].
  change ("localhost:@" +:+ evil) with ("localhost" +:+ ":@" +:+ evil). rewrite Hs. by left.
Qed.
Lemma secure_server_host_witness :
  enforce_secure_server "http://localhost:@evil.example" = Ok tt
  ∧ url_host "localhost:@evil.example" = "evil.example"%string
  ∧ enforce_secure_server "http://evil.example" ≠ Ok tt.
Proof.
  destruct (secure_server_host "http://evil.example" "evil.example") as (_ & _ & _ & He).
  destruct He as [H1 H2]; [by vm_compute|]. split; [exact H1|]. split; [exact H2|]. by vm_compute.
Defined.

(** ** Where the pins are *)
(** [p.join(name)] in the machine's paths. *)
Definition component (name : string) : Prop :=
  no_char slash name ∧ name ≠ ""%string ∧ name ≠ "."%string ∧ name ≠ ".."%string.
Lemma prefix_empty s : String.prefix "" s = true.
Proof. by destruct s. Qed.
Lemma resolve_join_text env p name :
  component name → resolve env (join_text p name) = resolve env p ++ [name].
Proof.
  intros (Hs & Hn & Hd & Hdd). unfold resolve, join_rel, join_text.
  assert (starts_with "/" name = false) as Habs.
  { destruct name as [|a name]; [done|]. destruct Hs as [Ha _]. unfold starts_with. cbn [String.prefix].
    destruct (Ascii.ascii_dec _ _) as [E|]; [by destruct Ha|done]. }
  assert (∀ acc, (if String.eqb name "" || String.eqb name "." then acc
    else if String.eqb name ".." then removelast acc else acc ++ [name]) = acc ++ [name]) as Hstep.
  { intros acc. by rewrite !(proj2 (String.eqb_neq _ _)). }
  rewrite Habs. destruct (is_empty p) eqn:He.
  { apply bool_decide_eq_true in He as ->. rewrite Habs. rewrite split_single by done.
    cbn [foldl split]. by rewrite Hstep. }
  apply bool_decide_eq_false in He.
  assert (∀ t, starts_with "/" (p +:+ t) = starts_with "/" p) as Hstart.
  { intros t. destruct p as [|a p]; [done|]. unfold starts_with.
    change (String a p +:+ t) with (String a (p +:+ t)). cbn [String.prefix]. by rewrite !prefix_empty. }
  destruct (ends_with "/" p) eqn:Hend.
  - apply bool_decide_eq_true in Hend. rewrite Hstart.
    assert (p = stake (String.length p - 1) p +:+ String slash "") as Hp.
    { rewrite <- (stake_sdrop (String.length p - 1) p) at 1. f_equal. exact Hend. }
    set (q := stake _ p) in Hp. clearbody q. generalize (if starts_with "/" p then [] else env_current_dir env).
    intros start. rewrite Hp, string_app_assoc.
    change (String slash "" +:+ name) with (String slash name). rewrite !split_snoc by done.
    rewrite !foldl_app. cbn [foldl]. by rewrite Hstep.
  - rewrite Hstart. change ("/" +:+ name) with (String slash name). rewrite split_snoc by done.
    rewrite foldl_app. cbn [foldl]. by rewrite Hstep.
Qed.

Lemma no_char_of_bytes (P : byte → Prop) c s :
  Forall P (str_bytes s) → ¬ P (Ascii.byte_of_ascii c) → no_char c s.
Proof. intros Ha Hc. apply no_char_bytes. intros Hin. rewrite list.Forall_forall in Ha. auto. Qed.
Lemma safe_filename_char value : Forall (λ b, safe_char b = true) (str_bytes (safe_filename value)).
Proof.
  unfold safe_filename. rewrite str_bytes_of. apply list.Forall_forall.
  intros b (a & _ & Hb)%list_elem_of_omap. destruct (cont_byte a); [done|]. injection Hb as <-.
  by destruct (safe_char a) eqn:E.
Qed.
Definition pin_name (server app_id : string) : string :=
  safe_filename server +:+ "__" +:+ safe_filename app_id +:+ ".sha256".
Lemma pin_name_component server app_id : component (pin_name server app_id).
Proof.
  assert (Forall (λ b, safe_char b = true) (str_bytes (pin_name server app_id))) as Ha.
  { unfold pin_name. rewrite !str_bytes_app. repeat apply Forall_app_2; try apply safe_filename_char;
      by repeat constructor. }
  assert (5 < String.length (pin_name server app_id))%nat as Hl.
  { unfold pin_name. rewrite !string_length_app. cbn. lia. }
  split; [by apply (no_char_of_bytes _ slash) in Ha|].
  split; [|split]; intros E; rewrite E in Hl; cbn in Hl; lia.
Qed.
Definition pins_dir (env : Environment) (cache : string) : path := resolve env cache ++ ["trusted_keys"%string].
Definition pin_file (env : Environment) (cache server app_id : string) : path :=
  pins_dir env cache ++ [pin_name server app_id].
Lemma resolve_pin_path env cache server app_id :
  resolve env (pin_path cache server app_id) = pin_file env cache server app_id.
Proof.
  unfold pin_path, joins. cbn [foldl]. rewrite resolve_join_text by apply pin_name_component.
  by rewrite resolve_join_text by by vm_compute.
Qed.

(** ** What an installation writes elsewhere *)
Section OffPins.
Context `{Hash, Base64, Ed25519, BsdiffZstd}.
Context `{Serde Value.t, ToValue PatchManifest, Serde PatchManifest, Serde SimpleBinaryDiff}.
Context `{Serde BytecodeModule, Serde State, Serde CrashRollbackEvent}.
Variable feat : bool.
Variable cache : path.
(** Not a file of the directory of pins. *)
Definition off_pins (q : path) : Prop := ∀ n, q ≠ cache ++ ["trusted_keys"%string; n].
Lemma off_pins_short q : (length q ≤ S (length cache))%nat → off_pins q.
Proof. intros Hl n ->. rewrite length_app in Hl. simpl in Hl. lia. Qed.
Lemma off_pins_beside c r q :
  c ≠ "trusted_keys"%string → q `prefix_of` cache ++ [c] ++ r → off_pins q.
Proof.
  intros Hc Hq n ->. cbn [Datatypes.app] in Hq. apply prefix_app_inv, prefix_cons_inv_1 in Hq. by destruct Hc.
Qed.
Lemma off_pins_write_short p bs :
  (length p ≤ S (length cache))%nat → touches off_pins (atomic_write_bytes p bs).
Proof.
  intros Hl. eapply touches_weaken; [apply touches_atomic_write|].
  assert (length (removelast p) ≤ length p)%nat as Hr.
  { destruct (decide (p = [])) as [->|Hp]; [done|]. rewrite (removelast_length p Hp). lia. }
  intros q [->|[(pid & sfx & ->)|Hq%ancestors_length]]; apply off_pins_short; [done| |lia].
  unfold temp_path, with_file_name. rewrite length_app. simpl.
  destruct (decide (p = [])) as [->|Hp]; [simpl; lia|]. rewrite (removelast_length p Hp) in Hl. lia.
Qed.
Lemma off_pins_write_patch n f bs :
  touches off_pins (atomic_write_bytes (join1 (patches_dir cache n) f) bs).
Proof.
  eapply touches_weaken; [apply touches_atomic_write|].
  intros q [->|[(pid & sfx & ->)|[_ Hq]%ancestors_elem]].
  - unfold patches_dir, join1. rewrite <- !app_assoc. by eapply (off_pins_beside "patches"). 
  - unfold temp_path, with_file_name, join1. rewrite removelast_last. unfold patches_dir, join1.
    rewrite <- !app_assoc. by eapply (off_pins_beside "patches").
  - unfold join1 in Hq. rewrite removelast_last in Hq. unfold patches_dir, join1 in Hq.
    rewrite <- app_assoc in Hq. by eapply (off_pins_beside "patches").
Qed.
Lemma off_pins_dir n : touches off_pins (fs_create_dir_all (patches_dir cache n)).
Proof.
  apply touches_create_dir_all. intros q [_ Hq]%ancestors_elem. unfold patches_dir, join1 in Hq.
  rewrite <- app_assoc in Hq. by eapply (off_pins_beside "patches").
Qed.
Lemma off_pins_evict fuel s : touches off_pins (evict cache fuel s).
Proof.
  revert s. induction fuel as [|fuel IH]; intros s; [apply touches_ret|]. simpl.
  destruct (2 <? _); [|apply touches_ret].
  destruct (position _ _) as [i|]; [|apply touches_ret].
  destruct (get _ i) as [old|]; [|apply touches_ret].
  apply touches_bind; [|by intros _].
  apply touches_ok, touches_remove_dir_all. intros q [k ->]. unfold patches_dir, join1.
  rewrite <- !app_assoc. by eapply (off_pins_beside "patches").
Qed.
Lemma off_pins_sibling n : off_pins (join1 cache n).
Proof. apply off_pins_short. unfold join1. rewrite length_app. simpl. lia. Qed.
Lemma off_pins_load : touches off_pins (load_state cache).
Proof.
  unfold load_state. apply touches_bind; [apply touches_exists|]. intros []; [|apply touches_ret]. cbn [negb].
  apply touches_bind; [apply touches_read|]. intros bs. destruct (from_slice bs); [apply touches_ret| |apply touches_lift].
  apply touches_bind.
  { unfold backup_corrupt_state. apply touches_bind; [apply touches_unique_suffix|]. intros sfx.
    apply touches_rename; [apply off_pins_sibling|]. unfold with_file_name, state_path, join1.
    rewrite removelast_last. apply off_pins_sibling. }
  intros _. apply touches_bind; [apply touches_now_string|]. intros now.
  apply touches_bind; [|intros; apply touches_ret].
  eapply touches_weaken; [apply touches_append_event_zone|].
  intros q [->|[(pid & sfx & ->)|Hq%ancestors_length]].
  - apply off_pins_sibling.
  - unfold temp_path, with_file_name, rollback_events_path, join1. rewrite removelast_last. apply off_pins_sibling.
  - apply off_pins_short. unfold rollback_events_path, join1 in Hq. rewrite removelast_last in Hq. lia.
Qed.
Lemma off_pins_save s : touches off_pins (save_state cache s).
Proof.
  unfold save_state, atomic_write_json. apply touches_bind; [apply touches_lift|]. intros bytes.
  apply off_pins_write_short. unfold state_path, join1. rewrite length_app. simpl. lia.
Qed.
Lemma off_pins_install mp pp key baseline :
  touches off_pins (install_payload_with_baseline feat cache mp pp key baseline).
Proof.
  pose proof off_pins_write_patch. pose proof off_pins_dir. pose proof off_pins_evict.
  pose proof off_pins_load. pose proof off_pins_save. pose proof (touches_now_string off_pins).
  pose proof (touches_chained_diff cache off_pins).
  unfold install_payload_with_baseline, read_json.
  repeat first [solve [auto with fcb] | apply touches_bind; [|intros ?]
               | match goal with |- touches _ (match ?x with _ => _ end) => destruct x end].
Qed.
End OffPins.

(** ** Pins *)
Lemma trim_line s : Forall (λ b, graphic b = true) (str_bytes s) → trim (str_of_bytes (str_bytes s ++ [x0a])) = s.
Proof.
  unfold trim. intros Hall. rewrite str_bytes_of. rewrite <- (str_of_str_bytes s) at 2. f_equal.
  destruct (str_bytes s) as [|b l] eqn:E; [done|].
  change ((b :: l) ++ [x0a]) with (b :: (l ++ [x0a])).
  rewrite trim_front_graphic by (by inversion Hall).
  change (b :: l ++ [x0a]) with ((b :: l) ++ [x0a]). rewrite rev_app_distr.
  change (trim_back (rev [x0a] ++ rev (b :: l))) with (trim_back (rev (b :: l))).
  destruct (rev (b :: l)) as [|c l'] eqn:Er.
  - apply (f_equal (@length byte)) in Er. rewrite List.length_rev in Er. done.
  - rewrite trim_back_graphic; [by rewrite <- Er, rev_involutive|].
    rewrite list.Forall_forall in Hall. apply Hall. rewrite <- (rev_involutive (b :: l)), Er.
    simpl. set_solver.
Qed.
Lemma join_text_nonempty p n : n ≠ ""%string → is_empty (join_text p n) = false.
Proof.
  intros Hn. apply bool_decide_eq_false. unfold join_text. destruct (starts_with "/" n); [done|].
  destruct (is_empty p) eqn:He; [done|]. apply bool_decide_eq_false in He.
  destruct p as [|a p]; [done|]. by destruct (ends_with _ _).
Qed.

Section Pins.
Context `{Hash, !HexText}.
Variables (env : Environment) (cache : string).

(** The pin at [p] is the fingerprint [fp]; and no metadata call fails any more. *)
Definition pin_kept (p : path) (fp : string) (s : Shell) : Prop :=
  ∃ bs text, fs_of s !! p = Some (File bs) ∧ from_utf8 bs = Ok text ∧ trim text = fp.
Definition pinned (p : path) (fp : string) (s : Shell) : Prop := stat_of s = [] ∧ pin_kept p fp s.

Lemma preserves_kept_io {A} p fp S (x : IO A) : touches S x → ¬ S p → preserves (pin_kept p fp) (io x).
Proof.
  intros Hx Hp s (bs & text & Hbs & Ht). unfold pin_kept. rewrite io_fs.
  destruct (Hx (m_world (sh_machine s))) as (_ & _ & H3). exists bs, text. by rewrite (H3 p Hp).
Qed.
Lemma preserves_pinned_io {A} p fp S (x : IO A) : touches S x → ¬ S p → preserves (pinned p fp) (io x).
Proof.
  intros Hx Hp s [Hst Hk]. split; [by eapply (preserves_stat S)|by eapply preserves_kept_io].
Qed.
#[global] Instance kept_framed p fp : Framed (pin_kept p fp).
Proof. intros s s' Hk Hbs. destruct (Hk p) as [Hf _]. unfold pin_kept. by rewrite Hf. Qed.
#[global] Instance pinned_framed p fp : Framed (pinned p fp).
Proof. intros s s' Hk [Hst Hbs]. split; [by eapply framed_stat|by eapply kept_framed]. Qed.
Lemma preserves_make_pins p fp server app :
  p = pin_file env cache server app → preserves (pinned p fp) (create_dirs env (join_text cache "trusted_keys")).
Proof.
  intros ->. unfold create_dirs. rewrite join_text_nonempty by done. rewrite resolve_join_text by by vm_compute.
  apply (preserves_pinned_io _ _ (λ q, q ≠ pin_file env cache server app)); [|tauto].
  apply touches_create_dir_all. intros q Hq%ancestors_length ->.
  unfold pin_file, pins_dir in Hq. rewrite !length_app in Hq. simpl in Hq. lia.
Qed.

Lemma pin_exists p fp s b s' : pinned p fp s → io (fs_exists p) s = (b, s') → b = Ok true.
Proof.
  intros [Hst (bs & text & Hbs & _)] E. apply io_inv in E as (w & E & _). unfold fs_exists in E.
  rewrite stat_call_ok in E by done. injection E as <- _. unfold fs_of in Hbs.
  by rewrite Hbs, (bool_decide_eq_true_2 (is_Some _)), orb_true_r by eauto.
Qed.
Lemma pin_path_nonempty server app : is_empty (pin_path cache server app) = false.
Proof. unfold pin_path, joins. cbn [foldl]. apply join_text_nonempty. by apply pin_name_component. Qed.

(** A key is accepted where a pin exists only when it is the pinned one; pins
    are never replaced. *)
Lemma ensure_pinned_keeps server0 app0 fp server app key s r s' :
  let p := pin_file env cache server0 app0 in
  pinned p fp s → ensure_pinned_public_key env cache server app key s = (r, s') →
  pinned p fp s' ∧ (pin_file env cache server app = p → r = Ok tt → sha256_hex (str_bytes key) = fp).
Proof.
  intros p Hp. unfold ensure_pinned_public_key. cbv zeta. intros E.
  unfold mbind, cli_bind in E.
  pose proof (preserves_make_pins p fp server0 app0 eq_refl s Hp) as Hp1.
  destruct (create_dirs _ _ s) as [[[]|e|m] s1] eqn:E1; [|by simplify_eq..]. cbn [snd] in Hp1.
  pose proof (moves_exists (R:=upholds (pinned p fp)) env (pin_path cache server app) s1 Hp1) as Hp2.
  destruct (path_exists env _ s1) as [[b|e|m] s2] eqn:E2; [|by simplify_eq..]. cbn [snd] in Hp2.
  destruct b.
  - pose proof (moves_read_text (R:=upholds (pinned p fp)) env (pin_path cache server app) s2 Hp2) as Hp3.
    destruct (read_text env _ s2) as [[text|e|m] s3] eqn:E3; [|by simplify_eq..]. cbn [snd] in Hp3.
    destruct (String.eqb_spec (trim text) (sha256_hex (str_bytes key))) as [Ht|]; cbn [negb] in E;
      [|injection E as <- <-; split; [done|]; intros _ E; discriminate E].
    injection E as <- <-. split; [done|]. intros Heq _. rewrite <- Ht.
    unfold read_text, at_path in E3. rewrite pin_path_nonempty, resolve_pin_path, Heq in E3.
    apply io_inv in E3 as (w & E3 & _). apply io_bind_ok in E3 as (bs & w1 & Hr & [Hu _]%io_lift_ok).
    apply fs_read_fs in Hr as [_ [(bs' & Hbs & [= ->])|[e He]]]; [|done].
    destruct Hp2 as [_ (bs2 & t2 & Hbs2 & Hu2 & <-)]. unfold fs_of in Hbs2.
    rewrite Hbs in Hbs2. injection Hbs2 as <-. rewrite Hu2 in Hu. by injection Hu as <-.
  - assert (pin_file env cache server app ≠ p) as Hne.
    { intros Heq. unfold path_exists in E2. rewrite pin_path_nonempty, resolve_pin_path, Heq in E2.
      by apply (pin_exists p fp) in E2. }
    split; [|done]. eapply preserves_run; [|exact Hp2|exact E].
    unfold write_bytes, at_path. rewrite pin_path_nonempty, resolve_pin_path.
    apply (preserves_pinned_io _ _ (λ q, q = pin_file env cache server app)); [|by intros ->].
    by apply touches_write.
Qed.
Lemma ensure_pinned_pins server app key s s' :
  ensure_pinned_public_key env cache server app key s = (Ok tt, s') →
  pin_kept (pin_file env cache server app) (sha256_hex (str_bytes key)) s'.
Proof.
  unfold ensure_pinned_public_key. cbv zeta. intros ([] & s1 & _ & Hr)%cli_bind_ok.
  apply cli_bind_ok in Hr as (b & s2 & _ & Hr). destruct b.
  - apply cli_bind_ok in Hr as (text & s3 & E3 & Hr).
    destruct (String.eqb_spec (trim text) (sha256_hex (str_bytes key))) as [Ht|]; cbn [negb] in Hr; [|done].
    injection Hr as <-.
    unfold read_text, at_path in E3. rewrite pin_path_nonempty, resolve_pin_path in E3.
    apply io_inv in E3 as (w & E3 & ->). apply io_bind_ok in E3 as (bs & w1 & Hr & [Hu ->]%io_lift_ok).
    apply fs_read_fs in Hr as [Hfs [(bs' & Hbs & [= ->])|[e He]]]; [|done].
    exists bs', text. unfold fs_of. cbn. rewrite Hfs. split; [done|]. split; [|done].
    by destruct (from_utf8 bs'); simplify_eq/=.
  - unfold write_bytes, at_path in Hr. rewrite pin_path_nonempty, resolve_pin_path in Hr.
    apply io_inv in Hr as (w & Hr & ->). apply io_bind_ok in Hr as ([] & w1 & Hc%fs_create_ok & Ha%fs_append_ok).
    rewrite Hc, lookup_insert_eq in Ha. cbn [Datatypes.app] in Ha. unfold fs_of. cbn.
    assert (Forall (λ b, graphic b = true) (str_bytes (sha256_hex (str_bytes key)))) as Hg.
    { eapply Forall_impl; [apply hex_text|]. intros c Hc'. by destruct c. }
    unfold pin_kept, fs_of. cbn. eexists _, _. rewrite Ha, lookup_insert_eq. split; [done|]. unfold from_utf8.
    rewrite utf8_valid_ascii.
    + split; [done|]. by apply trim_line.
    + apply Forall_app_2; [|by repeat constructor]. eapply Forall_impl; [exact Hg|]. apply graphic_ascii.
Qed.
End Pins.

(** ** Installing under a pin *)
Section Install.
Context `{Hash, !HexText, Base64, Ed25519, BsdiffZstd, Net, BodyText, BodyJson RemoteAppConfig}.
Context `{Serde Value.t, ToValue PatchManifest, Serde PatchManifest, Serde SimpleBinaryDiff}.
Context `{Serde BytecodeModule, Serde State, Serde CrashRollbackEvent}.
Variables (env : Environment) (cache : string).

(** The steps of [install] up to the key the server offers for the app. *)
Definition offered_key (context : ResolvedContext) (manifest_path : string) : Cli (string * string) :=
  manifest ← read_json_file (A:=PatchManifest) env manifest_path;
  _ ← cli_lift (enforce_secure_server (cx_server context));
  client ← cli_lift (authed_client env (cx_server context) (cx_token context));
  app ← net (get_app client (app_id manifest));
  mret (app_id manifest, trim (ra_public_key app)).

Lemma preserves_offered_key {I : Shell → Prop} `{!Framed I} context mp : preserves I (offered_key context mp).
Proof.
  unfold offered_key. assert (∀ c id, preserves I (net (get_app c id))) as Hg by (intros; apply framed_net, still_retry_loop; done).
  moves_tac.
Qed.

(** What follows the check of the pin. *)
Definition after_pin (manifest : PatchManifest) (manifest_path payload_path key : string) : Cli unit :=
  baseline_path ← release_artifact_path env (app_id manifest) (release_version manifest) (platform manifest)
                    (arch manifest);
  e ← path_exists env baseline_path;
  _ ← io (install_payload_with_baseline (env_snapshot_replace env) (resolve env cache)
            (resolve env manifest_path) (resolve env payload_path) key
            (if (e : bool) then Some (resolve env baseline_path) else None));
  println ("installed patch into " +:+ cache).
Lemma kept_after_pin server app fp manifest mp pp key :
  preserves (pin_kept (pin_file env cache server app) fp) (after_pin manifest mp pp key).
Proof.
  unfold after_pin, release_artifact_path. cbv zeta. apply moves_bind.
  { apply moves_bind; [apply moves_exists|]. intros b. apply moves_ret. }
  intros baseline. apply moves_bind; [apply moves_exists|]. intros e.
  apply moves_bind; [|by intros [] s Hs].
  eapply preserves_kept_io; [apply off_pins_install|]. unfold pin_file, pins_dir. rewrite <- app_assoc.
  intros Hoff. by eapply Hoff.
Qed.
Lemma after_pin_stat manifest mp pp key : preserves stats_end (after_pin manifest mp pp key).
Proof.
  unfold after_pin, release_artifact_path. cbv zeta. apply moves_bind; [moves_tac|].
  intros baseline. apply moves_bind; [auto with fcb|]. intros e.
  apply moves_bind; [eapply preserves_stat, off_pins_install|auto with fcb].
Qed.
Lemma preserves_after_pin server app fp manifest mp pp key :
  preserves (pinned (pin_file env cache server app) fp) (after_pin manifest mp pp key).
Proof. intros s [Hst Hk]. split; [by apply after_pin_stat|by apply kept_after_pin]. Qed.
Lemma after_pin_verifies manifest mp pp key s s' :
  after_pin manifest mp pp key s = (Ok tt, s') → ∃ m, verify_patch_manifest m key = Ok tt.
Proof.
  unfold after_pin. intros (b & s1 & _ & Hr)%cli_bind_ok. apply cli_bind_ok in Hr as (e & s2 & _ & Hr).
  apply cli_bind_ok in Hr as ([] & s3 & Hi & _). apply io_inv in Hi as (w & Hi & _).
  apply io_bind_ok in Hi as (m & w1 & _ & Hi). apply io_bind_ok in Hi as ([] & w2 & [Hv _]%io_lift_ok & _).
  by exists m.
Qed.

(** [install] is these three steps. *)
Lemma install_split context mp pp s r s' :
  install env context mp pp cache s = (r, s') →
  (∃ app key s1 s2 manifest, offered_key context mp s = (Ok (app, key), s1)
     ∧ ensure_pinned_public_key env cache (cx_server context) app key s1 = (Ok tt, s2)
     ∧ after_pin manifest mp pp key s2 = (r, s'))
  ∨ (r ≠ Ok tt ∧ ((∃ app key s1, offered_key context mp s = (Ok (app, key), s1)
                     ∧ (s' = s1 ∨ (ensure_pinned_public_key env cache (cx_server context) app key s1).2 = s'))
                  ∨ (offered_key context mp s).2 = s')).
Proof.
  unfold install, offered_key. unfold mbind, cli_bind. intros E.
  destruct (read_json_file env mp s) as [[m|e|x] s1]; [|injection E as <- <-; right; split; [done|by right]..].
  destruct (cli_lift (enforce_secure_server _) s1) as [[[]|e|x] s2];
    [|injection E as <- <-; right; split; [done|by right]..].
  destruct (cli_lift (authed_client _ _ _) s2) as [[client|e|x] s3];
    [|injection E as <- <-; right; split; [done|by right]..].
  destruct (net (get_app client (app_id m)) s3) as [[app|e|x] s4];
    [|injection E as <- <-; right; split; [done|by right]..].
  destruct (is_empty (trim (ra_public_key app))).
  { injection E as <- <-. right. split; [done|]. left. eexists _, _, _. split; [reflexivity|by left]. }
  destruct (ensure_pinned_public_key env cache (cx_server context) (app_id m) (trim (ra_public_key app)) s4)
    as [[[]|e|x] s5] eqn:E5.
  - left. eexists _, _, _, _, m. split; [reflexivity|]. split; [exact E5|exact E].
  - injection E as <- <-. right. split; [done|]. left. eexists _, _, _. split; [reflexivity|]. right. by rewrite E5.
  - injection E as <- <-. right. split; [done|]. left. eexists _, _, _. split; [reflexivity|]. right. by rewrite E5.
Qed.
Lemma install_keeps_pin server app fp context mp pp s :
  pinned (pin_file env cache server app) fp s →
  pinned (pin_file env cache server app) fp (install env context mp pp cache s).2.
Proof.
  intros Hp. destruct (install env context mp pp cache s) as [r s'] eqn:E.
  pose proof (preserves_offered_key (I:=pinned (pin_file env cache server app) fp) context mp s Hp) as Ho.
  apply install_split in E as [(app' & key & s1 & s2 & m & E1 & E2 & E3)
    |[_ [(app' & key & s1 & E1 & [->|<-])|<-]]]; cbn [snd]; [|by rewrite E1 in Ho| |done];
    rewrite E1 in Ho; cbn [snd] in Ho.
  - destruct (ensure_pinned_keeps env cache server app fp _ _ _ _ _ _ Ho E2) as [Hp2 _].
    by eapply preserves_run; [apply preserves_after_pin|exact Hp2|exact E3].
  - destruct (ensure_pinned_public_key _ _ _ _ _ s1) as [r2 s2] eqn:E2.
    by destruct (ensure_pinned_keeps env cache server app fp _ _ _ _ _ _ Ho E2) as [Hp2 _].
Qed.

(** What may happen between two installations: installations of any app from
    any server, successful or not, and anything that leaves the pin alone. *)
Inductive between (p : path) : Shell → Shell → Prop :=
| between_install context mp pp s : between p s (install env context mp pp cache s).2
| between_other s s' : fs_of s' !! p = fs_of s !! p → stat_of s' `suffix_of` stat_of s → between p s s'.

(** C16: while no metadata call fails, the first key accepted for an app of a
    server stays the only one: after a successful [fcb install], whatever other
    installations follow, and whatever other calls fail in them, a later
    installation of the same app from the same server succeeds only with a key of
    the same fingerprint (the same key, unless two keys with the same SHA-256 turn
    up), and the installed manifest verifies under it.  (An installation that
    cannot read the metadata of the pin takes the key it is offered and replaces
    the pin.) *)
Theorem pinned_key_holds context context' mp pp mp' pp' s s1 s2 s3 app key key' :
  (offered_key context mp s).1 = Ok (app, key) → install env context mp pp cache s = (Ok tt, s1) →
  stat_of s1 = [] →
  rtc (between (pin_file env cache (cx_server context) app)) s1 s2 →
  cx_server context' = cx_server context →
  (offered_key context' mp' s2).1 = Ok (app, key') → install env context' mp' pp' cache s2 = (Ok tt, s3) →
  (key' = key ∨ collision) ∧ (∃ m, verify_patch_manifest m key' = Ok tt)
  ∧ pinned (pin_file env cache (cx_server context) app) (sha256_hex (str_bytes key)) s3.
Proof.
  intros Ho Hi Hst Hsteps Hserver Ho' Hi'.
  set (p := pin_file env cache (cx_server context) app) in *.
  assert (pinned p (sha256_hex (str_bytes key)) s1) as Hp1.
  { apply install_split in Hi as [(a & k & t1 & t2 & m & E1 & E2 & E3)|[[] _]]; [|done].
    rewrite E1 in Ho. injection Ho as -> ->.
    split; [exact Hst|]. eapply preserves_run; [apply kept_after_pin| |exact E3].
    by eapply ensure_pinned_pins. }
  assert (pinned p (sha256_hex (str_bytes key)) s2) as Hp2.
  { clear Hi Hst Ho Ho' Hi'. induction Hsteps as [|u v w Huv _ IH]; [done|]. apply IH.
    destruct Huv as [c mp0 pp0 u|u v Hfs Hstat]; [by apply install_keeps_pin|].
    destruct Hp1 as [Hs1 Hp1]. split; [by eapply suffix_nil_of|]. unfold pin_kept. by rewrite Hfs. }
  pose proof (preserves_offered_key (I:=pinned p (sha256_hex (str_bytes key))) context' mp' s2 Hp2) as Hp3.
  split; [|split].
  - apply install_split in Hi' as [(a & k & t1 & t2 & m & E1 & E2 & E3)|[[] _]]; [|done].
    rewrite E1 in Ho', Hp3. injection Ho' as -> ->. cbn [snd] in Hp3.
    destruct (ensure_pinned_keeps env cache _ _ _ _ _ _ _ _ _ Hp3 E2) as [_ Heq].
    specialize (Heq ltac:(by rewrite Hserver) eq_refl).
    destruct (decide (key' = key)) as [->|Hne]; [by left|right].
    exists (str_bytes key'), (str_bytes key). split; [|done].
    intros Hb. apply Hne. by rewrite <- (str_of_str_bytes key'), Hb, str_of_str_bytes.
  - apply install_split in Hi' as [(a & k & t1 & t2 & m & E1 & E2 & E3)|[[] _]]; [|done].
    rewrite E1 in Ho'. injection Ho' as -> ->. by eapply after_pin_verifies.
  - pose proof (install_keeps_pin _ _ _ context' mp' pp' s2 Hp2) as Hk. by rewrite Hi' in Hk.
Qed.
End Install.

(** ** Witness *)
Section Demo.
#[local] Existing Instances demo_hash demo_hash_text demo_base64 demo_ed25519 demo_bsdiff demo_value_serde demo_to_value.
#[local] Existing Instances demo_accepting demo_body_text demo_app_json.
#[local] Existing Instances StateProperties.demo_manifest_serde PatchFacts.demo_module_serde demo_diff_serde.
(** The state is one byte as well; nothing here depends on what it holds. *)
#[local] Instance one_state : Serde State := {|
  to_vec _ := Ok [x73]; to_vec_pretty _ := Ok [x73]; from_slice _ := Ok default_state |}.
#[local] Instance no_event : Serde CrashRollbackEvent := write_only.
Definition demo_device : Shell := shell_with {[
  ["app"]%string := Dir; ["app"; "m.json"]%string := File [x6d]; ["app"; "p.bin"]%string := File demo_bytes ]}.
Definition demo_install_run (s : Shell) : result unit * Shell :=
  install demo_env demo_cli_context "m.json" "p.bin" "cache" s.
(** The same patch, installed twice. *)
Lemma pinned_key_holds_witness :
  pinned (pin_file demo_env "cache" "https://fcb.example" "app") (sha256_hex (str_bytes demo_public_key))
    (demo_install_run (demo_install_run demo_device).2).2.
Proof.
  destruct (pinned_key_holds demo_env "cache" demo_cli_context demo_cli_context "m.json" "p.bin" "m.json" "p.bin"
    demo_device (demo_install_run demo_device).2 (demo_install_run demo_device).2
    (demo_install_run (demo_install_run demo_device).2).2 "app" demo_public_key demo_public_key)
    as (_ & _ & Hp); [vm_compute; reflexivity..|reflexivity|reflexivity|vm_compute; reflexivity|vm_compute; reflexivity|exact Hp].
Defined.
End Demo.
