(* ===== verification/ReleaseFacts.v ===== *)
(** * What [fcb release] leaves for [fcb patch]

    A release announces its artifact to the server only when the cache is on disk
    with which the patches of the release are compared and, for the native
    backend, against which they are diffed. *)
From S2P Require Import Prelude Text Floats External Bytecode BytecodeCheck BytecodeFacts Crypto Diff Manifest World State StateFacts StateProperties StateProgress Linker BuildInfo Config Flights Net ServerApi Runtime RuntimeProperties Delivery Resilience Shell AotEntryPoints Auto AutoFacts BuildFacts Inspect Cli Pipeline PatchFacts EndToEnd PublishFacts TrustFacts.
Local Open Scope N_scope.

(** ** The files of a release *)
Section Files.
Variable env : Environment.
Lemma touches_write_json {A} `{Serde A} q p (a : A) :
  q ≠ p → length q = length p → touches (λ q', q' ≠ q) (write_json p a).
Proof.
  intros Hne Hlen. unfold write_json. apply touches_bind.
  { destruct (parent p) as [d|] eqn:Hp; [|apply touches_ret]. apply touches_create_dir_all.
    intros q' Hq' ->. apply ancestors_length in Hq'. destruct p as [|c p]; [done|]. injection Hp as <-.
    pose proof (removelast_length (c :: p)) as Hl. rewrite Hlen in Hq'. specialize (Hl ltac:(done)). simpl in *. lia. }
  intros _. apply touches_bind; [apply touches_lift|]. intros bs. by apply touches_write.
Qed.
(** Files of one directory. *)
Lemma sibling_paths dir n n' : component n → component n' → n ≠ n' →
  resolve env (join_text dir n) ≠ resolve env (join_text dir n')
  ∧ length (resolve env (join_text dir n)) = length (resolve env (join_text dir n')).
Proof.
  intros Hn Hn' Hne. rewrite !resolve_join_text by done. rewrite !length_app. split; [|done].
  by intros [_ ?]%app_inj_tail.
Qed.
Lemma keeps_write_json {A} `{Serde A} dir n n' (a : A) : component n → component n' → n ≠ n' →
  cli_keeps (resolve env (join_text dir n)) (write_json_file env (join_text dir n') a).
Proof.
  intros Hn Hn' Hne. destruct (sibling_paths dir n n' Hn Hn' Hne) as [Hp Hl].
  unfold write_json_file, at_path. rewrite join_text_nonempty by apply Hn'.
  apply (cli_keeps_io _ (λ q, q ≠ resolve env (join_text dir n))); [by apply touches_write_json|tauto].
Qed.
Lemma keeps_write_bytes dir n n' bs : component n → component n' → n ≠ n' →
  cli_keeps (resolve env (join_text dir n)) (write_bytes env (join_text dir n') bs).
Proof.
  intros Hn Hn' Hne. destruct (sibling_paths dir n n' Hn Hn' Hne) as [Hp Hl].
  unfold write_bytes, at_path. rewrite join_text_nonempty by apply Hn'.
  apply (cli_keeps_io _ (λ q, q ≠ resolve env (join_text dir n))); [by apply touches_write|tauto].
Qed.
Lemma write_bytes_ok dir n bs s s' : component n → write_bytes env (join_text dir n) bs s = (Ok tt, s') →
  fs_of s' !! resolve env (join_text dir n) = Some (File bs).
Proof.
  intros Hn. unfold write_bytes, at_path. rewrite join_text_nonempty by apply Hn.
  intros (w & Hr & ->)%io_inv. apply io_bind_ok in Hr as ([] & w3 & Hc%fs_create_ok & Ha%fs_append_ok).
  unfold fs_of. cbn. by rewrite Ha, lookup_insert_eq, Hc, lookup_insert_eq.
Qed.
Lemma keeps_document_run {A B} `{Serde A} dir n (a : A) (x : Cli B) s r s' :
  keeps_document env dir n a s → cli_keeps (resolve env (join_text dir n)) x → x s = (r, s') →
  keeps_document env dir n a s'.
Proof. intros (bs & Hb & Hf) Hx E. exists bs. split; [done|]. by rewrite (cli_keeps_run _ _ _ _ _ Hx E). Qed.
End Files.

(** ** A release that succeeds *)
Section Release.
Context `{Hash, Base64, Ed25519, BsdiffZstd, Processes, DirOrder, Modified, Net, BodyText}.
Context `{BodyJson RemoteAppConfig, Serde Value.t, Serde KernelInventory, Serde LinkerPlan, Serde (list SizeEntry)}.
Context `{Serde ReleaseManifest, Serde BuildInfo, Serde ReleaseCacheMetadata, !SerdeLaws ReleaseCacheMetadata (λ _, True)}.
Context `{ToValue ReleaseManifest}.
Variable env : Environment.

Lemma release_names : component "release_manifest.json" ∧ component "build_info.json"
  ∧ component "release_cache.json" ∧ component "artifact.bin" ∧ component "app.so".
Proof. by vm_compute. Qed.

(** The cache is written as a whole, and leaves the other files of the directory. *)
Lemma write_release_cache_ok dir manifest info artifact platform backend s s' :
  write_release_cache env dir manifest info artifact platform backend s = (Ok tt, s') →
  keeps_document env dir "release_manifest.json" manifest s' ∧ keeps_document env dir "build_info.json" info s'
  ∧ keeps_document env dir "release_cache.json"
      {| rc_schema_version := 2; rc_manifest := manifest; rc_build_info := info |} s'
  ∧ fs_of s' !! resolve env (join_text dir "app.so") = fs_of s !! resolve env (join_text dir "app.so").
Proof.
  destruct release_names as (N1 & N2 & N3 & N4 & N5). unfold write_release_cache. cbv zeta.
  intros ([] & s1 & E1 & Hr)%cli_bind_ok. apply cli_bind_ok in Hr as ([] & s2 & E2 & Hr).
  apply cli_bind_ok in Hr as ([] & s3 & E3 & E4).
  pose proof (write_json_keeps _ _ _ _ _ _ E1) as K1. pose proof (write_json_keeps _ _ _ _ _ _ E2) as K2.
  pose proof (write_json_keeps _ _ _ _ _ _ E3) as K3.
  match type of E4 with ?x _ = _ => set (last := x) in E4 end.
  assert (∀ n, component n → n ≠ "artifact.bin"%string → cli_keeps (resolve env (join_text dir n)) last) as Klast.
  { intros n Hn Hne. unfold last. destruct (_ && _); [by apply keeps_write_bytes|apply moves_ret]. }
  split; [|split; [|split]].
  - eapply keeps_document_run, E4; [|by apply Klast]. eapply keeps_document_run, E3; [|by apply keeps_write_json].
    eapply keeps_document_run, E2; [exact K1|by apply keeps_write_json].
  - eapply keeps_document_run, E4; [|by apply Klast]. eapply keeps_document_run, E3; [exact K2|by apply keeps_write_json].
  - eapply keeps_document_run, E4; [exact K3|by apply Klast].
  - etrans; [eapply cli_keeps_run, E4; by apply Klast|].
    etrans; [eapply cli_keeps_run, E3; by apply keeps_write_json|].
    etrans; [eapply cli_keeps_run, E2; by apply keeps_write_json|].
    eapply cli_keeps_run, E1. by apply keeps_write_json.
Qed.

(** What a run of [fcb release] announces. *)
Definition release_manifest (app : RemoteAppConfig) (backend platform release_version arch : string)
    (artifact : list byte) : ReleaseManifest := {|
  rm_schema_version := 1; rm_app_id := ra_id app; rm_release_version := release_version;
  rm_channel := ra_channel app; rm_platform := platform; rm_arch := arch; rm_backend := backend;
  rm_artifact_hash := sha256_hex artifact; rm_artifact_size := len artifact |}.

Lemma snapshot_artifact dir platform arch build s artifact s' :
  collect_release_artifact env dir platform arch "snapshot_replace" build s = (Ok artifact, s') →
  fs_of s' !! resolve env (join_text dir "app.so") = Some (File artifact).
Proof.
  unfold collect_release_artifact. change (String.eqb "snapshot_replace" "snapshot_replace") with true. cbn iota.
  destruct (negb _); [discriminate|]. cbv zeta. intros (bytes & s1 & _ & Hr)%cli_bind_ok.
  apply cli_bind_ok in Hr as ([] & s2 & Hw & [= <- <-]). eapply write_bytes_ok, Hw. apply release_names.
Qed.
(** Reading the cache back: what was written, if its description is complete. *)
Lemma read_release_cache_calm dir metadata s :
  calm s → rc_schema_version metadata = 2 → keeps_document env dir "release_cache.json" metadata s →
  read_release_cache env dir s = (_ ← validate_build_info (rc_build_info metadata); Ok metadata, s).
Proof.
  intros Hs Hv (bs & Hb & Hf). unfold read_release_cache. cbv zeta.
  assert (is_empty (join_text dir "release_cache.json") = false) as He by by apply join_text_nonempty.
  rewrite (cli_bind_run _ _ s true s) by by eapply calm_path_exists.
  rewrite (cli_bind_run _ _ s metadata s).
  2:{ unfold read_json_file, at_path. rewrite He. apply calm_io. unfold read_json.
      destruct Hs as [Hfa _]. unfold fs_of in Hf.
      rewrite (io_bind_run _ _ _ bs (m_world (sh_machine s))); [unfold io_lift; by rewrite (from_to_vec_pretty _ _ I Hb)|].
      unfold fs_read, io_call. rewrite Hfa, Hf. by destruct (m_world (sh_machine s)); simpl in *; subst. }
  rewrite Hv. cbn. unfold mbind, cli_bind, cli_lift. by destruct (validate_build_info _) as [[]| |].
Qed.
Lemma first_diff_base_calm app release_version platform arch artifact s :
  calm s → fs_of s !! resolve env (join_text (release_cache_dir app release_version platform arch) "app.so")
    = Some (File artifact) →
  snapshot_replace_diff_base env app release_version platform arch 1 s = (Ok artifact, s).
Proof.
  intros Hs Hf. set (p := join_text _ "app.so") in Hf.
  assert (is_empty p = false) as He by by apply join_text_nonempty.
  unfold snapshot_replace_diff_base. cbv zeta. rewrite (cli_bind_run _ _ s false s) by done. cbn iota.
  rewrite (cli_bind_run _ _ s p s).
  2:{ unfold release_artifact_path. cbv zeta. fold p. by rewrite (cli_bind_run _ _ s true s) by by eapply calm_path_exists. }
  rewrite (cli_bind_run _ _ s true s) by by eapply calm_path_exists. by apply calm_read_file.
Qed.

(** *** The run up to the announcement *)
Definition released : Type := Client * RemoteAppConfig * string * list byte * BuildInfo.
Section Run.
Variables (context : ResolvedContext) (platform : string) (options : BuildOptions) (example : option string)
  (release_version arch : string).
Let dir (app : RemoteAppConfig) := release_cache_dir (ra_id app) release_version platform arch.
Definition release_cached : Cli released :=
  client ← cli_lift (authed_client env (cx_server context) (cx_token context));
  app ← resolve_app client context;
  backend ← cli_lift (backend_for app platform);
  build ← resolve_build env context platform arch options example;
  _ ← run_flutter_build env platform arch backend build;
  _ ← create_dirs env (dir app);
  artifact ← collect_release_artifact env (dir app) platform arch backend build;
  info ← collect_build_info env platform arch backend build;
  _ ← cli_for_each eprintln (build_info_warnings info);
  _ ← write_release_cache env (dir app) (release_manifest app backend platform release_version arch artifact) info
        artifact platform backend;
  mret (client, app, backend, artifact, info).
Definition release_announced (found : released) : Cli unit :=
  let '(client, app, backend, artifact, _) := found in
  _ ← net (create_release client (release_manifest app backend platform release_version arch artifact));
  println (join_text (dir app) "release_manifest.json").
Lemma release_split s :
  release env context platform options example release_version arch s = (release_cached ≫= release_announced) s.
Proof.
  unfold release, release_cached, release_manifest, dir, mbind, cli_bind. cbv zeta.
  repeat match goal with |- match ?x with _ => _ end = _ => destruct x as [[?|?|?] ?]; [|reflexivity..] end.
  reflexivity.
Qed.
Lemma cli_sends_entry_points P out sdk dill : cli_sends P (generate_aot_entry_points env out sdk dill platform arch).
Proof.
  unfold generate_aot_entry_points, gen_snapshot_path, extract_aot_entry_points. cbv zeta. moves_tac.
Qed.
Lemma release_cached_sends : cli_sends is_get release_cached.
Proof.
  unfold release_cached, collect_release_artifact, write_release_cache. cbv zeta.
  pose proof (cli_sends_entry_points is_get). moves_tac.
Qed.

(** The run from [s] found this app and backend, built it, and took this artifact
    and this description from the finished build. *)
Definition release_built (s : Shell) (client : Client) (app : RemoteAppConfig) (backend : string) (artifact : list byte)
    (info : BuildInfo) : Prop :=
  ∃ build s1 s2 s3 s4 s5 s6,
    authed_client env (cx_server context) (cx_token context) = Ok client
    ∧ resolve_app client context s = (Ok app, s1) ∧ backend_for app platform = Ok backend
    ∧ resolve_build env context platform arch options example s1 = (Ok build, s2)
    ∧ run_flutter_build env platform arch backend build s2 = (Ok tt, s3)
    ∧ create_dirs env (dir app) s3 = (Ok tt, s4)
    ∧ collect_release_artifact env (dir app) platform arch backend build s4 = (Ok artifact, s5)
    ∧ collect_build_info env platform arch backend build s5 = (Ok info, s6).
(** What a run that came to the announcement has left. *)
Definition release_kept (s : Shell) (client : Client) (app : RemoteAppConfig) (backend : string) (artifact : list byte)
    (info : BuildInfo) (s' : Shell) : Prop :=
  let manifest := release_manifest app backend platform release_version arch artifact in
  release_built s client app backend artifact info
  ∧ keeps_document env (dir app) "release_manifest.json" manifest s'
  ∧ keeps_document env (dir app) "build_info.json" info s'
  ∧ ∀ later, calm later → fs_of later = fs_of s' →
      read_release_cache env (dir app) later
        = (_ ← validate_build_info info;
           Ok {| rc_schema_version := 2; rc_manifest := manifest; rc_build_info := info |}, later)
      ∧ (backend = "snapshot_replace"%string → spares (resolve env (join_text (dir app) "app.so")) →
           snapshot_replace_diff_base env (ra_id app) release_version platform arch 1 later = (Ok artifact, later)).
Lemma release_cached_ok s client app backend artifact info s1 s' :
  release_cached s = (Ok (client, app, backend, artifact, info), s1) → fs_of s' = fs_of s1 →
  release_kept s client app backend artifact info s'.
Proof.
  unfold release_cached. intros (client' & s2 & [Hclient ->]%cli_lift_ok & Hr)%cli_bind_ok Hfs.
  apply cli_bind_ok in Hr as (app' & s3 & Happ & Hr).
  apply cli_bind_ok in Hr as (backend' & s4 & [Hbackend ->]%cli_lift_ok & Hr).
  apply cli_bind_ok in Hr as (build & s5 & Hbuild & Hr). apply cli_bind_ok in Hr as ([] & s6 & Hrun & Hr).
  apply cli_bind_ok in Hr as ([] & s7 & Hdirs & Hr). apply cli_bind_ok in Hr as (artifact' & s8 & Hart & Hr).
  apply cli_bind_ok in Hr as (info' & s9 & Hinfo & Hr). apply cli_bind_ok in Hr as ([] & s10 & Hwarn & Hr).
  apply cli_bind_ok in Hr as ([] & s11 & (K1 & K2 & K3 & Kapp)%write_release_cache_ok & Hr).
  injection Hr as -> -> -> -> -> ->.
  assert (∀ A `{Serde A} n (a : A), keeps_document env (dir app) n a s1 → keeps_document env (dir app) n a s') as Hkeep.
  { intros A HA n a (bs & Hb & Hf). exists bs. by rewrite Hfs. }
  split; [by do 7 eexists|].
  split; [by apply Hkeep|]. split; [by apply Hkeep|]. intros later Hcalm Hlater. split.
  - apply (read_release_cache_calm (dir app) {| rc_schema_version := 2 |}); [done|done|].
    destruct (Hkeep _ _ _ _ K3) as (bs & Hb & Hf). exists bs. by rewrite Hlater.
  - intros -> Hspare. apply first_diff_base_calm; [done|]. fold (dir app). rewrite Hlater, Hfs, Kapp.
    rewrite (cli_keeps_run _ (cli_for_each eprintln _) _ _ _ ltac:(auto with fcb) Hwarn).
    rewrite (cli_keeps_run _ _ _ _ _ (moves_build_info env _ _ _ _) Hinfo).
    by eapply snapshot_artifact.
Qed.

(** C12: however a run of [fcb release] ends, with any server, any programs and any
    faults, the server has seen nothing but lookups, or lookups and then the same
    announcement up to five times.  A run that announced has left, before the
    announcement, the manifest (with the hash and size of the artifact its build
    made), the description of the build and both together in the release's
    directory, and it ends well only if the server accepted the announcement.  In a
    later run, as long as the files are there and no call fails, [read_release_cache] returns what was written, unless
    the description lacks a required field; and the first patch for the native
    backend is diffed against the very artifact announced, provided no program the
    release started changed it. *)
Theorem release_prepares_patches s :
  let '(r, s') := release env context platform options example release_version arch s in
  ∃ lookups, Forall is_get lookups
    ∧ (r ≠ Ok tt ∧ m_log (sh_machine s') = m_log (sh_machine s) ++ lookups
       ∨ ∃ client app backend artifact info body announcements,
           let rq := {| rq_method := "POST"; rq_url := base_url client +:+ "/v1/releases";
                        rq_headers := authorization client; rq_query := []; rq_body := Some body |} in
           release_kept s client app backend artifact info s'
           ∧ to_value (release_manifest app backend platform release_version arch artifact) = Ok body
           ∧ tries rq announcements
           ∧ m_log (sh_machine s') = m_log (sh_machine s) ++ lookups ++ announcements
           ∧ (r = Ok tt → accepted rq s')).
Proof.
  destruct (release _ _ _ _ _ _ _ s) as [r s'] eqn:E. rewrite release_split in E.
  apply cli_bind_inv in E as [([[[[client app] backend] artifact] info] & s1 & Hc & Hr)|(r1 & Hc & Hs)];
    pose proof (moves_run _ _ _ _ _ release_cached_sends Hc) as (lookups & Hlog & Hget); exists lookups;
    (split; [done|]); [|left; split; [by eapply stopped_not_ok|done]].
  unfold release_announced in Hr.
  assert (fs_of s' = fs_of s1 ∧ ∃ r2 s2, net (create_release client
    (release_manifest app backend platform release_version arch artifact)) s1 = (r2, s2)
    ∧ sh_machine s' = sh_machine s2 ∧ (r = Ok tt → r2 = Ok tt) ∧ (r2 = Ok tt → r = Ok tt)) as (Hfs & r2 & s2 & Hnet & Hm & Hr2 & Hr2').
  { assert (∀ r2 s2, net (create_release client (release_manifest app backend platform release_version arch artifact)) s1 = (r2, s2) →
      fs_of s2 = fs_of s1) as Hsame.
    { intros r2 s2 E2. apply map_eq. intros q. eapply cli_keeps_run, E2. apply cli_keeps_net, still_post. }
    apply cli_bind_inv in Hr as [([] & s2 & E2 & Hr)|(r2 & E2 & Hs)].
    - injection Hr as <- <-. split; [exact (Hsame _ _ E2)|]. by exists (Ok tt), s2.
    - split; [by eapply Hsame|]. exists r2, s'. split; [done|]. split; [done|].
      split; intros ->; [by destruct r2|by destruct r]. }
  apply post_json_sends in Hnet as [[Hno Hl]|(body & announcements & Hb & Htries & Hl & Hacc)].
  - left. split; [by intros ->; apply Hno, Hr2|]. by rewrite Hm, Hl.
  - right. exists client, app, backend, artifact, info, body, announcements. split; [by eapply release_cached_ok|].
    split; [done|]. split; [done|]. split; [by rewrite Hm, Hl, Hlog, app_assoc|].
    intros Hok. destruct (Hacc (Hr2 Hok)) as (earlier & resp & ?). exists earlier, resp. by rewrite Hm.
Qed.
End Run.
End Release.

(** ** Witness *)
#[global] Instance release_manifest_eq : EqDecision ReleaseManifest.
Proof. solve_decision. Defined.
#[global] Instance build_info_eq : EqDecision BuildInfo.
Proof. solve_decision. Defined.
#[global] Instance release_cache_eq : EqDecision ReleaseCacheMetadata.
Proof. solve_decision. Defined.
(** Texts of the scalar fields; the sets and maps are encoded whole. *)
#[global] Instance release_manifest_countable : Countable ReleaseManifest.
Proof.
  refine (inj_countable
    (λ m, [encode (rm_schema_version m); encode (rm_app_id m); encode (rm_release_version m); encode (rm_channel m);
           encode (rm_platform m); encode (rm_arch m); encode (rm_backend m); encode (rm_artifact_hash m);
           encode (rm_artifact_size m)])
    (λ l, match l with
     | [v; i; r; c; p; a; b; h; z] =>
       v ← decode v; i ← decode i; r ← decode r; c ← decode c; p ← decode p; a ← decode a; b ← decode b;
       h ← decode h; z ← decode z; Some (Build_ReleaseManifest v i r c p a b h z)
     | _ => None end) _).
  intros x. cbv beta iota. rewrite !decode_encode. by destruct x.
Defined.
#[global] Instance build_info_countable : Countable BuildInfo.
Proof.
  refine (inj_countable
    (λ b, [encode (bi_schema_version b); encode (bi_backend b); encode (bi_platform b); encode (bi_arch b);
           encode (target_platform b); encode (build_mode b); encode (flavor b); encode (flutter_tool_rev b);
           encode (engine_fork_rev b); encode (dart_sdk_rev b); encode (pubspec_lock_hash b); encode (asset_hash b);
           encode (native_hash b); encode (plugin_hash b); encode (obfuscation b); encode (split_debug_info b);
           encode (dart_defines b); encode (ignored_dart_define_keys b)])
    (λ l, match l with
     | [v; b; p; a; t; m; f; r; e; d; l; s; n; g; o; i; x; k] =>
       v ← decode v; b ← decode b; p ← decode p; a ← decode a; t ← decode t; m ← decode m; f ← decode f;
       r ← decode r; e ← decode e; d ← decode d; l ← decode l; s ← decode s; n ← decode n; g ← decode g;
       o ← decode o; i ← decode i; x ← decode x; k ← decode k;
       Some (Build_BuildInfo v b p a t m f r e d l s n g o i x k)
     | _ => None end) _).
  intros x. cbv beta iota. rewrite !decode_encode. by destruct x.
Defined.
#[global] Instance release_cache_countable : Countable ReleaseCacheMetadata.
Proof.
  refine (inj_countable
    (λ c, [encode (rc_schema_version c); encode (rc_manifest c); encode (rc_build_info c)])
    (λ l, match l with
     | [v; m; b] => v ← decode v; m ← decode m; b ← decode b; Some (Build_ReleaseCacheMetadata v m b)
     | _ => None end) _).
  intros x. cbv beta iota. rewrite !decode_encode. by destruct x.
Defined.
Section Demo.
#[local] Existing Instances demo_hash demo_base64 demo_ed25519 demo_bsdiff demo_value_serde.
#[local] Existing Instances demo_programs listing_order demo_modified demo_accepting PatchFacts.demo_body_text.
#[local] Existing Instances demo_inventory_serde demo_plan_serde.
#[local] Instance demo_sizes_serde : Serde (list SizeEntry) := write_only.
#[local] Instance demo_manifest_json : Serde ReleaseManifest := write_only.
#[local] Instance demo_info_json : Serde BuildInfo := write_only.
#[local] Instance demo_metadata_serde : Serde ReleaseCacheMetadata := countable_serde.
#[local] Instance demo_metadata_laws : SerdeLaws ReleaseCacheMetadata (λ _, True) := countable_serde_laws _.
#[local] Instance demo_release_value : ToValue ReleaseManifest := λ m, Ok (Value.String (rm_artifact_hash m)).
#[local] Instance demo_native_app : BodyJson RemoteAppConfig := λ _, Ok {|
  ra_id := "app"; ra_org_id := None; ra_name := "demo"; ra_channel := "stable"; ra_public_key := demo_public_key;
  platforms := [{| re_platform := "android"; enabled := true; re_backend := "snapshot_replace"; abi := [] |}] |}.
Definition demo_app_so : list byte := [x7f; x45; x4c; x46].
Definition demo_project : Shell := shell_with {[
  ["app"]%string := Dir; ["app"; "pubspec.yaml"]%string := File [];
  ["app"; "build"; "app"; "intermediates"; "flutter"; "release"; "arm64-v8a"; "app.so"]%string := File demo_app_so ]}.
Definition demo_release_run : result unit * Shell :=
  release demo_env demo_cli_context "android" demo_build_options None "1.0.0" "arm64-v8a" demo_project.
Lemma demo_release_result : demo_release_run.1 = Ok tt ∧ calm demo_release_run.2.
Proof. split; [vm_compute; reflexivity|]. split; vm_compute; reflexivity. Qed.
Lemma release_prepares_patches_witness : ∃ artifact later,
  keeps_document demo_env ".fcb/apps/app/releases/1.0.0/android/arm64-v8a" "release_manifest.json" (release_manifest
    {| ra_id := "app"; ra_org_id := None; ra_name := "demo"; ra_channel := "stable"; ra_public_key := demo_public_key;
       platforms := [{| re_platform := "android"; enabled := true; re_backend := "snapshot_replace"; abi := [] |}] |}
    "snapshot_replace" "android" "1.0.0" "arm64-v8a" artifact) later
  ∧ snapshot_replace_diff_base demo_env "app" "1.0.0" "android" "arm64-v8a" 1 later = (Ok artifact, later).
Proof.
  pose proof (release_prepares_patches demo_env demo_cli_context "android" demo_build_options None "1.0.0" "arm64-v8a"
    demo_project) as Hd.
  change (release _ _ _ _ _ _ _ demo_project) with demo_release_run in Hd.
  pose proof demo_release_result as [Hr Hcalm]. destruct demo_release_run as [r later]. cbn [fst snd] in Hr, Hcalm. subst r.
  destruct Hd as (lookups & _ & [[Hno _]|(client & app & backend & artifact & info & body & announcements &
    ((build & s1 & s2 & s3 & s4 & s5 & s6 & Hc & Ha & Hb & _) & Hk & _ & Hlater) & _)]); [by destruct Hno|].
  injection Hc as <-. injection Ha as <- _. injection Hb as <-. exists artifact, later. split; [exact Hk|].
  apply (Hlater later Hcalm eq_refl); [reflexivity|]. by intros cs c fs.
Defined.
End Demo.
