(* ===== verification/Chain.v ===== *)
(** * Native patches in a row

    A native patch is a diff, so what a patch needs is what the one before it
    left: on the build machine the artifact in the directory of patches, on the
    device the installed artifact.  Here the two stay together. *)
From S2P Require Import Prelude Text Floats External Bytecode BytecodeCheck BytecodeFacts Crypto Diff Manifest World State StateFacts StateProperties StateProgress Linker BuildInfo Config Flights Net ServerApi Runtime RuntimeProperties Delivery Resilience Shell AotEntryPoints Auto AutoFacts BuildFacts Inspect Cli Pipeline PatchFacts EndToEnd PublishFacts TrustFacts ReleaseFacts.
Local Open Scope N_scope.

(** ** The device *)
Section Device.
Context `{Hash, Base64, Ed25519, BsdiffZstd}.
Context `{Serde Value.t, ToValue PatchManifest, Serde PatchManifest, Serde SimpleBinaryDiff}.
Context `{Serde BytecodeModule, Serde State, Serde CrashRollbackEvent}.
Context `{!SerdeLaws State (λ _, True)}.
Variable cache_dir : path.

(** *** Launching and confirming leave the files of the patches alone *)
(** Places no deeper than the files of the cache directory itself. *)
Definition shallow (q : path) : Prop := (length q ≤ S (length cache_dir))%nat.
Lemma write_zone_shallow n q : write_zone (join1 cache_dir n) q → shallow q.
Proof.
  unfold shallow, join1. intros [->|[(pid & sfx & ->)|Hq%ancestors_length]].
  - rewrite length_app. simpl. lia.
  - unfold temp_path, with_file_name. rewrite removelast_last, length_app. simpl. lia.
  - rewrite removelast_last in Hq. lia.
Qed.
Lemma touches_shallow_write n bs : touches shallow (atomic_write_bytes (join1 cache_dir n) bs).
Proof. eapply touches_weaken; [apply touches_atomic_write|apply write_zone_shallow]. Qed.
Lemma touches_shallow_append e : touches shallow (append_rollback_event cache_dir e).
Proof. eapply touches_weaken; [apply touches_append_event_zone|apply write_zone_shallow]. Qed.
Lemma touches_shallow_backup : touches shallow (backup_corrupt_state (state_path cache_dir)).
Proof.
  apply touches_bind; [apply touches_unique_suffix|intros sfx].
  apply touches_rename; unfold shallow, with_file_name, state_path, join1; rewrite ?removelast_last, length_app; simpl; lia.
Qed.
Lemma touches_shallow_save s : touches shallow (save_state cache_dir s).
Proof.
  unfold save_state, atomic_write_json. apply touches_bind; [apply touches_lift|intros bs]. apply touches_shallow_write.
Qed.
#[local] Hint Resolve touches_shallow_append touches_shallow_backup touches_shallow_save touches_now_string : fcb.
Lemma touches_shallow_load : touches shallow (load_state cache_dir).
Proof. unfold load_state. touches_hints. Qed.
#[local] Hint Resolve touches_shallow_load : fcb.
Lemma touches_shallow_launch : touches shallow (launch_patch cache_dir).
Proof. unfold launch_patch. touches_hints. Qed.
Lemma touches_shallow_success : touches shallow (mark_success cache_dir).
Proof. unfold mark_success. touches_hints. Qed.
Lemma patch_path_deep n f : ¬ shallow (patch_path cache_dir n f).
Proof. unfold shallow. rewrite patch_path_length. lia. Qed.
End Device.

(** *** What an installation adds *)
Lemma evict_next_subset fuel s p : p ∈ installed (evict_next fuel s) → p ∈ installed s.
Proof.
  revert s. induction fuel as [|fuel IH]; intros s; simpl; [done|].
  destruct (2 <? _); [|done]. destruct (position _ _) as [i|]; [|done].
  intros Hp%IH. cbn [installed set_installed] in Hp. eapply elem_of_submseteq; [exact Hp|].
  apply sublist_submseteq, sublist_delete.
Qed.
Lemma install_next_elem s m artifact now p :
  p ∈ installed (install_next s m artifact now) →
  (p ∈ installed s ∧ ip_patch_number p ≠ patch_number m)
  ∨ (ip_patch_number p = patch_number m ∧ artifact_path p = artifact).
Proof.
  intros Hp%evict_next_subset. unfold record_install in Hp. cbn [installed set_installed] in Hp.
  rewrite sort_by_key_perm, elem_of_app in Hp. destruct Hp as [[Hn Hp]%list_elem_of_filter|Hp%list_elem_of_singleton].
  - left. by split.
  - right. by subst p.
Qed.
(** Numbers are names. *)
Lemma pretty_go_invariant (P : string → Prop) n s :
  (∀ d s, P s → P (String (pretty_N_char d) s)) → P s → P (pretty_N_go n s).
Proof.
  intros HP. revert s. induction (N.lt_wf_0 n) as [n _ IH]. intros s Hs.
  destruct (decide (0 < n)) as [Hn|Hn].
  - rewrite pretty_N_go_step by done. apply IH; [apply N.div_lt; lia|]. by apply HP.
  - assert (n = 0) as -> by lia. by rewrite pretty_N_go_0.
Qed.
Lemma dec_component n : component (dec n).
Proof.
  assert (∀ c, (∀ d, pretty_N_char d ≠ c) → no_char c (dec n)) as Hno.
  { intros c Hc. unfold dec, pretty, pretty_N. case_decide; [split; [exact (Hc 0)|done]|].
    apply (pretty_go_invariant (no_char c)); [|done]. by split. }
  assert (no_char slash (dec n)) as Hslash by (apply Hno; intros d; unfold pretty_N_char; by repeat case_match).
  assert (no_char (Ascii.ascii_of_nat 46) (dec n)) as Hdot by (apply Hno; intros d; unfold pretty_N_char; by repeat case_match).
  split; [done|]. split.
  - unfold dec, pretty, pretty_N. case_decide as Hn; [done|]. rewrite pretty_N_go_step by lia.
    by apply (pretty_go_invariant (λ s, s ≠ ""%string)).
  - split; intros E; rewrite E in Hdot; by destruct Hdot.
Qed.
(** The artifact of a patch lies where the state says. *)
Lemma artifact_rel cache_dir n : join_rel cache_dir (patch_file n "libapp.so") = patch_path cache_dir n "libapp.so".
Proof.
  destruct (dec_component n) as (Hs & Hn & Hd & Hdd). unfold join_rel, patch_file.
  change (starts_with "/" _) with false. cbn iota.
  change ("patches/" +:+ dec n +:+ "/" +:+ "libapp.so") with
    ("patches" +:+ String slash (dec n +:+ String slash "libapp.so")).
  rewrite split_sep, split_sep by (done || by vm_compute). rewrite split_single by by vm_compute.
  cbn [foldl]. rewrite !(proj2 (String.eqb_neq (dec n) _)) by done. cbn.
  unfold patch_path, patches_dir, join1. by rewrite <- !app_assoc.
Qed.

(** *** A device keeps the base of the next patch *)
Lemma pick_installed_found `{Hash} cache_dir fs t l p :
  (∀ c, sha256_hex c = sha256_hex t → c = t) →
  p ∈ l → artifact_path p ≫= (λ rel, content fs (join_rel cache_dir rel)) = Some t →
  pick_installed cache_dir fs (sha256_hex t) l = Some t.
Proof.
  intros Hinj Hin Hp. induction l as [|q l IH]; [by apply elem_of_nil in Hin|]. simpl.
  apply elem_of_cons in Hin as [->|Hin].
  - rewrite Hp. by rewrite String.eqb_refl.
  - destruct (artifact_path q ≫= _) as [c|]; [|by apply IH].
    destruct (String.eqb_spec (sha256_hex c) (sha256_hex t)) as [E|_]; [by rewrite (Hinj c E)|by apply IH].
Qed.

Section Kept.
Context `{Hash, Base64, Ed25519, BsdiffZstd}.
Context `{Serde Value.t, ToValue PatchManifest, Serde PatchManifest, Serde SimpleBinaryDiff}.
Context `{Serde BytecodeModule, Serde State, !SerdeLaws State (λ _, True), Serde CrashRollbackEvent}.
Context `{ToValue EventRequest, JsonF64, Net, BodyText, BodyJson CheckResponse}.
Context (event_no_panic : ∀ e : EventRequest, no_panic (to_value e)).
Variable feat : bool.
Variable dir : path.

(** The attempt installed a patch, and the next launch was confirmed. *)
Definition took_effect (rt : Runtime) (stats : InterpreterStatsSnapshot) (m m' : Machine) (st' : State) : Prop :=
  let cd := cache dir rt in
  ∃ m1 w2 w3 launched,
    Runtime.download_and_install feat dir rt stats m = (Ok (Some true), m1)
    ∧ launch_patch cd (m_world m1) = (Ok (Some launched), w2)
    ∧ mark_success cd w2 = (Ok tt, w3) ∧ m' = with_world m1 w3 ∧ holds cd w3 st'.

Lemma kept_base rt stats st (p : PatchCheck) mb bytes mm art m m' st' :
  let cd := cache dir rt in let baseline := Runtime.resolve dir <$> rt_baseline_artifact_path rt in
  offered dir rt st p mb bytes m → good_patch feat (rt_public_key_b64 rt) mb bytes mm →
  device_makes feat dir rt st mm bytes (Some art) m → patch_number mm ∉ bad_patches st →
  (∀ c, sha256_hex c = sha256_hex art → c = art) → took_effect rt stats m m' st' →
  artifacts_placed cd (installed st') baseline
  ∧ pick_base cd (files m') (sha256_hex art) (installed st') baseline = Some art.
Proof.
  intros cd baseline (Hm & Hc & Ha & Hpre & Hconf & Hkey & (response & Hans & Hpatch) & Hserves) Hgood Hart Hbad Hinj
    (m1 & w2 & w3 & launched & E1 & E2 & E3 & -> & Hh3).
  destruct (download_and_install_runs event_no_panic feat dir rt stats st response p mb bytes mm (Some art) m Hm Hc Ha Hconf Hkey Hans Hpatch
    Hserves Hgood Hart Hpre) as (now & m1' & E1' & [Hr1 _ Hh1] & _ & Hlib).
  rewrite E1 in E1'. injection E1' as <-. specialize (Hlib _ eq_refl). fold cd in Hh1, Hlib.
  set (n := patch_number mm) in *. set (s1 := install_next st mm _ now) in Hh1.
  destruct (launch_holds cd _ _ _ _ Hh1 E2) as (now2 & s2 & Hn2 & Hh2).
  destruct (implements_mark_success cd _ _ _ _ Hh2 E3) as (s3 & (l & _ & ->) & Hh3').
  assert (installed st' = installed s1) as Hinst.
  { assert (Some st' = Some (success_next s2 l)) as [= ->]
      by (destruct Hh3 as [_ Hd], Hh3' as [_ Hd']; exact (eq_trans (eq_sym Hd) Hd')). cbn.
    replace s2 with (launch_next s1 now2).1 by by rewrite Hn2. apply launch_next_installed. }
  assert (files (with_world m1 w3) !! patch_path cd n "libapp.so" = Some (File art)) as Hfile.
  { rewrite <- Hlib. etrans; [|eapply touches_at; [apply touches_shallow_launch|exact E2|apply patch_path_deep]].
    eapply touches_at; [apply touches_shallow_success|exact E3|apply patch_path_deep]. }
  destruct Hart as (_ & _ & [Hpl Hbl] & _).
  assert (∀ q, q ∈ installed st' → ip_patch_number q = n → artifact_path q = Some (patch_file n "libapp.so")) as Hnew.
  { intros q Hq Hqn. rewrite Hinst in Hq. by apply install_next_elem in Hq as [[_ ?]|[_ ?]]. }
  split; [split|].
  - intros q rel Hq Hrel. pose proof Hq as Hq'. rewrite Hinst in Hq'.
    apply install_next_elem in Hq' as [[Hq' _]|[Hqn Hqa]]; [by eapply Hpl|].
    rewrite Hqa in Hrel. injection Hrel as <-. left. exists n. apply artifact_rel.
  - exact Hbl.
  - destruct (install_next_pending st mm (artifact_file n (Some art)) now) as (_ & _ & _ & Hin).
    fold s1 in Hin. apply list_elem_of_fmap in Hin as (q & Hqn & Hq). fold n in Hqn. rewrite <- Hinst in Hq.
    unfold pick_base. erewrite pick_installed_found; [done|exact Hinj|apply elem_of_reverse, Hq|].
    rewrite (Hnew q Hq) by done. cbn [mbind option_bind]. rewrite artifact_rel. unfold content. by rewrite Hfile.
Qed.
End Kept.

(** ** The build machine *)
Section Machine.
Context `{Hash, Base64, !Base64Laws, !Base64Text, Ed25519, !Ed25519Laws, BsdiffZstd, !BsdiffZstdLaws}.
Context `{Processes, DirOrder, Modified, Net, BodyText, BodyJson RemoteAppConfig}.
Context `{Serde Value.t, Serde PatchManifest, Serde BytecodeModule, Serde KernelInventory, Serde LinkerPlan}.
Context `{Serde ReleaseCacheMetadata, Serde PatchReport, Serde AotEntryPoints}.
Context `{ToValue PatchManifest, ToValue CreatePatchRequest}.
Variable env : Environment.
(** The release; its platform and architecture are plain names. *)
Variables (release_version platform arch : string).
Hypothesis platform_name : component platform.
Hypothesis arch_name : component arch.
Abbreviation artifact_place n := (resolve env (patch_artifact_path release_version n platform arch)).

(** *** Places *)
Lemma patch_place n name : component name →
  resolve env (join_text (patch_cache_dir release_version n platform arch) name)
  = resolve env (joins fcb_dir ["patches"%string; release_version]) ++ [dec n; platform; arch; name].
Proof.
  intros Hn. unfold patch_cache_dir, joins. cbn [foldl].
  rewrite !resolve_join_text by (done || apply dec_component). by rewrite <- !app_assoc.
Qed.
Lemma patch_dir_place n :
  resolve env (patch_cache_dir release_version n platform arch)
  = resolve env (joins fcb_dir ["patches"%string; release_version]) ++ [dec n; platform; arch].
Proof.
  unfold patch_cache_dir, joins. cbn [foldl].
  rewrite !resolve_join_text by (done || apply dec_component). by rewrite <- !app_assoc.
Qed.
Lemma artifact_name : component "artifact.bin".
Proof. apply release_names. Qed.
Lemma report_name : component "patch_report.json".
Proof. by vm_compute. Qed.
(** A document in the directory of another patch, or with another name. *)
Lemma keeps_patch_document {A} `{Serde A} n n' name (a : A) :
  component name → n ≠ n' ∨ name ≠ "artifact.bin"%string →
  cli_keeps (artifact_place n) (write_json_file env (join_text (patch_cache_dir release_version n' platform arch) name) a).
Proof.
  intros Hname Hne. unfold write_json_file, at_path. rewrite join_text_nonempty by apply Hname.
  apply (cli_keeps_io _ (λ q, q ≠ artifact_place n)); [|tauto].
  unfold patch_artifact_path. rewrite !patch_place by (done || apply artifact_name).
  apply touches_write_json; [|by rewrite !length_app].
  intros [= E1 E2]%app_inv_head. destruct Hne as [Hne|Hne]; [apply dec_inj in E1|]; congruence.
Qed.
Lemma keeps_patch_dir n n' :
  cli_keeps (artifact_place n) (create_dirs env (patch_cache_dir release_version n' platform arch)).
Proof.
  unfold create_dirs. destruct (is_empty _); [apply moves_ret|].
  apply (cli_keeps_io _ (λ q, q ≠ artifact_place n)); [|tauto]. apply touches_create_dir_all.
  intros q Hq ->. apply ancestors_length in Hq. unfold patch_artifact_path in Hq.
  rewrite patch_dir_place, patch_place, !length_app in Hq by apply artifact_name. simpl in Hq. lia.
Qed.

(** *** The base of a patch is the artifact of the one before *)
Lemma diff_base_is_previous app n bs s base s' :
  1 ≤ n → holds_bytes (artifact_place n) bs s →
  snapshot_replace_diff_base env app release_version platform arch (n + 1) s = (Ok base, s') → base = bs.
Proof.
  intros Hn [Hf Hst]. unfold snapshot_replace_diff_base. cbv zeta.
  replace (saturating_sub (n + 1) 1) with n by (unfold saturating_sub; lia).
  set (p := patch_artifact_path release_version n platform arch) in *.
  assert (is_empty p = false) as He by (apply join_text_nonempty, artifact_name).
  rewrite (proj2 (N.ltb_lt 1 (n + 1))) by lia. intros (e & s1 & E1 & Hr)%cli_bind_ok.
  assert (e = true ∧ s1 = s) as [-> ->].
  { unfold path_exists in E1. rewrite He in E1. apply io_inv in E1 as (w & Ee & ->). unfold fs_exists in Ee.
    rewrite stat_call_ok in Ee by done. unfold fs_of in Hf. rewrite Hf in Ee. injection Ee as <- <-.
    split; [|by destruct s as [[]]]. cbn. by rewrite orb_true_r. }
  unfold read_file, at_path in Hr. rewrite He in Hr. apply io_inv in Hr as (w & (_ & [(bs0 & Hb & [= ->])|[? [=]]])%fs_read_fs & _).
  unfold fs_of in Hf. rewrite Hf in Hb. by injection Hb as ->.
Qed.

(** A step of a reporting run, in which the file [q] stays. *)
Lemma reports_holds {A} q bs (x : Reporting A) st r st' :
  reports (same_file q) x → x st = (r, st') → holds_bytes q bs st.2 → holds_bytes q bs st'.2.
Proof. intros Hx E Hh. specialize (Hx st). rewrite E in Hx. by eapply same_file_holds. Qed.
Ltac keeps_step H :=
  let a := fresh "a" in let st := fresh "st" in let E := fresh "E" in
  apply reporting_bind_ok in H as (a & st & E & H).
(** The next step has run, and [Hh] holds after it. *)
Ltac held_step H Hh :=
  let a := fresh "a" in let st := fresh "st" in let E := fresh "E" in
  apply reporting_bind_ok in H as (a & st & E & H); eapply reports_holds in Hh; [|clear H|exact E]; [|by reports_tac].
Ltac cli_held_step H Hh :=
  let a := fresh "a" in let s := fresh "s" in let E := fresh "E" in
  apply cli_bind_ok in H as (a & s & E & H); eapply holds_bytes_run in Hh; [|clear H|exact E]; [|by moves_tac].

Lemma native_base context app options n out payload bs st p st' :
  1 ≤ n → spares (artifact_place n) → out = patch_cache_dir release_version (n + 1) platform arch →
  holds_bytes (artifact_place n) bs st.2 →
  patch_payload env context app "snapshot_replace" platform options release_version (n + 1) arch out payload st
    = (Ok (Some p), st') → ∃ target, snapshot_payload bs target = Ok p.
Proof.
  intros Hn Hsp -> Hh. set (q := artifact_place n) in *.
  assert (∀ r, cli_keeps q (write_patch_report env (patch_cache_dir release_version (n + 1) platform arch) r)) as Hw
    by (intros; apply keeps_patch_document; [apply report_name|left; lia]).
  unfold patch_payload. destruct payload as [file|].
  - intros Hr. held_step Hr Hh. apply lift_cli_ok in Hr as [_ Hr]. unfold manual_patch_payload in Hr.
    cli_held_step Hr Hh. change (String.eqb "snapshot_replace" "snapshot_replace") with true in Hr. cbn iota in Hr.
    destruct (env_snapshot_replace env); [|discriminate Hr]. cli_held_step Hr Hh.
    apply cli_bind_ok in Hr as (base & s3 & E3 & Hr). apply (diff_base_is_previous _ _ bs) in E3 as ->; [|done..].
    apply snapshot_packed in Hr as [s4 [Hp _]%cli_lift_ok]. by exists a0.
  - unfold automatic_patch_payload. cbv zeta. intros Hr.
    pose proof (λ info rel, reports_same_build (R:=same_file q) env rel info _ Hw) as Hsame.
    held_step Hr Hh. destruct a; cbn [negb] in Hr; [|by apply reject_payload_ok in Hr].
    do 8 held_step Hr Hh.
    change (String.eqb "snapshot_replace" "snapshot_replace") with true in Hr.
    change (String.eqb "snapshot_replace" "bytecode") with false in Hr. rewrite andb_true_r in Hr.
    destruct (env_snapshot_replace env); [|by apply reject_payload_ok in Hr].
    apply lift_cli_ok in Hr as [_ Hr]. unfold automatic_snapshot_payload in Hr.
    destruct (negb _); [discriminate Hr|]. do 2 cli_held_step Hr Hh.
    apply cli_bind_ok in Hr as (base & s3 & F3 & Hr). apply (diff_base_is_previous _ _ bs) in F3 as ->; [|done..].
    apply snapshot_packed in Hr as [s4 [Hp _]%cli_lift_ok]. eauto.
Qed.

(** *** A native patch leaves its artifact *)
Lemma publish_leaves_artifact context client n unsigned p target report s s' :
  py_artifact p = Some target →
  publish_patch env context client (patch_cache_dir release_version n platform arch) unsigned p report s = (Ok tt, s') →
  fs_of s' !! artifact_place n = Some (File target).
Proof.
  intros Hart. unfold publish_patch. cbv zeta. rewrite Hart. intros ([] & s1 & _ & Hr)%cli_bind_ok.
  apply cli_bind_ok in Hr as ([] & s2 & Hw%write_bytes_ok & Hr); [|apply artifact_name].
  rewrite <- Hw. clear Hw. change (resolve env (join_text _ "artifact.bin")) with (artifact_place n).
  eapply (cli_keeps_run (artifact_place n)); [|exact Hr].
  apply moves_bind; [unfold load_private_key; moves_tac|].
  intros key. destruct (sign_patch_manifest _ _) as [signed manifest].
  apply moves_bind; [auto with fcb|]. intros _.
  apply moves_bind; [apply keeps_patch_document; [by vm_compute|by right]|]. intros _.
  apply moves_bind; [apply cli_keeps_net, still_post|]. intros _.
  apply moves_bind; [apply keeps_patch_document; [apply report_name|by right]|]. intros _. moves_tac.
Qed.

(** *** A run of [fcb patch] with the native backend *)
Context `{!SerdeLaws BytecodeModule (λ m, has_doubles m = false)}.
Context (json_no_magic : ∀ (m : BytecodeModule) bs, to_vec m = Ok bs → has_magic bs = false).

(** The run found a client, the app and the native backend for it. *)
Definition native_run (context : ResolvedContext) (n : N) (s : Shell) (client : Client) (app : RemoteAppConfig) : Prop :=
  ∃ s4, patch_setup env context platform release_version n arch s = (Ok (client, app, "snapshot_replace"%string), s4).
Lemma keeps_setup context n n' : cli_keeps (artifact_place n) (patch_setup env context platform release_version n' arch).
Proof.
  unfold patch_setup. pose proof (keeps_patch_dir n n'). moves_tac.
Qed.
Lemma native_payload context app options n out payload st r st' :
  patch_payload env context app "snapshot_replace" platform options release_version n arch out payload st = (Ok r, st') →
  ∃ p base target, r = Some p ∧ snapshot_payload base target = Ok p.
Proof.
  intros Hr. assert (∃ p, r = Some p) as [p ->].
  2:{ apply payload_packed in Hr as [[[=] _]|(_ & base & target & Hp)]. by exists p, base, target. }
  unfold patch_payload, manual_patch_payload, automatic_patch_payload, automatic_snapshot_payload in Hr.
  change (String.eqb "snapshot_replace" "snapshot_replace") with true in Hr.
  change (String.eqb "snapshot_replace" "bytecode") with false in Hr. cbv zeta in Hr. cbn iota in Hr.
  rewrite ?andb_true_r in Hr. destruct payload as [file|].
  - keeps_step Hr. apply lift_cli_ok in Hr as [_ Hr]. apply cli_bind_ok in Hr as (target & s1 & _ & Hr).
    destruct (env_snapshot_replace env); [|discriminate Hr].
    do 3 apply cli_bind_ok in Hr as (? & ? & _ & Hr). injection Hr as <- _. eauto.
  - keeps_step Hr. destruct a; cbn [negb] in Hr; [|by apply reject_payload_ok in Hr].
    do 8 keeps_step Hr. destruct (env_snapshot_replace env); [|by apply reject_payload_ok in Hr].
    apply lift_cli_ok in Hr as [_ Hr]. destruct (negb _); [discriminate Hr|].
    do 4 apply cli_bind_ok in Hr as (? & ? & _ & Hr). injection Hr as <- _. eauto.
Qed.
Lemma native_patch_ok context options n payload s s' client app :
  patch env context platform options release_version n arch payload s = (Ok tt, s') →
  native_run context n s client app →
  ∃ p base target seed signed,
    delivered env context platform options release_version n arch payload s client app "snapshot_replace" p seed signed
      (sh_machine s')
    ∧ snapshot_payload base target = Ok p ∧ fs_of s' !! artifact_place n = Some (File target)
    ∧ ∀ m bs, n = m + 1 → 1 ≤ m → spares (artifact_place m) → holds_bytes (artifact_place m) bs s →
        ∃ target', snapshot_payload bs target' = Ok p.
Proof.
  rewrite patch_split. intros Hr [s4 Hset]. rewrite (cli_bind_run _ _ _ _ _ Hset) in Hr.
  unfold patch_rest, reporting in Hr.
  destruct (patch_payload _ _ _ _ _ _ _ _ _ _ _ _) as [pr [report s5]] eqn:Hp.
  destruct (finish_patch_ok _ _ _ _ _ _ _ _ _ Hr) as [[-> _]|(p & -> & Hpub)].
  { by apply native_payload in Hp as (? & ? & ? & [=] & _). }
  apply native_payload in Hp as Hp'. destruct Hp' as (p' & base & target & [= <-] & Hpay).
  apply publish_patch_ok in Hpub as (seed & signed & Hpub).
  assert (payload_was env context platform options release_version n arch payload s client app "snapshot_replace"
    (Ok (Some p)) report s5) as Hwas by by exists s4.
  pose proof (published_delivered env json_no_magic _ _ _ _ _ _ _ _ _ _ _ _ _ _ _ _ _ Hwas Hpub) as Hd.
  exists p, base, target, seed, signed. split; [done|]. split; [done|]. split.
  - unfold finish_patch in Hr. eapply publish_leaves_artifact; [|exact Hr].
    unfold snapshot_payload in Hpay. by apply bind_ok in Hpay as (d & _ & [= <-]).
  - intros m bs -> Hm Hsp Hh. eapply native_base; [exact Hm|exact Hsp|reflexivity| |exact Hp].
    eapply holds_bytes_run; [apply keeps_setup|exact Hset|exact Hh].
Qed.

(** ** Both together *)
(** The device's side: its documents. *)
Context `{Serde SimpleBinaryDiff, Serde State, !SerdeLaws State (λ _, True), Serde CrashRollbackEvent}.
Context `{ToValue EventRequest, JsonF64, BodyJson CheckResponse}.
Context (event_no_panic : ∀ e : EventRequest, no_panic (to_value e)).

(** A device that can build the first patch and to which it is offered.  The
    artifact [target] of the first has no SHA-256 collision. *)
Definition chains (seed1 : list byte) (signed1 : PatchManifest) (bytes1 base target : list byte)
    (seed2 : list byte) (signed2 : PatchManifest) (bytes2 target2 : list byte) : Prop :=
  ∀ (device_net : Net) (device_bodies : BodyText) dir rt stats st offer mb m,
    @offered _ _ device_net _ dir rt st offer mb bytes1 m →
    rt_public_key_b64 rt = b64_encode (ed_public seed1) → from_slice mb = Ok signed1 →
    can_build true dir rt st m (Some (base, target)) → patch_number signed1 ∉ bad_patches st →
    (∀ c, sha256_hex c = sha256_hex target → c = target) →
    @takes_effect _ _ _ _ _ _ _ _ _ _ _ _ _ device_net device_bodies _ true dir rt stats signed1 bytes1 (Some target) m
    ∧ ∀ m' st' rt2 stats2 offer2 mb2,
        @took_effect _ _ _ _ _ _ _ _ _ _ _ _ _ device_net device_bodies _ true dir rt stats m m' st' →
        cache dir rt2 = cache dir rt → rt_baseline_artifact_path rt2 = rt_baseline_artifact_path rt →
        @offered _ _ device_net _ dir rt2 st' offer2 mb2 bytes2 m' →
        rt_public_key_b64 rt2 = b64_encode (ed_public seed2) → from_slice mb2 = Ok signed2 →
        patch_number signed2 ∉ bad_patches st' →
        @takes_effect _ _ _ _ _ _ _ _ _ _ _ _ _ device_net device_bodies _ true dir rt2 stats2 signed2 bytes2 (Some target2) m'.

Lemma delivered_chains context1 context2 options1 options2 n1 n2 payload1 payload2 s1 s2 client1 client2 app1 app2 p1 p2 seed1 seed2 signed1 signed2 m1 m2
    base target target2 :
  delivered env context1 platform options1 release_version n1 arch payload1 s1 client1 app1 "snapshot_replace" p1 seed1 signed1 m1 →
  delivered env context2 platform options2 release_version n2 arch payload2 s2 client2 app2 "snapshot_replace" p2 seed2 signed2 m2 →
  snapshot_payload base target = Ok p1 → snapshot_payload target target2 = Ok p2 →
  chains seed1 signed1 (py_bytes p1) base target seed2 signed2 (py_bytes p2) target2.
Proof.
  intros Hd1 Hd2 Hp1 Hp2 device_net device_bodies dir rt stats st offer mb m Ho Hk Hm Hcan Hbad Hinj.
  destruct (delivered_native env _ _ _ _ _ _ _ _ _ _ _ _ _ _ _ _ Hd1 Hp1 true dir rt st m Hcan) as [Hi1 Hmk1].
  assert (good_patch true (rt_public_key_b64 rt) mb (py_bytes p1) signed1) as Hg1 by (split; [exact Hm|by rewrite Hk]).
  split.
  { by eapply (@update_takes_effect _ _ _ _ _ _ _ _ _ _ _ _ _ device_net device_bodies _ _ event_no_panic). }
  intros m' st' rt2 stats2 offer2 mb2 Htook Hcache Hbase Ho2 Hk2 Hm2 Hbad2.
  destruct (@kept_base _ _ _ _ _ _ _ _ _ _ _ _ _ _ device_net device_bodies _ event_no_panic true dir
    rt stats st offer mb (py_bytes p1) signed1 target m m' st' Ho Hg1 Hmk1 Hbad Hinj Htook) as [Hpl Hpick].
  assert (can_build true dir rt2 st' m' (Some (target, target2))) as Hcan2.
  { split; [done|]. cbv zeta. rewrite Hcache, Hbase. by split. }
  destruct (delivered_native env _ _ _ _ _ _ _ _ _ _ _ _ _ _ _ _ Hd2 Hp2 true dir rt2 st' m' Hcan2) as [Hi2 Hmk2].
  eapply (@update_takes_effect _ _ _ _ _ _ _ _ _ _ _ _ _ device_net device_bodies _ _ event_no_panic);
    [exact Ho2| |exact Hmk2|exact Hbad2].
  split; [exact Hm2|]. by rewrite Hk2.
Qed.

(** C9: native patches of consecutive numbers fit together.  When two runs of
    [fcb patch] for the native backend succeed, the second for the next number,
    nobody touched the first one's artifact in the directory of patches, and no
    metadata call fails in the second run, then both delivered a payload, the
    second a diff from the target of the first.  So a device that can build the
    first takes it, and after that launch was confirmed it takes the second: the
    update attempt rebuilds the second target from the artifact installed, the next
    launch returns it and is confirmed.
    (Unless the first target shares its SHA-256 with other bytes.) *)
Theorem native_patches_chain context1 context2 options1 options2 n payload1 payload2 s s1 s2 s3 client1 client2 app1 app2 :
  1 ≤ n → spares (artifact_place n) →
  patch env context1 platform options1 release_version n arch payload1 s = (Ok tt, s1) →
  native_run context1 n s client1 app1 →
  patch env context2 platform options2 release_version (n + 1) arch payload2 s2 = (Ok tt, s3) →
  native_run context2 (n + 1) s2 client2 app2 →
  fs_of s2 !! artifact_place n = fs_of s1 !! artifact_place n → stat_of s2 = [] →
  ∃ p1 p2 base target target2 seed1 seed2 signed1 signed2,
    delivered env context1 platform options1 release_version n arch payload1 s client1 app1 "snapshot_replace" p1 seed1
      signed1 (sh_machine s1)
    ∧ delivered env context2 platform options2 release_version (n + 1) arch payload2 s2 client2 app2 "snapshot_replace" p2
      seed2 signed2 (sh_machine s3)
    ∧ snapshot_payload base target = Ok p1 ∧ snapshot_payload target target2 = Ok p2
    ∧ chains seed1 signed1 (py_bytes p1) base target seed2 signed2 (py_bytes p2) target2.
Proof.
  intros Hn Hsp Hr1 Hrun1 Hr2 Hrun2 Hfs Hst.
  destruct (native_patch_ok _ _ _ _ _ _ _ _ Hr1 Hrun1) as (p1 & base & target & seed1 & signed1 & Hd1 & Hp1 & Hf1 & _).
  destruct (native_patch_ok _ _ _ _ _ _ _ _ Hr2 Hrun2) as (p2 & base2 & t2 & seed2 & signed2 & Hd2 & _ & _ & Hprev).
  destruct (Hprev n target eq_refl Hn Hsp) as [target2 Hp2]; [by split; [rewrite Hfs|]|].
  exists p1, p2, base, target, target2, seed1, seed2, signed1, signed2. do 4 (split; [done|]).
  by eapply delivered_chains.
Qed.
End Machine.

(** ** Witness *)
Section Demo.
#[local] Existing Instances demo_hash demo_base64 demo_ed25519 demo_bsdiff demo_value_serde demo_to_value.
#[local] Existing Instances demo_base64_laws demo_base64_text demo_ed25519_laws demo_bsdiff_laws.
#[local] Existing Instances demo_programs listing_order demo_modified demo_state_serde demo_state_laws demo_event_serde.
#[local] Existing Instances PatchFacts.demo_manifest_serde PatchFacts.demo_module_serde PatchFacts.demo_module_laws.
#[local] Existing Instances demo_inventory_serde demo_plan_serde demo_cache_serde demo_report_serde.
#[local] Existing Instances demo_entry_points_serde demo_create_patch demo_accepting PatchFacts.demo_body_text.
#[local] Existing Instances demo_native_app demo_diff_serde demo_update_json demo_event_value demo_json_number.
(** A released library and its next two versions. *)
Definition demo_acked : Environment := {|
  env_var name := if String.eqb name "FCB_ACK_STORE_POLICY" then Some "1"%string else None;
  env_current_dir := ["app"%string]; env_current_exe := None; env_temp_dir := "/tmp";
  env_macos := false; env_snapshot_replace := true |}.
Definition demo_libraries : Shell := shell_with {[
  ["app"]%string := Dir; ["app"; "key"]%string := File (str_bytes demo_private_key);
  ["app"; ".fcb"; "apps"; "app"; "releases"; "1.0.0"; "android"; "arm64-v8a"; "app.so"]%string := File demo_app_so;
  ["app"; "v1.so"]%string := File [x7f; x01]; ["app"; "v2.so"]%string := File [x7f; x02] ]}.
Definition demo_native_patch (n : N) (file : string) (s : Shell) : result unit * Shell :=
  patch demo_acked demo_cli_context "android" demo_build_options "1.0.0" n "arm64-v8a" (Some file) s.
Definition demo_first : result unit * Shell := demo_native_patch 1 "v1.so" demo_libraries.
Definition demo_second : result unit * Shell := demo_native_patch 2 "v2.so" demo_first.2.
Definition demo_artifact : path := resolve demo_acked (patch_artifact_path "1.0.0" 1 "android" "arm64-v8a").
Definition demo_setup (n : N) (s : Shell) : result (Client * RemoteAppConfig * string) * Shell :=
  patch_setup demo_acked demo_cli_context "android" "1.0.0" n "arm64-v8a" s.
Lemma demo_native_results : demo_first.1 = Ok tt ∧ demo_second.1 = Ok tt ∧ stat_of demo_first.2 = [].
Proof. split_and!; vm_compute; reflexivity. Qed.
Lemma demo_native_setups : ∃ client app,
  (demo_setup 1 demo_libraries).1 = Ok (client, app, "snapshot_replace"%string)
  ∧ (demo_setup 2 demo_first.2).1 = Ok (client, app, "snapshot_replace"%string).
Proof.
  exists {| base_url := "https://fcb.example"; token := Some "t"%string |}, {|
    ra_id := "app"; ra_org_id := None; ra_name := "demo"; ra_channel := "stable"; ra_public_key := demo_public_key;
    platforms := [{| re_platform := "android"; enabled := true; re_backend := "snapshot_replace"; abi := [] |}] |}.
  split; vm_compute; reflexivity.
Qed.
Lemma demo_names : component "android" ∧ component "arm64-v8a".
Proof. by vm_compute. Qed.
Lemma native_patches_chain_witness : ∃ seed1 signed1 bytes1 base target seed2 signed2 bytes2 target2,
  patch_number signed1 = 1 ∧ patch_number signed2 = 2 ∧ snapshot_payload base target = Ok bytes1
  ∧ snapshot_payload target target2 = Ok bytes2
  ∧ chains seed1 signed1 (py_bytes bytes1) base target seed2 signed2 (py_bytes bytes2) target2.
Proof.
  assert (∀ e : EventRequest, no_panic (to_value e)) as Hnp by (by intros e msg).
  pose proof demo_native_results as (Hr1 & Hr2 & Hst). pose proof demo_native_setups as (client & app & Hs1 & Hs2).
  pose proof demo_names as [Hplat Harch].
  destruct (native_patches_chain demo_acked "1.0.0" "android" "arm64-v8a" Hplat Harch demo_json_no_magic Hnp
    demo_cli_context demo_cli_context demo_build_options demo_build_options 1 (Some "v1.so"%string) (Some "v2.so"%string)
    demo_libraries demo_first.2 demo_first.2 demo_second.2 client client app app)
    as (p1 & p2 & base & target & target2 & seed1 & seed2 & signed1 & signed2 & Hd1 & Hd2 & Hp1 & Hp2 & Hc).
  - done.
  - by intros cs c fs.
  - change (demo_first = (Ok tt, demo_first.2)). rewrite <- Hr1. apply surjective_pairing.
  - exists (demo_setup 1 demo_libraries).2. rewrite <- Hs1. apply surjective_pairing.
  - change (demo_second = (Ok tt, demo_second.2)). rewrite <- Hr2. apply surjective_pairing.
  - exists (demo_setup 2 demo_first.2).2. rewrite <- Hs2. apply surjective_pairing.
  - reflexivity.
  - exact Hst.
  - exists seed1, signed1, p1, base, target, seed2, signed2, p2, target2.
    destruct Hd1 as (_ & _ & _ & _ & E1 & _), Hd2 as (_ & _ & _ & _ & E2 & _).
    split; [by rewrite E1|]. split; [by rewrite E2|]. split; [exact Hp1|]. split; [exact Hp2|exact Hc].
Defined.
End Demo.
