(* ===== verification/CheckFacts.v ===== *)
(** * What [fcb check --install] installs

    The check, the download and the installation of the command line as one
    operation: nothing is installed but a payload that is what the server
    announced, signed with the key pinned for its app, and a run that fails leaves
    the installed state as it was. *)
From S2P Require Import Prelude Text Floats External Bytecode BytecodeCheck BytecodeFacts Crypto Diff Manifest World State StateFacts StateProperties StateProgress Linker BuildInfo Config Flights Net ServerApi Runtime RuntimeProperties Delivery Resilience Shell AotEntryPoints Auto AutoFacts BuildFacts Inspect Cli Pipeline PatchFacts EndToEnd PublishFacts TrustFacts ReleaseFacts Chain.
Local Open Scope N_scope.

(** ** The installed state *)
Section Check.
Context `{Hash, !HexText, Base64, Ed25519, BsdiffZstd, Net, BodyText, BodyJson RemoteAppConfig, BodyJson CheckResponse}.
Context `{Serde Value.t, ToValue PatchManifest, Serde PatchManifest, Serde SimpleBinaryDiff, Serde CheckResponse}.
Context `{Serde BytecodeModule, Serde State, !SerdeLaws State (λ _, True), Serde CrashRollbackEvent}.
Variables (env : Environment) (cache : string).
Abbreviation cd := (resolve env cache).
(** What the cache directory holds. *)
Definition installed_state (st : State) (s : Shell) : Prop := holds cd (m_world (sh_machine s)) st.
Lemma preserves_state_keeps {A} st (x : Cli A) : cli_keeps (State.state_path cd) x → preserves (installed_state st) x.
Proof.
  intros Hx s [Hst Hd]. destruct (Hx s) as [Hf Hs]. split; [by eapply suffix_nil_of|].
  by rewrite (disk_state_ext _ (fs_of s)).
Qed.
#[global] Instance installed_state_framed st : Framed (installed_state st).
Proof.
  intros s s' Hk [Hst Hd]. destruct (Hk (State.state_path cd)) as [Hf Hs]. split; [by eapply suffix_nil_of|].
  by rewrite (disk_state_ext _ (fs_of s)).
Qed.
Lemma path_ne_last {A} (l l' : list A) a a' : a ≠ a' → l ++ [a] ≠ l' ++ [a'].
Proof. by intros Hne [_ ?]%app_inj_tail. Qed.
Lemma keeps_write_named q dir name bs :
  component name → q ≠ resolve env dir ++ [name] → cli_keeps q (write_bytes env (join_text dir name) bs).
Proof.
  intros Hn Hq. unfold write_bytes, at_path. rewrite join_text_nonempty by apply Hn.
  apply (cli_keeps_io _ (λ q', q' = resolve env (join_text dir name))); [by apply touches_write|].
  by rewrite resolve_join_text.
Qed.

(** ** The answer *)
(** [check] up to the answer it prints. *)
Definition asked (context : ResolvedContext) (release_version platform arch channel : string)
    (current_patch_number : N) (client_id : string) : Cli (RemoteAppConfig * CheckResponse) :=
  authed ← cli_lift (authed_client env (cx_server context) (cx_token context));
  app ← resolve_app authed context;
  response ← net (ServerApi.check (client_new (cx_server context)) {|
    cr_org_id := ra_org_id app; cr_app_id := ra_id app; cr_release_version := release_version;
    cr_platform := platform; cr_arch := arch; cr_channel := channel;
    current_patch_number := current_patch_number; cr_client_id := client_id |});
  text ← cli_lift (to_string_pretty response);
  _ ← println text;
  mret (app, response).
Lemma cli_keeps_asked q context v platform arch ch n id : cli_keeps q (asked context v platform arch ch n id).
Proof.
  unfold asked.
  assert (∀ c r, cli_keeps q (net (ServerApi.check c r))) as Hc.
  { intros c r. apply cli_keeps_net. unfold ServerApi.check. apply still_retry_loop. }
  moves_tac.
Qed.
Lemma check_split context v platform arch ch n id i s :
  check env context v platform arch ch n id i cache s
  = (x ← asked context v platform arch ch n id;
     if i then Cli.download_and_install env context (client_new (cx_server context)) x.2 (ra_id x.1) v platform
                 arch cache
     else mret tt) s.
Proof.
  unfold check, asked, mbind, cli_bind, cli_lift, println.
  destruct (authed_client _ _ _) as [authed| |]; [|done..].
  destruct (resolve_app authed context s) as [[app| |] s1]; [|done..].
  destruct (net _ s1) as [[response| |] s2]; [|done..]. by destruct (to_string_pretty response).
Qed.

(** ** The files fetched *)
Definition download_dir (app_id release_version : string) (n : N) (platform arch : string) : string :=
  joins fcb_dir ["apps"%string; app_id; "downloads"%string; release_version; dec n; platform; arch].
Lemma download_names : component "patch_manifest.json" ∧ component "payload.bin".
Proof. by vm_compute. Qed.
Lemma cli_ensure_hash_ok label bs expected s s' :
  cli_lift (Cli.ensure_hash label bs expected) s = (Ok tt, s') → sha256_hex bs = expected ∧ s' = s.
Proof.
  unfold Cli.ensure_hash. intros [Hr ->]%cli_lift_ok. by destruct (String.eqb_spec (sha256_hex bs) expected).
Qed.
(** A written file, and metadata as before. *)
Lemma write_bytes_holds dir name bs s s' :
  component name → stat_of s = [] → write_bytes env (join_text dir name) bs s = (Ok tt, s') →
  holds_bytes (resolve env (join_text dir name)) bs s'.
Proof.
  intros Hn Hst E. split; [by eapply write_bytes_ok|]. eapply suffix_nil_of, Hst.
  eapply (cli_keeps_stat []), E. apply keeps_write_named; [done|]. by destruct (resolve env dir).
Qed.
Lemma keeps_download q dir x : cli_keeps q (net (download_bytes dir x)).
Proof. apply cli_keeps_net, still_download_bytes. Qed.
Lemma keeps_create_dirs q p : q ∉ ancestors (resolve env p) → cli_keeps q (create_dirs env p).
Proof.
  intros Hq. unfold create_dirs. destruct (is_empty p); [apply moves_ret|].
  by apply (cli_keeps_io _ (λ q', q' ∈ ancestors (resolve env p))), Hq; apply touches_create_dir_all.
Qed.
Lemma download_patch_files_ok client p id v platform arch mp pp s s' :
  Cli.download_patch_files env client p id v platform arch s = (Ok (mp, pp), s') → stat_of s = [] →
  let out := download_dir id v (pc_patch_number p) platform arch in
  mp = join_text out "patch_manifest.json" ∧ pp = join_text out "payload.bin"
  ∧ ∃ mb bytes, sha256_hex mb = manifest_hash p ∧ sha256_hex bytes = payload_hash p
      ∧ holds_bytes (resolve env mp) mb s' ∧ holds_bytes (resolve env pp) bytes s'.
Proof.
  intros Hr Hst out. destruct download_names as [N1 N2]. unfold Cli.download_patch_files in Hr. fold out in Hr.
  apply cli_bind_ok in Hr as ([] & s1 & E1 & Hr). apply cli_bind_ok in Hr as (mb & s2 & E2 & Hr).
  apply cli_bind_ok in Hr as ([] & s3 & [Hm ->]%cli_ensure_hash_ok & Hr). cbv zeta in Hr.
  apply cli_bind_ok in Hr as ([] & s4 & E4 & Hr). apply cli_bind_ok in Hr as (bytes & s5 & E5 & Hr).
  apply cli_bind_ok in Hr as ([] & s6 & [Hb ->]%cli_ensure_hash_ok & Hr).
  apply cli_bind_ok in Hr as ([] & s7 & E7 & [= <- <- <-]).
  do 2 (split; [done|]). exists mb, bytes. do 2 (split; [done|]).
  apply (cli_keeps_stat []) in E1; [|apply keeps_create_dirs; by intros [? _]%ancestors_elem].
  apply (cli_keeps_stat []) in E2; [|apply keeps_download].
  assert (stat_of s2 = []) as Hst2 by (by eapply suffix_nil_of, suffix_nil_of, Hst; [exact E2|exact E1]).
  apply write_bytes_holds in E4; [|done..].
  eapply holds_bytes_run in E4; [|apply keeps_download|exact E5].
  split; [|by eapply write_bytes_holds, E7; [|apply E4]].
  eapply holds_bytes_run, E4; [|exact E7]. by apply keeps_write_bytes.
Qed.
Lemma preserves_download st client p id v platform arch :
  State.state_path cd ∉ ancestors (resolve env (download_dir id v (pc_patch_number p) platform arch)) →
  preserves (installed_state st) (Cli.download_patch_files env client p id v platform arch).
Proof.
  intros Hout. apply preserves_state_keeps. unfold Cli.download_patch_files. cbv zeta.
  fold (download_dir id v (pc_patch_number p) platform arch). destruct download_names as [N1 N2].
  pose proof (keeps_download (State.state_path cd)). pose proof (keeps_create_dirs _ _ Hout).
  assert (∀ n bs, component n → n ≠ "state.json"%string → cli_keeps (State.state_path cd)
    (write_bytes env (join_text (download_dir id v (pc_patch_number p) platform arch) n) bs)).
  { intros n bs Hn Hne. apply keeps_write_named; [done|]. unfold State.state_path, join1. by apply path_ne_last. }
  moves_tac.
Qed.

(** ** Installing what is in two files *)
Definition no_pin (q : path) : Prop := ∀ server id, q ≠ pin_file env cache server id.
Lemma no_pin_named dir n : last (str_bytes n) ≠ Some x36 → no_pin (dir ++ [n]).
Proof.
  intros Hn server id. unfold pin_file. apply path_ne_last. intros ->. apply Hn. unfold pin_name.
  rewrite !str_bytes_app. change (str_bytes ".sha256") with (str_bytes ".sha25" ++ [x36]).
  by rewrite !app_assoc, last_snoc.
Qed.
Lemma keeps_write_pin q server id bs :
  q ≠ pin_file env cache server id → cli_keeps q (write_bytes env (pin_path cache server id) bs).
Proof.
  intros Hq. unfold write_bytes, at_path. rewrite pin_path_nonempty, resolve_pin_path.
  by apply (cli_keeps_io _ (λ q', q' = pin_file env cache server id)); [apply touches_write|].
Qed.
Lemma preserves_pin {I : Shell → Prop} `{!Framed I} server id key :
  preserves I (create_dirs env (join_text cache "trusted_keys")) →
  (∀ bs, preserves I (write_bytes env (pin_path cache server id) bs)) →
  preserves I (ensure_pinned_public_key env cache server id key).
Proof. intros Hd Hw. unfold ensure_pinned_public_key. cbv zeta. moves_tac. Qed.
Lemma preserves_bytes_pin q bs server id key :
  no_pin q → preserves (holds_bytes q bs) (ensure_pinned_public_key env cache server id key).
Proof.
  intros Hq. apply preserves_pin; [apply preserves_create_dirs|].
  intros. by apply preserves_holds_bytes, keeps_write_pin.
Qed.
Lemma preserves_state_pin st server id key :
  preserves (installed_state st) (ensure_pinned_public_key env cache server id key).
Proof.
  assert (length (State.state_path cd) = S (length cd)) as Hl by (unfold State.state_path, join1; rewrite length_app; simpl; lia).
  apply preserves_pin; intros; apply preserves_state_keeps.
  - apply keeps_create_dirs. rewrite resolve_join_text by by vm_compute.
    intros [_ Hq]%ancestors_elem. unfold State.state_path, join1 in Hq. by apply prefix_app_inv, prefix_cons_inv_1 in Hq.
  - apply keeps_write_pin. intros E. rewrite E in Hl. unfold pin_file, pins_dir in Hl. rewrite !length_app in Hl. simpl in Hl. lia.
Qed.

(** The key the server has for an app, as [install] asks for it. *)
Definition server_key (context : ResolvedContext) (id key : string) (s : Shell) : Prop := ∃ client remote s1,
  authed_client env (cx_server context) (cx_token context) = Ok client
  ∧ net (get_app client id) s = (Ok remote, s1) ∧ key = trim (ra_public_key remote) ∧ key ≠ ""%string.
(** Run from [s] with the installed state [st], it has installed the payload that
    the files hold: the payload is accepted under the key the server then gives
    for the manifest's app, which is pinned. *)
Definition installs (context : ResolvedContext) (st : State) (mp : string) (mb bytes : list byte) (s s' : Shell) : Prop :=
  ∃ m key artifact now s1,
    from_slice mb = Ok m ∧ read_json_file env mp s = (Ok m, s1) ∧ enforce_secure_server (cx_server context) = Ok tt
    ∧ server_key context (app_id m) key s1 ∧ StateProperties.accepted (env_snapshot_replace env) key m bytes
    ∧ pinned (pin_file env cache (cx_server context) (app_id m)) (sha256_hex (str_bytes key)) s'
    ∧ installed_state (install_next st m artifact now) s'
    ∧ pending_patch_number (install_next st m artifact now) = Some (patch_number m)
    ∧ fs_of s' !! patch_path cd (patch_number m) "payload.bin" = Some (File bytes).


(** The state, and the two files of a patch. *)
Definition ready (st : State) (mp pp : string) (mb bytes : list byte) (s : Shell) : Prop :=
  installed_state st s ∧ holds_bytes (resolve env mp) mb s ∧ holds_bytes (resolve env pp) bytes s.
#[global] Instance ready_framed st mp pp mb bytes : Framed (ready st mp pp mb bytes).
Proof. intros s s' Hk (Hs1 & Hs2 & Hs3). split; [|split]; by eapply framed. Qed.
Lemma preserves_ready_pin st mp pp mb bytes server id key :
  no_pin (resolve env mp) → no_pin (resolve env pp) →
  preserves (ready st mp pp mb bytes) (ensure_pinned_public_key env cache server id key).
Proof.
  intros Hm Hp s (Hs1 & Hs2 & Hs3). split; [by apply preserves_state_pin|]. split; by apply preserves_bytes_pin.
Qed.
Lemma after_pin_ok manifest mp pp key st mb bytes s s' :
  after_pin env cache manifest mp pp key s = (Ok tt, s') → ready st mp pp mb bytes s →
  ∃ m artifact now, from_slice mb = Ok m ∧ StateProperties.accepted (env_snapshot_replace env) key m bytes
    ∧ installed_state (install_next st m artifact now) s'
    ∧ fs_of s' !! patch_path cd (patch_number m) "payload.bin" = Some (File bytes).
Proof.
  intros Hr Hs. unfold after_pin in Hr.
  apply cli_bind_ok in Hr as (base & s1 & E1 & Hr). apply cli_bind_ok in Hr as (e & s2 & E2 & Hr).
  apply cli_bind_ok in Hr as ([] & s3 & E3 & [= <-]).
  apply (preserves_run _ _ _ _ _ (moves_artifact_path _ _ _ _ _) Hs) in E1.
  apply (preserves_run _ _ _ _ _ (moves_exists _ _) E1) in E2
    as (Hst & [Hmp _] & [Hpp _]).
  apply io_inv in E3 as (w & E3 & ->).
  destruct (install_ok_inv _ _ _ _ _ _ _ _ _ Hst E3)
    as (m & bytes' & artifact & now & Hacc & Hw & Hpay & _ & mb' & Hm & Hmb & Hp).
  unfold fs_of in Hmp, Hpp. rewrite Hmp in Hm. rewrite Hpp in Hp. injection Hm as <-. injection Hp as <-.
  by exists m, artifact, now.
Qed.
Lemma read_json_file_holds {A} `{Serde A} p bs (a : A) s s' :
  read_json_file env p s = (Ok a, s') → holds_bytes (resolve env p) bs s → from_slice bs = Ok a.
Proof.
  unfold read_json_file, at_path. destruct (is_empty p); [intros (w & [=] & _)%io_inv|].
  intros (w & (b & Hb & Ha & _)%read_json_ok & _)%io_inv [Hf _]. unfold fs_of in Hf. rewrite Hf in Hb. by injection Hb as <-.
Qed.
Lemma install_ok context mp pp st mb bytes s s' :
  install env context mp pp cache s = (Ok tt, s') → ready st mp pp mb bytes s →
  no_pin (resolve env mp) → no_pin (resolve env pp) → installs context st mp mb bytes s s'.
Proof.
  intros Hr Hs Hmq Hpq. unfold install in Hr.
  apply cli_bind_ok in Hr as (m & s1 & E1 & Hr). apply cli_bind_ok in Hr as ([] & s2 & [Hsec ->]%cli_lift_ok & Hr).
  apply cli_bind_ok in Hr as (client & s3 & [Hc ->]%cli_lift_ok & Hr).
  apply cli_bind_ok in Hr as (remote & s4 & E4 & Hr).
  destruct (is_empty (trim (ra_public_key remote))) eqn:Hk; [discriminate|].
  apply cli_bind_ok in Hr as ([] & s5 & E5 & Hr).
  match type of Hr with ?x _ = _ =>
    change (after_pin env cache m mp pp (trim (ra_public_key remote)) s5 = (Ok tt, s')) in Hr end.
  pose proof (read_json_file_holds _ _ _ _ _ E1 (proj1 (proj2 Hs))) as Hm.
  apply (preserves_run _ _ _ _ _ (moves_read_json _ _) Hs) in E1 as Hs1.
  apply (preserves_run _ _ _ _ _ (moves_get_app _ _) Hs1) in E4 as Hs4.
  apply (preserves_run _ _ _ _ _ (preserves_ready_pin _ _ _ _ _ _ _ _ Hmq Hpq) Hs4) in E5 as Hs5.
  apply ensure_pinned_pins in E5 as Hpin.
  assert (pinned (pin_file env cache (cx_server context) (app_id m)) (sha256_hex (str_bytes (trim (ra_public_key remote)))) s5)
    as E5' by (split; [apply Hs5|done]).
  destruct (after_pin_ok _ _ _ _ _ _ _ _ _ Hr Hs5) as (m' & artifact & now & Hm' & Hacc & Hi & Hpay).
  rewrite Hm in Hm'. injection Hm' as <-. exists m, (trim (ra_public_key remote)), artifact, now, s1.
  do 3 (split; [done|]). split.
  { exists client, remote, s4. do 3 (split; [done|]). intros E. by rewrite E in Hk. }
  split; [done|]. split; [by eapply preserves_run; [apply preserves_after_pin|exact E5'|exact Hr]|].
  split; [done|]. split; [apply install_next_pending|done].
Qed.

(** An installation that fails. *)
Lemma after_pin_failed st manifest mp pp key s r s' :
  installed_state st s → after_pin env cache manifest mp pp key s = (r, s') → r ≠ Ok tt → installed_state st s'.
Proof.
  intros Hs Hr Hne. unfold after_pin in Hr.
  apply cli_bind_inv in Hr as [(base & s1 & E1 & Hr)|(r1 & E1 & _)];
    apply (preserves_run _ _ _ _ _ (moves_artifact_path _ _ _ _ _) Hs) in E1; [|done].
  apply cli_bind_inv in Hr as [(e & s2 & E2 & Hr)|(r2 & E2 & _)];
    apply (preserves_run _ _ _ _ _ (moves_exists _ _) E1) in E2; [|done].
  apply cli_bind_inv in Hr as [([] & s3 & _ & [= <- <-])|(r3 & E3 & Hr3)]; [done|].
  apply io_inv in E3 as (w & E3 & ->). eapply implements_install in E3; [|exact E2].
  by destruct r3 as [[]|?|?].
Qed.
Lemma install_failed st context mp pp s r s' :
  installed_state st s → install env context mp pp cache s = (r, s') → r ≠ Ok tt → installed_state st s'.
Proof.
  intros Hs Hr Hne. pose proof (preserves_offered_key (I:=installed_state st) env context mp s Hs) as Ho.
  apply install_split in Hr as [(app & key & s1 & s2 & m & E1 & E2 & E3)
    |[_ [(app & key & s1 & E1 & [->|<-])|<-]]]; [| | |done]; rewrite E1 in Ho; cbn [snd] in Ho; [|done|].
  - eapply after_pin_failed, Hne; [|exact E3]. by eapply preserves_run; [apply preserves_state_pin|exact Ho|exact E2].
  - by apply preserves_state_pin.
Qed.

(** The directories a download makes do not include the file of the state. *)
Definition apart (context : ResolvedContext) (v platform arch ch : string) (n : N) (id : string) (s : Shell) : Prop :=
  ∀ app response p, (asked context v platform arch ch n id s).1 = Ok (app, response) →
    Flights.patch response = Some p →
    State.state_path cd ∉ ancestors (resolve env (download_dir (ra_id app) v (pc_patch_number p) platform arch)).

(** C17: a run of [fcb check --install] that succeeds and was offered a patch has
    installed it: the manifest and the payload it downloaded have the hashes the
    server announced, the server passes the check of its address, the manifest's
    signature verifies under the key the server then gives for the manifest's app,
    the payload has the signed hash and the form its backend requires, that key is
    the pinned one, and exactly this payload is on disk, pending, with the state
    the transition system gives.  Without an offer nothing is changed.  A run that
    fails, by whatever other fault, leaves the installed state as it was.  (In all
    of this no metadata call fails.) *)
Theorem check_installs_announced context v platform arch ch n id st s :
  installed_state st s → apart context v platform arch ch n id s →
  let '(r, s') := check env context v platform arch ch n id true cache s in
  match r with
  | Ok _ => ∃ app response s1, asked context v platform arch ch n id s = (Ok (app, response), s1)
      ∧ fs_of s1 = fs_of s
      ∧ match Flights.patch response with
        | None => patch_available response = false ∧ s' = s1
        | Some p => ∃ mp pp s2 mb bytes,
            Cli.download_patch_files env (client_new (cx_server context)) p (ra_id app) v platform arch s1
              = (Ok (mp, pp), s2)
            ∧ holds_bytes (resolve env mp) mb s2 ∧ holds_bytes (resolve env pp) bytes s2
            ∧ sha256_hex mb = manifest_hash p ∧ sha256_hex bytes = payload_hash p
            ∧ installs context st mp mb bytes s2 s'
        end
  | _ => installed_state st s'
  end.
Proof.
  intros Hs Hap. rewrite check_split. unfold apart in Hap.
  pose proof (preserves_state_keeps st _ (cli_keeps_asked _ context v platform arch ch n id) s Hs) as Hs1.
  assert (fs_of (asked context v platform arch ch n id s).2 = fs_of s) as Hfs
    by (apply map_eq; intros q; apply (cli_keeps_asked q)).
  unfold mbind at 1, cli_bind at 1. destruct (asked _ _ _ _ _ _ _ s) as [[[app response]|e|e] s1]; [|done..].
  cbn [fst snd] in *. unfold Cli.download_and_install.
  destruct (Flights.patch response) as [p|] eqn:Hp.
  2:{ destruct (patch_available response) eqn:Hav; cbn; [done|]. exists app, response, s1. by rewrite Hp. }
  specialize (Hap app response p eq_refl Hp). set (out := download_dir _ _ _ _ _) in Hap.
  match goal with |- context [match ?x with (_, _) => _ end] => destruct x as [r s'] eqn:Hr end.
  apply cli_bind_inv in Hr as [([mp pp] & s2 & E2 & Hr)|(r1 & E1 & Hr1)].
  2:{ apply (preserves_run _ _ _ _ _ (preserves_download st _ _ _ _ _ _ Hap) Hs1) in E1. by destruct r1, r. }
  apply (preserves_run _ _ _ _ _ (preserves_download st _ _ _ _ _ _ Hap) Hs1) in E2 as Hs2.
  destruct (download_patch_files_ok _ _ _ _ _ _ _ _ _ _ E2 (proj1 Hs1)) as (-> & -> & mb & bytes & Hmb & Hb & Hmf & Hpf).
  destruct r as [[]|e|e]; [|by eapply install_failed..].
  exists app, response, s1. do 2 (split; [done|]). rewrite Hp. eexists _, _, s2, mb, bytes. do 5 (split; [done|]).
  eapply install_ok; [exact Hr|exact (conj Hs2 (conj Hmf Hpf))| |]; rewrite resolve_join_text by apply download_names;
    by apply no_pin_named; vm_compute.
Qed.
End Check.

(** ** Witness *)
Section Demo.
#[local] Existing Instances demo_hash demo_hash_text demo_base64 demo_ed25519 demo_bsdiff demo_value_serde demo_to_value.
#[local] Existing Instances demo_update_net ServerApi.demo_body_text demo_update_json.
#[local] Existing Instances StateProperties.demo_manifest_serde PatchFacts.demo_module_serde demo_diff_serde.
#[local] Existing Instances demo_state_serde demo_state_laws demo_event_serde.
#[local] Instance demo_response_serde : Serde CheckResponse := {|
  to_vec _ := Ok []; to_vec_pretty _ := Ok []; from_slice _ := Ok demo_update |}.
(** The server names the app asked for otherwise than the manifest it offers. *)
Definition demo_other_app : RemoteAppConfig := {|
  ra_id := "other"; ra_org_id := None; ra_name := "demo"; ra_channel := "stable"; ra_public_key := demo_public_key;
  platforms := [] |}.
#[local] Instance demo_other_json : BodyJson RemoteAppConfig := λ _, Ok demo_other_app.
Definition demo_fresh : Shell := shell_with {[ ["app"]%string := Dir ]}.
Definition demo_check_run : result unit * Shell :=
  check demo_env demo_cli_context "1.0.0" "android" "arm64-v8a" "stable" 0 "device" true "cache" demo_fresh.
Lemma demo_check_result : demo_check_run.1 = Ok tt
  ∧ (asked demo_env demo_cli_context "1.0.0" "android" "arm64-v8a" "stable" 0 "device" demo_fresh).1
    = Ok (demo_other_app, demo_update).
Proof. split; vm_compute; reflexivity. Qed.
Lemma demo_apart : apart demo_env "cache" demo_cli_context "1.0.0" "android" "arm64-v8a" "stable" 0 "device" demo_fresh.
Proof.
  intros app response p Ha Hp. rewrite (proj2 demo_check_result) in Ha. injection Ha as <- <-. injection Hp as <-.
  apply (bool_decide_unpack _). vm_compute. exact I.
Qed.
Lemma demo_fresh_state : installed_state demo_env "cache" default_state demo_fresh.
Proof. split; vm_compute; reflexivity. Qed.
(** The manifest of ["app"] that was offered for ["other"] is installed. *)
Lemma check_installs_announced_witness : ∃ mp mb bytes s2,
  sha256_hex mb = manifest_hash demo_patch_check ∧ sha256_hex bytes = payload_hash demo_patch_check
  ∧ installs demo_env "cache" demo_cli_context default_state mp mb bytes s2 demo_check_run.2
  ∧ app_id demo_install_manifest = "app"%string ∧ ra_id demo_other_app = "other"%string.
Proof.
  pose proof (check_installs_announced demo_env "cache" demo_cli_context "1.0.0" "android" "arm64-v8a" "stable" 0
    "device" default_state demo_fresh demo_fresh_state demo_apart) as Hc.
  change (check _ _ _ _ _ _ _ _ true _ demo_fresh) with demo_check_run in Hc.
  pose proof demo_check_result as [Hr Ha]. revert Hc.
  destruct demo_check_run as [r s']. cbn [fst snd] in *. subst r.
  intros (app & response & s1 & E & _ & Hp). rewrite E in Ha. injection Ha as -> ->.
  destruct Hp as (mp & pp & s2 & mb & bytes & _ & _ & _ & Hmb & Hb & Hi). exists mp, mb, bytes, s2.
  split; [exact Hmb|]. split; [exact Hb|]. split; [exact Hi|]. by split.
Defined.
End Demo.
