(* ===== verification/InitFacts.v ===== *)
(** * What [fcb init] sets up

    A new project: the key file and [fcb.yaml] on disk and the app on the server
    belong together, so that the commands run later in the directory find the
    server, the app and the key, and sign with the key whose public half the
    server was given.  No run in which metadata calls answer replaces a private
    key.  [fcb.yaml] keeps the name of the key file as text, so the name has to be
    UTF-8. *)
From S2P Require Import Prelude Text Floats External Bytecode BytecodeCheck BytecodeFacts Crypto Diff Manifest World State StateFacts StateProperties StateProgress Linker BuildInfo Config Flights Net ServerApi Runtime RuntimeProperties Delivery Resilience Shell AotEntryPoints Auto AutoFacts BuildFacts Inspect Cli Pipeline PatchFacts EndToEnd PublishFacts TrustFacts ReleaseFacts Chain CheckFacts.
Local Open Scope N_scope.

(** ** Texts split and joined at slashes *)
Lemma split_no_char c s : Forall (no_char c) (split c s).
Proof.
  induction s as [|a s IH]; [by repeat constructor|]. cbn [split]. destruct (decide (a = c)); [by constructor|].
  destruct (split c s) as [|w ws]; [by repeat constructor|].
  apply list.Forall_cons in IH as [Hw Hws]. by constructor.
Qed.
(** The first component is [~]. *)
Definition at_home (p : string) : Prop := head (split slash p) = Some "~"%string.
Lemma head_split c a s : a ≠ c → head (split c (String a s)) = String a <$> head (split c s).
Proof. intros Ha. cbn [split]. rewrite decide_False by done. pose proof (split_ne c s). by destruct (split c s). Qed.
Lemma at_home_iff p : at_home p ↔ p = "~"%string ∨ starts_with "~/" p = true.
Proof.
  unfold at_home. split.
  - destruct p as [|a p]; [done|]. destruct (decide (a = slash)) as [->|Ha]; [by cbn|].
    rewrite head_split by done. intros (w & Hw & Ht)%fmap_Some. injection Ht as <- <-.
    destruct p as [|b p]; [by left|right]. destruct (decide (b = slash)) as [->|Hb]; [apply prefix_empty|].
    rewrite head_split in Hw by done. by apply fmap_Some in Hw as (? & _ & ?).
  - intros [->|Hp]; [done|]. unfold starts_with in Hp.
    destruct p as [|a [|b p]]; [done..| |]; cbn [String.prefix] in Hp;
      (destruct (Ascii.ascii_dec _ _) as [<-|]; [|done]); [done|].
    destruct (Ascii.ascii_dec _ _) as [<-|]; [|done].
    assert (no_char slash "~") as Hn by by vm_compute. exact (f_equal head (split_sep slash "~" p Hn)).
Qed.
(** What [to_string_lossy] makes of other names does not begin like these. *)
Lemma lossy_bytes p : str_bytes (to_string_lossy p) = utf8_lossy (str_bytes p).
Proof. apply str_bytes_of. Qed.
Lemma lossy_tilde p : to_string_lossy p = "~"%string → p = "~"%string.
Proof.
  intros E%(f_equal str_bytes). rewrite lossy_bytes in E.
  apply utf8_lossy_ascii in E as (rest & E & Hr); [|done]. destruct rest as [|b rest].
  - by rewrite <- (str_of_str_bytes p), E.
  - exfalso. revert Hr. cbn [utf8_lossy]. repeat case_match; done.
Qed.
Lemma starts_home p : starts_with "~/" p = true ↔ ∃ l, str_bytes p = x7e :: x2f :: l.
Proof.
  unfold starts_with. split.
  - destruct p as [|a [|b p]]; cbn [String.prefix]; [done|by destruct (Ascii.ascii_dec _ _)|].
    do 2 (destruct (Ascii.ascii_dec _ _) as [<-|]; [|done]). by eexists.
  - intros [l E]. rewrite <- (str_of_str_bytes p), E. apply (prefix_empty (str_of_bytes l)).
Qed.
Lemma lossy_home p : starts_with "~/" (to_string_lossy p) = starts_with "~/" p.
Proof.
  apply eq_true_iff_eq. rewrite !starts_home. setoid_rewrite lossy_bytes. split; intros [l E].
  - apply utf8_lossy_ascii in E as (rest & E & Hr); [|done]. symmetry in Hr.
    apply utf8_lossy_ascii in Hr as (rest' & -> & _); [|done]. by exists rest'.
  - rewrite E. by eexists.
Qed.
Lemma expand_elsewhere env p : ¬ at_home p → expand_home env p = p.
Proof.
  intros Hp. unfold expand_home. cbv zeta.
  destruct (String.eqb_spec (to_string_lossy p) "~") as [E|_].
  { destruct Hp. apply at_home_iff. left. by apply lossy_tilde. }
  unfold strip_prefix. destruct (starts_with "~/" (to_string_lossy p)) eqn:E; [|done].
  destruct Hp. apply at_home_iff. right. by rewrite lossy_home in E.
Qed.
Lemma expand_homeless env p : env_var env "HOME" = None → expand_home env p = p.
Proof.
  intros Hh. unfold expand_home. cbv zeta. rewrite Hh. destruct (String.eqb _ "~"); [done|].
  by destruct (strip_prefix "~/" _).
Qed.
Lemma absolute_head p : is_absolute p = true → head (split slash p) = Some ""%string.
Proof.
  unfold is_absolute, starts_with. destruct p as [|a p]; [done|]. cbn [String.prefix].
  by destruct (Ascii.ascii_dec _ _) as [<-|].
Qed.
Lemma absolute_not_home p : is_absolute p = true → ¬ at_home p.
Proof. unfold at_home. intros Hp%absolute_head. by rewrite Hp. Qed.
Lemma join_absolute p s : is_absolute p = true → is_absolute (join_text p s) = true.
Proof.
  unfold is_absolute, join_text. intros Hp. destruct (starts_with "/" s) eqn:Hs; [done|].
  destruct p as [|a p]; [done|]. cbn [is_empty].
  assert (∀ t, starts_with "/" (String a p +:+ t) = true) as Ht.
  { intros t. unfold starts_with in *. change (String a p +:+ t) with (String a (p +:+ t)).
    cbn [String.prefix] in *. destruct (Ascii.ascii_dec _ _); [apply prefix_empty|done]. }
  change (is_empty (String a p)) with false. by destruct (ends_with "/" _).
Qed.

(** ** A path written to [fcb.yaml] *)
(** One step of [join_rel]. *)
Definition enter (acc : path) (c : string) : path :=
  if String.eqb c "" || String.eqb c "." then acc
  else if String.eqb c ".." then removelast acc else acc ++ [c].
Lemma drop_trivial_enters absolute segs acc :
  foldl enter acc (reverse (drop_trivial absolute (reverse segs))) = foldl enter acc segs.
Proof.
  induction segs as [|seg segs IH] using rev_ind; [done|]. rewrite reverse_app. cbn [reverse drop_trivial Datatypes.app].
  change (reverse [seg]) with [seg]. cbn [Datatypes.app drop_trivial].
  destruct (is_empty seg || _) eqn:E.
  - rewrite IH, foldl_app. cbn [foldl]. unfold enter at 2. unfold is_empty in E.
    destruct (String.eqb_spec seg "") as [->|]; [done|]. cbn [orb].
    rewrite bool_decide_eq_false_2 in E by done. cbn [orb] in E. apply andb_true_iff in E as [-> _]. done.
  - by rewrite reverse_cons, reverse_involutive.
Qed.
Lemma drop_trivial_head seg segs : seg ≠ ""%string →
  ∃ rest, reverse (drop_trivial false (reverse (seg :: segs))) = seg :: rest.
Proof.
  intros Hs. induction segs as [|x segs IH] using rev_ind.
  - exists []. change (reverse [seg]) with [seg]. cbn [drop_trivial]. unfold is_empty.
    rewrite bool_decide_eq_false_2 by done. by rewrite andb_false_r.
  - change (seg :: segs ++ [x]) with ((seg :: segs) ++ [x]). rewrite reverse_app.
    change (reverse [x]) with [x]. cbn [Datatypes.app drop_trivial]. destruct (_ || _); [done|].
    rewrite reverse_cons, reverse_involutive. by eexists.
Qed.
Lemma drop_trivial_all (P : string → Prop) absolute segs :
  Forall P segs → Forall P (reverse (drop_trivial absolute (reverse segs))).
Proof.
  intros Hs. apply list.Forall_reverse. apply list.Forall_reverse in Hs. revert Hs. generalize (reverse segs).
  induction l as [|x l IH]; [done|]. intros [Hx Hl]%list.Forall_cons. cbn [drop_trivial].
  destruct (_ || _); [by apply IH|by constructor].
Qed.
Lemma split_absolute p : is_absolute p = true → split slash p = ""%string :: segments p.
Proof.
  unfold is_absolute, segments, strip_prefix. intros Hp. rewrite Hp. unfold starts_with in Hp.
  destruct p as [|a p]; [done|]. cbn [String.prefix] in Hp. by destruct (Ascii.ascii_dec _ _) as [<-|].
Qed.
Lemma split_relative p : is_absolute p = false → segments p = split slash p.
Proof. unfold is_absolute, segments, strip_prefix. by intros ->. Qed.
(** The text kept of a path. *)
Definition kept (p : string) : string := as_path (is_absolute p) (reverse (segments p)).
(** A name that is text, UTF-8, is written as it is. *)
Definition is_text (p : string) : Prop := utf8_valid (str_bytes p) = true.
Lemma utf8_valid_cut a b : utf8_valid (a ++ x2f :: b) = true → utf8_valid a = true ∧ utf8_valid b = true.
Proof.
  remember (length a) as n eqn:Hn. revert a Hn. induction (lt_wf n) as [n _ IH]; intros a -> Hv.
  destruct a as [|w a]; [done|]. simpl in Hv |- *.
  destruct (in_range 0 127 w); [eapply IH; [|reflexivity|done]; simpl; lia|].
  destruct a as [|x a]; simpl in *.
  { exfalso. repeat case_match; rewrite ?andb_false_r in Hv; try done. }
  destruct (in_range 194 223 w).
  { apply andb_true_iff in Hv as [-> Hv]. cbn [andb]. eapply IH; [|reflexivity|done]; simpl; lia. }
  destruct a as [|y a]; simpl in *.
  { exfalso. repeat case_match; rewrite ?andb_false_r in Hv; try done. }
  destruct (in_range 224 239 w).
  { rewrite !andb_true_iff in Hv. destruct Hv as [[-> Hv] ->]. rewrite andb_true_r. cbn [andb].
    eapply IH; [|reflexivity|done]; simpl; lia. }
  destruct a as [|z a]; simpl in *.
  { exfalso. by rewrite ?andb_false_r in Hv. }
  rewrite !andb_true_iff in Hv. destruct Hv as [[[[-> ->] ->] Hv] ->]. rewrite andb_true_r. cbn [andb].
  eapply IH; [|reflexivity|done]; simpl; lia.
Qed.
Lemma join_split p : join "/" (split slash p) = p.
Proof.
  induction p as [|a p IH]; [done|]. cbn [split]. pose proof (split_ne slash p) as Hne.
  destruct (split slash p) as [|w ws]; [done|]. destruct (decide (a = slash)) as [->|_].
  - change (join "/" (""%string :: w :: ws)) with (String slash (join "/" (w :: ws))). by rewrite IH.
  - rewrite <- IH. by destruct ws.
Qed.
Lemma text_parts l : is_text (join "/" l) → Forall is_text l.
Proof.
  induction l as [|p [|q l] IH]; intros Hl; [constructor|by repeat constructor|].
  change (join "/" (p :: q :: l)) with (p +:+ "/" +:+ join "/" (q :: l)) in Hl. unfold is_text in Hl.
  rewrite !str_bytes_app in Hl. apply utf8_valid_cut in Hl as [Hp Hl]. constructor; [done|by apply IH].
Qed.
Lemma kept_text p : is_text p → is_text (kept p).
Proof.
  intros Hp. unfold kept, as_path. unfold is_text. rewrite str_bytes_app. apply utf8_valid_app; [by destruct (is_absolute p)|].
  apply utf8_join; [done|]. apply drop_trivial_all. unfold segments.
  assert (Forall is_text (split slash p)) as Hs by (apply text_parts; by rewrite join_split).
  destruct (is_absolute p) eqn:Ha.
  - rewrite split_absolute in Hs by done. by apply list.Forall_cons in Hs as [_ ?].
  - rewrite <- split_relative in Hs by done. exact Hs.
Qed.
Lemma path_for_context_kept p : is_text p → path_for_context "fcb.yaml" p = kept p.
Proof.
  intros Hp. unfold path_for_context. change (default "."%string (path_parent "fcb.yaml")) with ""%string.
  unfold path_strip_prefix. change (components "") with (@nil string).
  rewrite bool_decide_eq_true_2 by apply prefix_nil. rewrite bool_decide_eq_true_2 by done.
  by apply to_string_lossy_id, kept_text.
Qed.
Lemma split_kept_absolute p : is_absolute p = true →
  is_absolute (kept p) = true ∧ ∃ l, split slash (kept p) = ""%string :: l
    ∧ ∀ acc, foldl enter acc l = foldl enter acc (segments p).
Proof.
  intros Hp. unfold kept, as_path. rewrite Hp.
  set (l := reverse (drop_trivial true (reverse (segments p)))).
  assert (Forall (no_char slash) l) as Hl.
  { apply drop_trivial_all. unfold segments. apply split_no_char. }
  split; [by destruct (join "/" l)|]. exists (split slash (join "/" l)).
  split; [by apply (split_sep slash "")|]. intros acc.
  rewrite <- (drop_trivial_enters true (segments p)). fold l. clearbody l. destruct l as [|x l]; [reflexivity|]. by rewrite split_join.
Qed.
Lemma split_kept_relative p : is_absolute p = false → p ≠ ""%string →
  kept p ≠ ""%string ∧ is_absolute (kept p) = false ∧ head (split slash (kept p)) = head (split slash p)
  ∧ ∀ acc, foldl enter acc (split slash (kept p)) = foldl enter acc (split slash p).
Proof.
  intros Hp Hne. unfold kept, as_path. rewrite Hp, split_relative by done. pose proof (split_no_char slash p) as Hall.
  destruct (split slash p) as [|seg segs] eqn:Hs; [by apply split_ne in Hs|].
  assert (∃ a t, seg = String a t ∧ a ≠ slash) as (a & t & -> & Ha).
  { destruct p as [|a p]; [done|]. unfold is_absolute, starts_with in Hp. cbn [String.prefix split] in Hp, Hs.
    destruct (decide (a = slash)) as [->|Ha]; [by destruct p|].
    destruct (split slash p); injection Hs as <- _; eauto. }
  destruct (drop_trivial_head (String a t) segs) as [rest Hrest]; [done|].
  pose proof (drop_trivial_all _ false _ Hall) as Hl. rewrite Hrest in Hl.
  assert (split slash (join "/" (String a t :: rest)) = String a t :: rest) as Hj by by apply split_join.
  rewrite Hrest. change ("" +:+ ?s) with s. split; [by destruct rest|]. split; [|split].
  - assert (∀ u, is_absolute (String a u) = false) as Hrel.
    { intros u. unfold is_absolute, starts_with. cbn [String.prefix].
      destruct (Ascii.ascii_dec _ a) as [<-|]; [by destruct Ha|done]. }
    destruct rest; apply Hrel.
  - by rewrite Hj.
  - intros acc. rewrite Hj, <- Hrest. apply drop_trivial_enters.
Qed.
(** A later command finds the same file under the text that was kept. *)
Lemma kept_resolves env p : p ≠ ""%string →
  is_empty (kept p) = false ∧ resolve env (kept p) = resolve env p ∧ (at_home (kept p) ↔ at_home p).
Proof.
  intros Hne. unfold resolve, join_rel, at_home. fold enter. change (starts_with "/") with is_absolute.
  destruct (is_absolute p) eqn:Hp.
  - destruct (split_kept_absolute p Hp) as [Ha (l & Hl & Hw)]. rewrite Ha, Hl, (split_absolute p Hp).
    split; [by destruct (kept p)|]. split; [|done]. cbn [foldl]. apply Hw.
  - destruct (split_kept_relative p Hp Hne) as (Hk & Ha & Hh & Hw). rewrite Ha, Hh. split; [|split; [apply Hw|done]].
    by apply bool_decide_eq_false.
Qed.
(** [resolve_path], as [ResolvedContext::new] applies it for [fcb.yaml]. *)
Lemma resolve_path_here env p : resolve_path env "" p = expand_home env p.
Proof. unfold resolve_path, join_text. unfold is_absolute. by destruct (starts_with "/" (expand_home env p)). Qed.
(** The home directory is an absolute path, when it is known. *)
Definition home_ok (env : Environment) : Prop := ∀ home, env_var env "HOME" = Some home → is_absolute home = true.
Lemma expanded_elsewhere env p : home_ok env → env_var env "HOME" ≠ None → ¬ at_home (expand_home env p).
Proof.
  intros Hok Hh. destruct (env_var env "HOME") as [home|] eqn:E; [|done]. specialize (Hok _ E).
  destruct (decide (at_home p)) as [Hp|Hp]; [|by rewrite expand_elsewhere].
  apply absolute_not_home. unfold expand_home. rewrite E.
  cbv zeta. destruct (String.eqb_spec (to_string_lossy p) "~") as [_|Hne]; [done|].
  destruct (strip_prefix "~/" (to_string_lossy p)) as [rest|] eqn:Hs; [by apply join_absolute|].
  unfold strip_prefix in Hs. rewrite lossy_home in Hs. apply at_home_iff in Hp as [->|Hp]; [done|]. by rewrite Hp in Hs.
Qed.
(** The key file of a context, and the one a later command finds. *)
Lemma kept_key env p :
  home_ok env → let k := resolve_path env "" p in let k' := resolve_path env "" (kept k) in
  k ≠ ""%string → is_empty k' = false ∧ resolve env k' = resolve env k.
Proof.
  intros Hok k k' Hk. unfold k'. rewrite resolve_path_here. destruct (kept_resolves env k Hk) as (He & Hr & Hh).
  enough (expand_home env (kept k) = kept k) as -> by done.
  destruct (env_var env "HOME") eqn:E; [|by apply expand_homeless].
  apply expand_elsewhere. rewrite Hh. unfold k. rewrite resolve_path_here. apply expanded_elsewhere; [done|congruence].
Qed.

(** ** Keys *)
Section Init.
Context `{Base64, !Base64Laws, !Base64Text, Ed25519, Net, BodyText}.
Context `{SerdeYaml LocalAppContext, !SerdeYamlLaws LocalAppContext, ToValue CreateAppRequest}.
Variable env : Environment.

(** The file [p] holds the private key of [seed]. *)
Definition key_at (p : string) (seed : list byte) (s : Shell) : Prop := ∃ bs text,
  fs_of s !! resolve env p = Some (File bs) ∧ from_utf8 bs = Ok text ∧ private_key_seed text = Ok seed.
(** The random source gives the 32 bytes of a key. *)
Definition seeds_ok (s : Shell) : Prop := Forall (λ seed, length seed = 32%nat) (sh_seeds s).
Lemma generated_key seed :
  length seed = 32%nat →
  from_utf8 (str_bytes (b64_encode seed)) = Ok (b64_encode seed) ∧ private_key_seed (b64_encode seed) = Ok seed.
Proof.
  intros Hl. assert (Forall (λ b, graphic b = true) (str_bytes (b64_encode seed))) as Hg.
  { eapply Forall_impl; [apply b64_alphabet|]. intros b Hb. by destruct b. }
  split.
  - apply from_utf8_ok. split; [|done]. apply utf8_valid_ascii. eapply Forall_impl; [exact Hg|]. apply graphic_ascii.
  - rewrite <- (trim_graphic (b64_encode seed)) by done. by apply private_key_seed_reload.
Qed.
Lemma random_seed_ok s seed s' : seeds_ok s → random_seed s = (Ok seed, s') →
  length seed = 32%nat ∧ fs_of s' = fs_of s ∧ stat_of s' = stat_of s ∧ sh_machine s' = sh_machine s.
Proof.
  unfold random_seed, seeds_ok. intros Hs. destruct (sh_seeds s) as [|b l]; intros [= <- <-]; [done|].
  apply list.Forall_cons in Hs as [Hb _]. done.
Qed.
Lemma write_whole p bs s s' : write_bytes env p bs s = (Ok tt, s') → fs_of s' !! resolve env p = Some (File bs).
Proof.
  unfold write_bytes, at_path. destruct (is_empty p); [by intros (w & [=] & _)%io_inv|].
  intros (w & Hr & ->)%io_inv. apply io_bind_ok in Hr as ([] & w3 & Hc%fs_create_ok & Ha%fs_append_ok).
  unfold fs_of. cbn. by rewrite Ha, lookup_insert_eq, Hc, lookup_insert_eq.
Qed.
Lemma exists_of_file p bs s e s' :
  holds_bytes (resolve env p) bs s → path_exists env p s = (Ok e, s') → is_empty p = false → e = true.
Proof.
  intros [Hf Hst]. unfold path_exists. intros E He. rewrite He in E. apply io_inv in E as (w & E & _).
  unfold fs_exists, fs_of in *. rewrite stat_call_ok in E by done. rewrite Hf in E. injection E as <- _. cbn.
  by rewrite orb_true_r.
Qed.
Lemma public_key_ok p public s s' :
  seeds_ok s → public_key_of env p s = (Ok public, s') →
  ∃ seed, public = b64_encode (ed_public seed) ∧ key_at p seed s'.
Proof.
  intros Hs. unfold public_key_of. intros (e & s1 & E1 & Hr)%cli_bind_ok.
  assert (sh_seeds s1 = sh_seeds s) as Hs1.
  { unfold path_exists in E1. destruct (is_empty p); [by injection E1 as _ <-|]. by apply io_inv in E1 as (w & _ & ->). }
  destruct e.
  - apply cli_bind_ok in Hr as (text & s2 & E2 & [Hp ->]%cli_lift_ok). apply bind_ok in Hp as (seed & Hseed & [= <-]).
    exists seed. split; [done|]. unfold read_text, at_path in E2.
    destruct (is_empty p); [by apply io_inv in E2 as (w & [=] & _)|].
    apply io_inv in E2 as (w & (bs & w1 & [Hb Hfs]%fs_read_ok & [Ht ->]%io_lift_ok)%io_bind_ok & ->).
    exists bs, text. unfold fs_of. cbn. rewrite Hfs. split; [done|]. split; [|done]. by destruct (from_utf8 bs); simplify_eq/=.
  - apply cli_bind_ok in Hr as (seed & s2 & E2 & Hr). unfold seeds_ok in Hs. rewrite <- Hs1 in Hs.
    apply (random_seed_ok _ _ _ Hs) in E2 as (Hl & _). cbn [generate_keypair_b64] in Hr.
    apply cli_bind_ok in Hr as ([] & s3 & E3%write_whole & Hr). apply cli_bind_ok in Hr as ([] & s4 & E4 & [= <- <-]).
    destruct (generated_key seed Hl) as [Hu Hk]. exists seed. split; [done|].
    exists (str_bytes (b64_encode seed)), (b64_encode seed). split; [|done]. rewrite <- E3.
    eapply cli_keeps_run, E4. apply moves_permissions.
Qed.
(** *** Files that stay, whatever the outcome *)
Lemma file_stays_yaml q bs c p : q ≠ p → file_stays q bs (write_yaml c p).
Proof.
  intros Hq. unfold write_yaml. apply file_stays_bind.
  { destruct (parent p); [apply file_stays_create_dir|by intros w]. }
  intros _. apply file_stays_bind; [by intros w|]. intros text.
  by apply (file_stays_touches _ _ (λ q', q' = p)); [apply touches_write|].
Qed.
Lemma preserves_public_key p bs : preserves (holds_bytes (resolve env p) bs) (public_key_of env p).
Proof.
  destruct (is_empty p) eqn:He.
  - apply preserves_holds_bytes. unfold public_key_of, generate_keypair_b64.
    assert (∀ b, cli_keeps (resolve env p) (write_bytes env p b)) as Hw; [|moves_tac].
    intros b. unfold write_bytes, at_path. rewrite He. apply quiet_reads, touches_lift.
  - intros s Hs. destruct (public_key_of env p s) as [r s'] eqn:E. unfold public_key_of in E.
    apply cli_bind_inv in E as [(e & s1 & E1 & Hr)|(r1 & E1 & _)];
      pose proof (holds_bytes_run _ _ _ _ _ _ (moves_exists env p) E1 Hs) as Hs1; [|done].
    rewrite (exists_of_file _ _ _ _ _ Hs E1 He) in Hr. eapply preserves_run; [|exact Hs1|exact Hr].
    apply preserves_holds_bytes, moves_bind; [apply moves_read_text|intros; apply moves_lift].
Qed.
Lemma preserves_register q bs context id name channel public build :
  q ≠ resolve env (cx_config_path context) →
  preserves (holds_bytes q bs) (register_app env context id name channel public build).
Proof.
  intros Hq. unfold register_app. apply moves_bind; [apply moves_lift|]. intros client.
  apply moves_bind; [apply preserves_holds_bytes, cli_keeps_net, still_post|]. intros _.
  unfold at_path. destruct (is_empty _); [by apply preserves_file; intros w|]. by apply preserves_file, file_stays_yaml.
Qed.
Lemma register_app_ok context id name channel public build s s' :
  register_app env context id name channel public build s = (Ok tt, s') →
  ∃ client body text,
    authed_client env (cx_server context) (cx_token context) = Ok client
    ∧ to_value {| ca_id := id; ca_name := name; ca_channel := channel; ca_public_key := public;
                  ca_platforms := default_platforms |} = Ok body
    ∧ posted client "/v1/apps" body (sh_machine s')
    ∧ yaml_to_string {| app := name; server := cx_server context;
        key_file := path_for_context (cx_config_path context) (cx_key_file context); build := build |} = Ok text
    ∧ fs_of s' !! resolve env (cx_config_path context) = Some (File (str_bytes text)).
Proof.
  unfold register_app. intros (client & s1 & [Hc ->]%cli_lift_ok & Hr)%cli_bind_ok.
  apply cli_bind_ok in Hr as ([] & s2 & E2 & Hr). 
  assert (∃ body, to_value {| ca_id := id; ca_name := name; ca_channel := channel; ca_public_key := public;
                  ca_platforms := default_platforms |} = Ok body ∧ posted client "/v1/apps" body (sh_machine s2))
    as (body & Hb & Hp).
  { unfold net in E2. destruct (create_app _ _ (sh_machine s)) as [r m] eqn:E. injection E2 as -> <-. by eapply post_json_ok. }
  unfold at_path in Hr. destruct (is_empty (cx_config_path context)); [by apply io_inv in Hr as (w & [=] & _)|].
  apply io_inv in Hr as (w & Hr & ->). unfold write_yaml in Hr.
  apply io_bind_ok in Hr as ([] & w1 & _ & Hr). apply io_bind_ok in Hr as (text & w2 & [Ht%map_err_ok ->]%io_lift_ok & Hr).
  apply io_bind_ok in Hr as ([] & w3 & Hcr%fs_create_ok & Ha%fs_append_ok).
  exists client, body, text. do 2 (split; [done|]). split; [done|]. split; [done|].
  unfold fs_of. cbn. by rewrite Ha, lookup_insert_eq, Hcr, lookup_insert_eq.
Qed.

(** ** A new project *)
Lemma public_key_nonempty p public s s' : public_key_of env p s = (Ok public, s') → p ≠ ""%string.
Proof.
  intros Hr ->. unfold public_key_of in Hr. apply cli_bind_ok in Hr as (e & s1 & [= <- <-] & Hr).
  apply cli_bind_ok in Hr as (seed & s2 & _ & Hr). cbn [generate_keypair_b64] in Hr.
  by apply cli_bind_ok in Hr as ([] & s3 & (w & [=] & _)%io_inv & _).
Qed.
Lemma seeds_create_parent p s r s' : create_parent env p s = (r, s') → sh_seeds s' = sh_seeds s.
Proof.
  unfold create_parent, create_dirs. destruct (path_parent p) as [d|]; [|by intros [= _ <-]].
  destruct (is_empty d); [by intros [= _ <-]|]. by intros (w & _ & ->)%io_inv.
Qed.
(** The app the server is told of. *)
Definition registration (id name channel : string) (seed : list byte) : CreateAppRequest := {|
  ca_id := id; ca_name := name; ca_channel := channel; ca_public_key := b64_encode (ed_public seed);
  ca_platforms := default_platforms |}.
(** What the server and the directory have in common. *)
Definition founded (context : ResolvedContext) (id name channel : string) (build : LocalBuildConfig)
    (seed : list byte) (s' : Shell) : Prop :=
  (∃ client body, authed_client env (cx_server context) (cx_token context) = Ok client
     ∧ to_value (registration id name channel seed) = Ok body ∧ posted client "/v1/apps" body (sh_machine s'))
  ∧ key_at (cx_key_file context) seed s'
  ∧ ∃ text, yaml_to_string {| app := name; server := cx_server context;
        key_file := path_for_context (cx_config_path context) (cx_key_file context); build := build |} = Ok text
      ∧ fs_of s' !! resolve env (cx_config_path context) = Some (File (str_bytes text)).
Lemma key_registered context id name channel build seed s s' :
  resolve env (cx_key_file context) ≠ resolve env (cx_config_path context) →
  key_at (cx_key_file context) seed s → stat_of s = [] →
  register_app env context id name channel (b64_encode (ed_public seed)) build s = (Ok tt, s') →
  founded context id name channel build seed s'.
Proof.
  intros Hne (bs & text & Hf & Ht & Hk) Hst Hr. unfold founded.
  pose proof (preserves_run _ _ _ _ _ (preserves_register _ bs _ _ _ _ _ _ Hne) (conj Hf Hst) Hr) as [Hf' _].
  apply register_app_ok in Hr as (client & body & text' & Hc & Hb & Hp & Hy & Hfs).
  split; [by exists client, body|]. split; [by exists bs, text|by exists text'].
Qed.
(** Keys can be drawn and metadata be read. *)
Definition fresh (s : Shell) : Prop := seeds_ok s ∧ stat_of s = [].
Lemma fresh_path_exists p : preserves fresh (path_exists env p).
Proof.
  intros s [Hs Hst]. split; [|by eapply suffix_nil_of, Hst; apply (moves_exists (R:=same_file []) env p s)].
  unfold path_exists. destruct (is_empty p); [done|]. destruct (io _ s) as [r s'] eqn:E.
  by apply io_inv in E as (w & _ & ->).
Qed.
Lemma fresh_parent p : preserves fresh (create_parent env p).
Proof.
  intros s [Hs Hst]. split; [|by apply (moves_parent (R:=upholds (λ s, stat_of s = [])) env)].
  destruct (create_parent env p s) as [r s'] eqn:E. unfold seeds_ok. cbn [snd]. by rewrite (seeds_create_parent _ _ _ _ E).
Qed.
Lemma fresh_uuid : preserves fresh new_uuid.
Proof. intros s [Hs Hst]. unfold new_uuid. by destruct (sh_uuids s). Qed.
Lemma fresh_key context id name channel build public s s1 s2 s3 :
  resolve env (cx_key_file context) ≠ resolve env (cx_config_path context) → fresh s →
  public_key_of env (cx_key_file context) s = (Ok public, s1) →
  fs_of s2 = fs_of s1 → stat_of s2 `suffix_of` stat_of s1 →
  register_app env context id name channel public build s2 = (Ok tt, s3) →
  cx_key_file context ≠ ""%string ∧ ∃ seed, founded context id name channel build seed s3.
Proof.
  intros Hne [Hs Hst] E1 Hfs Hst2 E3. split; [by eapply public_key_nonempty|].
  apply (preserves_run (λ s, stat_of s = []) _ _ _ _ (moves_public_key env _ I) Hst) in E1 as Hst1.
  destruct (public_key_ok _ _ _ _ Hs E1) as (seed & -> & bs & text & Hf & Hk). exists seed.
  apply (suffix_nil_of _ _ Hst2) in Hst1. rewrite <- Hfs in Hf. eapply key_registered; [done|by exists bs, text|done|exact E3].
Qed.
Lemma founded_output context id name channel build seed s s' :
  founded context id name channel build seed s → sh_machine s' = sh_machine s →
  founded context id name channel build seed s'.
Proof. unfold founded, key_at, fs_of. by intros ? ->. Qed.
Lemma init_ok context name channel s s' :
  resolve env (cx_key_file context) ≠ resolve env (cx_config_path context) → fresh s →
  init env context name channel s = (Ok tt, s') →
  cx_key_file context ≠ ""%string ∧ ∃ id seed, founded context id name channel default_build seed s'.
Proof.
  intros Hne Hs. unfold init. intros (e & s1 & E1 & Hr)%cli_bind_ok. destruct e; [discriminate|].
  apply cli_bind_ok in Hr as ([] & s2 & E2 & Hr). apply cli_bind_ok in Hr as (id & s3 & E3 & Hr).
  apply cli_bind_ok in Hr as (public & s4 & E4 & Hr). apply cli_bind_ok in Hr as ([] & s5 & E5 & Hr).
  apply (preserves_run _ _ _ _ _ (fresh_path_exists _) Hs) in E1.
  apply (preserves_run _ _ _ _ _ (fresh_parent _) E1) in E2. apply (preserves_run _ _ _ _ _ fresh_uuid E2) in E3.
  destruct (fresh_key _ _ _ _ _ _ _ _ _ _ Hne E3 E4 eq_refl (reflexivity _) E5) as (Hk & seed & Hf).
  split; [done|]. exists id, seed. eapply founded_output; [exact Hf|]. by injection Hr as <-.
Qed.
Lemma app_add_ok context name given channel s s' :
  resolve env (cx_key_file context) ≠ resolve env (cx_config_path context) → fresh s →
  app_add env context name given channel s = (Ok tt, s') →
  cx_key_file context ≠ ""%string ∧ ∃ id seed, founded context id name channel (cx_build context) seed s'.
Proof.
  intros Hne Hs. unfold app_add. intros ([] & s2 & E2 & Hr)%cli_bind_ok.
  apply cli_bind_ok in Hr as (public & s3 & E3 & Hr). apply cli_bind_ok in Hr as (id & s4 & E4 & Hr).
  apply cli_bind_ok in Hr as ([] & s5 & E5 & Hr).
  apply (preserves_run _ _ _ _ _ (fresh_parent _) Hs) in E2.
  assert (sh_machine s4 = sh_machine s3) as Hm.
  { destruct given; [by injection E4 as _ <-|]. unfold new_uuid in E4. by destruct (sh_uuids s3); injection E4 as _ <-. }
  destruct (fresh_key context id name channel (cx_build context) public s2 s3 s4 s5 Hne E2 E3) as (Hk & seed & Hf);
    [by unfold fs_of; rewrite Hm|by unfold stat_of; rewrite Hm|exact E5|].
  split; [done|]. exists id, seed. eapply founded_output; [exact Hf|]. by injection Hr as <-.
Qed.

(** *** Neither replaces a key *)
Lemma preserves_app_add context name given channel bs :
  resolve env (cx_key_file context) ≠ resolve env (cx_config_path context) →
  preserves (holds_bytes (resolve env (cx_key_file context)) bs) (app_add env context name given channel).
Proof.
  intros Hne. unfold app_add. apply moves_bind; [apply (moves_parent env)|]. intros _.
  apply moves_bind; [apply preserves_public_key|]. intros public.
  apply moves_bind; [by destruct given; auto with fcb|]. intros id.
  apply moves_bind; [by apply preserves_register|]. intros _. moves_tac.
Qed.
(** A key in [fcb.yaml] itself makes [init] stop. *)
Lemma preserves_init context name channel bs :
  is_empty (cx_config_path context) = false →
  preserves (holds_bytes (resolve env (cx_key_file context)) bs) (init env context name channel).
Proof.
  intros He s Hs. unfold init. unfold mbind at 1, cli_bind at 1.
  pose proof (preserves_holds_bytes _ _ _ (moves_exists env (cx_config_path context)) s Hs) as Hs1.
  destruct (path_exists env (cx_config_path context) s) as [[e|e|m] s1] eqn:E; [|done..]. cbn [snd] in Hs1.
  destruct e; [done|].
  assert (resolve env (cx_key_file context) ≠ resolve env (cx_config_path context)) as Hne.
  { intros Heq. rewrite Heq in Hs. by pose proof (exists_of_file _ _ _ _ _ Hs E He). }
  revert Hs1. generalize s1.
  change (preserves (holds_bytes (resolve env (cx_key_file context)) bs)
    (_ ← create_parent env (cx_key_file context); app_id ← new_uuid; public_key ← public_key_of env (cx_key_file context);
     _ ← register_app env context app_id name channel public_key default_build;
     _ ← println ("APP_ID=" +:+ app_id); _ ← println ("app=" +:+ name); println ("private_key=" +:+ cx_key_file context))).
  apply moves_bind; [apply (moves_parent env)|]. intros _.
  apply moves_bind; [apply draws_uuid|]. intros id.
  apply moves_bind; [apply preserves_public_key|]. intros public.
  apply moves_bind; [by apply preserves_register|]. intros _. moves_tac.
Qed.

(** *** The commands run later *)
Lemma calm_fs_read_text p bs text w :
  w_faults w = [] → w_fs w !! p = Some (File bs) → from_utf8 bs = Ok text → fs_read_to_string p w = (Ok text, w).
Proof.
  intros Hfa Hf Ht. unfold fs_read_to_string. rewrite (io_bind_run _ _ _ _ _ (fs_read_hit _ _ _ Hfa Hf)).
  unfold io_lift. by rewrite Ht.
Qed.
Lemma load_private_key_calm p seed s :
  calm s → is_empty p = false → key_at p seed s → load_private_key env p s = (Ok (b64_encode seed), s).
Proof.
  intros [Hfa _] He (bs & text & Hf & Ht & Hk). unfold load_private_key.
  rewrite (cli_bind_run _ _ s text s).
  - unfold cli_lift, private_key_seed_b64. by rewrite Hk.
  - unfold read_text, at_path. rewrite He. by apply calm_io, (calm_fs_read_text _ bs).
Qed.
Lemma load_local_context_calm p c text s :
  calm s → is_empty p = false → yaml_to_string c = Ok text →
  fs_of s !! resolve env p = Some (File (str_bytes text)) →
  (valid_context c → load_local_context env p s = (Ok (Some c), s))
  ∧ (is_blank (app c) = true → load_local_context env p s = (Err (Message "fcb.yaml missing app"), s)).
Proof.
  intros [Hfa _] He Hy Hf.
  assert (io (at_path env read_yaml p) s = ((_ ← validate_context c; Ok c), s)) as Hr.
  { unfold at_path. rewrite He. assert (read_yaml (resolve env p) (m_world (sh_machine s))
      = ((_ ← validate_context c; Ok c), m_world (sh_machine s))) as Hr.
    { unfold read_yaml. rewrite (io_bind_run _ _ _ text (m_world (sh_machine s))).
      - unfold mbind, io_bind, io_lift. rewrite (yaml_roundtrip _ _ Hy). cbn.
        by destruct (validate_context c) as [[]| |].
      - eapply calm_fs_read_text; [done|exact Hf|]. apply from_utf8_ok. split; [by eapply yaml_utf8|done]. }
    unfold io, net, sys. rewrite Hr. by destruct s as [[]]. }
  unfold load_local_context, cli_try, mbind, cli_bind. split.
  - intros Hv%validate_context_ok. rewrite Hr, Hv. done.
  - intros Hb. rewrite Hr. unfold validate_context. rewrite Hb. done.
Qed.

(** Either command founds a project. *)
Lemma project_founded context name channel given s s' :
  fresh s → resolve env (cx_key_file context) ≠ resolve env (cx_config_path context) →
  init env context name channel s = (Ok tt, s') ∨ app_add env context name given channel s = (Ok tt, s') →
  cx_key_file context ≠ ""%string ∧ ∃ id seed build, (build = default_build ∨ build = cx_build context)
    ∧ founded context id name channel build seed s'.
Proof.
  intros Hs Hne [Hr|Hr]; [apply init_ok in Hr as (? & id & seed & ?)|apply app_add_ok in Hr as (? & id & seed & ?)];
    eauto 10.
Qed.
(** A later command finds the key where it was. *)
Lemma later_key args args' local name build :
  let context := new_context env args local "fcb.yaml" in
  let c := {| app := name; server := cx_server context;
       key_file := path_for_context "fcb.yaml" (cx_key_file context); build := build |} in
  let later := new_context env args' (Some c) "fcb.yaml" in
  home_ok env → is_text (cx_key_file context) → cx_key_file context ≠ ""%string → ar_key_file args' = None →
  is_empty (cx_key_file later) = false ∧ resolve env (cx_key_file later) = resolve env (cx_key_file context).
Proof.
  intros context c later Hhome Htext Hk Hak.
  assert (cx_key_file later = resolve_path env "" (kept (cx_key_file context))) as ->.
  { unfold later, new_context, c. rewrite Hak. cbn -[resolve_path path_parent path_for_context context].
    by rewrite path_for_context_kept by exact Htext. }
  by apply kept_key.
Qed.

(** C13: after a successful [fcb init] or [fcb app add] in which no metadata call
    fails, with a key file that is not [fcb.yaml] and has a name in UTF-8 (and HOME
    an absolute path when it is set), the server has been told of an app with the public half of the key in the key file,
    and [fcb.yaml] names the server, the app and that key file: a later command in
    the directory that is not told otherwise talks to this server about this app
    and signs with this key.  (A blank name is registered as well, and then no
    later command accepts [fcb.yaml].)  And while no metadata call fails, neither
    command ever replaces a private key, whatever else fails.  (Where the metadata
    of the key file cannot be read, both take it for absent and write a new key
    over it.) *)
Theorem init_founds_project args local name channel given s s' :
  let context := new_context env args local "fcb.yaml" in
  home_ok env → fresh s → is_text (cx_key_file context) →
  resolve env (cx_key_file context) ≠ resolve env "fcb.yaml" →
  init env context name channel s = (Ok tt, s') ∨ app_add env context name given channel s = (Ok tt, s') →
  (∃ id seed build, let c := {| app := name; server := cx_server context;
       key_file := path_for_context "fcb.yaml" (cx_key_file context); build := build |} in
    (build = default_build ∨ build = cx_build context)
    ∧ (∃ client body, authed_client env (cx_server context) (cx_token context) = Ok client
         ∧ to_value (registration id name channel seed) = Ok body ∧ posted client "/v1/apps" body (sh_machine s'))
    ∧ ∀ s2 args', calm s2 → fs_of s2 !! resolve env "fcb.yaml" = fs_of s' !! resolve env "fcb.yaml" →
        fs_of s2 !! resolve env (cx_key_file context) = fs_of s' !! resolve env (cx_key_file context) →
        ar_server args' = None → ar_app args' = None → ar_key_file args' = None →
        let later := new_context env args' (Some c) "fcb.yaml" in
        (valid_context c → load_local_context env "fcb.yaml" s2 = (Ok (Some c), s2))
        ∧ (is_blank name = true → load_local_context env "fcb.yaml" s2 = (Err (Message "fcb.yaml missing app"), s2))
        ∧ cx_server later = cx_server context ∧ cx_app later = Some name
        ∧ load_private_key env (cx_key_file later) s2 = (Ok (b64_encode seed), s2))
  ∧ ∀ bs s0, fs_of s0 !! resolve env (cx_key_file context) = Some (File bs) → stat_of s0 = [] →
      fs_of (init env context name channel s0).2 !! resolve env (cx_key_file context) = Some (File bs)
      ∧ fs_of (app_add env context name given channel s0).2 !! resolve env (cx_key_file context) = Some (File bs).
Proof.
  intros context Hhome Hs Htext Hne Hr. split.
  - destruct (project_founded context name channel given s s' Hs Hne Hr)
      as (Hk & id & seed & build & Hbuild & Hreg & (bs & text & Hf & Ht & Hseed) & yaml & Hy & Hyf).
    exists id, seed, build. intros c. split; [exact Hbuild|]. split; [exact Hreg|].
    intros s2 args' Hcalm Hc2 Hk2 Has Haa Hak later.
    destruct (load_local_context_calm "fcb.yaml" c yaml s2 Hcalm eq_refl Hy) as [Hv Hb]; [by rewrite Hc2|].
    split; [exact Hv|]. split; [exact Hb|].
    destruct (later_key args args' local name build Hhome Htext Hk Hak) as [He Hres].
    unfold later at 1 2, new_context. rewrite Has, Haa. do 2 (split; [done|]).
    apply load_private_key_calm; [exact Hcalm|exact He|]. exists bs, text. split; [|done].
    etrans; [|exact Hf]. etrans; [|exact Hk2]. exact (f_equal (λ q, fs_of s2 !! q) Hres).
  - intros bs s0 Hf Hst. split.
    + exact (proj1 (preserves_init context name channel bs eq_refl s0 (conj Hf Hst))).
    + exact (proj1 (preserves_app_add context name given channel bs Hne s0 (conj Hf Hst))).
Qed.
End Init.

(** ** Witness *)
Section Demo.
#[local] Existing Instances demo_base64 demo_base64_laws demo_base64_text demo_ed25519 demo_accepting demo_body_text.
#[local] Instance demo_app_value : ToValue CreateAppRequest := λ _, Ok Value.Null.
Definition demo_project : LocalAppContext := {|
  app := "demo"; server := "https://fcb.example"; key_file := ".fcb/private_key"; build := default_build |}.
(** A printer and parser of this context. *)
#[local] Instance demo_project_yaml : SerdeYaml LocalAppContext := {|
  yaml_to_string c := if decide (c = demo_project) then Ok "app: demo"%string else Err "unsupported"%string;
  yaml_from_str s := if String.eqb s "app: demo" then Ok demo_project else Err "unsupported"%string |}.
#[local] Instance demo_project_laws : SerdeYamlLaws LocalAppContext.
Proof. split; intros c s; cbn; destruct (decide (c = demo_project)); intros; simplify_eq; done. Qed.
Definition demo_init_args : Args := {|
  ar_server := Some "https://fcb.example"%string; ar_token := Some "t"%string; ar_app := None; ar_app_id := None;
  ar_key_file := None; i_understand_store_policy := false; command := Doctor |}.
Definition demo_later_args : Args := {|
  ar_server := None; ar_token := None; ar_app := None; ar_app_id := None;
  ar_key_file := None; i_understand_store_policy := false; command := Doctor |}.
Definition demo_empty_dir : Shell := shell_with {[ ["app"]%string := Dir ]}.
Definition demo_init_run : result unit * Shell :=
  init demo_env (new_context demo_env demo_init_args None "fcb.yaml") "demo" "stable" demo_empty_dir.
Lemma demo_init_result : demo_init_run.1 = Ok tt ∧ calm demo_init_run.2.
Proof. split; [|split]; vm_compute; reflexivity. Qed.
Lemma init_founds_project_witness : ∃ seed,
  load_local_context demo_env "fcb.yaml" demo_init_run.2 = (Ok (Some demo_project), demo_init_run.2)
  ∧ load_private_key demo_env (cx_key_file (new_context demo_env demo_later_args (Some demo_project) "fcb.yaml"))
      demo_init_run.2 = (Ok (b64_encode seed), demo_init_run.2).
Proof.
  pose proof demo_init_result as [Hr Hcalm].
  destruct (init_founds_project demo_env demo_init_args None "demo" "stable" None demo_empty_dir demo_init_run.2)
    as [(id & seed & build & Hbuild & _ & Hlater) _].
  - by intros home [=].
  - by split; [constructor|].
  - by vm_compute.
  - by vm_compute.
  - left. change (init _ _ _ _ _) with demo_init_run. by rewrite <- Hr, <- surjective_pairing.
  - assert (build = default_build) as -> by by destruct Hbuild.
    destruct (Hlater demo_init_run.2 demo_later_args Hcalm eq_refl eq_refl eq_refl eq_refl eq_refl)
      as (Hload & _ & _ & _ & Hkey).
    exists seed. split; [|exact Hkey]. apply Hload, validate_context_ok. vm_compute. reflexivity.
Defined.
End Demo.
