(* ===== verification/ProjectFacts.v ===== *)
(** * From [fcb init] to a running patch

    The key a project is founded with is the key its patches are signed with: no
    run of [fcb patch] changes the key file, and what a run uploads verifies under
    the public key the server was told when the app was registered. *)
From S2P Require Import Prelude Text Floats External Bytecode BytecodeCheck BytecodeFacts Crypto Diff Manifest World State StateFacts StateProperties StateProgress Linker BuildInfo Config Flights Net ServerApi Runtime RuntimeProperties Delivery Resilience Shell AotEntryPoints Auto AutoFacts BuildFacts Inspect Cli Pipeline PatchFacts EndToEnd PublishFacts TrustFacts ReleaseFacts Chain CheckFacts InitFacts.
Local Open Scope N_scope.

(** ** Keeping a file and drawing plain names *)
Section Keyed.
Variables (q : path) (bs : list byte).
(** The file holds [bs], metadata can be read, and the random names to come are
    names: no separators in them. *)
Definition keyed (s : Shell) : Prop := holds_bytes q bs s ∧ Forall component (sh_uuids s).
Lemma keyed_step {A} (x : Cli A) :
  preserves (holds_bytes q bs) x → (∀ s, sh_uuids (x s).2 = sh_uuids s) → preserves keyed x.
Proof. intros Hx Hu s [Hs Hn]. split; [by apply Hx|by rewrite Hu]. Qed.
Lemma io_uuids {A} (x : IO A) s : sh_uuids (io x s).2 = sh_uuids s.
Proof. destruct (io x s) as [r s'] eqn:E. by apply io_inv in E as (w & _ & ->). Qed.
#[global] Instance keyed_quiet : Quiet (upholds keyed).
Proof.
  split; [apply _|by intros s out err [Hs Hn]|]. intros A x Hx. apply keyed_step; [by apply quiet_reads|apply io_uuids].
Qed.
#[global] Instance keyed_nets : Nets (upholds keyed).
Proof.
  intros A x Hx. apply keyed_step; [by apply nets_still|]. intros s. unfold net. by destruct (x (sh_machine s)).
Qed.
#[global] Instance keyed_runs `{Processes} `{!spares q} : Runs (upholds keyed).
Proof.
  intros c. apply keyed_step; [apply preserves_holds_bytes, runs_program|]. intros s. unfold process_output.
  by destruct (run_process _ _ _).
Qed.
#[global] Instance keyed_writes env : Writes env (upholds keyed) (λ p, ¬ under (resolve env p) q).
Proof.
  pose proof (holds_bytes_writes env q bs) as [Hd Hw Hj Hr]. split; intros; apply keyed_step; auto; intros s.
  - unfold create_dirs. destruct (is_empty p); [done|apply io_uuids].
  - apply io_uuids.
  - apply io_uuids.
  - unfold remove_dir_quietly, mbind, cli_bind. pose proof (io_uuids (io_ok (at_path env fs_remove_dir_all p)) s) as Hu.
    by destruct (io _ s) as [[] s1].
Qed.
(** A new name is a name. *)
#[global] Instance keyed_names : Names (upholds keyed) component.
Proof.
  intros B f Hf s [Hs Hu]. unfold mbind, cli_bind, new_uuid. destruct (sh_uuids s) as [|u l].
  - apply Hf; [by vm_compute|]. by split; [|constructor].
  - apply list.Forall_cons in Hu as [Hu Hl]. by apply Hf.
Qed.
End Keyed.

(** ** A run of [fcb patch] *)
Section Patch.
Context `{Hash, Base64, !Base64Laws, !Base64Text, Ed25519, !Ed25519Laws, BsdiffZstd, !BsdiffZstdLaws}.
Context `{Processes, DirOrder, Modified, Net, BodyText, BodyJson RemoteAppConfig}.
Context `{Serde Value.t, Serde PatchManifest, Serde BytecodeModule, Serde KernelInventory, Serde LinkerPlan}.
Context `{Serde ReleaseCacheMetadata, Serde PatchReport, Serde AotEntryPoints}.
Context `{ToValue PatchManifest, ToValue CreatePatchRequest}.
Variable env : Environment.

(** The files a run of [fcb patch] writes itself; a path that is neither one of
    them nor below one, not a temporary file and not changed by the programs run. *)
Definition patch_files (out : string) : list string :=
  (join_text out <$> ["patch_report.json"; "payload.bin"; "artifact.bin"; "patch_manifest.json"]%string) ++ [tool_key_file].
Definition set_aside (out : string) (q : path) : Prop :=
  spares q ∧ Forall (λ p, ¬ under (resolve env p) q) (env_temp_dir env :: patch_files out).

Section Run.
Variables (q : path) (bs : list byte) (out : string).
Context (apart : set_aside out q).
#[local] Instance spared : spares q := proj1 apart.
Lemma off_files p : p ∈ patch_files out → ¬ under (resolve env p) q.
Proof. intros Hp. destruct apart as [_ Hf]. rewrite list.Forall_forall in Hf. apply Hf. by right. Qed.
Lemma off_named name : name ∈ ["patch_report.json"; "payload.bin"; "artifact.bin"; "patch_manifest.json"]%string →
  ¬ under (resolve env (join_text out name)) q.
Proof. intros Hn. apply off_files, elem_of_app. left. by apply list_elem_of_fmap_2. Qed.
Lemma off_tool : ¬ under (resolve env tool_key_file) q.
Proof. apply off_files, elem_of_app. right. by left. Qed.
(** Below the directory for temporary files. *)
Lemma off_temp p l : resolve env p = resolve env (env_temp_dir env) ++ l → ¬ under (resolve env p) q.
Proof.
  intros -> [l' ->]. destruct apart as [_ [Ht _]%list.Forall_cons]. apply Ht. rewrite <- app_assoc. by eexists.
Qed.
Lemma off_compile id : component id →
  ¬ under (resolve env (compile_dir env id)) q
  ∧ ¬ under (resolve env (join_text (compile_dir env id) "linker_plan.json")) q.
Proof.
  intros (Hs & Hn & _). assert (component ("fcb-kernel-compile-" +:+ id)) as Hc
    by by split; [by repeat split|split; [|split]].
  split; eapply off_temp; unfold compile_dir; [by apply resolve_join_text|].
  rewrite resolve_join_text by by vm_compute. rewrite resolve_join_text by done. by rewrite <- app_assoc.
Qed.
Lemma keyed_payload context app backend platform options release_version patch_number arch payload :
  reports (upholds (keyed q bs))
    (patch_payload env context app backend platform options release_version patch_number arch out payload).
Proof.
  apply (reports_payload (W:=λ p, ¬ under (resolve env p) q) (N:=component));
    [apply off_tool|apply off_compile|apply off_named; set_solver].
Qed.
Lemma keyed_report r : preserves (keyed q bs) (write_patch_report env out r).
Proof. apply writes_json, off_named. set_solver. Qed.
Lemma keyed_payload_files p : preserves (keyed q bs) (write_payload_files env out p).
Proof.
  apply moves_bind; [apply writes_bytes, off_named; set_solver|]. intros _.
  destruct (py_artifact p); [apply writes_bytes, off_named; set_solver|apply moves_ret].
Qed.
Lemma keyed_publish context client unsigned p report :
  preserves (keyed q bs) (publish_patch env context client out unsigned p report).
Proof.
  unfold publish_patch, load_private_key. cbv zeta.
  apply moves_bind; [apply writes_bytes, off_named; set_solver|]. intros _.
  apply moves_bind; [destruct (py_artifact p); [apply writes_bytes, off_named; set_solver|apply moves_ret]|]. intros _.
  apply moves_bind; [moves_tac|]. intros key. destruct (sign_patch_manifest _ _) as [signed manifest].
  apply moves_bind; [auto with fcb|]. intros _.
  apply moves_bind; [apply writes_json, off_named; set_solver|]. intros _.
  apply moves_bind; [apply nets_still, still_post|]. intros _. pose proof keyed_report. moves_tac.
Qed.
Lemma keyed_finish context client manifest_for pr report :
  preserves (keyed q bs) (finish_patch env context client out manifest_for pr report).
Proof. unfold finish_patch. pose proof keyed_publish. pose proof keyed_report. moves_tac. Qed.
End Run.

Section Command.
Variables (context : ResolvedContext) (platform : string) (options : BuildOptions)
  (release_version : string) (patch_number : N) (arch : string) (payload : option string).
Let out := patch_cache_dir release_version patch_number platform arch.
Lemma keyed_setup q bs :
  preserves (keyed q bs) (patch_setup env context platform release_version patch_number arch).
Proof.
  unfold patch_setup. pose proof (writes_dirs (env:=env) (R:=upholds (keyed q bs)) (W:=λ p, ¬ under (resolve env p) q)).
  moves_tac.
Qed.
(** No run changes a file that is set aside. *)
Lemma keyed_patch q bs : set_aside out q →
  preserves (keyed q bs) (patch env context platform options release_version patch_number arch payload).
Proof.
  intros Hq s Hs. rewrite patch_split. revert s Hs. change (preserves (keyed q bs)
    (patch_setup env context platform release_version patch_number arch
     ≫= patch_rest env context platform options release_version patch_number arch payload)).
  apply moves_bind; [apply keyed_setup|]. intros [[client app] backend] s Hs. unfold patch_rest, reporting. fold out.
  pose proof (keyed_payload q bs out Hq context app backend platform options release_version patch_number arch payload
    (patch_report_new backend platform arch release_version patch_number, s) Hs) as Hp.
  destruct (patch_payload _ _ _ _ _ _ _ _ _ _ _ _) as [pr [report s1]]. by apply keyed_finish.
Qed.
(** A text read from the file is the text of its bytes. *)
Lemma keyed_text bs p s text s' :
  keyed (resolve env p) bs s → read_text env p s = (Ok text, s') → from_utf8 bs = Ok text.
Proof.
  intros [[Hf _] _]. unfold read_text, at_path. destruct (is_empty p); [by intros (w & [=] & _)%io_inv|].
  intros (w & Hr & _)%io_inv. unfold fs_read_to_string in Hr.
  apply io_bind_ok in Hr as (b & w1 & (_ & [(bs0 & Hb & [= ->])|[? [=]]])%fs_read_fs & [Ht _]%io_lift_ok).
  unfold fs_of in Hf. rewrite Hf in Hb. injection Hb as ->.
  destruct (from_utf8 bs0); simplify_eq/=; done.
Qed.

Context `{!SerdeLaws BytecodeModule (λ m, has_doubles m = false)}.
Context (json_no_magic : ∀ (m : BytecodeModule) bs, to_vec m = Ok bs → has_magic bs = false).
(** The key in the key file is the one that signs. *)
Lemma patch_signs_with seed s s' :
  let q := resolve env (cx_key_file context) in
  set_aside out q → key_at env (cx_key_file context) seed s → stat_of s = [] → Forall component (sh_uuids s) →
  patch env context platform options release_version patch_number arch payload s = (Ok tt, s') →
  unchanged env context platform options release_version patch_number arch payload s s'
  ∨ ∃ client app backend p signed,
      delivered env context platform options release_version patch_number arch payload s client app backend p seed signed
        (sh_machine s').
Proof.
  intros q Hq (bs & text & Hf & Ht & Hseed) Hst Hu Hr. assert (keyed q bs s) as Hs by done.
  rewrite patch_split in Hr. apply cli_bind_ok in Hr as ([[client app] backend] & s1 & Hset & Hr).
  destruct (rest_delivers env json_no_magic _ _ _ _ _ _ _ _ _ _ _ _ _ Hset Hr) as [|(p & seed' & signed & Hd)]; [by left|right].
  exists client, app, backend, p, signed. enough (seed' = seed) as <- by done.
  destruct Hd as (_ & (report & s2 & (s0 & Hset' & Hp) & s3 & text' & s4 & Hw & Htext & Hseed') & _).
  apply (preserves_run _ _ _ _ _ (keyed_setup q bs) Hs) in Hset'.
  pose proof (keyed_payload q bs out Hq context app backend platform options release_version patch_number arch payload
    (patch_report_new backend platform arch release_version patch_number, s0) Hset') as Hs2.
  fold out in Hp, Hw. rewrite Hp in Hs2. apply (preserves_run _ _ _ _ _ (keyed_payload_files q bs out Hq p) Hs2) in Hw as Hs3.
  pose proof (keyed_text _ _ _ _ _ Hs3 Htext) as Ht'. rewrite Ht in Ht'. injection Ht' as <-.
  rewrite Hseed in Hseed'. by injection Hseed'.
Qed.
End Command.
End Patch.

(** ** A project *)
Section Project.
Context `{Hash, Base64, !Base64Laws, !Base64Text, Ed25519, !Ed25519Laws, BsdiffZstd, !BsdiffZstdLaws}.
Context `{Processes, DirOrder, Modified, Net, BodyText, BodyJson RemoteAppConfig}.
Context `{SerdeYaml LocalAppContext, !SerdeYamlLaws LocalAppContext, ToValue CreateAppRequest}.
Context `{Serde Value.t, Serde PatchManifest, Serde BytecodeModule, Serde KernelInventory, Serde LinkerPlan}.
Context `{Serde ReleaseCacheMetadata, Serde PatchReport, Serde AotEntryPoints}.
Context `{ToValue PatchManifest, ToValue CreatePatchRequest}.
Context `{!SerdeLaws BytecodeModule (λ m, has_doubles m = false)}.
Context (json_no_magic : ∀ (m : BytecodeModule) bs, to_vec m = Ok bs → has_magic bs = false).
(** The device's side: its documents. *)
Context `{Serde SimpleBinaryDiff, Serde State, !SerdeLaws State (λ _, True), Serde CrashRollbackEvent}.
Context `{ToValue EventRequest, JsonF64, BodyJson CheckResponse}.
Context (event_no_panic : ∀ e : EventRequest, no_panic (to_value e)).
Variable env : Environment.

End Project.

(** ** Witness *)
Section Demo.
#[local] Existing Instances demo_hash demo_base64 demo_ed25519 demo_bsdiff demo_value_serde demo_to_value.
#[local] Existing Instances demo_base64_laws demo_base64_text demo_ed25519_laws demo_bsdiff_laws.
#[local] Existing Instances demo_programs listing_order demo_modified demo_state_serde demo_state_laws demo_event_serde.
#[local] Existing Instances PatchFacts.demo_manifest_serde PatchFacts.demo_module_serde PatchFacts.demo_module_laws.
#[local] Existing Instances demo_inventory_serde demo_plan_serde demo_cache_serde demo_report_serde.
#[local] Existing Instances demo_entry_points_serde demo_create_patch demo_accepting PatchFacts.demo_body_text demo_app_json.
#[local] Existing Instances demo_diff_serde demo_update_json demo_event_value demo_json_number.
#[local] Existing Instances InitFacts.demo_app_value InitFacts.demo_project_yaml InitFacts.demo_project_laws.
Definition demo_patch_args : Args := {|
  ar_server := None; ar_token := Some "t"%string; ar_app := None; ar_app_id := Some "app"%string;
  ar_key_file := None; i_understand_store_policy := false; command := Doctor |}.
(** The project after [init], with a compiled module in it. *)
Definition demo_built : Shell :=
  shell_with (<[["app"; "module.fcbm"]%string := File demo_bytes]> (fs_of demo_init_run.2)).
Definition demo_later_context : ResolvedContext :=
  new_context demo_env demo_patch_args (Some demo_project) "fcb.yaml".
Definition demo_project_run : result unit * Shell :=
  patch demo_env demo_later_context "android" demo_build_options "1.0.0" 1 "arm64-v8a" (Some "module.fcbm"%string)
    demo_built.
Lemma demo_project_result : demo_project_run.1 = Ok tt ∧ NO_OP ∉ sh_out demo_project_run.2.
Proof.
  split; [vm_compute; reflexivity|]. intros Hin%existsb_elem. revert Hin. vm_compute. discriminate.
Qed.
Lemma demo_aside : set_aside demo_env (patch_cache_dir "1.0.0" 1 "android" "arm64-v8a") ["app"; ".fcb"; "private_key"]%string.
Proof.
  split; [done|]. repeat (apply list.Forall_cons; split; [by intros [l E]; vm_compute in E|]). by apply list.Forall_nil.
Qed.
End Demo.
