(* ===== verification/MainFacts.v ===== *)
(** * What a run of [fcb] sends

    The command line as a whole: which requests each command may send, in which
    order and how often, and what its exit code says about them. *)
From S2P Require Import Prelude Text Floats External Bytecode BytecodeCheck BytecodeFacts Crypto Diff Manifest World State StateFacts StateProperties StateProgress Linker BuildInfo Config Flights Net ServerApi Runtime RuntimeProperties Delivery Resilience Shell AotEntryPoints Auto AutoFacts BuildFacts Inspect Cli Pipeline PatchFacts EndToEnd PublishFacts TrustFacts ReleaseFacts Chain CheckFacts InitFacts.
Local Open Scope N_scope.

(** ** Lookups, then one request up to five times *)
Section Once.
Context `{Net}.
(** Whatever the outcome, [x] sends lookups and then nothing, or one request [W]
    allows, one to five times; it succeeds when the last of them was accepted, or
    without a request in a way [Q] allows. *)
Definition once_outcome (W : Request → Prop) (Q : Shell → Prop) (s : Shell) (r : result unit) (s' : Shell) : Prop :=
  ∃ gets posts, m_log (sh_machine s') = m_log (sh_machine s) ++ gets ++ posts ∧ Forall is_get gets
    ∧ (posts = [] ∧ (r = Ok tt → Q s')
       ∨ ∃ rq, W rq ∧ tries rq posts ∧ (r = Ok tt → accepted rq s')).
Definition sends_once (W : Request → Prop) (Q : Shell → Prop) (x : Cli unit) : Prop := ∀ s,
  once_outcome W Q s (x s).1 (x s).2.
Context (W : Request → Prop).
Lemma once_gets Q x : cli_sends is_get x → (∀ s s', x s = (Ok tt, s') → Q s') → sends_once W Q x.
Proof.
  intros Hx HQ s. destruct (Hx s) as (gets & E & Hg). exists gets, []. rewrite app_nil_r. split; [done|].
  split; [done|]. left. split; [done|]. intros Hr. apply (HQ s). by rewrite <- Hr, <- surjective_pairing.
Qed.
Lemma once_bind {A} Q (x : Cli A) (f : A → Cli unit) :
  cli_sends is_get x → (∀ a, sends_once W Q (f a)) → sends_once W Q (x ≫= f).
Proof.
  intros Hx Hf s. destruct (Hx s) as (gets & E & Hg). unfold mbind, cli_bind.
  destruct (x s) as [[a|e|m] s1]; cbn [snd] in E.
  2-3: exists gets, []; rewrite app_nil_r; do 2 (split; [done|]); by left.
  destruct (Hf a s1) as (gets' & posts & E' & Hg' & Ho). exists (gets ++ gets'), posts.
  split; [by rewrite E', E, <- !app_assoc|]. split; [by apply Forall_app|done].
Qed.
Lemma once_lift {A} Q (r : result A) (f : A → Cli unit) :
  (∀ a, r = Ok a → sends_once W Q (f a)) → sends_once W Q (cli_lift r ≫= f).
Proof.
  intros Hf. destruct r as [a|e|m]; [by intros s; apply Hf|..];
    intros s; exists [], []; rewrite !app_nil_r; do 2 (split; [done|]); by left.
Qed.
Lemma once_err Q m : sends_once W Q (cli_err m).
Proof. apply once_gets; [apply moves_err|]. intros s s' [=]. Qed.
(** What follows sends nothing. *)
Lemma once_then (x y : Cli unit) :
  sends_once W (λ _, False) x → cli_sends (λ _, False) y → sends_once W (λ _, False) (_ ← x; y).
Proof.
  intros Hx Hy s. specialize (Hx s). unfold mbind, cli_bind. destruct (x s) as [[[]|e|m] s1] eqn:E; [|done..].
  destruct Hx as (gets & posts & El & Hg & Ho). destruct (y s1) as [r s'] eqn:Ey. pose proof (silent_log _ _ _ _ Hy Ey) as Hl.
  exists gets, posts. cbn [fst snd]. rewrite Hl. do 2 (split; [done|]).
  destruct Ho as [[_ []]|(rq & Hw & Ht & Ha)]; [done|]. right. exists rq. do 2 (split; [done|]). intros _.
  destruct (Ha eq_refl) as (earlier & resp & ? & ?). exists earlier, resp. by rewrite Hl.
Qed.
Lemma once_weaken (V : Request → Prop) (Q R : Shell → Prop) x :
  (∀ rq, V rq → W rq) → (∀ s, Q s → R s) → sends_once V Q x → sends_once W R x.
Proof.
  intros HV HQ Hx s. destruct (Hx s) as (gets & posts & E & Hg & Ho). exists gets, posts. do 2 (split; [done|]).
  destruct Ho as [[Hp Hq]|(rq & Hw & Ht & Ha)]; [left; split; auto|right; exists rq; auto].
Qed.
(** What follows may be allowed more, or less, than another allows. *)
Lemma once_outcome_weaken (V : Request → Prop) (Q R : Shell → Prop) s r s' :
  (∀ rq, V rq → W rq) → (∀ s, Q s → R s) → once_outcome V Q s r s' → once_outcome W R s r s'.
Proof.
  intros HV HQ (gets & posts & E & Hg & Ho). exists gets, posts. do 2 (split; [done|]).
  destruct Ho as [[Hp Hq]|(rq & Hw & Ht & Ha)]; [left; split; auto|right; exists rq; auto].
Qed.
End Once.

(** A POST with the client's authorization. *)
Definition post_request (client : Client) (endpoint : string) (body : Value.t) : Request := {|
  rq_method := "POST"; rq_url := base_url client +:+ endpoint; rq_headers := authorization client;
  rq_query := []; rq_body := Some body |}.
Lemma once_post `{Net, BodyText, ToValue A} client endpoint (v : A) :
  sends_once (λ rq, ∃ body, to_value v = Ok body ∧ rq = post_request client endpoint body) (λ _, False)
    (net (post_json client endpoint v)).
Proof.
  intros s. destruct (net _ s) as [r s'] eqn:E. cbn [fst snd].
  apply post_json_sends in E as [[Hr Hl]|(body & retries & Hb & Ht & Hl & Ha)].
  - exists [], []. rewrite !app_nil_r. do 2 (split; [done|]). left. by split.
  - exists [], retries. split; [done|]. split; [done|]. right. eexists. split; [by exists body|]. by split.
Qed.

(** ** The commands *)
Section Commands.
Context `{Hash, Base64, !Base64Laws, !Base64Text, Ed25519, !Ed25519Laws, BsdiffZstd, Processes, DirOrder, Modified, Net, BodyText}.
Context `{BodyJson RemoteAppConfig, BodyJson CheckResponse, SerdeYaml LocalAppContext}.
Context `{Serde Value.t, Serde PatchManifest, Serde ReleaseManifest, Serde SimpleBinaryDiff}.
Context `{Serde BytecodeModule, Serde State, Serde CrashRollbackEvent, Serde CheckResponse}.
Context `{Serde KernelInventory, Serde LinkerPlan, Serde (list SizeEntry), Serde BuildInfo}.
Context `{Serde ReleaseCacheMetadata, Serde PatchReport, Serde AotEntryPoints}.
Context `{ToValue PatchManifest, ToValue CreateAppRequest, ToValue ReleaseManifest}.
Context `{ToValue CreatePatchRequest, ToValue PromotePatchRequest}.
Context `{ToValue PatchReport, FromValue PatchReport, FromValue BytecodeModule, FromValue PatchManifest}.
Context `{JsonF64}.
Variable env : Environment.

(** *** Commands that only look *)
Lemma cli_sends_get_app client id : cli_sends is_get (net (get_app client id)).
Proof. apply cli_sends_net, act_sends_get_app. Qed.
Lemma cli_sends_download dir url : cli_sends is_get (net (download_bytes dir url)).
Proof. by apply cli_sends_net, act_sends_download_bytes. Qed.
Lemma cli_sends_check client request : cli_sends is_get (net (ServerApi.check client request)).
Proof.
  apply cli_sends_net. eapply act_sends_weaken; [|apply act_sends_retry_loop]. by intros rq ->.
Qed.
#[local] Hint Resolve cli_sends_get_app cli_sends_download cli_sends_check : fcb.
Lemma cli_sends_pin P cache server id key : cli_sends P (ensure_pinned_public_key env cache server id key).
Proof. unfold ensure_pinned_public_key, read_text. cbv zeta. moves_tac. Qed.
#[local] Hint Resolve cli_sends_pin : fcb.
Lemma cli_sends_install context mp pp cache : cli_sends is_get (install env context mp pp cache).
Proof. unfold install, release_artifact_path. cbv zeta. moves_tac. Qed.
#[local] Hint Resolve cli_sends_install : fcb.
Lemma cli_sends_check_command context v platform arch ch n id i cache :
  cli_sends is_get (check env context v platform arch ch n id i cache).
Proof.
  unfold check, Cli.download_and_install, Cli.download_patch_files. cbv zeta. moves_tac.
Qed.
Lemma cli_sends_inspect P kind p : cli_sends P (inspect env kind p).
Proof. unfold inspect, inspect_patch, print_json. moves_tac. Qed.
Lemma cli_sends_local_context P p : cli_sends P (load_local_context env p).
Proof. unfold load_local_context. moves_tac. Qed.

(** *** Commands that write *)
Definition authed_post (context : ResolvedContext) (endpoint : string) (body : Value.t) (rq : Request) : Prop :=
  ∃ client, authed_client env (cx_server context) (cx_token context) = Ok client
    ∧ rq = post_request client endpoint body.
Lemma cli_sends_public_key P p : cli_sends P (public_key_of env p).
Proof. by apply (moves_public_key env). Qed.
Lemma cli_sends_parent P p : cli_sends P (create_parent env p).
Proof. apply (moves_parent env). Qed.
#[local] Hint Resolve cli_sends_public_key cli_sends_parent : fcb.
Lemma register_once context id name channel public build :
  sends_once (λ rq, ∃ body, to_value {| ca_id := id; ca_name := name; ca_channel := channel;
      ca_public_key := public; ca_platforms := default_platforms |} = Ok body
    ∧ authed_post context "/v1/apps" body rq) (λ _, False)
    (register_app env context id name channel public build).
Proof.
  unfold register_app. apply once_lift. intros client Hc. apply once_then; [|auto with fcb].
  eapply once_weaken; [| |apply once_post]; [|done]. intros rq (body & Hb & ->). exists body. split; [done|].
  by exists client.
Qed.

(** The app the command finds from the shell [s]. *)
Definition the_app (context : ResolvedContext) (s : Shell) (app : RemoteAppConfig) : Prop :=
  ∃ client s1, authed_client env (cx_server context) (cx_token context) = Ok client
    ∧ resolve_app client context s = (Ok app, s1).
(** What a command run from [s] asks of the server. *)
Definition asks (context : ResolvedContext) (s : Shell) (command : Subcommand) (endpoint : string) (body : Value.t) :
    Prop :=
  match command with
  | Init name channel =>
    endpoint = "/v1/apps"%string ∧ ∃ id public,
      to_value {| ca_id := id; ca_name := name; ca_channel := channel; ca_public_key := public;
                  ca_platforms := default_platforms |} = Ok body
  | AppAdd name given channel =>
    endpoint = "/v1/apps"%string ∧ ∃ id public, (∀ i, given = Some i → id = i)
      ∧ to_value {| ca_id := id; ca_name := name; ca_channel := channel; ca_public_key := public;
                    ca_platforms := default_platforms |} = Ok body
  | Release platform _ _ release_version arch =>
    endpoint = "/v1/releases"%string ∧ ∃ app m, the_app context s app ∧ rm_app_id m = ra_id app
      ∧ rm_release_version m = release_version ∧ rm_platform m = platform ∧ rm_arch m = arch ∧ to_value m = Ok body
  | Patch platform _ release_version n arch _ =>
    endpoint = "/v1/patches"%string ∧ ∃ app m bytes, the_app context s app ∧ app_id m = ra_id app
      ∧ patch_number m = n ∧ Manifest.release_version m = release_version
      ∧ Manifest.platform m = platform ∧ Manifest.arch m = arch
      ∧ to_value {| cp_manifest := m; payload_b64 := b64_encode bytes |} = Ok body
  | Promote release_version n platform arch channel rollout =>
    endpoint = "/v1/patches/promote"%string ∧ ∃ app, the_app context s app ∧
      to_value {| pp_app_id := ra_id app; pp_release_version := release_version; pp_platform := platform;
                  pp_arch := arch; pp_patch_number := n; pp_channel := channel; pp_rollout_percentage := rollout |}
      = Ok body
  | Rollback release_version n platform arch =>
    endpoint = "/v1/patches/rollback"%string ∧ ∃ app, the_app context s app ∧
      to_value {| pp_app_id := ra_id app; pp_release_version := release_version; pp_platform := platform;
                  pp_arch := arch; pp_patch_number := n; pp_channel := ""; pp_rollout_percentage := 0 |} = Ok body
  | _ => False
  end.
(** How a command may succeed without asking. *)
Definition content_without (command : Subcommand) (s' : Shell) : Prop :=
  match command with
  | Init _ _ | AppAdd _ _ _ | Release _ _ _ _ _ | Promote _ _ _ _ _ _ | Rollback _ _ _ _ => False
  | Patch _ _ _ _ _ _ => NO_OP ∈ sh_out s'
  | _ => True
  end.
Definition allowed (context : ResolvedContext) (s : Shell) (command : Subcommand) (rq : Request) : Prop :=
  ∃ endpoint body, asks context s command endpoint body ∧ authed_post context endpoint body rq.
(** A run of the command from any shell. *)
Definition command_once (context : ResolvedContext) (command : Subcommand) (Q : Shell → Prop) (x : Cli unit) : Prop :=
  ∀ s, once_outcome (allowed context s command) Q s (x s).1 (x s).2.
Lemma command_fixed context command Q x :
  (∀ s, sends_once (allowed context s command) Q x) → command_once context command Q x.
Proof. intros Hx s. apply Hx. Qed.

Lemma init_once context name channel : command_once context (Init name channel) (λ _, False) (init env context name channel).
Proof.
  apply command_fixed. intros s. unfold init. apply once_bind; [auto with fcb|]. intros []; [apply once_err|].
  apply once_bind; [auto with fcb|]. intros _. apply once_bind; [auto with fcb|]. intros id.
  apply once_bind; [auto with fcb|]. intros public. apply once_then; [|moves_tac].
  eapply once_weaken; [| |apply register_once]; [|done]. intros rq (body & Hb & Hp).
  exists "/v1/apps"%string, body. split; [|done]. by split; [|exists id, public].
Qed.
(** Drawing the id of an app, unless it is given. *)
Lemma once_id W Q (given : option string) (f : string → Cli unit) :
  (∀ id, (∀ i, given = Some i → id = i) → sends_once W Q (f id)) →
  sends_once W Q (id ← (match given with Some id => mret id | None => new_uuid end); f id).
Proof.
  intros Hf. destruct given as [id|]; [intros s; apply Hf; by intros i [= ->]|].
  apply once_bind; [auto with fcb|]. intros id. by apply Hf.
Qed.
Lemma app_add_once context name given channel :
  command_once context (AppAdd name given channel) (λ _, False) (app_add env context name given channel).
Proof.
  apply command_fixed. intros s. unfold app_add. apply once_bind; [auto with fcb|]. intros _. apply once_bind; [auto with fcb|]. intros public.
  apply once_id. intros id Hid. apply once_then; [|moves_tac].
  eapply once_weaken; [| |apply register_once]; [|done]. intros rq (body & Hb & Hp).
  exists "/v1/apps"%string, body. split; [|done]. by split; [|exists id, public].
Qed.
(** The app is looked up, then the rest made of it. *)
Lemma app_once context command Q (f : Client → RemoteAppConfig → Cli unit) :
  (∀ client app s, authed_client env (cx_server context) (cx_token context) = Ok client → the_app context s app →
     sends_once (allowed context s command) Q (f client app)) →
  command_once context command Q
    (client ← cli_lift (authed_client env (cx_server context) (cx_token context));
     app ← resolve_app client context; f client app).
Proof.
  intros Hf s.
  destruct (authed_client env (cx_server context) (cx_token context)) as [client|e|m] eqn:Hc.
  2-3: exists [], []; rewrite !app_nil_r; do 2 (split; [done|]); by left.
  change ((client ← cli_lift (Ok client); app ← resolve_app client context; f client app) s)
    with ((app ← resolve_app client context; f client app) s).
  pose proof (cli_sends_resolve_app client context s) as (gets & E & Hg). unfold mbind, cli_bind.
  destruct (resolve_app client context s) as [[app|e|m] s1] eqn:Ha; cbn [snd] in E.
  2-3: exists gets, []; rewrite app_nil_r; do 2 (split; [done|]); by left.
  destruct (Hf client app s eq_refl ltac:(by exists client, s1) s1) as (gets' & posts & E' & Hg' & Ho).
  exists (gets ++ gets'), posts. split; [by rewrite E', E, <- !app_assoc|]. split; [by apply Forall_app|done].
Qed.
(** [promote] and [rollback]: the app is looked up, then the request made. *)
Lemma change_once `{ToValue A} context command endpoint (request : RemoteAppConfig → A) line :
  (∀ s app body, the_app context s app → to_value (request app) = Ok body → asks context s command endpoint body) →
  command_once context command (λ _, False)
    (client ← cli_lift (authed_client env (cx_server context) (cx_token context));
     app ← resolve_app client context;
     _ ← net (post_json client endpoint (request app)); println line).
Proof.
  intros Ha. apply app_once. intros client app s Hc Happ.
  apply once_then; [|auto with fcb]. eapply once_weaken; [| |apply once_post]; [|done].
  intros rq (body & Hb & ->). exists endpoint, body. split; [by eapply Ha|]. by exists client.
Qed.
Lemma release_once context platform options example release_version arch :
  command_once context (Release platform options example release_version arch) (λ _, False)
    (release env context platform options example release_version arch).
Proof.
  assert (∀ P out sdk dill, cli_sends P (generate_aot_entry_points env out sdk dill platform arch)) as He
    by (intros; apply cli_sends_entry_points).
  assert (∀ P dir backend build, cli_sends P (collect_release_artifact env dir platform arch backend build)) as Hc.
  { intros P dir backend build. unfold collect_release_artifact. cbv zeta. moves_tac. }
  assert (∀ P dir m info artifact backend, cli_sends P (write_release_cache env dir m info artifact platform backend)) as Hw.
  { intros P dir m info artifact backend. unfold write_release_cache. cbv zeta. moves_tac. }
  unfold release. apply app_once. intros client app s Hclient Happ.
  do 2 (apply once_bind; [auto with fcb|]; intros ?). cbv zeta.
  do 6 (apply once_bind; [auto with fcb|]; intros ?). apply once_then; [|auto with fcb].
  eapply once_weaken; [| |apply once_post]; [|done]. intros rq (body & Hb & ->). exists "/v1/releases"%string, body.
  split; [|by exists client]. split; [done|]. match type of Hb with to_value ?m = _ => by exists app, m end.
Qed.
Lemma once_reporting {A} W Q report (x : Reporting A) (f : result A → PatchReport → Cli unit) :
  reports (sent is_get) x → (∀ r report, sends_once W Q (f r report)) → sends_once W Q (reporting report x f).
Proof.
  intros Hx Hf s. unfold reporting. destruct (Hx (report, s)) as (gets & E & Hg).
  destruct (x (report, s)) as [r [report' s1]]. cbn [fst snd] in E.
  destruct (Hf r report' s1) as (gets' & posts & E' & Hg' & Ho). exists (gets ++ gets'), posts.
  split; [by rewrite E', E, <- !app_assoc|]. split; [by apply Forall_app|done].
Qed.
Lemma patch_once context platform options release_version n arch given :
  command_once context (Patch platform options release_version n arch given) (λ s', NO_OP ∈ sh_out s')
    (patch env context platform options release_version n arch given).
Proof.
  unfold patch. apply app_once. intros client app s0 Hc Happ.
  apply once_bind; [auto with fcb|]. intros backend. cbv zeta. apply once_bind; [auto with fcb|]. intros _.
  apply once_reporting; [apply payload_sends|]. intros [[p|]|e|m] report; unfold finish_patch.
  - intros s. destruct (publish_patch _ _ _ _ _ _ _ s) as [r s'] eqn:E. cbn [fst snd].
    apply publish_patch_ends in E as [[Hr Hl]|(rq & retries & Hu & Ht & Hl & Ha)].
    + exists [], []. rewrite !app_nil_r. do 2 (split; [done|]). by left.
    + exists [], retries. do 2 (split; [done|]). right. exists rq. split; [|split; [done|by intros []%Ha]].
      destruct Hu as (seed & signed & body & _ & Hs & _ & Hb & ->).
      exists "/v1/patches"%string, body. split; [|by exists client]. split; [done|]. exists app, signed, (py_bytes p).
      split; [exact Happ|]. split_and!; [by rewrite Hs..|exact Hb].
  - apply once_gets; [unfold write_patch_report; moves_tac|].
    intros s s' (u & s1 & _ & Hr)%cli_bind_ok. apply cli_bind_ok in Hr as ([] & s2 & [= <-] & [= <-]). cbn. set_solver.
  - apply once_gets; [unfold write_patch_report; moves_tac|]. by intros s s' (u & s1 & _ & [=])%cli_bind_ok.
  - apply once_gets; [auto with fcb|]. by intros s s' [=].
Qed.

Lemma dispatch_once context command :
  command_once context command (content_without command) (dispatch env context command).
Proof.
  destruct command; cbn [dispatch content_without].
  all: try (apply command_fixed; intros s; apply once_gets; [|done]).
  - apply init_once.
  - apply app_add_once.
  - auto with fcb.
  - apply release_once.
  - apply patch_once.
  - eapply (change_once context (Promote _ _ _ _ _ _)). intros s app body Ha Hb. by split; [|exists app].
  - eapply (change_once context (Rollback _ _ _ _)). intros s app body Ha Hb. by split; [|exists app].
  - apply cli_sends_check_command.
  - apply cli_sends_install.
  - moves_tac.
  - moves_tac.
  - apply cli_sends_inspect.
Qed.
(** Commands that work on the machine only. *)
Definition offline (command : Subcommand) : Prop :=
  match command with Doctor | MarkSuccess _ | MarkFailure _ _ _ | Inspect _ _ => True | _ => False end.
Lemma dispatch_offline context command :
  offline command → cli_sends (λ _, False) (dispatch env context command).
Proof.
  destruct command; try done; intros _; cbn [dispatch]; [auto with fcb|moves_tac..|apply cli_sends_inspect].
Qed.
(** The context a run reads [fcb.yaml] for, and the shell afterwards. *)
Definition starts (args : Args) (s : Shell) (context : ResolvedContext) (s1 : Shell) : Prop :=
  ∃ local, load_local_context env "fcb.yaml" s = (Ok local, s1) ∧ context = new_context env args local "fcb.yaml".
Lemma run_in_env_once args s :
  let '(r, s') := run_in_env env args s in
  (m_log (sh_machine s') = m_log (sh_machine s) ∧ r ≠ Ok tt
   ∨ ∃ context s1, starts args s context s1
     ∧ once_outcome (allowed context s1 (command args)) (content_without (command args)) s r s')
  ∧ (offline (command args) → m_log (sh_machine s') = m_log (sh_machine s)).
Proof.
  destruct (run_in_env env args s) as [r s'] eqn:E. unfold run_in_env in E. cbv zeta in E. split.
  - apply cli_bind_inv in E as [(local & s1 & E1 & Hr)|(r1 & E1 & Hs)].
    + right. exists (new_context env args local "fcb.yaml"), s1. split; [by exists local|].
      apply (silent_log _ _ _ _ (cli_sends_local_context _ _)) in E1.
      pose proof (dispatch_once (new_context env args local "fcb.yaml") (command args) s1) as Ho.
      rewrite Hr in Ho. destruct Ho as (gets & posts & El & Ho). exists gets, posts. by rewrite <- E1.
    + left. split; [by apply (silent_log _ _ _ _ (cli_sends_local_context _ _)) in E1|by eapply stopped_not_ok].
  - intros Hoff. eapply silent_log; [|exact E]. apply moves_bind; [apply cli_sends_local_context|].
    intros local. by apply dispatch_offline.
Qed.
End Commands.

(** ** The program *)
Section Main.
Context `{Hash, Base64, !Base64Laws, !Base64Text, Ed25519, !Ed25519Laws, BsdiffZstd, Processes, DirOrder, Modified, Net, BodyText}.
Context `{BodyJson RemoteAppConfig, BodyJson CheckResponse, SerdeYaml LocalAppContext}.
Context `{Serde Value.t, Serde PatchManifest, Serde ReleaseManifest, Serde SimpleBinaryDiff}.
Context `{Serde BytecodeModule, Serde State, Serde CrashRollbackEvent, Serde CheckResponse}.
Context `{Serde KernelInventory, Serde LinkerPlan, Serde (list SizeEntry), Serde BuildInfo}.
Context `{Serde ReleaseCacheMetadata, Serde PatchReport, Serde AotEntryPoints}.
Context `{ToValue PatchManifest, ToValue CreateAppRequest, ToValue ReleaseManifest}.
Context `{ToValue CreatePatchRequest, ToValue PromotePatchRequest}.
Context `{ToValue PatchReport, FromValue PatchReport, FromValue BytecodeModule, FromValue PatchManifest}.
Context `{JsonF64}.
(** The environment a run sees. *)
Definition env_of (env : Environment) (args : Args) : Environment :=
  if i_understand_store_policy args then set_var env "FCB_ACK_STORE_POLICY" "1" else env.

(** C15: whatever the arguments, the files, the server and the faults, a run of
    [fcb] sends lookups and after them nothing, or one request of its command,
    repeated up to five times: the registration of an app, a release, a patch, a
    promotion or a rollback, made of the command's own arguments and, for all but
    the registration, of the app the run has looked up, to the server of [--server]
    or the [fcb.yaml] the run has read, with the token given.  The other commands
    only look, and [doctor], [mark-success], [mark-failure] and [inspect] send
    nothing.  The exit code is 0 only when the server accepted the request or the
    command may succeed without one ([fcb patch] when the release is unchanged,
    which it says); it is 1 with an [error:] line otherwise, or 101 after a panic. *)
Theorem main_requests env args s :
  let '(code, s') := main env args s in
  (m_log (sh_machine s') = m_log (sh_machine s) ∧ code ≠ 0
   ∨ ∃ context s1, starts (env_of env args) args s context s1
     ∧ ∃ gets posts, m_log (sh_machine s') = m_log (sh_machine s) ++ gets ++ posts ∧ Forall is_get gets
       ∧ (posts = [] ∧ (code = 0 → content_without (command args) s')
          ∨ ∃ rq, allowed (env_of env args) context s1 (command args) rq ∧ tries rq posts
              ∧ (code = 0 → accepted rq s')))
  ∧ (offline (command args) → m_log (sh_machine s') = m_log (sh_machine s))
  ∧ (code = 0 ∨ code = 101 ∨ code = 1 ∧ ∃ e, last (sh_err s') = Some ("error: " +:+ error_to_string e)).
Proof.
  unfold main, run. fold (env_of env args). pose proof (run_in_env_once (env_of env args) args s) as Hrun.
  destruct (run_in_env (env_of env args) args s) as [[[]|e|m] s']; destruct Hrun as [Hrun Hoff];
    cbn [eprintln snd sh_machine sh_err]; (split; [|split; [done|]]).
  all: try (destruct Hrun as [[Hl Hr]|(context & s1 & Hs & gets & posts & E & Hg & Ho)];
    [left; by split|right; exists context, s1; split; [done|]; exists gets, posts; do 2 (split; [done|])];
    destruct Ho as [[Hp Hq]|(rq & Hw & Ht & Ha)]; [left; split; [done|]|right; exists rq; do 2 (split; [done|])]; auto; done).
  - by left.
  - right. right. split; [done|]. exists e. by rewrite last_snoc.
  - by right; left.
Qed.
End Main.

(** ** Witness *)
Section Demo.
#[local] Existing Instances demo_hash demo_base64 demo_base64_laws demo_base64_text demo_ed25519 demo_ed25519_laws demo_bsdiff.
#[local] Existing Instances demo_programs listing_order demo_modified demo_accepting PatchFacts.demo_body_text demo_app_json.
#[local] Existing Instances demo_project_yaml demo_value_serde demo_to_value.
#[local] Instance demo_any_serde A : Serde A | 100 := write_only.
#[local] Instance demo_any_value A : ToValue A | 100 := λ _, Ok Value.Null.
#[local] Instance demo_from_value A : FromValue A := λ _, Err "unsupported"%string.
#[local] Instance demo_update_reply : BodyJson CheckResponse := λ _, Ok demo_update.
#[local] Existing Instance demo_json_number.
Definition demo_promote_args : Args := {|
  ar_server := Some "https://fcb.example"%string; ar_token := Some "t"%string; ar_app := None;
  ar_app_id := Some "app"%string; ar_key_file := None; i_understand_store_policy := false;
  command := Promote "1.0.0" 1 "android" "arm64-v8a" "stable" 50 |}.
Definition demo_promote_run : N * Shell := main demo_env demo_promote_args demo_empty_dir.
Lemma demo_promote_code : demo_promote_run.1 = 0.
Proof. vm_compute. reflexivity. Qed.
(** The promotion is asked for and accepted. *)
Lemma main_requests_witness : ∃ context s1 rq,
  starts demo_env demo_promote_args demo_empty_dir context s1
  ∧ allowed demo_env context s1 (command demo_promote_args) rq ∧ accepted rq demo_promote_run.2.
Proof.
  pose proof (main_requests demo_env demo_promote_args demo_empty_dir) as Hm.
  change (main demo_env demo_promote_args demo_empty_dir) with demo_promote_run in Hm.
  pose proof demo_promote_code as Hc. destruct demo_promote_run as [code s']. cbn [fst snd] in *. subst code.
  destruct Hm as [[[_ Hn]|(context & s1 & Hs & gets & posts & _ & _ & [[_ Hq]|(rq & Hw & _ & Ha)])] _];
    [done|by destruct (Hq eq_refl)|].
  exists context, s1, rq. split; [exact Hs|]. split; [exact Hw|by apply Ha].
Defined.
End Demo.
